(* ===== verification/_CoqProject ===== *)
-Q . S2P
Prelude.v
GoStrings.v
GoSort.v
GoPath.v
GoFloat.v
Sha256.v
Merkle.v
Config.v
DaemonConfig.v
DaemonSupervisor.v
Intents.v
ProcScan.v
PodMetrics.v
DecisionMaker.v
DMRuntime.v
Clustering.v
Classifier.v
ManagerDomain.v
KubeStore.v
Monitor.v
CRRepo.v
CRNodeRepo.v
Manager.v
SchedLoop.v
SchedRun.v
StrategySvc.v
NodePolicySvc.v
Reconcile.v
K8sAdapter.v
Argon2.v
RBACRepo.v
AuthSvc.v
RuntimeSvc.v
DMAuth.v
ReconcileAll.v
PSM.v
RestBind.v
ManagerRest.v
CLI.v
PriorityMap.v
MetricsFlow.v
MonitorPage.v
UserSvc.v
ManagerApp.v
