(* ===== verification/Prelude.v ===== *)
(** * Gthulhu: a verification of the scheduler daemon, the decision maker and the manager

    Gthulhu schedules the processes of a Kubernetes cluster with sched_ext.  Users
    declare _strategies_ (for pods) and _node policies_ (for nodes) to the _manager_,
    which derives an _intent_ per pod or node, keeps everything as custom resources,
    and pushes the intents of each node to the _decision maker_ running there.  The
    decision maker resolves intents to processes by scanning /proc, and serves the
    result to the _scheduler_, a BPF program with a user-space loop that is started and
    supervised on every node by the _daemon_.  This library models the Go programs
    under src/ and proves what makes them correct.  A function of the source becomes a
    definition of the same name; a method that changes state becomes a computation of
    the monad [SE] below, which returns the state with the outcome, since what was done
    before a failure stays done.

    ** Files, and what they model

    Shared:
    - Prelude: results, the monad of state and errors with its loops, invariants of
      loops ([sfor_inv], [scollect_elems], [sfor_reach]) and what a computation leaves
      alone ([keeps], tactic [keep]), machine integers, hint databases.
    - GoStrings, GoSort, GoPath: the parts of the Go library the programs call
      (strings, strconv, sort, path/filepath), with their laws.
    - GoFloat: float64 and the part of math the programs call, over the executable
      IEEE 754 arithmetic of the Standard Library.
    - Sha256: crypto/sha256 and hex, executable, checked on published vectors.

    The node (src/internal, src/util):
    - Config: internal/config, internal/schedext: the configuration file, the overlay of
      defaults, what [omitempty] does to it, the check of the kernel.
    - DaemonConfig: the part of internal/daemon/daemon.go that merges, validates and
      atomically rewrites the configuration and resolves the scheduler command.
    - DaemonSupervisor: the loop of the daemon, its control API and the child process as
      a step relation over interleaved goroutines.
    - SchedLoop: internal/scheduler/dispatch_loop.go, the kernel-mode table of
      scheduler.go, util/util.go.
    - SchedRun: main.go, internal/app, flags and start-up of internal/scheduler, up to
      the attachment of the BPF module; composed with DaemonConfig.
    - Monitor (src/monitor): which process belongs to which pod, the watcher that keeps
      the kernel's table of monitored processes in step with the resources, the counters
      of a pod, the topology of the processors.

    The decision maker (src/api/decisionmaker, src/api/pkg/util):
    - Merkle: merkle.go.  Intents: the domain types and their canonical form.
    - ProcScan: the scan of /proc for pods and threads.  PodMetrics: the collector.
    - DecisionMaker: the service with its caches and roots, and its REST handlers as one
      function [serve] on requests.  DMRuntime: scheduler configurations on their way
      to the daemon.  DMAuth: the tokens by which a manager proves to a decision maker
      who it is, the middleware that asks for them, the table of routes and the whole
      server ([serve_http]), and the manager's client with its cache of tokens.

    The manager (src/api/manager):
    - ManagerDomain: the domain types.  KubeStore: unstructured objects, the API server
      as a class [KubeAPI] with laws [KubeLaws] (a call that fails may have been carried
      out), helpers of the repositories, and a server in a map as an instance.
      CRRepo, CRNodeRepo: the two repositories of custom resources.
    - K8sAdapter: the cache of pods and the queries over the cluster.
    - Manager: the client of decision makers over a fleet of modelled decision makers
      whose calls may fail or lose their answer, and the synchronisation of
      cron_svc.go.  Reconcile: the refresh of intents after pods changed.
      ReconcileAll: a whole round of [ReconcileIntents].
    - StrategySvc, NodePolicySvc: the operations of users on strategies, intents and
      node policies.  RuntimeSvc: scheduler configurations of nodes.
    - Argon2: stored passwords.  RBACRepo: users and roles in the database.  AuthSvc:
      login, tokens, sessions and permissions.  UserSvc: the start of the service, the
      operations on users the API does not offer, permissions and the audit log.
    - ManagerApp: the loops in the background that reconcile and that feed the classifier, as
      a step relation over time.
    - PSM: the resources that ask for metrics of pods, from the service over the store to
      the monitor of a node, and the values on their way back.  MetricsFlow: the values of
      pods from the page of a decision maker to the manager.  MonitorPage: the page the
      monitor of a node serves itself.
    - Clustering, Classifier: rest/classifier_engine.go, the features, averages, k-means
      clusters and labels, and the pods with their phases.
    - RestBind, ManagerRest: the API, from the JSON of a request over the middleware, the
      table of routes and the handlers to the services, on the state of the whole
      manager ([serve]).

    The command line client (src/cli):
    - CLI: the file that keeps a session, the client and the commands, over the API of
      the manager.  PriorityMap: the dump of the scheduler's map of priorities, with the
      pods its processes belong to.

    ** What the theorems show

    - Reconciliation: both sides compute the same Merkle root ([manager_dm_roots_agree]);
      roots bind what they are built from ([intent_root_binds]); a decision maker answers
      the root of its cache after any requests ([dm_roots_reflect_caches]); a round in
      which calls succeed brings stored intents in step with the pods and decision makers
      in step with the store ([refresh_follows_pods], [resync_converges],
      [reconcile_round]), which the loop in the background does at its interval
      ([reconciler_rounds], [loop_rate_bounded]).
    - The store: objects read back as written, creation is all or nothing up to the
      object that failed, queries are exact although part of the filter runs on the
      server.
    - Users: only creators change what they created, deletions remove exactly what they
      name, permissions are those of the moment, refresh tokens are used once, logging
      out everywhere ends every token, passwords survive the database.
    - The daemon: at most one child, which is what the file asks for once no restart is
      due; an update of the file survives a crash at any point; only known binaries run.
    - The API: without a grant nothing changes ([no_grant_no_effect]), nor by a body that
      is refused ([refused_body_no_effect]) or by reading ([get_changes_nothing]); a policy
      for oneself confines ([self_policy_confines]); what one creates one finds in one's
      list ([created_strategy_listed]).
    - Between manager and decision maker: a client that fetches, caches and renews tokens
      does to a decision maker what the calls of Manager do ([client_refines_calls]);
      without a token a decision maker does not change ([dm_no_token_no_effect]); tokens
      of the one API are none for the other ([token_kinds_apart]).
    - The command line: a crash while a session is saved leaves the old file or the new one
      ([save_token_crash_safe]), files others can read are refused ([load_private_only]),
      a strategy that is created is listed ([cli_strategy_listed]).
    - Metrics: a resource that was created is in force at the monitors
      ([created_psm_in_force], [psm_round_trip]), which monitor exactly the processes
      asked for ([reconcile_monitors_selected], [tracked_are_monitored]) and publish their
      sums ([poll_sums_per_pod]); what a decision maker measures reaches the manager
      exactly, unless a pod has two intents ([metrics_reach_manager],
      [duplicate_pod_breaks_metrics]).
    - The classifier: the phase of a pod is a function of its own samples
      ([phase_follows_samples]), its history is kept in exact summaries
      ([tiers_are_block_summaries]), reports are well formed
      ([classifier_reports_well_formed]) and the table loses only pods that are stale
      ([ingest_evicts_only_stale]).
    - The scheduler: every task selected is dispatched once, virtual times and slices stay
      in range, the loop returns when cancelled, the module is attached only after it
      is set up.
    - Some theorems prove behaviour the authors can hardly want (node policies that are
      pushed in every round, flags that cannot be cleared, sessions that outlive their
      user's activity, a refused request that is carried out, a deleted resource that
      stays in force, an abrupt change that is not seen, metrics refused as a whole); their comments say so.

    ** Parameters and their laws

    Code that is not in the repository is a parameter with named laws, and every theorem
    under such laws is applied to a concrete instance: the YAML library ([YAML]), regular
    expressions, the Kubernetes API ([KubeAPI], [KubeLaws], [KubeUp]) and label selectors
    ([LabelLib]), MongoDB ([Collection], [ConfigCollection] and their laws), Argon2
    ([Argon2Lib]), JWT ([JWTLib]), RSA signatures and the cache of tokens ([RSALib], [TokenCache]),
    the registry of metrics and its text format ([PromLib]), tables of the kernel ([BPFMap]), the scheduler core and the plugin, which are
    submodules without files, and the order in which Go ranges over a map ([range]).
    SHA-256 is executable; where a claim needs it not to collide, the inputs that must
    not collide are listed ([collision_free]).

    ** Fuel and bounds

    The loop that builds a Merkle tree has the number of leaves as fuel, which is enough
    because a level halves; path cleaning and SHA-256 padding are bounded by the length
    of their input.  The scheduling loop takes a number of turns: [every_task_dispatched]
    holds for every number, [loop_returns_when_cancelled] says that a turn past the
    cancellation is enough.  Integers are [Z] with [u64], [u32], [i64] and [i8] where Go
    wraps; [dispatch_bounds] states the conditions under which nothing does.  The number
    of samples of a pod in the classifier is not wrapped, and its floating-point
    operations are rounded one by one, as Go does on amd64.

    ** Not modelled

    Loading the BPF programs, TLS, dependency injection,
    servers, logging, the parsing of flags and the matching of paths to routes, static web
    pages, and generated code.  The contents of messages and logs are not modelled; errors are
    values that say which call failed.  Concurrent requests are interleaved where the
    source shares state across goroutines (the daemon); services behind a lock or a
    database are sequences of operations. *)

From stdpp Require Import base gmap strings list sorting.
From Stdlib Require Import ZArith Lia ZifyBool.

(** ** Results: Go's [(value, error)] returns *)

Inductive result (E A : Type) : Type :=
| Ok (a : A)
| Err (e : E).
Arguments Ok {E A} a.
Arguments Err {E A} e.

Definition rbind {E A B} (m : result E A) (k : A -> result E B) : result E B :=
  match m with Ok a => k a | Err e => Err e end.

Definition rmap {E A B} (f : A -> B) (m : result E A) : result E B :=
  match m with Ok a => Ok (f a) | Err e => Err e end.

Definition is_ok {E A} (m : result E A) : bool :=
  match m with Ok _ => true | Err _ => false end.

Declare Scope go_scope.
Delimit Scope go_scope with go.

Notation "'let*' x := m 'in' k" := (rbind m (fun x => k))
  (at level 10, x pattern, m at level 100, k at level 200) : go_scope.

#[global] Instance result_eq_dec {E A} `{EqDecision E, EqDecision A} : EqDecision (result E A).
Proof. solve_decision. Defined.

(** ** State and errors: a method that changes a store and may fail

    The state is returned with the outcome, since what was done before a failure
    stays done. *)

Definition SE (S E A : Type) : Type := S -> S * result E A.

Definition sret {S E A} (a : A) : SE S E A := fun s => (s, Ok a).
Definition sfail {S E A} (e : E) : SE S E A := fun s => (s, Err e).
Definition sbind {S E A B} (m : SE S E A) (k : A -> SE S E B) : SE S E B :=
  fun s => match m s with (s, Ok a) => k a s | (s, Err e) => (s, Err e) end.

Notation "'let!' x := m 'in' k" := (sbind m (fun x => k))
  (at level 10, x pattern, m at level 100, k at level 200) : go_scope.

(** A call whose error is handled by the caller. *)
Definition stry {S E E' A} (m : SE S E A) : SE S E' (result E A) := fun s => let '(s, r) := m s in (s, Ok r).

(** The same error in the caller's error type. *)
Definition swrap {S E E' A} (f : E -> E') (m : SE S E A) : SE S E' A :=
  fun s => match m s with (s, Ok a) => (s, Ok a) | (s, Err e) => (s, Err (f e)) end.

(** [for _, x := range l] with [return err] in the body. *)
Fixpoint sfor {S E A} (f : A -> SE S E unit) (l : list A) : SE S E unit :=
  match l with
  | [] => sret tt
  | x :: l' => sbind (f x) (fun _ => sfor f l')
  end.

(** The same, each turn appending to a result. *)
Fixpoint scollect {S E A B} (f : A -> SE S E (list B)) (l : list A) : SE S E (list B) :=
  match l with
  | [] => sret []
  | x :: l' => sbind (f x) (fun bs => sbind (scollect f l') (fun rest => sret (bs ++ rest)))
  end.

(** Relations kept by every turn of a loop. *)
Lemma sfor_inv {S E A} (P : S -> Prop) (f : A -> SE S E unit) l s :
  P s -> (forall x s, x ∈ l -> P s -> P (f x s).1) -> P (sfor f l s).1.
Proof.
  revert s. induction l as [|x l IH]; intros s Hs Hf; [done|]. simpl. unfold sbind.
  pose proof (Hf x s ltac:(set_solver) Hs) as Hx. destruct (f x s) as [s' [[]|e]]; [|done]. apply IH; [done|set_solver].
Qed.

Lemma scollect_inv {S E A B} (P : S -> Prop) (f : A -> SE S E (list B)) l s :
  P s -> (forall x s, x ∈ l -> P s -> P (f x s).1) -> P (scollect f l s).1.
Proof.
  revert s. induction l as [|x l IH]; intros s Hs Hf; [done|]. simpl. unfold sbind.
  pose proof (Hf x s ltac:(set_solver) Hs) as Hx. destruct (f x s) as [s' [bs|e]]; [|done].
  pose proof (IH s' Hx ltac:(set_solver)) as Hl. by destruct (scollect f l s') as [? []].
Qed.

(** What a collecting loop collects, when every turn keeps [R] of the state. *)
Lemma scollect_elems {S E A B} (R : S -> Prop) (P : A -> B -> Prop) (Q : E -> Prop) (f : A -> SE S E (list B)) l s :
  R s ->
  (forall x s, x ∈ l -> R s ->
     R (f x s).1 /\ match (f x s).2 with Ok bs => forall b, b ∈ bs <-> P x b | Err e => Q e end) ->
  R (scollect f l s).1 /\
  match (scollect f l s).2 with Ok bs => forall b, b ∈ bs <-> exists x, x ∈ l /\ P x b | Err e => Q e end.
Proof.
  revert s. induction l as [|x l IH]; intros s Hs Hf; [set_solver|]. simpl. unfold sbind.
  destruct (Hf x s ltac:(set_solver) Hs) as [Hx Hb]. destruct (f x s) as [s' [bs|e]]; [|done]. simpl in *.
  destruct (IH s' Hx ltac:(set_solver)) as [Hl Hr]. destruct (scollect f l s') as [s'' [rest|e]]; [|done]. simpl in *.
  split; [done|]. intros b. rewrite elem_of_app, Hb, Hr. set_solver.
Qed.

(** Every run, successful or not, relates the states before and after. *)
Definition keeps {S E A} (R : S -> S -> Prop) (m : SE S E A) : Prop := forall s, R s (m s).1.

Create HintDb keeps.

Section keeps.
  Context {S : Type} (R : S -> S -> Prop) `{!PreOrder R}.

Lemma keeps_ret {E A} (a : A) : keeps (E := E) R (sret a).
Proof. intros s. reflexivity. Qed.

Lemma keeps_fail {E A} (e : E) : keeps (A := A) R (sfail e).
Proof. intros s. reflexivity. Qed.

Lemma keeps_bind {E A B} (m : SE S E A) (k : A -> SE S E B) : keeps R m -> (forall a, keeps R (k a)) -> keeps R (sbind m k).
Proof.
  intros Hm Hk s. unfold sbind. specialize (Hm s). destruct (m s) as [s' [a|e]]; cbn in *; [|done]. by etransitivity; [|apply Hk].
Qed.

Lemma keeps_sfor {E A} (f : A -> SE S E unit) l : (forall x, keeps R (f x)) -> keeps R (sfor f l).
Proof. intros Hf. induction l as [|x l IH]; [apply keeps_ret|]. by apply keeps_bind; [|intros _]. Qed.

Lemma keeps_scollect {E A B} (f : A -> SE S E (list B)) l : (forall x, keeps R (f x)) -> keeps R (scollect f l).
Proof.
  intros Hf. induction l as [|x l IH]; [apply keeps_ret|]. apply keeps_bind; [done|]. intros bs. apply keeps_bind; [done|].
  intros rest. apply keeps_ret.
Qed.

Lemma keeps_stry {E E' A} (m : SE S E A) : keeps R m -> keeps R (stry (E' := E') m).
Proof. intros Hm s. specialize (Hm s). unfold stry. by destruct (m s) as [s' r]. Qed.

Lemma keeps_swrap {E E' A} (f : E -> E') (m : SE S E A) : keeps R m -> keeps R (swrap f m).
Proof. intros Hm s. specialize (Hm s). unfold swrap. by destruct (m s) as [s' []]. Qed.
End keeps.

#[export] Hint Resolve keeps_ret keeps_fail keeps_bind keeps_sfor keeps_scollect keeps_stry keeps_swrap : keeps.
#[export] Hint Extern 1 (PreOrder _) => apply _ : keeps.

(** One structural step at a time, down to the calls in the database of hints. *)
Ltac keep :=
  repeat first
    [ progress intros
    | apply keeps_bind | apply keeps_sfor | apply keeps_scollect | apply keeps_stry | apply keeps_swrap
    | solve [eauto with keeps]
    | match goal with
      | |- PreOrder _ => apply _
      | |- keeps _ (match ?x with _ => _ end) => destruct x
      | |- keeps _ (if ?x then _ else _) => destruct x
      end ].

(** A loop every turn of which succeeds, keeps [I] and reaches [R] for its element. *)
Lemma sfor_reach {S E A} (I : S -> Prop) (R : A -> S -> Prop) (f : A -> SE S E unit) l s :
  I s ->
  (forall x s, x ∈ l -> I s -> exists s', f x s = (s', Ok tt) /\ I s' /\ R x s' /\ forall y, y ∈ l -> R y s -> R y s') ->
  exists s', sfor f l s = (s', Ok tt) /\ I s' /\ forall x, x ∈ l -> R x s'.
Proof.
  intros Hs Hf.
  assert (forall l' s, l' ⊆ l -> I s -> exists s', sfor f l' s = (s', Ok tt) /\ I s' /\
    (forall x, x ∈ l' -> R x s') /\ forall y, y ∈ l -> R y s -> R y s') as Hg.
  2: { destruct (Hg l s) as (s' & ? & ? & ? & _); [done|done|eauto]. }
  clear s Hs. induction l' as [|x l' IH]; intros s Hl Hs; [exists s; cbn; set_solver|].
  cbn [sfor]. unfold sbind. destruct (Hf x s ltac:(set_solver) Hs) as (s1 & -> & H1 & Hx & Hk).
  destruct (IH s1 ltac:(set_solver) H1) as (s2 & -> & H2 & Hr & Hk2). exists s2. split_and!; [done|done| |].
  - intros y [->|Hy]%elem_of_cons; [|by apply Hr]. apply Hk2; [set_solver|done].
  - intros y Hy Hys. by apply Hk2; [|apply Hk].
Qed.

(** ** Machine integers

    Go's [int] is 64 bits wide on the targets of this program.  A value of a
    fixed-width type is a [Z]; an operation that may leave the width is followed
    by the wrap-around of its type. *)

Definition u64 (z : Z) : Z := (z mod 2 ^ 64)%Z.
Definition u32 (z : Z) : Z := (z mod 2 ^ 32)%Z.
Definition i64 (z : Z) : Z := ((z + 2 ^ 63) mod 2 ^ 64 - 2 ^ 63)%Z.

Definition max_u64 : Z := (2 ^ 64 - 1)%Z.
Definition max_i64 : Z := (2 ^ 63 - 1)%Z.
Definition min_i64 : Z := (- 2 ^ 63)%Z.

Definition is_u64 (z : Z) : Prop := (0 <= z < 2 ^ 64)%Z.
Definition is_i64 (z : Z) : Prop := (- 2 ^ 63 <= z < 2 ^ 63)%Z.

Lemma u64_range z : is_u64 (u64 z).
Proof. unfold is_u64, u64. apply Z.mod_pos_bound. lia. Qed.

Lemma u64_id z : is_u64 z -> u64 z = z.
Proof. unfold is_u64, u64. intros. apply Z.mod_small. lia. Qed.

Lemma u32_range z : (0 <= u32 z < 2 ^ 32)%Z.
Proof. unfold u32. apply Z.mod_pos_bound. lia. Qed.

Lemma i64_range z : is_i64 (i64 z).
Proof.
  unfold is_i64, i64.
  pose proof (Z.mod_pos_bound (z + 2 ^ 63) (2 ^ 64) ltac:(lia)). lia.
Qed.

Lemma i64_id z : is_i64 z -> i64 z = z.
Proof. unfold is_i64, i64. intros. rewrite Z.mod_small; lia. Qed.

(** ** Shared tactics and hint databases *)

Create HintDb gthulhu.
#[export] Hint Resolve u64_range u32_range i64_range : gthulhu.

Create Rewrite HintDb gthulhu_rw.

(** Splits every [match] and [if] of the goal, keeping the equations. *)
Ltac split_match :=
  repeat match goal with
  | |- context [match ?x with _ => _ end] => destruct x eqn:?; try done
  end.

(** The same for a hypothesis. *)
Ltac split_match_in H :=
  repeat match type of H with
  | context [match ?x with _ => _ end] => destruct x eqn:?; try done
  end.

(** Closes a goal that two results are equal or different by constructor. *)
Ltac results := simplify_eq/=; try done; eauto with gthulhu.

(** [lia] with quotients and remainders by constants. *)
Ltac divlia := zify; Z.to_euclidean_division_equations; lia.

(** ** Lists *)

(** The non-nil entries of a Go slice of pointers, in order. *)
Fixpoint non_nil {A} (l : list (option A)) : list A :=
  match l with
  | [] => []
  | None :: l' => non_nil l'
  | Some a :: l' => a :: non_nil l'
  end.

Lemma non_nil_fmap_Some {A} (l : list A) : non_nil (Some <$> l) = l.
Proof. induction l; f_equal/=; done. Qed.

Lemma elem_of_non_nil {A} (l : list (option A)) x : x ∈ non_nil l <-> Some x ∈ l.
Proof. induction l as [|[a|] l IH]; simpl; set_solver. Qed.

Lemma non_nil_perm {A} (l1 l2 : list (option A)) : l1 ≡ₚ l2 -> non_nil l1 ≡ₚ non_nil l2.
Proof.
  induction 1 as [|[x|] l l' _ IH|[x|] [y|] l|l l' l'' _ IH1 _ IH2]; simpl; auto.
  - constructor.
  - by etrans.
Qed.

(** A [for] loop with early [return err]: the accumulator is threaded until the
    body fails. *)
Fixpoint foldM {E A B} (f : B -> A -> result E B) (l : list A) (b : B) : result E B :=
  match l with
  | [] => Ok b
  | a :: l' => rbind (f b a) (foldM f l')
  end.

Lemma foldM_app {E A B} (f : B -> A -> result E B) l1 l2 b :
  foldM f (l1 ++ l2) b = rbind (foldM f l1 b) (foldM f l2).
Proof. revert b; induction l1 as [|a l1 IH]; intros b; simpl; [done|]. destruct (f b a); simpl; auto. Qed.

(** An invariant of the body is an invariant of the loop. *)
Lemma foldM_inv {E A B} (P : B -> Prop) (f : B -> A -> result E B) l b b' :
  P b -> (forall x y y', x ∈ l -> P y -> f y x = Ok y' -> P y') ->
  foldM f l b = Ok b' -> P b'.
Proof.
  revert b; induction l as [|a l IH]; intros b Hb Hstep Hf; simplify_eq/=; [done|].
  destruct (f b a) as [b1|] eqn:E1; [|done]. simpl in Hf.
  apply (IH b1); [|set_solver|done]. eapply Hstep; eauto. set_solver.
Qed.

(** Every element was visited without an error. *)
Lemma foldM_ok_all {E A B} (f : B -> A -> result E B) l b b' :
  foldM f l b = Ok b' -> forall a, a ∈ l -> exists x y, f x a = Ok y.
Proof.
  revert b; induction l as [|a l IH]; intros b Hf c Hc; simplify_eq/=; [set_solver|].
  destruct (f b a) as [b1|] eqn:E1; [|done]. simpl in Hf.
  apply elem_of_cons in Hc as [->|Hc]; [eauto|]. by eapply IH.
Qed.

(** A body that adds to a list the elements [P] allows. *)
Lemma foldM_elems {E A B} (f : list B -> A -> result E (list B)) (P : A -> B -> Prop) l acc acc' :
  (forall b a b', f b a = Ok b' -> forall x, x ∈ b' <-> x ∈ b \/ P a x) ->
  foldM f l acc = Ok acc' -> forall x, x ∈ acc' <-> x ∈ acc \/ exists a, a ∈ l /\ P a x.
Proof.
  intros Hf. revert acc. induction l as [|a l IH]; intros acc Hr x; simpl in Hr.
  - simplify_eq. set_solver.
  - destruct (f acc a) as [acc1|] eqn:E1; [|done]. simpl in Hr. rewrite (IH _ Hr), (Hf _ _ _ E1). set_solver.
Qed.

Lemma forallb_True_iff {A} (f : A -> bool) l : forallb f l = true <-> Forall (fun x => f x = true) l.
Proof. rewrite forallb_forall, Forall_forall. by setoid_rewrite list_elem_of_In. Qed.

Lemma Forall_filter_keep {A} (P Q : A -> Prop) `{!forall x, Decision (P x)} l : Forall Q l -> Forall Q (filter P l).
Proof. rewrite !Forall_forall. intros Hall x [_ Hx]%list_elem_of_filter. auto. Qed.

Lemma elem_of_concat {A} (ll : list (list A)) x : x ∈ concat ll <-> exists l, l ∈ ll /\ x ∈ l.
Proof.
  induction ll as [|l ll IH]; cbn; [set_solver|]. rewrite elem_of_app, IH. setoid_rewrite elem_of_cons. naive_solver.
Qed.

(** ** Maps *)

(** The idiom [m[key] = x] over a list. *)
Definition index_by {A} (key : A -> string) (l : list A) : gmap string A :=
  foldl (fun m x => <[key x := x]> m) ∅ l.

Lemma index_by_lookup {A} (key : A -> string) l k :
  match index_by key l !! k with
  | Some x => x ∈ l /\ key x = k
  | None => forall x, x ∈ l -> key x <> k
  end.
Proof.
  unfold index_by. induction l as [|n l IH] using rev_ind; [cbn [foldl]; rewrite lookup_empty; set_solver|].
  rewrite foldl_snoc. destruct (decide (key n = k)) as [<-|Hne].
  - rewrite lookup_insert_eq. set_solver.
  - rewrite lookup_insert_ne by done. destruct (_ !! k); [set_solver|]. intros n' [Hn'|Hn']%elem_of_app; [auto|].
    apply list_elem_of_singleton in Hn' as ->. done.
Qed.

(** The idiom [m[key] = append(m[key], x)] over a list. *)
Definition group_by {A} (key : A -> string) (l : list A) : gmap string (list A) :=
  foldl (fun m x => <[key x := default [] (m !! key x) ++ [x]]> m) ∅ l.

Lemma group_by_lookup {A} (key : A -> string) l k :
  default [] (group_by key l !! k) = filter (fun x => key x = k) l /\
  (group_by key l !! k = None <-> filter (fun x => key x = k) l = []).
Proof.
  unfold group_by. induction l as [|x l IH] using rev_ind; [done|].
  rewrite foldl_snoc, filter_app. cbn [filter list_filter]. set (m := foldl _ _ _) in *.
  destruct (decide (key x = k)) as [<-|Hne].
  - rewrite lookup_insert_eq. destruct IH as [IH _]. cbn. rewrite IH. split; [done|]. split; [done|].
    intros Hn. by destruct (filter _ l).
  - rewrite lookup_insert_ne by done. rewrite app_nil_r. exact IH.
Qed.
