(* ===== verification/GoStrings.v ===== *)
(** * Go strings: the parts of [strings], [strconv] and [path/filepath] the program calls

    A Go string is a sequence of bytes, here a [string] of [ascii].  The
    functions follow the Go standard library on every byte string, the
    multi-byte white space of [unicode.IsSpace] included. *)

From stdpp Require Import base gmap strings list pretty.
From Stdlib Require Import ZArith Lia Ascii.
From S2P Require Import Prelude.

(** ** Bytes *)

Definition byte_of (a : ascii) : N := N_of_ascii a.

(** White space of one, two and three bytes: [unicode.IsSpace] in UTF-8. *)
Definition is_space1 (a : ascii) : bool :=
  let b := byte_of a in ((9 <=? b) && (b <=? 13) || (b =? 32))%N.

Definition is_space2 (a b : ascii) : bool :=
  ((byte_of a =? 194) && ((byte_of b =? 133) || (byte_of b =? 160)))%N.

Definition is_space3 (a b c : ascii) : bool :=
  let x := byte_of a in let y := byte_of b in let z := byte_of c in
  ((x =? 225) && (y =? 154) && (z =? 128)
   || (x =? 226) && (y =? 128) && ((128 <=? z) && (z <=? 138) || (z =? 168) || (z =? 169) || (z =? 175))
   || (x =? 226) && (y =? 129) && (z =? 159)
   || (x =? 227) && (y =? 128) && (z =? 128))%N.

(** ** package strings *)

(** Strips white space from the front; [f2] and [f3] recognise the multi-byte
    encodings in reading order. *)
Fixpoint trim_front (f2 : ascii -> ascii -> bool) (f3 : ascii -> ascii -> ascii -> bool)
    (s : string) : string :=
  match s with
  | String a s1 =>
      if is_space1 a then trim_front f2 f3 s1 else
      match s1 with
      | String b s2 =>
          if f2 a b then trim_front f2 f3 s2 else
          match s2 with
          | String c s3 => if f3 a b c then trim_front f2 f3 s3 else s
          | EmptyString => s
          end
      | EmptyString => s
      end
  | EmptyString => s
  end.

Definition trim_left : string -> string := trim_front is_space2 is_space3.

Definition trim_right (s : string) : string :=
  String.rev (trim_front (fun b a => is_space2 a b) (fun c b a => is_space3 a b c) (String.rev s)).

(** [strings.TrimSpace] *)
Definition TrimSpace (s : string) : string := trim_right (trim_left s).

(** [strings.HasPrefix], [strings.HasSuffix], [strings.TrimPrefix], [strings.TrimSuffix] *)
Fixpoint strip_prefix (p s : string) : option string :=
  match p, s with
  | EmptyString, _ => Some s
  | String a p', String b s' => if Ascii.eqb a b then strip_prefix p' s' else None
  | String _ _, EmptyString => None
  end.

Definition HasPrefix (s p : string) : bool := bool_decide (is_Some (strip_prefix p s)).
Definition TrimPrefix (s p : string) : string := default s (strip_prefix p s).

Definition HasSuffix (s p : string) : bool := HasPrefix (String.rev s) (String.rev p).
Definition TrimSuffix (s p : string) : string :=
  match strip_prefix (String.rev p) (String.rev s) with
  | Some r => String.rev r
  | None => s
  end.

(** [strings.TrimRight(s, "/")] *)
Fixpoint drop_front_char (c : ascii) (s : string) : string :=
  match s with
  | String a s' => if Ascii.eqb a c then drop_front_char c s' else s
  | EmptyString => s
  end.
Definition TrimRightChar (s : string) (c : ascii) : string :=
  String.rev (drop_front_char c (String.rev s)).

(** [strings.Contains] *)
Fixpoint Contains (s sub : string) : bool :=
  HasPrefix s sub || match s with String _ s' => Contains s' sub | EmptyString => false end.

(** Does the byte [c] occur in [s]? *)
Fixpoint has_char (c : ascii) (s : string) : bool :=
  match s with
  | EmptyString => false
  | String a s' => Ascii.eqb a c || has_char c s'
  end.

(** [strings.ReplaceAll] of one byte by another *)
Fixpoint replace_char (old new : ascii) (s : string) : string :=
  match s with
  | EmptyString => EmptyString
  | String a s' => String (if Ascii.eqb a old then new else a) (replace_char old new s')
  end.

(** [strings.Split(s, sep)] for a one-byte separator *)
Fixpoint Split (s : string) (sep : ascii) : list string :=
  match s with
  | EmptyString => [""]
  | String a s' =>
      if Ascii.eqb a sep then "" :: Split s' sep
      else match Split s' sep with
           | [] => [String a ""]
           | p :: ps => String a p :: ps
           end
  end.

(** [strings.SplitN(s, sep, 2)]: the parts around the first separator *)
Fixpoint SplitN2 (s : string) (sep : ascii) : string * option string :=
  match s with
  | EmptyString => ("", None)
  | String a s' =>
      if Ascii.eqb a sep then ("", Some s')
      else let '(p, r) := SplitN2 s' sep in (String a p, r)
  end.

(** [strings.Join] *)
Fixpoint Join (l : list string) (sep : string) : string :=
  match l with
  | [] => ""
  | [x] => x
  | x :: l' => x +:+ sep +:+ Join l' sep
  end.

(** [strings.Fields]: the maximal runs of non-space *)
Fixpoint fields_go (cur : string) (s : string) {struct s} : list string :=
  let emit := if decide (cur = "") then [] else [String.rev cur] in
  match s with
  | EmptyString => emit
  | String a s1 =>
      if is_space1 a then emit ++ fields_go "" s1 else
      match s1 with
      | String b s2 =>
          if is_space2 a b then emit ++ fields_go "" s2 else
          match s2 with
          | String c s3 =>
              if is_space3 a b c then emit ++ fields_go "" s3 else fields_go (String a cur) s1
          | EmptyString => fields_go (String a cur) s1
          end
      | EmptyString => fields_go (String a cur) s1
      end
  end.
Definition Fields (s : string) : list string := fields_go "" s.

(** ** package strconv *)

Definition digit_of (a : ascii) : option Z :=
  let b := byte_of a in
  if ((48 <=? b) && (b <=? 57))%N then Some (Z.of_N (b - 48)) else None.

(** [strconv.ParseUint(s, 10, 64)]: the value and whether the error is nil.  A
    syntax error gives 0, an overflow gives the largest value. *)
Fixpoint parse_uint_go (n : Z) (s : string) : Z * bool :=
  match s with
  | EmptyString => (n, true)
  | String a s' =>
      match digit_of a with
      | None => (0%Z, false)
      | Some d =>
          let n' := (n * 10 + d)%Z in
          if (max_u64 <? n')%Z then (max_u64, false) else parse_uint_go n' s'
      end
  end.
Definition ParseUint (s : string) : Z * bool :=
  if decide (s = "") then (0%Z, false) else parse_uint_go 0 s.

(** The digits of [strconv.Atoi]: no bound, [None] on a byte that is no digit. *)
Fixpoint digits_go (n : Z) (s : string) : option Z :=
  match s with
  | EmptyString => Some n
  | String a s' => d ← digit_of a; digits_go (n * 10 + d)%Z s'
  end.

(** [strconv.Atoi]: an optional sign, one or more digits, within [int]. *)
Definition Atoi (s : string) : option Z :=
  let digits s := if decide (s = "") then None else digits_go 0 s in
  z ← match s with
      | String "-" s' => Z.opp <$> digits s'
      | String "+" s' => digits s'
      | _ => digits s
      end;
  if decide (min_i64 <= z <= max_i64)%Z then Some z else None.

(** [strconv.Itoa] and [strconv.FormatInt(_, 10)] *)
Definition Itoa (z : Z) : string := pretty z.

(** ** package path/filepath (Unix) *)

(** The components of a path that count: neither empty nor [.]. *)
Definition path_parts (p : string) : list string :=
  filter (fun s => s <> "" /\ s <> ".") (Split p "/").

(** Resolves [..] against the components already kept (innermost first). *)
Fixpoint resolve_dots (rooted : bool) (acc : list string) (parts : list string) : list string :=
  match parts with
  | [] => reverse acc
  | p :: ps =>
      if decide (p = "..") then
        match acc with
        | [] => if rooted then resolve_dots rooted [] ps else resolve_dots rooted [".."] ps
        | q :: acc' =>
            if decide (q = "..") then resolve_dots rooted (".." :: acc) ps
            else resolve_dots rooted acc' ps
        end
      else resolve_dots rooted (p :: acc) ps
  end.

Definition is_abs (p : string) : bool := HasPrefix p "/".

(** [filepath.Clean] *)
Definition Clean (p : string) : string :=
  let parts := resolve_dots (is_abs p) [] (path_parts p) in
  if is_abs p then "/" +:+ Join parts "/"
  else if decide (parts = []) then "." else Join parts "/".

(** [filepath.Join] of two elements *)
Definition PathJoin (a b : string) : string :=
  if decide (a = "") then (if decide (b = "") then "" else Clean b)
  else Clean (a +:+ "/" +:+ b).

(** The path up to and including its last separator, and what follows it. *)
Fixpoint split_last_slash (s : string) : option (string * string) :=
  match s with
  | EmptyString => None
  | String a s' =>
      match split_last_slash s' with
      | Some (d, f) => Some (String a d, f)
      | None => if Ascii.eqb a "/" then Some ("/", s') else None
      end
  end.

(** [filepath.Dir] *)
Definition Dir (p : string) : string :=
  match split_last_slash p with
  | Some (d, _) => Clean d
  | None => "."
  end.

(** [filepath.Base] *)
Definition Base (p : string) : string :=
  if decide (p = "") then "." else
  let p := TrimRightChar p "/" in
  let b := match split_last_slash p with Some (_, f) => f | None => p end in
  if decide (b = "") then "/" else b.

(** ** Strings as lists of bytes *)

Fixpoint chars (s : string) : list ascii :=
  match s with EmptyString => [] | String a s' => a :: chars s' end.

#[global] Instance chars_inj : Inj (=) (=) chars.
Proof. intros s; induction s as [|a s IH]; intros [|b t] H; simplify_eq/=; f_equal; auto. Qed.

Lemma string_app_cons a s t : String a s +:+ t = String a (s +:+ t).
Proof. done. Qed.

Lemma string_app_nil_l s : "" +:+ s = s.
Proof. done. Qed.

Lemma string_app_nil_r s : s +:+ "" = s.
Proof. induction s as [|a s IH]; [done|]. by rewrite string_app_cons, IH. Qed.

Lemma string_app_assoc s t u : (s +:+ t) +:+ u = s +:+ t +:+ u.
Proof. induction s as [|a s IH]; [done|]. by rewrite !string_app_cons, IH. Qed.

Lemma chars_app s t : chars (s +:+ t) = chars s ++ chars t.
Proof. induction s as [|a s IH]; [done|]. rewrite string_app_cons; simpl. by f_equal. Qed.

Lemma chars_rev_app s t : chars (String.rev_app s t) = reverse (chars s) ++ chars t.
Proof.
  revert t; induction s as [|a s IH]; intros t; simpl; [done|].
  by rewrite IH, reverse_cons, <- (assoc_L (++)).
Qed.

Lemma chars_rev s : chars (String.rev s) = reverse (chars s).
Proof. unfold String.rev. by rewrite chars_rev_app, app_nil_r. Qed.

Lemma string_rev_involutive s : String.rev (String.rev s) = s.
Proof. apply (inj chars). by rewrite !chars_rev, reverse_involutive. Qed.

Lemma string_rev_app s t : String.rev (s +:+ t) = String.rev t +:+ String.rev s.
Proof. apply (inj chars). by rewrite chars_rev, !chars_app, !chars_rev, reverse_app. Qed.

#[export] Hint Rewrite string_app_cons string_app_nil_l string_app_nil_r string_app_assoc
  chars_app chars_rev string_rev_involutive : gthulhu_rw.

(** ** Prefixes *)

Lemma strip_prefix_Some p s r : strip_prefix p s = Some r <-> s = p +:+ r.
Proof.
  revert s; induction p as [|a p IH]; intros s; simpl.
  - rewrite string_app_nil_l. naive_solver.
  - destruct s as [|b s]; [split; [done|rewrite string_app_cons; done]|].
    rewrite string_app_cons. destruct (Ascii.eqb_spec a b) as [->|Hne].
    + rewrite IH. naive_solver.
    + split; [done|]. naive_solver.
Qed.

Lemma HasPrefix_spec s p : HasPrefix s p = true <-> exists r, s = p +:+ r.
Proof.
  unfold HasPrefix. rewrite bool_decide_eq_true. unfold is_Some.
  by setoid_rewrite strip_prefix_Some.
Qed.

Lemma HasPrefix_app p r : HasPrefix (p +:+ r) p = true.
Proof. apply HasPrefix_spec. eauto. Qed.

Lemma HasSuffix_spec s p : HasSuffix s p = true <-> exists r, s = r +:+ p.
Proof.
  unfold HasSuffix. rewrite HasPrefix_spec. split; intros [r Hr].
  - exists (String.rev r). apply (f_equal String.rev) in Hr.
    by rewrite string_rev_involutive, string_rev_app, string_rev_involutive in Hr.
  - exists (String.rev r). by rewrite Hr, string_rev_app.
Qed.

(** ** Bytes that do not occur *)

Lemma has_char_app c s t : has_char c (s +:+ t) = has_char c s || has_char c t.
Proof. induction s as [|a s IH]; [done|]. rewrite string_app_cons; simpl. by rewrite IH, orb_assoc. Qed.

Lemma has_char_chars c s : has_char c s = true <-> c ∈ chars s.
Proof.
  induction s as [|a s IH]; simpl; [set_solver|].
  rewrite orb_true_iff, IH, elem_of_cons, Ascii.eqb_eq. naive_solver.
Qed.

(** Cutting at the first separator is unambiguous ... *)
Lemma cut_first c x y r r' :
  has_char c x = false -> has_char c y = false ->
  x +:+ String c r = y +:+ String c r' -> x = y /\ r = r'.
Proof.
  revert y; induction x as [|a x IH]; intros [|b y]; rewrite ?string_app_nil_l, ?string_app_cons;
    simpl; intros Hx Hy Heq; simplify_eq/=.
  - done.
  - by rewrite Ascii.eqb_refl in Hy.
  - by rewrite Ascii.eqb_refl in Hx.
  - apply orb_false_iff in Hx as [_ Hx]. apply orb_false_iff in Hy as [_ Hy].
    destruct (IH y Hx Hy) as [-> ->]; done.
Qed.

(** ... and so is cutting at the last one. *)
Lemma cut_last c x y r r' :
  has_char c r = false -> has_char c r' = false ->
  x +:+ String c r = y +:+ String c r' -> x = y /\ r = r'.
Proof.
  assert (forall s, has_char c (String.rev s) = has_char c s) as Hrev.
  { intros s. apply eq_true_iff_eq. rewrite !has_char_chars, chars_rev. set_solver. }
  assert (forall u v, String.rev (u +:+ String c v) = String.rev v +:+ String c (String.rev u)) as Hsplit.
  { intros u v. apply (inj chars).
    by rewrite chars_rev, !chars_app; simpl; rewrite !chars_rev, reverse_app, reverse_cons, <- (assoc_L (++)). }
  intros Hr Hr' Heq. apply (f_equal String.rev) in Heq. rewrite !Hsplit in Heq.
  apply cut_first in Heq as [H1 H2]; [|by rewrite Hrev..].
  apply (f_equal String.rev) in H1, H2. by rewrite !string_rev_involutive in H1, H2.
Qed.

(** ** [strings.Join] *)

Lemma Join_cons x l sep : l <> [] -> Join (x :: l) sep = x +:+ sep +:+ Join l sep.
Proof. by destruct l. Qed.

Lemma Join_snoc l x sep : l <> [] -> Join (l ++ [x]) sep = Join l sep +:+ sep +:+ x.
Proof.
  induction l as [|y l IH]; [done|]. intros _. destruct (decide (l = [])) as [->|Hl]; [done|].
  rewrite <- app_comm_cons, !Join_cons by (by destruct l). rewrite IH by done. by rewrite !string_app_assoc.
Qed.

(** ** White space *)

(** No white space at the front, in the reading order of [f2] and [f3]. *)
Definition no_space_front (f2 : ascii -> ascii -> bool) (f3 : ascii -> ascii -> ascii -> bool)
    (s : string) : Prop :=
  match chars s with
  | [] => True
  | [a] => is_space1 a = false
  | [a; b] => is_space1 a = false /\ f2 a b = false
  | a :: b :: c :: _ => is_space1 a = false /\ f2 a b = false /\ f3 a b c = false
  end.

(** Induction one, two or three bytes at a time. *)
Lemma trim_front_ind (P : string -> Prop) :
  P "" ->
  (forall a s, P s -> (forall b s', s = String b s' -> P s') ->
    (forall b c s', s = String b (String c s') -> P s') -> P (String a s)) ->
  forall s, P s.
Proof.
  intros H0 HS s. enough (P s /\ (forall b s', s = String b s' -> P s') /\
    (forall b c s', s = String b (String c s') -> P s')) by tauto.
  induction s as [|a s [IH1 [IH2 IH3]]]; [done|]. repeat split; naive_solver.
Qed.

Section trim.
  Context (f2 : ascii -> ascii -> bool) (f3 : ascii -> ascii -> ascii -> bool).

Lemma trim_front_no_space s : no_space_front f2 f3 (trim_front f2 f3 s).
Proof.
  induction s as [|a s IH1 IH2 IH3] using trim_front_ind; [done|]. simpl.
  destruct (is_space1 a) eqn:Ea; [done|].
  destruct s as [|b s]; [done|].
  destruct (f2 a b) eqn:Eab; [by eapply IH2|].
  destruct s as [|c s]; [done|].
  destruct (f3 a b c) eqn:Eabc; [by eapply IH3|]. done.
Qed.

Lemma trim_front_id s : no_space_front f2 f3 s -> trim_front f2 f3 s = s.
Proof.
  destruct s as [|a [|b [|c s]]]; unfold no_space_front; simpl; intros H;
    repeat match goal with
    | H : _ /\ _ |- _ => destruct H
    | H : _ = false |- _ => rewrite H
    end; done.
Qed.

Lemma trim_front_suffix s : exists p, s = p +:+ trim_front f2 f3 s.
Proof.
  induction s as [|a s IH1 IH2 IH3] using trim_front_ind; [by exists ""|]. simpl.
  destruct (is_space1 a); [destruct IH1 as [p Hp]; exists (String a p); by rewrite string_app_cons, <- Hp|].
  destruct s as [|b s]; [by exists ""|].
  destruct (f2 a b).
  { destruct (IH2 _ _ eq_refl) as [p Hp]. exists (String a (String b p)).
    by rewrite !string_app_cons, <- Hp. }
  destruct s as [|c s]; [by exists ""|].
  destruct (f3 a b c); [|by exists ""].
  destruct (IH3 _ _ _ eq_refl) as [p Hp]. exists (String a (String b (String c p))).
  by rewrite !string_app_cons, <- Hp.
Qed.

Lemma no_space_front_prefix s t : no_space_front f2 f3 (s +:+ t) -> no_space_front f2 f3 s.
Proof.
  destruct s as [|a [|b [|c s]]]; unfold no_space_front; rewrite chars_app; simpl;
    [done|destruct (chars t) as [|? [|? ?]]; simpl; tauto..|done].
Qed.

End trim.

Lemma trim_right_prefix s : exists t, s = trim_right s +:+ t.
Proof.
  unfold trim_right.
  destruct (trim_front_suffix (fun b a => is_space2 a b) (fun c b a => is_space3 a b c)
              (String.rev s)) as [p Hp].
  exists (String.rev p). rewrite <- string_rev_app, <- Hp. by rewrite string_rev_involutive.
Qed.

Lemma trim_right_idem s : trim_right (trim_right s) = trim_right s.
Proof.
  unfold trim_right. rewrite string_rev_involutive. f_equal.
  apply trim_front_id, trim_front_no_space.
Qed.

(** [TrimSpace] leaves no white space at either end, so trimming twice is
    trimming once. *)
Lemma TrimSpace_idem s : TrimSpace (TrimSpace s) = TrimSpace s.
Proof.
  unfold TrimSpace. set (u := trim_left s).
  assert (trim_left (trim_right u) = trim_right u) as Hl.
  { apply trim_front_id. destruct (trim_right_prefix u) as [t Ht].
    apply (no_space_front_prefix _ _ _ t). rewrite <- Ht. apply trim_front_no_space. }
  by rewrite Hl, trim_right_idem.
Qed.

Lemma TrimSpace_empty : TrimSpace "" = "".
Proof. done. Qed.

#[export] Hint Rewrite TrimSpace_idem TrimSpace_empty : gthulhu_rw.

(** ** Numbers *)

Definition is_digit (a : ascii) : Prop := is_Some (digit_of a).

Lemma pretty_N_char_digit n : (n < 10)%N -> digit_of (pretty_N_char n) = Some (Z.of_N n).
Proof.
  intros H. destruct n as [|p]; [done|]. do 4 (try destruct p as [p|p|]); first [done|lia].
Qed.

(** Printing before [s] and then reading is reading [s] with the number as the
    value read so far. *)
Lemma parse_uint_go_pretty n s :
  (Z.of_N n <= max_u64)%Z -> parse_uint_go 0 (pretty_N_go n s) = parse_uint_go (Z.of_N n) s.
Proof.
  revert s. induction (N.lt_wf_0 n) as [n _ IH]; intros s Hn.
  destruct (decide (n = 0)%N) as [->|H0]; [by rewrite pretty_N_go_0|].
  rewrite pretty_N_go_step by lia.
  pose proof (N.div_mod n 10 ltac:(lia)) as Hdm. pose proof (N.mod_lt n 10 ltac:(lia)) as Hlt.
  assert (Z.of_N (n `div` 10) <= max_u64)%Z as Hle by divlia.
  rewrite IH; [|apply N.div_lt; lia|done]. simpl.
  rewrite pretty_N_char_digit by done.
  replace (Z.of_N (n `div` 10) * 10 + Z.of_N (n `mod` 10))%Z with (Z.of_N n) by divlia.
  by rewrite (proj2 (Z.ltb_ge _ _) Hn).
Qed.

Lemma digits_go_pretty n s : digits_go 0 (pretty_N_go n s) = digits_go (Z.of_N n) s.
Proof.
  revert s. induction (N.lt_wf_0 n) as [n _ IH]; intros s.
  destruct (decide (n = 0)%N) as [->|H0]; [by rewrite pretty_N_go_0|].
  rewrite pretty_N_go_step by lia.
  pose proof (N.div_mod n 10 ltac:(lia)) as Hdm. pose proof (N.mod_lt n 10 ltac:(lia)) as Hlt.
  rewrite IH by (apply N.div_lt; lia). simpl.
  rewrite pretty_N_char_digit by done. simpl. f_equal. divlia.
Qed.

Lemma pretty_N_go_digits n s :
  Forall is_digit (chars s) -> Forall is_digit (chars (pretty_N_go n s)).
Proof.
  revert s. induction (N.lt_wf_0 n) as [n _ IH]; intros s Hs.
  destruct (decide (n = 0)%N) as [->|H0]; [by rewrite pretty_N_go_0|].
  rewrite pretty_N_go_step by lia. apply IH; [apply N.div_lt; lia|].
  simpl. constructor; [|done]. unfold is_digit.
  rewrite pretty_N_char_digit by (apply N.mod_lt; lia). eauto.
Qed.

Lemma pretty_N_go_nonempty n s : (0 < n)%N -> pretty_N_go n s <> "".
Proof.
  revert s. induction (N.lt_wf_0 n) as [n _ IH]; intros s Hn.
  rewrite pretty_N_go_step by lia.
  destruct (decide (n `div` 10 = 0)%N) as [->|]; [by rewrite pretty_N_go_0|].
  apply IH; [apply N.div_lt; lia|by apply N.neq_0_lt_0].
Qed.

Lemma pretty_N_digits (n : N) : Forall is_digit (chars (pretty n)) /\ pretty n <> "".
Proof.
  unfold pretty, pretty_N. case_decide as H; [split; [|done]; repeat constructor; eexists; done|].
  split; [apply pretty_N_go_digits; constructor|apply pretty_N_go_nonempty; lia].
Qed.

Lemma digits_go_pretty_N (n : N) : digits_go 0 (pretty n) = Some (Z.of_N n).
Proof. unfold pretty, pretty_N. case_decide as H; [by subst|]. by rewrite digits_go_pretty. Qed.

(** [Itoa] of a number of [int] is read back by [Atoi]. *)
Lemma Atoi_Itoa z : is_i64 z -> Atoi (Itoa z) = Some z.
Proof.
  unfold is_i64. intros Hz.
  pose proof digits_go_pretty_N as Hd.
  assert (forall n : N, pretty n <> "") as Hne by apply pretty_N_digits.
  assert (forall n : N, exists a s, pretty n = String a s /\ a <> "-"%char /\ a <> "+"%char) as Hhd.
  { intros n. destruct (pretty_N_digits n) as [Hall Hn]. destruct (pretty n) as [|a s] eqn:E; [done|].
    exists a, s. apply Forall_cons in Hall as [[d Ha] _]. split; [done|]. by split; intros ->. }
  assert (forall n, (Z.of_N n < 2 ^ 63)%Z -> Atoi (pretty n) = Some (Z.of_N n)) as Hpos.
  { intros n Hn. destruct (Hhd n) as (a & s & E & H1 & H2). unfold Atoi. specialize (Hd n).
    rewrite E in *. destruct a as [[] [] [] [] [] [] [] []]; try done;
      rewrite decide_False by done; simpl in *; rewrite Hd; simpl;
      (rewrite decide_True; [done|unfold min_i64, max_i64; lia]). }
  unfold Itoa. destruct z as [|p|p]; unfold pretty at 1, pretty_Z.
  - apply (Hpos 0%N). lia.
  - apply (Hpos (Npos p)). lia.
  - unfold Atoi. rewrite string_app_cons, string_app_nil_l.
    change (pretty p) with (pretty (Npos p)).
    rewrite decide_False by apply Hne. rewrite Hd. simpl. rewrite decide_True; [done|unfold min_i64, max_i64; lia].
Qed.

(** A number of [uint64] printed in decimal is read back by [ParseUint]. *)
Lemma ParseUint_Itoa z : is_u64 z -> ParseUint (Itoa z) = (z, true).
Proof.
  unfold is_u64. intros Hz. unfold ParseUint, Itoa.
  replace (pretty z) with (pretty (Z.to_N z)) by (destruct z; try done; lia).
  rewrite decide_False by apply pretty_N_digits.
  unfold pretty, pretty_N. case_decide as H; [simpl; f_equal; lia|].
  rewrite parse_uint_go_pretty by (unfold max_u64; lia). simpl. f_equal. lia.
Qed.

#[global] Instance Itoa_inj : Inj (=) (=) Itoa.
Proof. unfold Itoa. apply _. Qed.

(** [Itoa] prints digits and a leading minus sign only. *)
Lemma Itoa_no_char c z : digit_of c = None -> c <> "-"%char -> has_char c (Itoa z) = false.
Proof.
  intros Hc Hm. apply not_true_iff_false. rewrite has_char_chars.
  assert (forall n : N, c ∉ chars (pretty n)) as HN.
  { intros n Hin. destruct (pretty_N_digits n) as [Hall _].
    rewrite Forall_forall in Hall. destruct (Hall c Hin). congruence. }
  unfold Itoa. destruct z as [|p|p]; unfold pretty at 1, pretty_Z.
  - apply (HN 0%N).
  - apply (HN (Npos p)).
  - rewrite string_app_cons, string_app_nil_l. simpl. rewrite elem_of_cons.
    intros [|?]; [done|]. by apply (HN (Npos p)).
Qed.

Lemma Itoa_no_bar z : has_char "|" (Itoa z) = false.
Proof. by apply Itoa_no_char. Qed.

#[export] Hint Resolve Itoa_no_bar : gthulhu.
