(* ===== verification/GoSort.v ===== *)
(** * Go sorting: [sort.Slice], [sort.Strings] and [sort.Ints]

    [sort.Slice] promises a permutation of its input that is ordered by the
    comparison, and nothing about the order of elements the comparison does not
    separate.  [SortedBy] is that promise; [sort_by] is one function that keeps
    it.  The lemmas say when the promise pins the result down. *)

From stdpp Require Import base gmap strings list sorting.
From Stdlib Require Import ZArith Lia.
From S2P Require Import Prelude GoStrings.

Section sort_by.
  Context {A B : Type} (key : A -> B) (R : relation B).
  Context `{!RelDecision R, !PartialOrder R, !Total R}.

Definition key_le : relation A := fun x y => R (key x) (key y).

#[global] Instance key_le_dec : RelDecision key_le.
Proof. intros x y. unfold key_le. apply _. Defined.

#[local] Instance key_le_total : Total key_le.
Proof. intros x y. unfold key_le. apply total, _. Qed.

#[local] Instance key_le_trans : Transitive key_le.
Proof. intros x y z. unfold key_le. apply transitivity. Qed.

(** What a call of [sort.Slice] with this key may return for [l]. *)
Definition SortedBy (l l' : list A) : Prop := l' ≡ₚ l /\ StronglySorted key_le l'.

Definition sort_by (l : list A) : list A := merge_sort key_le l.

(** The key separates the elements of [l]. *)
Definition key_separates (l : list A) : Prop :=
  forall x y, x ∈ l -> y ∈ l -> key x = key y -> x = y.

Lemma sort_by_spec l : SortedBy l (sort_by l).
Proof. split; [apply merge_sort_Permutation|]. apply StronglySorted_merge_sort; apply _. Qed.

Lemma elem_of_sort_by l x : x ∈ sort_by l <-> x ∈ l.
Proof. by rewrite (proj1 (sort_by_spec l)). Qed.

Lemma length_sort_by l : length (sort_by l) = length l.
Proof. apply Permutation_length, sort_by_spec. Qed.

(** When the key separates the elements, every sort of every reordering of the
    input gives the same list. *)
Lemma SortedBy_unique l1 l2 s1 s2 :
  key_separates l1 -> l1 ≡ₚ l2 -> SortedBy l1 s1 -> SortedBy l2 s2 -> s1 = s2.
Proof.
  intros Hsep Hl [Hp1 Hs1] [Hp2 Hs2].
  assert (s1 ≡ₚ s2) as Hp by (by rewrite Hp1, Hp2).
  apply (StronglySorted_unique_strong key_le); [|done..].
  intros x1 x2 Hx1 Hx2 H12 H21. apply Hsep.
  - by rewrite <- Hp1.
  - by rewrite Hl, <- Hp2.
  - by apply (anti_symm R).
Qed.

Lemma sort_by_perm l1 l2 : key_separates l1 -> l1 ≡ₚ l2 -> sort_by l1 = sort_by l2.
Proof. intros. eapply SortedBy_unique; eauto using sort_by_spec. Qed.

Lemma key_separates_perm l1 l2 : l1 ≡ₚ l2 -> key_separates l1 -> key_separates l2.
Proof. intros Hp H x y. rewrite <- Hp. apply H. Qed.

End sort_by.

(** The keys, in order, never depend on the sort that was used. *)
Lemma SortedBy_keys {A B} (key : A -> B) (R : relation B) `{!PartialOrder R} l s1 s2 :
  SortedBy key R l s1 -> SortedBy key R l s2 -> key <$> s1 = key <$> s2.
Proof.
  intros [Hp1 Hs1] [Hp2 Hs2]. apply (StronglySorted_unique R).
  - apply (StronglySorted_fmap _ (key_le key R)); [|done]. done.
  - apply (StronglySorted_fmap _ (key_le key R)); [|done]. done.
  - by rewrite Hp1, Hp2.
Qed.

Lemma sort_by_fmap_perm {A B} (key : A -> B) (R : relation B)
    `{!RelDecision R, !PartialOrder R, !Total R} l s :
  SortedBy key R l s -> key <$> s = key <$> sort_by key R l.
Proof. intros H. apply (SortedBy_keys key R l); [done|by apply sort_by_spec]. Qed.

(** [sort.Strings] and [sort.Ints] *)
Definition sort_strings (l : list string) : list string := sort_by id String.le l.
Definition sort_ints (l : list Z) : list Z := sort_by id Z.le l.

Lemma sort_strings_perm l1 l2 : l1 ≡ₚ l2 -> sort_strings l1 = sort_strings l2.
Proof. intros H. eapply sort_by_perm; [apply _|apply _|by intros x y _ _|done]. Qed.
