(* ===== verification/GoPath.v ===== *)
(** * Cleaned paths: what [filepath.Clean] guarantees

    Lemmas on the path functions of [GoStrings]: the components of a cleaned path,
    cleaning twice, and the path of a plain file name joined to a directory. *)

From stdpp Require Import base gmap strings list.
From Stdlib Require Import ZArith Lia Ascii.
From S2P Require Import Prelude GoStrings.

(** A component that [Clean] keeps: no separator, neither empty nor a dot. *)
Definition good_part (p : string) : Prop := p <> "" /\ p <> "." /\ has_char "/" p = false.

(** The components kept so far, innermost first: some [..] (none when rooted)
    below components that are not [..]. *)
Inductive clean_acc (rooted : bool) : list string -> Prop :=
| clean_dots k : (rooted = true -> k = 0) -> clean_acc rooted (replicate k "..")
| clean_push p acc : good_part p -> p <> ".." -> clean_acc rooted acc -> clean_acc rooted (p :: acc).

Lemma Split_nonempty s c : Split s c <> [].
Proof. destruct s as [|a s]; simpl; [done|]. case_match; [done|]. by destruct (Split s c). Qed.

Lemma Split_app_sep a b c : Split (a +:+ String c b) c = Split a c ++ Split b c.
Proof.
  induction a as [|x a IH].
  - rewrite string_app_nil_l. simpl. by rewrite Ascii.eqb_refl.
  - rewrite string_app_cons. simpl. rewrite IH. case_match; [done|].
    pose proof (Split_nonempty a c). by destruct (Split a c).
Qed.

Lemma Split_no_sep s c : has_char c s = false -> Split s c = [s].
Proof.
  induction s as [|a s IH]; [done|]. simpl. intros H. apply orb_false_iff in H as [-> Hs].
  by rewrite IH.
Qed.

Lemma Split_Join ps c :
  ps <> [] -> Forall (fun p => has_char c p = false) ps -> Split (Join ps (String c "")) c = ps.
Proof.
  intros Hne. induction 1 as [|p ps Hp Hps IH]; [done|]. destruct (decide (ps = [])) as [->|Hn].
  - by apply Split_no_sep.
  - rewrite Join_cons by done. rewrite string_app_cons, string_app_nil_l, Split_app_sep, Split_no_sep by done.
    by rewrite IH.
Qed.

Lemma Split_parts_no_sep s c : Forall (fun p => has_char c p = false) (Split s c).
Proof.
  induction s as [|a s IH]; simpl; [by repeat constructor|].
  destruct (Ascii.eqb a c) eqn:E; [by constructor|].
  destruct (Split s c) as [|p ps]; [by repeat constructor; simpl; rewrite E|].
  apply Forall_cons in IH as [Hp Hps]. constructor; [simpl; by rewrite E|done].
Qed.

Lemma path_parts_app a b : path_parts (a +:+ "/" +:+ b) = path_parts a ++ path_parts b.
Proof. unfold path_parts. rewrite string_app_cons, string_app_nil_l, Split_app_sep. apply filter_app. Qed.

Lemma path_parts_slash s : path_parts (String "/" s) = path_parts s.
Proof. apply (path_parts_app "" s). Qed.

Lemma path_parts_plain p : good_part p -> path_parts p = [p].
Proof.
  intros (H1 & H2 & H3). unfold path_parts. rewrite Split_no_sep by done.
  rewrite filter_cons_True by done. done.
Qed.

Lemma path_parts_good s : Forall good_part (path_parts s).
Proof.
  apply Forall_forall. intros p Hp. unfold path_parts in Hp. apply list_elem_of_filter in Hp as [[H1 H2] Hin].
  split_and!; [done..|]. pose proof (Split_parts_no_sep s "/") as Hf. rewrite Forall_forall in Hf. by apply Hf.
Qed.

Lemma path_parts_join ps : Forall good_part ps -> path_parts (Join ps "/") = ps.
Proof.
  induction 1 as [|p ps Hp _ IH]; [done|]. destruct ps as [|q ps]; [by apply path_parts_plain|].
  change (Join (p :: q :: ps) "/") with (p +:+ "/" +:+ Join (q :: ps) "/").
  by rewrite path_parts_app, IH, path_parts_plain.
Qed.

Lemma clean_acc_good rooted acc : clean_acc rooted acc -> Forall good_part acc.
Proof.
  induction 1 as [k _|p acc Hp _ _ IH]; [|by constructor].
  apply Forall_replicate. done.
Qed.

Lemma resolve_dots_clean rooted acc ps :
  clean_acc rooted acc -> Forall good_part ps ->
  exists acc', resolve_dots rooted acc ps = reverse acc' /\ clean_acc rooted acc'.
Proof.
  intros Hacc Hps. revert acc Hacc. induction Hps as [|p ps Hp Hps IH]; intros acc Hacc; simpl; [by exists acc|].
  destruct (decide (p = "..")) as [->|Hd]; [|by apply IH; constructor].
  destruct Hacc as [k Hk|q acc Hq Hqd Hacc].
  - destruct k as [|k]; simpl.
    + destruct rooted; apply IH; [by apply (clean_dots true 0)|by apply (clean_dots false 1)].
    + apply IH. apply (clean_dots rooted (S (S k))). intros ->. by specialize (Hk eq_refl).
  - rewrite decide_False by done. by apply IH.
Qed.

Lemma resolve_dots_app rooted acc ps qs :
  resolve_dots rooted acc (ps ++ qs) = resolve_dots rooted (reverse (resolve_dots rooted acc ps)) qs.
Proof.
  revert acc; induction ps as [|p ps IH]; intros acc; simpl; [by rewrite reverse_involutive|].
  destruct (decide (p = "..")), acc as [|q acc]; try apply IH.
  - destruct rooted; apply IH.
  - case_decide; apply IH.
Qed.

Lemma resolve_dots_fixed rooted acc : clean_acc rooted acc -> resolve_dots rooted [] (reverse acc) = reverse acc.
Proof.
  induction 1 as [k Hk|p acc Hp Hd _ IH].
  - assert (forall m j, resolve_dots rooted (replicate j "..") (replicate m "..") = replicate (m + j) ".."
            \/ rooted = true) as Hgen.
    { destruct rooted; [by right|]. left. revert j. induction m as [|m IH]; intros j; simpl.
      - apply reverse_replicate.
      - destruct j as [|j]; simpl.
        + specialize (IH 1). simpl in IH. rewrite IH, Nat.add_1_r, Nat.add_0_r. done.
        + specialize (IH (S (S j))). simpl in IH. rewrite IH. by rewrite !Nat.add_succ_r. }
    rewrite reverse_replicate. destruct (Hgen k 0) as [Hg|Hr]; [by rewrite Nat.add_0_r in Hg|].
    by rewrite (Hk Hr).
  - rewrite reverse_cons, resolve_dots_app, IH, reverse_involutive. simpl.
    rewrite decide_False by done. by rewrite reverse_cons.
Qed.

(** The components of a cleaned path. *)
Lemma Clean_parts p :
  exists acc, clean_acc (is_abs p) acc /\
    resolve_dots (is_abs p) [] (path_parts p) = reverse acc /\
    path_parts (Clean p) = reverse acc /\ is_abs (Clean p) = is_abs p.
Proof.
  destruct (resolve_dots_clean (is_abs p) [] (path_parts p)) as (acc & Hr & Hacc).
  { by apply (clean_dots _ 0). }
  { apply path_parts_good. }
  exists acc. split; [done|]. split; [done|]. unfold Clean. rewrite Hr.
  assert (Forall good_part (reverse acc)) as Hg.
  { rewrite Forall_forall. intros x. rewrite elem_of_reverse.
    pose proof (clean_acc_good _ _ Hacc) as H. rewrite Forall_forall in H. apply H. }
  destruct (is_abs p) eqn:Habs.
  - rewrite string_app_cons, string_app_nil_l, path_parts_slash. split; [by apply path_parts_join|].
    apply HasPrefix_spec. by exists (Join (reverse acc) "/").
  - case_decide as He; [by rewrite He|]. split; [by apply path_parts_join|].
    destruct (reverse acc) as [|x xs]; [done|]. apply Forall_cons in Hg as [(Hx & _ & Hs) _].
    apply not_true_iff_false. unfold is_abs. rewrite HasPrefix_spec. intros [r Hj].
    rewrite string_app_cons in Hj. destruct x as [|a x]; [done|].
    assert (a = "/"%char) as ->.
    { destruct xs as [|y ys]; [by inversion Hj|].
      change (Join (String a x :: y :: ys) "/") with (String a x +:+ "/" +:+ Join (y :: ys) "/") in Hj.
      rewrite string_app_cons in Hj. by inversion Hj. }
    done.
Qed.

(** Cleaning is done in one pass. *)
Lemma Clean_idem p : Clean (Clean p) = Clean p.
Proof.
  destruct (Clean_parts p) as (acc & Hacc & Hr & Hp & Ha).
  unfold Clean at 1. rewrite Ha, Hp, resolve_dots_fixed by done. unfold Clean. by rewrite Hr.
Qed.

(** A plain name joined to a cleaned directory: the name is appended, except
    below the root and below the current directory. *)
Lemma Clean_join_plain dir name :
  good_part name -> name <> ".." ->
  Clean (PathJoin (Clean dir) name) =
  if decide (Clean dir = "/") then "/" +:+ name
  else if decide (Clean dir = ".") then name
  else Clean dir +:+ "/" +:+ name.
Proof.
  intros Hn Hdd. destruct (Clean_parts dir) as (acc & Hacc & Hr & Hp & Ha).
  assert (Clean dir <> "") as Hne.
  { unfold Clean. destruct (is_abs dir); [by rewrite string_app_cons|]. case_decide as He; [done|].
    rewrite Hr in *. intros Hj. apply (f_equal path_parts) in Hj.
    rewrite path_parts_join in Hj; [done|]. rewrite <- Hp. apply path_parts_good. }
  unfold PathJoin. rewrite decide_False by done. rewrite Clean_idem.
  assert (is_abs (Clean dir +:+ "/" +:+ name) = is_abs dir) as Habs.
  { rewrite <- Ha. unfold is_abs. destruct (Clean dir) as [|a s]; [done|]. rewrite string_app_cons.
    apply eq_true_iff_eq. rewrite !HasPrefix_spec. setoid_rewrite string_app_cons.
    setoid_rewrite string_app_nil_l. split; intros [r Hj]; inversion Hj; eauto. }
  unfold Clean at 1. rewrite Habs, path_parts_app, Hp, path_parts_plain by done.
  rewrite resolve_dots_app, resolve_dots_fixed, reverse_involutive by done. simpl.
  rewrite decide_False by done. rewrite reverse_cons.
  assert (is_abs dir = true -> reverse acc <> [] -> Clean dir <> "/") as H1.
  { intros Hb Hz Hj. apply Hz. by rewrite <- Hp, Hj. }
  assert (reverse acc <> [] -> Clean dir <> ".") as H2.
  { intros Hz Hj. apply Hz. by rewrite <- Hp, Hj. }
  destruct (is_abs dir) eqn:Eabs.
  - destruct (decide (reverse acc = [])) as [Hz|Hz].
    + assert (Clean dir = "/") as ->; [|by rewrite Hz]. unfold Clean. by rewrite Eabs, Hr, Hz.
    + rewrite decide_False by auto. rewrite decide_False by auto.
      rewrite Join_snoc by done. unfold Clean. rewrite Eabs, Hr. by rewrite string_app_assoc.
  - rewrite decide_False by (by destruct (reverse acc)). destruct (decide (reverse acc = [])) as [Hz|Hz].
    + assert (Clean dir = ".") as ->; [|by rewrite Hz]. unfold Clean. by rewrite Eabs, Hr, Hz.
    + rewrite (decide_False (P := Clean dir = "/")).
      2:{ intros Hj. rewrite Hj in Ha. done. }
      rewrite decide_False by auto. rewrite Join_snoc by done. unfold Clean. rewrite Eabs, Hr.
      by rewrite decide_False.
Qed.
