(* ===== verification/GoFloat.v ===== *)
(** * Go's float64 and the functions of [math] the program calls

    A [float64] is a number of the binary64 format, here a [spec_float] of the
    Standard Library's specification of IEEE 754 with 53 bits of mantissa and
    exponents below 1024.  Every operation rounds to nearest, ties to even, one
    operation at a time.  An untyped constant of Go is exact until it is used, so
    a literal is the rounded quotient of two integers that are exact. *)

From stdpp Require Import base list numbers.
From Stdlib Require Import ZArith Lia SpecFloat.
From S2P Require Import Prelude.

Definition float64 : Type := spec_float.

(** ** Arithmetic *)

Definition fadd : float64 -> float64 -> float64 := SFadd 53 1024.
Definition fsub : float64 -> float64 -> float64 := SFsub 53 1024.
Definition fmul : float64 -> float64 -> float64 := SFmul 53 1024.
Definition fdiv : float64 -> float64 -> float64 := SFdiv 53 1024.

(** [float64(n)] of an integer *)
Definition f64_of_Z (z : Z) : float64 := binary_normalize 53 1024 z 0 false.

(** The constant [p/q], for [p] and [q] below 2^53. *)
Definition f64_lit (p q : Z) : float64 := fdiv (f64_of_Z p) (f64_of_Z q).

Definition f64_zero : float64 := S754_zero false.

(** [math.MaxFloat64] *)
Definition MaxFloat64 : float64 := S754_finite false 9007199254740991 971.

(** The comparisons [x < y] and [x <= y]; both are false when a side is NaN. *)
Definition fltb : float64 -> float64 -> bool := SFltb.
Definition fleb : float64 -> float64 -> bool := SFleb.

(** ** package math *)

Definition fAbs : float64 -> float64 := SFabs.
Definition fSqrt : float64 -> float64 := SFsqrt 53 1024.

Definition is_pos_inf (x : float64) : bool := match x with S754_infinity false => true | _ => false end.
Definition is_neg_inf (x : float64) : bool := match x with S754_infinity true => true | _ => false end.
Definition is_NaN (x : float64) : bool := match x with S754_nan => true | _ => false end.

(** [math.Max] and [math.Min] *)
Definition fMax (x y : float64) : float64 :=
  if is_pos_inf x || is_pos_inf y then S754_infinity false
  else if is_NaN x || is_NaN y then S754_nan
  else match x, y with
       | S754_zero sx, S754_zero _ => if sx then y else x
       | _, _ => if fltb y x then x else y
       end.

Definition fMin (x y : float64) : float64 :=
  if is_neg_inf x || is_neg_inf y then S754_infinity true
  else if is_NaN x || is_NaN y then S754_nan
  else match x, y with
       | S754_zero sx, S754_zero _ => if sx then x else y
       | _, _ => if fltb x y then x else y
       end.

(** ** The order

    [<] is a strict order and compares every two numbers that are not NaN. *)

(** A number that is no NaN, as a sign class, an exponent and a mantissa whose
    lexicographic order is the order of the numbers. *)
Definition fkey (x : float64) : option (Z * Z * Z) :=
  match x with
  | S754_nan => None
  | S754_infinity s => Some (if s then -2 else 2, 0, 0)%Z
  | S754_zero _ => Some (0, 0, 0)%Z
  | S754_finite s m e => Some (if s then (-1, - e, Zneg m) else (1, e, Zpos m))%Z
  end.

Definition key_lt (a b : Z * Z * Z) : Prop :=
  (a.1.1 < b.1.1 \/ a.1.1 = b.1.1 /\ (a.1.2 < b.1.2 \/ a.1.2 = b.1.2 /\ a.2 < b.2))%Z.

Lemma fltb_key x y :
  fltb x y = true <-> exists a b, fkey x = Some a /\ fkey y = Some b /\ key_lt a b.
Proof.
  unfold fltb, SFltb, key_lt.
  destruct x as [sx|sx| |sx mx ex], y as [sy|sy| |sy my ey]; try destruct sx; try destruct sy; cbn;
    try (split; [done|by intros (? & ? & ? & ? & ?)]);
    try (split; [intros; eexists _, _; split_and!; [done..|cbn; lia]
                |intros (? & ? & ? & ? & ?); simplify_eq/=; first [done|lia]]).
  - change (Pos.compare_cont Eq mx my) with (Pos.compare mx my).
    split.
    + intros H. eexists _, _. split_and!; [done..|]. cbn.
      destruct (Z.compare_spec ex ey), (Pos.compare_spec mx my); cbn in H; try done; lia.
    + intros (? & ? & ? & ? & H). simplify_eq/=.
      destruct (Z.compare_spec ex ey), (Pos.compare_spec mx my); cbn; try done; lia.
  - change (Pos.compare_cont Eq mx my) with (Pos.compare mx my).
    split.
    + intros H. eexists _, _. split_and!; [done..|]. cbn.
      destruct (Z.compare_spec ex ey), (Pos.compare_spec mx my); cbn in H; try done; lia.
    + intros (? & ? & ? & ? & H). simplify_eq/=.
      destruct (Z.compare_spec ex ey), (Pos.compare_spec mx my); cbn; try done; lia.
Qed.

Lemma fltb_trans x y z : fltb x y = true -> fltb y z = true -> fltb x z = true.
Proof.
  rewrite !fltb_key. unfold key_lt. intros (a & b & Ha & Hb & H1) (b' & c & Hb' & Hc & H2). simplify_eq.
  exists a, c. split_and!; [done..|]. destruct a as [[??]?], b as [[??]?], c as [[??]?]; cbn in *. lia.
Qed.

Lemma fltb_irrefl x : fltb x x = false.
Proof.
  apply not_true_iff_false. rewrite fltb_key. unfold key_lt. intros (a & b & Ha & Hb & H1). simplify_eq. lia.
Qed.

Lemma fltb_asym x y : fltb x y = true -> fltb y x = false.
Proof.
  intros Hxy. apply not_true_iff_false. intros Hyx.
  pose proof (fltb_trans _ _ _ Hxy Hyx) as H. by rewrite fltb_irrefl in H.
Qed.

(** The order is weak: what lies strictly below lies below everything above. *)
Lemma fltb_weak x y z : fltb x y = true -> fltb z y = false -> is_NaN z = false -> fltb x z = true.
Proof.
  intros Hxy Hzy Hz. destruct (fkey z) as [c|] eqn:Hc; [|by destruct z].
  apply fltb_key in Hxy as (a & b & Ha & Hb & H1). apply fltb_key. exists a, c. split_and!; [done..|].
  assert (~ key_lt c b) as H2 by (intros H; apply not_true_iff_false in Hzy; apply Hzy, fltb_key; eauto).
  unfold key_lt in *. destruct a as [[??]?], b as [[??]?], c as [[??]?]; cbn in *. lia.
Qed.

#[local] Open Scope Z_scope.

(** ** Back to integers *)

(** The integer part, which a conversion to an integer type takes when it is in range. *)
Definition f64_trunc (x : float64) : option Z :=
  match x with
  | S754_zero _ => Some 0
  | S754_finite s m e => Some (let z := Z.shiftl (Zpos m) e in if s then - z else z)
  | S754_infinity _ | S754_nan => None
  end.

Lemma digits2_log2 m : Zpos (digits2_pos m) = Z.log2 (Zpos m) + 1.
Proof.
  induction m as [m IH|m IH|]; [| |done]; cbn [digits2_pos]; rewrite Pos2Z.inj_succ, IH.
  - rewrite Pos2Z.inj_xI, Z.log2_succ_double by lia. lia.
  - rewrite Pos2Z.inj_xO, Z.log2_double by lia. lia.
Qed.

Lemma iter_xO d m : Zpos (Pos.iter xO m d) = Zpos m * 2 ^ Zpos d.
Proof.
  induction d as [|d IH] using Pos.peano_ind; [cbn; lia|].
  rewrite Pos.iter_succ, Pos2Z.inj_xO, IH, Pos2Z.inj_succ, Z.pow_succ_r by lia. lia.
Qed.

(** A mantissa of 53 bits is rounded to itself. *)
Lemma round_full m e : Z.log2 (Zpos m) = 52 -> -1074 <= e <= 971 ->
  binary_round_aux 53 1024 false (Zpos m) e loc_Exact = S754_finite false m e.
Proof.
  intros Hm He. unfold binary_round_aux, shr_fexp. cbn [Zdigits2]. rewrite digits2_log2, Hm.
  assert (fexp 53 1024 (52 + 1 + e) - e = 0) as E. { unfold fexp, emin. lia. }
  rewrite E. cbn [shr shr_record_of_loc shr_m loc_of_shr_record round_nearest_even Zdigits2].
  rewrite digits2_log2, Hm, E. cbn [shr shr_record_of_loc shr_m].
  rewrite (proj2 (Z.leb_le e (1024 - 53))) by lia. done.
Qed.

(** Integers below 2^53 are exact. *)
Lemma f64_exact z : 0 <= z < 2 ^ 53 -> f64_trunc (f64_of_Z z) = Some z.
Proof.
  intros Hz. destruct z as [|m|m]; [done| |lia]. unfold f64_of_Z, binary_normalize, binary_round.
  rewrite digits2_log2. pose proof (Z.log2_spec (Zpos m) ltac:(lia)) as [Hlo Hhi]. pose proof (Z.log2_nonneg (Zpos m)) as Hl0.
  assert (Z.log2 (Zpos m) < 53) as Hl by (apply Z.log2_lt_pow2; lia). set (l := Z.log2 (Zpos m)) in *.
  assert (fexp 53 1024 (l + 1 + 0) = l - 52) as E by (unfold fexp, emin; lia). rewrite E. clear E.
  unfold shl_align. rewrite Z.sub_0_r. destruct (l - 52) as [|p|d] eqn:Ed; [|lia|].
  - rewrite round_full by lia. cbn. done.
  - rewrite round_full; [| |lia].
    + cbn [f64_trunc]. rewrite iter_xO. f_equal. change (Z.neg d) with (- Z.pos d).
      rewrite Z.shiftl_opp_r, Z.shiftr_div_pow2, Z.div_mul by lia. done.
    + rewrite iter_xO, <- Z.shiftl_mul_pow2, Z.log2_shiftl by lia. fold l. lia.
Qed.

(** ** Checks against the format *)

Example literal_rounds : f64_lit 3 10 = S754_finite false 5404319552844595 (-54).
Proof. reflexivity. Qed.

Example tenths_add_up : fadd (f64_lit 1 10) (f64_lit 2 10) = S754_finite false 5404319552844596 (-54).
Proof. reflexivity. Qed.

Example large_counts_round : f64_of_Z (2 ^ 53 + 1) = f64_of_Z (2 ^ 53).
Proof. reflexivity. Qed.
