(* ===== verification/Sha256.v ===== *)
(** * SHA-256 and hexadecimal: [crypto/sha256] and [encoding/hex]

    [util.HashSHA256Hex] prints the SHA-256 digest of its argument in
    hexadecimal.  The digest follows FIPS 180-4; the round constants are computed
    from the primes they are defined by.  Words are 32-bit, bytes 8-bit, both as
    [Z].  The test vectors of the standard are checked by evaluation. *)

From stdpp Require Import base gmap strings list.
From Stdlib Require Import ZArith Lia Ascii.
From S2P Require Import Prelude GoStrings.

Local Open Scope Z_scope.

(** ** Constants *)

Definition divides_some (n : Z) : bool :=
  existsb (fun d => (n mod Z.of_nat d =? 0)) (seq 2 16).

(** The primes up to 311, of which there are 64: 17 squared is below 311 and 19
    squared above it, so trial division by 2 to 17 decides. *)
Definition primes64 : list Z :=
  Eval vm_compute in
  (List.filter (fun n => (n <=? 17) && negb (existsb (fun d => (n mod Z.of_nat d =? 0)) (seq 2 (Z.to_nat n - 2)))
                    || (17 <? n) && negb (divides_some n))
     (Z.of_nat <$> seq 2 310)).

(** Integer cube root, bit by bit from the top. *)
Fixpoint cbrt_go (bits : nat) (n r : Z) : Z :=
  match bits with
  | O => r
  | S b => let r' := r + 2 ^ Z.of_nat b in
           cbrt_go b n (if (r' * r' * r' <=? n) then r' else r)
  end.

(** The first 32 fractional bits of the cube roots and of the square roots. *)
Definition round_constants : list Z :=
  Eval vm_compute in ((fun p => u32 (cbrt_go 36 (p * 2 ^ 96) 0)) <$> primes64).

Definition initial_state : list Z :=
  Eval vm_compute in ((fun p => u32 (Z.sqrt (p * 2 ^ 64))) <$> take 8 primes64).

(** ** The compression function *)

Definition rotr (k x : Z) : Z := Z.lor (Z.shiftr x k) (u32 (Z.shiftl x (32 - k))).
Definition lnot32 (x : Z) : Z := Z.lxor x (2 ^ 32 - 1).
Definition xor3 (x y z : Z) : Z := Z.lxor (Z.lxor x y) z.

Definition choose (x y z : Z) : Z := Z.lxor (Z.land x y) (Z.land (lnot32 x) z).
Definition majority (x y z : Z) : Z := xor3 (Z.land x y) (Z.land x z) (Z.land y z).
Definition big_sigma0 (x : Z) : Z := xor3 (rotr 2 x) (rotr 13 x) (rotr 22 x).
Definition big_sigma1 (x : Z) : Z := xor3 (rotr 6 x) (rotr 11 x) (rotr 25 x).
Definition small_sigma0 (x : Z) : Z := xor3 (rotr 7 x) (rotr 18 x) (Z.shiftr x 3).
Definition small_sigma1 (x : Z) : Z := xor3 (rotr 17 x) (rotr 19 x) (Z.shiftr x 10).

(** The message schedule: [window] holds the last sixteen words, oldest first. *)
Fixpoint schedule (n : nat) (window : list Z) : list Z :=
  match n, window with
  | S n', w0 :: rest =>
      let at_ i := nth i window 0 in
      let w16 := u32 (small_sigma1 (at_ 14%nat) + at_ 9%nat + small_sigma0 (at_ 1%nat) + w0) in
      w0 :: schedule n' (rest ++ [w16])
  | _, _ => []
  end.

Record hash_state := HashState { ha : Z; hb : Z; hc : Z; hd : Z; he : Z; hf : Z; hg : Z; hh : Z }.

Definition round (st : hash_state) (kw : Z * Z) : hash_state :=
  let '(k, w) := kw in
  let t1 := u32 (hh st + big_sigma1 (he st) + choose (he st) (hf st) (hg st) + k + w) in
  let t2 := u32 (big_sigma0 (ha st) + majority (ha st) (hb st) (hc st)) in
  HashState (u32 (t1 + t2)) (ha st) (hb st) (hc st) (u32 (hd st + t1)) (he st) (hf st) (hg st).

Definition words_of_state (st : hash_state) : list Z :=
  [ha st; hb st; hc st; hd st; he st; hf st; hg st; hh st].

Definition state_of_words (ws : list Z) : hash_state :=
  let at_ i := nth i ws 0 in
  HashState (at_ 0%nat) (at_ 1%nat) (at_ 2%nat) (at_ 3%nat) (at_ 4%nat) (at_ 5%nat) (at_ 6%nat) (at_ 7%nat).

Definition compress (ws : list Z) (block : list Z) : list Z :=
  let st := foldl round (state_of_words ws) (zip round_constants (schedule 64 block)) in
  zip_with (fun x y => u32 (x + y)) ws (words_of_state st).

(** ** Padding and blocks *)

(** [n] as [len] bytes, most significant first. *)
Fixpoint be_bytes (len : nat) (n : Z) : list Z :=
  match len with
  | O => []
  | S l => Z.shiftr n (8 * Z.of_nat l) mod 256 :: be_bytes l n
  end.

Definition be_word (bs : list Z) : Z := foldl (fun acc b => acc * 256 + b) 0 bs.

Fixpoint chunks {A} (fuel : nat) (n : nat) (l : list A) : list (list A) :=
  match fuel, l with
  | S f, _ :: _ => take n l :: chunks f n (drop n l)
  | _, _ => []
  end.

Definition pad (msg : list Z) : list Z :=
  let len := length msg in
  let zeros := Z.to_nat ((55 - Z.of_nat len) mod 64) in
  msg ++ [128] ++ replicate zeros 0 ++ be_bytes 8 (8 * Z.of_nat len).

Definition blocks (msg : list Z) : list (list Z) :=
  let p := pad msg in
  (fun c => be_word <$> chunks 16 4 c) <$> chunks (length p) 64 p.

(** [sha256.Sum256] *)
Definition Sum256 (msg : list Z) : list Z :=
  (foldl compress initial_state (blocks msg)) ≫= be_bytes 4.

(** ** Hexadecimal *)

Definition hex_digit (n : Z) : ascii :=
  ascii_of_N (Z.to_N (if n <? 10 then 48 + n else 87 + n)).

(** [hex.EncodeToString] *)
Fixpoint EncodeToString (bs : list Z) : string :=
  match bs with
  | [] => ""
  | b :: bs' => String (hex_digit (b / 16)) (String (hex_digit (b mod 16)) (EncodeToString bs'))
  end.

Definition unhex (a : ascii) : option Z :=
  let b := Z.of_N (byte_of a) in
  if (48 <=? b) && (b <=? 57) then Some (b - 48)
  else if (97 <=? b) && (b <=? 102) then Some (b - 87)
  else if (65 <=? b) && (b <=? 70) then Some (b - 55)
  else None.

(** [hex.DecodeString]; [None] is an error (bad digit or odd length). *)
Fixpoint DecodeString (s : string) : option (list Z) :=
  match s with
  | EmptyString => Some []
  | String a (String b s') =>
      x ← unhex a; y ← unhex b; bs ← DecodeString s'; Some (x * 16 + y :: bs)
  | String _ EmptyString => None
  end.

Definition bytes_of_string (s : string) : list Z := (fun a => Z.of_N (byte_of a)) <$> chars s.

(** ** Test vectors and lemmas *)

Example sha256_empty :
  EncodeToString (Sum256 []) = "e3b0c44298fc1c149afbf4c8996fb92427ae41e4649b934ca495991b7852b855".
Proof. vm_compute. reflexivity. Qed.

Example sha256_abc :
  EncodeToString (Sum256 (bytes_of_string "abc")) =
  "ba7816bf8f01cfea414140de5dae2223b00361a396177a9cb410ff61f20015ad".
Proof. vm_compute. reflexivity. Qed.

Example sha256_two_blocks :
  EncodeToString (Sum256 (bytes_of_string "abcdbcdecdefdefgefghfghighijhijkijkljklmklmnlmnomnopnopq")) =
  "248d6a61d20638b8e5c026930c3e6039a33ce45964ff2167f6ecedd419db06c1".
Proof. vm_compute. reflexivity. Qed.

Definition is_byte (b : Z) : Prop := 0 <= b < 256.

Lemma be_bytes_length len n : length (be_bytes len n) = len.
Proof. induction len; simpl; auto. Qed.

Lemma be_bytes_byte len n : Forall is_byte (be_bytes len n).
Proof. induction len; simpl; constructor; [apply Z.mod_pos_bound; lia|done]. Qed.

Lemma compress_length ws b : length ws = 8%nat -> length (compress ws b) = 8%nat.
Proof. intros H. unfold compress. by rewrite length_zip_with, H. Qed.

Lemma foldl_compress_length bs ws : length ws = 8%nat -> length (foldl compress ws bs) = 8%nat.
Proof. revert ws; induction bs as [|b bs IH]; intros ws H; simpl; auto using compress_length. Qed.

Lemma concat_be_length ws : length (ws ≫= be_bytes 4) = (4 * length ws)%nat.
Proof. induction ws as [|w ws IH]; [done|]. rewrite bind_cons, length_app, be_bytes_length, IH. simpl; lia. Qed.

(** A digest is 32 bytes. *)
Lemma Sum256_length msg : length (Sum256 msg) = 32%nat.
Proof. unfold Sum256. by rewrite concat_be_length, foldl_compress_length. Qed.

Lemma Sum256_bytes msg : Forall is_byte (Sum256 msg).
Proof.
  unfold Sum256. generalize (foldl compress initial_state (blocks msg)). intros ws.
  induction ws as [|w ws IH]; [constructor|]. rewrite bind_cons.
  apply Forall_app. split; [apply be_bytes_byte|done].
Qed.

Lemma unhex_hex_digit n : 0 <= n < 16 -> unhex (hex_digit n) = Some n.
Proof.
  intros H. destruct n as [|p|p]; [done| |lia]. do 4 (try destruct p as [p|p|]); first [done|lia].
Qed.

(** Decoding undoes encoding, so encoding bytes loses nothing. *)
Lemma Decode_Encode bs : Forall is_byte bs -> DecodeString (EncodeToString bs) = Some bs.
Proof.
  induction 1 as [|b bs Hb _ IH]; [done|]. unfold is_byte in Hb. simpl.
  rewrite !unhex_hex_digit by divlia. simpl. rewrite IH. simpl. do 2 f_equal. divlia.
Qed.

Lemma Encode_inj bs bs' :
  Forall is_byte bs -> Forall is_byte bs' -> EncodeToString bs = EncodeToString bs' -> bs = bs'.
Proof.
  intros H H' Heq. apply (f_equal DecodeString) in Heq.
  rewrite !Decode_Encode in Heq by done. by simplify_eq.
Qed.

Lemma bytes_of_string_inj s t : bytes_of_string s = bytes_of_string t -> s = t.
Proof.
  unfold bytes_of_string, byte_of. revert t. induction s as [|a s IH]; intros [|b t] H; try done.
  cbn [chars fmap list_fmap] in H. injection H as Hab H. f_equal; [|by apply IH].
  apply N2Z.inj in Hab. rewrite <- (ascii_N_embedding a), Hab. apply ascii_N_embedding.
Qed.

Lemma bytes_of_string_byte s : Forall is_byte (bytes_of_string s).
Proof.
  unfold bytes_of_string. apply Forall_fmap, Forall_forall. intros a _. simpl. unfold is_byte, byte_of.
  pose proof (N_ascii_bounded a). lia.
Qed.

#[export] Hint Resolve Sum256_bytes bytes_of_string_byte be_bytes_byte : gthulhu.
