(* ===== verification/Merkle.v ===== *)
(** * Merkle trees: api/pkg/util/merkle.go

    A [MerkleNode] pointer is [MNil] or a node; the nodes are never changed after
    they are built, so a value stands for the pointer.  The loop of
    [BuildMerkleTree] halves the level until one node is left: its fuel is the
    number of leaves. *)

From stdpp Require Import base gmap strings list.
From Stdlib Require Import ZArith Lia Ascii.
From S2P Require Import Prelude GoStrings Sha256.

(** ** The code *)

Inductive MerkleNode :=
| MNil
| MNode (Hash : string) (Left Right : MerkleNode).

Definition HashSHA256Hex (data : list Z) : string := EncodeToString (Sum256 data).

Definition HashStringSHA256Hex (value : string) : string := HashSHA256Hex (bytes_of_string value).

Definition hashMerklePair (leftHash rightHash : string) : string :=
  match DecodeString leftHash, DecodeString rightHash with
  | Some leftBytes, Some rightBytes => HashSHA256Hex (leftBytes ++ rightBytes)
  | _, _ => HashStringSHA256Hex (leftHash +:+ rightHash)
  end.

(** The field [Hash] of a node that is not nil. *)
Definition node_hash (n : MerkleNode) : string :=
  match n with MNil => "" | MNode h _ _ => h end.

Definition parent (lft rgt : MerkleNode) : MerkleNode :=
  MNode (hashMerklePair (node_hash lft) (node_hash rgt)) lft rgt.

(** The inner loop: one level up; an odd last node is paired with itself. *)
Fixpoint nextLevel (nodes : list MerkleNode) : list MerkleNode :=
  match nodes with
  | [] => []
  | [lft] => [parent lft lft]
  | lft :: rgt :: rest => parent lft rgt :: nextLevel rest
  end.

(** The outer loop [for len(nodes) > 1]. *)
Fixpoint build_loop (fuel : nat) (nodes : list MerkleNode) : list MerkleNode :=
  match fuel, nodes with
  | S f, _ :: _ :: _ => build_loop f (nextLevel nodes)
  | _, _ => nodes
  end.

Definition leaf (hash : string) : MerkleNode := MNode hash MNil MNil.

Definition BuildMerkleTree (leafHashes : list string) : MerkleNode :=
  match leafHashes with
  | [] => leaf (HashStringSHA256Hex "")
  | _ => default MNil (head (build_loop (length leafHashes) (leaf <$> leafHashes)))
  end.

Fixpoint FindMerkleNode (root : MerkleNode) (hash : string) : MerkleNode :=
  match root with
  | MNil => MNil
  | MNode h l r =>
      if decide (h = hash) then root
      else match FindMerkleNode l hash with
           | MNil => FindMerkleNode r hash
           | node => node
           end
  end.

Fixpoint TruncateMerkleTree (root : MerkleNode) (depth : Z) : MerkleNode :=
  match root with
  | MNil => MNil
  | MNode h l r =>
      if (depth <=? 0)%Z then MNode h MNil MNil
      else MNode h (TruncateMerkleTree l (depth - 1)) (TruncateMerkleTree r (depth - 1))
  end.

(** ** The same computation on hashes alone *)

Fixpoint hash_level (hs : list string) : list string :=
  match hs with
  | [] => []
  | [h] => [hashMerklePair h h]
  | h1 :: h2 :: rest => hashMerklePair h1 h2 :: hash_level rest
  end.

Fixpoint hash_loop (fuel : nat) (hs : list string) : list string :=
  match fuel, hs with
  | S f, _ :: _ :: _ => hash_loop f (hash_level hs)
  | _, _ => hs
  end.

(** The root hash as a function of the leaf hashes. *)
Definition merkle_root (hs : list string) : string :=
  match hs with
  | [] => HashStringSHA256Hex ""
  | _ => default "" (head (hash_loop (length hs) hs))
  end.

(** What [hashMerklePair] feeds to the hash function. *)
Definition pair_input (a b : string) : list Z :=
  match DecodeString a, DecodeString b with
  | Some x, Some y => x ++ y
  | _, _ => bytes_of_string (a +:+ b)
  end.

Fixpoint level_inputs (hs : list string) : list (list Z) :=
  match hs with
  | [] => []
  | [h] => [pair_input h h]
  | h1 :: h2 :: rest => pair_input h1 h2 :: level_inputs rest
  end.

(** Everything hashed while the tree over [hs] is built. *)
Fixpoint loop_inputs (fuel : nat) (hs : list string) : list (list Z) :=
  match fuel, hs with
  | S f, _ :: _ :: _ => level_inputs hs ++ loop_inputs f (hash_level hs)
  | _, _ => []
  end.

(** No two different inputs of the list have the same digest. *)
Definition collision_free (inputs : list (list Z)) : Prop :=
  Forall (fun x => Forall (fun y => Sum256 x = Sum256 y -> x = y) inputs) inputs.

(** A test for it that computes every digest once. *)
Definition collision_freeb (inputs : list (list Z)) : bool :=
  let ds := (fun x => (Sum256 x, x)) <$> inputs in
  forallb (fun p => forallb (fun q => bool_decide (p.1 = q.1 -> p.2 = q.2)) ds) ds.

(** A printed digest: the hexadecimal form of 32 bytes. *)
Definition is_digest (h : string) : Prop :=
  exists bs, h = EncodeToString bs /\ Forall is_byte bs /\ length bs = 32.

(** The height of a tree and its shape invariant: every inner node has two
    children and the hash of the pair. *)
Fixpoint height (t : MerkleNode) : Z :=
  match t with
  | MNil => 0
  | MNode _ l r => 1 + Z.max (height l) (height r)
  end.

Fixpoint wf_tree (t : MerkleNode) : Prop :=
  match t with
  | MNil => False
  | MNode _ MNil MNil => True
  | MNode h l r => h = hashMerklePair (node_hash l) (node_hash r) /\ wf_tree l /\ wf_tree r
  end.

(** The leaves of a tree from left to right. *)
Fixpoint leaf_hashes (t : MerkleNode) : list string :=
  match t with
  | MNil => []
  | MNode h MNil MNil => [h]
  | MNode _ l r => leaf_hashes l ++ leaf_hashes r
  end.

Fixpoint subtree (s t : MerkleNode) : Prop :=
  s = t \/ match t with MNil => False | MNode _ l r => subtree s l \/ subtree s r end.

(** ** Lemmas *)

(** Induction two elements at a time, as the inner loop consumes them. *)
Lemma pair_ind {A} (P : list A -> Prop) :
  P [] -> (forall x, P [x]) -> (forall x y l, P l -> P (x :: y :: l)) -> forall l, P l.
Proof.
  intros H0 H1 H2 l. enough (P l /\ forall x, P (x :: l)) by tauto.
  induction l as [|x l [IH1 IH2]]; split; auto.
Qed.

Lemma hash_level_nodes nodes : node_hash <$> nextLevel nodes = hash_level (node_hash <$> nodes).
Proof. induction nodes as [|x|x y l IH] using pair_ind; f_equal/=; done. Qed.

Lemma hash_level_length hs : 2 * length (hash_level hs) <= S (length hs) /\ (hs <> [] -> hash_level hs <> []).
Proof. induction hs as [|x|x y l IH] using pair_ind; simpl; [split; [lia|done]..|]. split; [lia|done]. Qed.

Lemma hash_level_length_eq hs hs' :
  length hs = length hs' -> length (hash_level hs) = length (hash_level hs').
Proof.
  revert hs'; induction hs as [|x|x y l IH] using pair_ind; intros [|x' [|y' l']] H; simplify_eq/=; auto.
Qed.

Lemma hash_loop_nodes fuel nodes :
  node_hash <$> build_loop fuel nodes = hash_loop fuel (node_hash <$> nodes).
Proof.
  revert nodes; induction fuel as [|f IH]; intros [|x [|y l]]; try done.
  cbn [build_loop]. by rewrite IH, hash_level_nodes.
Qed.

(** Enough fuel leaves exactly one node. *)
Lemma hash_loop_single fuel hs : hs <> [] -> length hs <= fuel -> exists h, hash_loop fuel hs = [h].
Proof.
  revert hs; induction fuel as [|f IH]; intros [|x [|y l]] Hne Hlen; simplify_eq/=; eauto; [lia..|].
  pose proof (hash_level_length l) as [Hl _]. apply IH; [done|]. simpl. lia.
Qed.

Lemma build_loop_single fuel nodes :
  nodes <> [] -> length nodes <= fuel -> exists n, build_loop fuel nodes = [n].
Proof.
  intros Hne Hlen. destruct (hash_loop_single fuel (node_hash <$> nodes)) as [h Hh].
  - by destruct nodes.
  - by rewrite length_fmap.
  - rewrite <- hash_loop_nodes in Hh. destruct (build_loop fuel nodes) as [|n [|]]; simplify_eq/=; eauto.
Qed.

(** The root hash of the tree is the function of the leaf hashes. *)
Lemma BuildMerkleTree_root hs : node_hash (BuildMerkleTree hs) = merkle_root hs.
Proof.
  unfold BuildMerkleTree, merkle_root. destruct hs as [|h hs]; [done|].
  destruct (build_loop_single (length (h :: hs)) (leaf <$> h :: hs)) as [n Hn]; [done|by rewrite length_fmap|].
  assert (node_hash <$> (leaf <$> h :: hs) = h :: hs) as Hleaf.
  { rewrite <- list_fmap_compose. apply list_fmap_id. }
  pose proof (hash_loop_nodes (length (h :: hs)) (leaf <$> h :: hs)) as Hl.
  rewrite Hleaf in Hl. by rewrite Hn in *; rewrite <- Hl.
Qed.

Lemma parent_wf l r : wf_tree l -> wf_tree r -> wf_tree (parent l r).
Proof. destruct l, r; simpl; naive_solver. Qed.

Lemma nextLevel_wf nodes : Forall wf_tree nodes -> Forall wf_tree (nextLevel nodes).
Proof.
  induction nodes as [|x|x y l IH] using pair_ind; intros Hf; [done|..];
    apply Forall_cons in Hf as [Hx Hf]; simpl.
  - constructor; [by apply parent_wf|constructor].
  - apply Forall_cons in Hf as [Hy Hf]. constructor; [by apply parent_wf|auto].
Qed.

Lemma build_loop_wf fuel nodes : Forall wf_tree nodes -> Forall wf_tree (build_loop fuel nodes).
Proof.
  revert nodes; induction fuel as [|f IH]; intros [|x [|y l]] Hf; try done.
  apply IH, nextLevel_wf, Hf.
Qed.

Lemma leaves_wf (hs : list string) : Forall wf_tree (leaf <$> hs).
Proof. apply Forall_fmap, Forall_forall. done. Qed.

(** Every tree that is built satisfies the shape invariant. *)
Lemma BuildMerkleTree_wf hs : wf_tree (BuildMerkleTree hs).
Proof.
  unfold BuildMerkleTree. destruct hs as [|h hs]; [done|].
  destruct (build_loop_single (length (h :: hs)) (leaf <$> h :: hs)) as [n Hn]; [done|by rewrite length_fmap|].
  pose proof (build_loop_wf (length (h :: hs)) _ (leaves_wf (h :: hs))) as Hwf.
  rewrite Hn in *. simpl. by apply Forall_cons in Hwf as [? _].
Qed.

Lemma BuildMerkleTree_not_nil hs : BuildMerkleTree hs <> MNil.
Proof. intros E. pose proof (BuildMerkleTree_wf hs) as H. by rewrite E in H. Qed.

#[export] Hint Resolve BuildMerkleTree_wf BuildMerkleTree_not_nil : gthulhu.

Lemma HashSHA256Hex_digest data : is_digest (HashSHA256Hex data).
Proof. exists (Sum256 data). split; [done|]. split; [apply Sum256_bytes|apply Sum256_length]. Qed.

Lemma hashMerklePair_input a b : hashMerklePair a b = HashSHA256Hex (pair_input a b).
Proof. unfold hashMerklePair, pair_input, HashStringSHA256Hex. by repeat case_match. Qed.

Lemma pair_input_inj a b c d :
  is_digest a -> is_digest b -> is_digest c -> is_digest d ->
  pair_input a b = pair_input c d -> a = c /\ b = d.
Proof.
  intros (x & -> & Hx & Lx) (y & -> & Hy & Ly) (z & -> & Hz & Lz) (w & -> & Hw & Lw).
  unfold pair_input. rewrite !Decode_Encode by done. intros Heq.
  apply app_inj_1 in Heq as [-> ->]; [done|congruence].
Qed.

Lemma hash_level_digest hs : Forall is_digest (hash_level hs).
Proof.
  induction hs as [|x|x y l IH] using pair_ind; simpl; repeat constructor; auto;
    rewrite hashMerklePair_input; apply HashSHA256Hex_digest.
Qed.

(** The root of digests is a digest. *)
Lemma hash_loop_digest fuel hs : Forall is_digest hs -> Forall is_digest (hash_loop fuel hs).
Proof.
  revert hs; induction fuel as [|f IH]; intros [|x [|y l]] Hd; try done. cbn [hash_loop]. apply IH, hash_level_digest.
Qed.

Lemma merkle_root_digest hs : Forall is_digest hs -> is_digest (merkle_root hs).
Proof.
  intros Hd. destruct hs as [|h hs]; [apply HashSHA256Hex_digest|]. unfold merkle_root.
  destruct (hash_loop_single (length (h :: hs)) (h :: hs)) as [r Hr]; [done..|].
  apply (hash_loop_digest (length (h :: hs))) in Hd. rewrite Hr in *. by apply Forall_cons in Hd as [? _].
Qed.

Lemma digest_not_empty h : is_digest h -> h <> "".
Proof. intros (bs & -> & _ & Hlen) He. by destruct bs. Qed.

Lemma collision_freeb_sound inputs : collision_freeb inputs = true -> collision_free inputs.
Proof.
  unfold collision_freeb, collision_free. rewrite forallb_True_iff, Forall_fmap.
  intros H. eapply Forall_impl; [exact H|]. intros x Hx. simpl in Hx.
  rewrite forallb_True_iff, Forall_fmap in Hx. eapply Forall_impl; [exact Hx|].
  intros y Hy. simpl in Hy. by apply bool_decide_eq_true in Hy.
Qed.

Lemma collision_free_spec inputs x y :
  collision_free inputs -> x ∈ inputs -> y ∈ inputs -> Sum256 x = Sum256 y -> x = y.
Proof. unfold collision_free. rewrite Forall_forall. setoid_rewrite Forall_forall. eauto. Qed.

Lemma collision_free_sub inputs inputs' :
  inputs' ⊆ inputs -> collision_free inputs -> collision_free inputs'.
Proof.
  unfold collision_free. rewrite !Forall_forall. setoid_rewrite Forall_forall. intros Hs H x Hx y Hy.
  apply H; by apply Hs.
Qed.

Lemma hashMerklePair_inj inputs a b c d :
  collision_free inputs -> pair_input a b ∈ inputs -> pair_input c d ∈ inputs ->
  is_digest a -> is_digest b -> is_digest c -> is_digest d ->
  hashMerklePair a b = hashMerklePair c d -> a = c /\ b = d.
Proof.
  intros Hcf Hab Hcd Ha Hb Hc Hd Heq. apply pair_input_inj; try done.
  rewrite !hashMerklePair_input in Heq. unfold HashSHA256Hex in Heq.
  apply Encode_inj in Heq; [|apply Sum256_bytes..]. by eapply collision_free_spec.
Qed.

(** One level up loses nothing between levels of the same length. *)
Lemma hash_level_inj hs hs' :
  collision_free (level_inputs hs ++ level_inputs hs') ->
  length hs = length hs' -> Forall is_digest hs -> Forall is_digest hs' ->
  hash_level hs = hash_level hs' -> hs = hs'.
Proof.
  revert hs'; induction hs as [|x|x y l IH] using pair_ind; intros [|x' [|y' l']] Hcf Hlen Hd Hd' Heq;
    simplify_eq/=; [done|..].
  - rewrite !Forall_cons in *. destruct Hd as [Hx _], Hd' as [Hx' _].
    match goal with H : hashMerklePair _ _ = _ |- _ =>
      eapply hashMerklePair_inj in H as [-> _]; [done|apply Hcf|set_solver..|done|done|done|done] end.
  - rewrite !Forall_cons in *. destruct Hd as (Hx & Hy & Hd), Hd' as (Hx' & Hy' & Hd').
    match goal with H : hashMerklePair _ _ = _ |- _ =>
      eapply hashMerklePair_inj in H as [-> ->]; [|apply Hcf|set_solver..|done|done|done|done] end.
    do 2 f_equal. apply IH; try done. eapply collision_free_sub; [|apply Hcf]. set_solver.
Qed.

Lemma hash_loop_inj fuel hs hs' :
  collision_free (loop_inputs fuel hs ++ loop_inputs fuel hs') ->
  length hs = length hs' -> length hs <= fuel -> Forall is_digest hs -> Forall is_digest hs' ->
  hash_loop fuel hs = hash_loop fuel hs' -> hs = hs'.
Proof.
  revert hs hs'; induction fuel as [|f IH]; intros [|x [|y l]] [|x' [|y' l']] Hcf Hlen Hle Hd Hd' Heq;
    try done; simplify_eq/=; try lia.
  assert (x :: y :: l = x' :: y' :: l') as H; [|by simplify_eq].
  pose proof (hash_level_length l) as [Hl _].
  apply hash_level_inj; simpl; try lia; try done.
  { eapply collision_free_sub; [|apply Hcf]. set_solver. }
  apply (IH (hash_level (x :: y :: l)) (hash_level (x' :: y' :: l'))); simpl; try done; try lia.
  - eapply collision_free_sub; [|apply Hcf]. set_solver.
  - f_equal. by apply hash_level_length_eq.
  - apply (hash_level_digest (x :: y :: l)).
  - apply (hash_level_digest (x' :: y' :: l')).
Qed.

(** A root binds the leaves: unless the hash function collides on what was
    hashed, two lists of digests of the same length with the same root are
    equal. *)
Lemma merkle_root_inj hs hs' :
  collision_free (loop_inputs (length hs) hs ++ loop_inputs (length hs') hs') ->
  length hs = length hs' -> Forall is_digest hs -> Forall is_digest hs' ->
  merkle_root hs = merkle_root hs' -> hs = hs'.
Proof.
  intros Hcf Hlen Hd Hd' Heq. destruct hs as [|h hs], hs' as [|h' hs']; try done.
  unfold merkle_root in Heq. rewrite <- Hlen in Hcf, Heq.
  eapply (hash_loop_inj (length (h :: hs))); try done.
  destruct (hash_loop_single (length (h :: hs)) (h :: hs)) as [r Hr]; [done..|].
  destruct (hash_loop_single (length (h :: hs)) (h' :: hs')) as [r' Hr']; [done|by rewrite Hlen|].
  rewrite Hr, Hr' in *. by simplify_eq/=.
Qed.

(** Repeating the last of an odd number of leaves is invisible in the root. *)
Lemma hash_level_dup_last hs c : Nat.even (length hs) = true -> hash_level (hs ++ [c]) = hash_level (hs ++ [c; c]).
Proof. induction hs as [|x|x y l IH] using pair_ind; simpl; intros H; [done..|]. f_equal; auto. Qed.

Lemma hash_loop_fuel f1 f2 hs :
  hs <> [] -> length hs <= f1 -> length hs <= f2 -> hash_loop f1 hs = hash_loop f2 hs.
Proof.
  revert f2 hs; induction f1 as [|f1 IH]; intros [|f2] [|x [|y l]] Hne H1 H2; simplify_eq/=; try done; try lia.
  pose proof (hash_level_length l) as [Hl _]. apply IH; simpl; [done|lia..].
Qed.

Lemma hash_loop_step f x y l : hash_loop (S f) (x :: y :: l) = hash_loop f (hash_level (x :: y :: l)).
Proof. done. Qed.

(** ** Truncation and search *)

Lemma truncate_hash t d : node_hash (TruncateMerkleTree t d) = node_hash t.
Proof. destruct t; simpl; [done|]. by case_match. Qed.

Lemma truncate_truncate t a b :
  TruncateMerkleTree (TruncateMerkleTree t a) b = TruncateMerkleTree t (Z.min a b).
Proof.
  revert a b; induction t as [|h l IHl r IHr]; intros a b; [done|]. simpl.
  destruct (Z.leb_spec a 0); simpl; destruct (Z.leb_spec b 0), (Z.leb_spec (Z.min a b) 0); try lia; try done.
  rewrite IHl, IHr. by replace (Z.min (a - 1) (b - 1)) with (Z.min a b - 1)%Z by lia.
Qed.

Lemma height_nonneg t : (0 <= height t)%Z.
Proof. induction t; simpl; lia. Qed.

Lemma truncate_height t d : (height (TruncateMerkleTree t d) <= Z.max 0 d + 1)%Z.
Proof.
  revert d; induction t as [|h l IHl r IHr]; intros d; simpl; [lia|].
  destruct (Z.leb_spec d 0); simpl; [lia|]. specialize (IHl (d - 1)%Z). specialize (IHr (d - 1)%Z). lia.
Qed.

Lemma truncate_full t d : (height t <= d + 1)%Z -> TruncateMerkleTree t d = t.
Proof.
  revert d; induction t as [|h l IHl r IHr]; intros d Hd; simpl in *; [done|].
  pose proof (height_nonneg l). pose proof (height_nonneg r).
  destruct (Z.leb_spec d 0).
  - destruct l as [|? l1 l2], r as [|? r1 r2]; simpl in *; try done;
      try pose proof (height_nonneg l1); try pose proof (height_nonneg r1); lia.
  - rewrite IHl, IHr; [done|lia..].
Qed.

Lemma find_sound t h n : FindMerkleNode t h = n -> n <> MNil -> subtree n t /\ node_hash n = h.
Proof.
  induction t as [|h' l IHl r IHr]; simpl; intros Hf Hn; [by subst|].
  case_decide as Hd; [subst; auto|].
  destruct (FindMerkleNode l h) as [|x xl xr] eqn:El.
  - destruct (IHr Hf Hn) as [? ?]. auto.
  - destruct (IHl Hf Hn) as [? ?]. auto.
Qed.

Lemma find_complete t h s : subtree s t -> s <> MNil -> node_hash s = h -> FindMerkleNode t h <> MNil.
Proof.
  induction t as [|h' l IHl r IHr]; simpl; intros Hs Hn Hh; [naive_solver|].
  case_decide as Hd; [done|]. destruct Hs as [->|[Hs|Hs]]; [by destruct Hd|..].
  - specialize (IHl Hs Hn Hh). by destruct (FindMerkleNode l h).
  - destruct (FindMerkleNode l h); [by apply IHr|done].
Qed.

(** ** Leaves *)

Lemma leaf_hashes_parent l r : wf_tree l -> wf_tree r -> leaf_hashes (parent l r) = leaf_hashes l ++ leaf_hashes r.
Proof. by destruct l, r. Qed.

Lemma nextLevel_leaves nodes :
  Forall wf_tree nodes -> (nodes ≫= leaf_hashes) `prefix_of` (nextLevel nodes ≫= leaf_hashes).
Proof.
  induction nodes as [|x|x y l IH] using pair_ind; intros Hf; [done|..];
    apply Forall_cons in Hf as [Hx Hf]; cbn [nextLevel]; rewrite !bind_cons.
  - rewrite leaf_hashes_parent by done. simpl. rewrite !app_nil_r. by exists (leaf_hashes x).
  - apply Forall_cons in Hf as [Hy Hf]. rewrite leaf_hashes_parent by done.
    rewrite <- (assoc_L (++)). apply prefix_app, prefix_app, IH, Hf.
Qed.

Lemma build_loop_leaves fuel nodes :
  Forall wf_tree nodes -> (nodes ≫= leaf_hashes) `prefix_of` (build_loop fuel nodes ≫= leaf_hashes).
Proof.
  revert nodes; induction fuel as [|f IH]; intros [|x [|y l]] Hf; try done.
  etrans; [by apply nextLevel_leaves|]. by apply IH, nextLevel_wf.
Qed.

Lemma leaf_hashes_leaves hs : (leaf <$> hs) ≫= leaf_hashes = hs.
Proof. induction hs as [|h hs IH]; [done|]. rewrite fmap_cons, bind_cons, IH. done. Qed.

(** ** Properties *)

(** Remark (tamper evidence).  Two different lists of leaf digests of the same
    length never build trees with the same root hash, unless SHA-256 collides on
    the node inputs hashed while building the two trees. *)
Theorem merkle_root_binds_leaves (l1 l2 : list string) :
  Forall is_digest l1 -> Forall is_digest l2 -> length l1 = length l2 ->
  collision_free (loop_inputs (length l1) l1 ++ loop_inputs (length l2) l2) ->
  l1 <> l2 -> node_hash (BuildMerkleTree l1) <> node_hash (BuildMerkleTree l2).
Proof.
  intros H1 H2 Hlen Hcf Hne Heq. apply Hne. rewrite !BuildMerkleTree_root in Heq.
  by apply merkle_root_inj.
Qed.

(** Remark (shape).  For every list of leaf hashes the loop ends within its fuel with
    one node; that node satisfies the shape invariant (every inner hash is the
    hash of its children's hashes) and its leaves, read from left to right, start
    with the given list in order. *)
Theorem merkle_build_correct (l : list string) :
  l <> [] ->
  wf_tree (BuildMerkleTree l) /\
  l `prefix_of` leaf_hashes (BuildMerkleTree l) /\
  build_loop (length l) (leaf <$> l) = [BuildMerkleTree l].
Proof.
  intros Hne. split; [apply BuildMerkleTree_wf|].
  unfold BuildMerkleTree. destruct l as [|h l]; [done|].
  destruct (build_loop_single (length (h :: l)) (leaf <$> h :: l)) as [n Hn]; [done|by rewrite length_fmap|].
  pose proof (build_loop_leaves (length (h :: l)) _ (leaves_wf (h :: l))) as Hp.
  rewrite leaf_hashes_leaves in Hp. rewrite Hn in *. cbn in Hp |- *. by rewrite app_nil_r in Hp.
Qed.

(** Remark (truncation).  A truncated tree keeps the root hash, is at most one level
    higher than the depth asked for, is the whole tree when the depth reaches the
    leaves, and truncating twice is truncating once at the smaller depth. *)
Theorem merkle_truncate_correct (t : MerkleNode) (d d' : Z) :
  node_hash (TruncateMerkleTree t d) = node_hash t /\
  (height (TruncateMerkleTree t d) <= Z.max 0 d + 1)%Z /\
  TruncateMerkleTree (TruncateMerkleTree t d) d' = TruncateMerkleTree t (Z.min d d') /\
  TruncateMerkleTree t (height t - 1) = t.
Proof.
  split_and!; [apply truncate_hash|apply truncate_height|apply truncate_truncate|].
  apply truncate_full. lia.
Qed.

(** Remark (search).  [FindMerkleNode] returns a subtree with the requested hash
    exactly when the tree has one; otherwise it returns nil. *)
Theorem merkle_find_correct (t : MerkleNode) (h : string) :
  (FindMerkleNode t h <> MNil <-> exists s, subtree s t /\ s <> MNil /\ node_hash s = h) /\
  (FindMerkleNode t h = MNil \/
   subtree (FindMerkleNode t h) t /\ node_hash (FindMerkleNode t h) = h).
Proof.
  split.
  - split; [|intros (s & Hs & Hn & Hh); by apply (find_complete t h s)].
    intros Hn. destruct (find_sound t h _ eq_refl Hn). eauto.
  - destruct (FindMerkleNode t h) as [|x l r] eqn:E; [by left|]. right.
    by apply (find_sound _ _ _ E).
Qed.

(** Remark (a weakness of the padding).  Repeating the last of an odd number of
    leaves, at least three of them, does not change the root hash: a list and
    the list with its last entry doubled cannot be told apart by their roots. *)
Theorem merkle_root_ignores_doubled_last (l : list string) (c : string) :
  l <> [] -> Nat.even (length l) = true ->
  node_hash (BuildMerkleTree (l ++ [c; c])) = node_hash (BuildMerkleTree (l ++ [c])).
Proof.
  intros Hne Hev. rewrite !BuildMerkleTree_root. destruct l as [|x [|y l]]; [done|done|].
  unfold merkle_root. cbn [app length]. rewrite !hash_loop_step. do 2 f_equal.
  change (x :: y :: l ++ [c; c]) with ((x :: y :: l) ++ [c; c]).
  rewrite <- (hash_level_dup_last (x :: y :: l) c) by done. cbn [app].
  pose proof (hash_level_length (l ++ [c])) as [Hl _]. rewrite length_app in *.
  apply hash_loop_fuel; [done|cbn in *; rewrite ?length_app; cbn; lia..].
Qed.

(** Witnesses *)

Definition digest_a : string := HashStringSHA256Hex "a".
Definition digest_b : string := HashStringSHA256Hex "b".

Lemma merkle_root_binds_leaves_witness :
  node_hash (BuildMerkleTree [digest_a; digest_b]) <> node_hash (BuildMerkleTree [digest_b; digest_a]).
Proof.
  apply (merkle_root_binds_leaves [digest_a; digest_b] [digest_b; digest_a]).
  - repeat (apply Forall_cons_2; [apply HashSHA256Hex_digest|]). apply Forall_nil_2.
  - repeat (apply Forall_cons_2; [apply HashSHA256Hex_digest|]). apply Forall_nil_2.
  - vm_compute. reflexivity.
  - apply collision_freeb_sound. vm_compute. reflexivity.
  - vm_compute. discriminate.
Defined.

Lemma merkle_build_correct_witness :
  build_loop 3 (leaf <$> ["x"; "y"; "z"]) = [BuildMerkleTree ["x"; "y"; "z"]].
Proof. apply (merkle_build_correct ["x"; "y"; "z"]). discriminate. Defined.

Lemma merkle_root_ignores_doubled_last_witness :
  node_hash (BuildMerkleTree ["x"; "y"; "z"; "z"]) = node_hash (BuildMerkleTree ["x"; "y"; "z"]).
Proof. apply (merkle_root_ignores_doubled_last ["x"; "y"] "z"); [discriminate|reflexivity]. Defined.
