(* ===== verification/Config.v ===== *)
(** * Configuration: internal/config/config.go and internal/schedext/support.go

    The configuration structs, their defaults, and how a YAML file overlays the
    defaults.  The YAML library is a parameter: a file's text is parsed into the
    keys it mentions ([ConfigDoc], one optional value per struct tag) and a
    [ConfigDoc] is printed as text.  Which keys a struct prints (the [omitempty]
    tags) and what a missing key means (the field keeps its value) is modelled. *)

From stdpp Require Import base gmap strings list pretty.
From Stdlib Require Import ZArith Lia Ascii.
From S2P Require Import Prelude GoStrings.

(** ** The structs *)

Record SchedulerConfig := mkSchedulerConfig {
  SliceNsDefault : Z;
  SliceNsMin : Z;
  Mode : string;
  SchedulerName : string;
  KernelMode : bool;
  MaxTimeWatchdog : bool
}.

Record SimpleSchedulerConfig := mkSimpleSchedulerConfig { EnableFifo : bool }.

Record MonitorConfig := mkMonitorConfig {
  Enabled : bool;
  BPFObjectPath : string;
  CollectionIntervalSec : Z;
  MonitorAll : bool;
  StreamEvents : bool;
  PrometheusPort : Z;
  EnableCRDWatcher : bool;
  KubeConfigPath : string
}.

Record MTLSConfig := mkMTLSConfig { Enable : bool; CertPem : string; KeyPem : string; CAPem : string }.

Record ApiConfig := mkApiConfig {
  Url : string;
  Interval : Z;
  PublicKeyPath : string;
  ApiEnabled : bool;
  AuthEnabled : bool;
  MTLS : MTLSConfig
}.

Record Config := mkConfig {
  Scheduler : SchedulerConfig;
  SimpleScheduler : SimpleSchedulerConfig;
  Monitor : MonitorConfig;
  Debug : bool;
  EarlyProcessing : bool;
  BuiltinIdle : bool;
  Api : ApiConfig
}.

#[global] Instance SchedulerConfig_eq_dec : EqDecision SchedulerConfig.
Proof. solve_decision. Defined.
#[global] Instance MonitorConfig_eq_dec : EqDecision MonitorConfig.
Proof. solve_decision. Defined.
#[global] Instance MTLSConfig_eq_dec : EqDecision MTLSConfig.
Proof. solve_decision. Defined.
#[global] Instance ApiConfig_eq_dec : EqDecision ApiConfig.
Proof. solve_decision. Defined.
#[global] Instance SimpleSchedulerConfig_eq_dec : EqDecision SimpleSchedulerConfig.
Proof. solve_decision. Defined.
#[global] Instance Config_eq_dec : EqDecision Config.
Proof. solve_decision. Defined.

Definition zeroMTLS : MTLSConfig := mkMTLSConfig false "" "" "".

Definition DefaultConfig : Config :=
  mkConfig
    (mkSchedulerConfig (20000 * 1000) (1000 * 1000) "" "" false true)
    (mkSimpleSchedulerConfig false)
    (mkMonitorConfig true "sched_monitor.bpf.o" 10 false false 9090 false "")
    false false false
    (mkApiConfig "" 0 "" false false zeroMTLS).

Definition GetSchedulerConfig (c : Config) : SchedulerConfig := Scheduler c.
Definition GetApiConfig (c : Config) : ApiConfig := Api c.
Definition GetMonitorConfig (c : Config) : MonitorConfig := Monitor c.
Definition IsDebugEnabled (c : Config) : bool := Debug c.
Definition IsBuiltinIdleEnabled (c : Config) : bool := BuiltinIdle c.
Definition IsMonitorEnabled (c : Config) : bool := Enabled (Monitor c).

Definition IsSchedulerEnabled (c : Config) : bool :=
  bool_decide (Mode (Scheduler c) <> "") && bool_decide (Mode (Scheduler c) <> "none").

(** ** YAML documents *)

(** The keys of a document, by the struct that declares them. *)
Record SchedulerDoc := mkSchedulerDoc {
  d_slice_ns_default : option Z;
  d_slice_ns_min : option Z;
  d_mode : option string;
  d_scheduler_name : option string;
  d_kernel_mode : option bool;
  d_max_time_watchdog : option bool
}.

Record MonitorDoc := mkMonitorDoc {
  d_enabled : option bool;
  d_bpf_object_path : option string;
  d_collection_interval_sec : option Z;
  d_monitor_all : option bool;
  d_stream_events : option bool;
  d_prometheus_port : option Z;
  d_enable_crd_watcher : option bool;
  d_kubeconfig_path : option string
}.

Record MTLSDoc := mkMTLSDoc {
  d_mtls_enable : option bool;
  d_cert_pem : option string;
  d_key_pem : option string;
  d_ca_pem : option string
}.

Record ApiDoc := mkApiDoc {
  d_url : option string;
  d_interval : option Z;
  d_public_key_path : option string;
  d_api_enabled : option bool;
  d_auth_enabled : option bool;
  d_mtls : option MTLSDoc
}.

Record ConfigDoc := mkConfigDoc {
  d_scheduler : option SchedulerDoc;
  d_simple_scheduler : option (option bool);  (** its one key, [enable_fifo] *)
  d_monitor : option MonitorDoc;
  d_debug : option bool;
  d_early_processing : option bool;
  d_builtin_idle : option bool;
  d_api : option ApiDoc
}.

(** [omitempty]: the zero value of a type is not printed. *)
Definition omit_z (z : Z) : option Z := if decide (z = 0%Z) then None else Some z.
Definition omit_s (s : string) : option string := if decide (s = "") then None else Some s.
Definition omit_b (b : bool) : option bool := if b then Some true else None.

(** [yaml.Marshal] of a [Config], up to the text. *)
Definition marshal_doc (c : Config) : ConfigDoc :=
  let s := Scheduler c in let m := Monitor c in let a := Api c in
  mkConfigDoc
    (Some (mkSchedulerDoc (Some (SliceNsDefault s)) (Some (SliceNsMin s)) (omit_s (Mode s))
             (omit_s (SchedulerName s)) (omit_b (KernelMode s)) (omit_b (MaxTimeWatchdog s))))
    (if EnableFifo (SimpleScheduler c) then Some (Some true) else None)
    (Some (mkMonitorDoc (Some (Enabled m)) (omit_s (BPFObjectPath m)) (omit_z (CollectionIntervalSec m))
             (omit_b (MonitorAll m)) (omit_b (StreamEvents m)) (omit_z (PrometheusPort m))
             (omit_b (EnableCRDWatcher m)) (omit_s (KubeConfigPath m))))
    (omit_b (Debug c)) (omit_b (EarlyProcessing c)) (omit_b (BuiltinIdle c))
    (Some (mkApiDoc (Some (Url a)) (Some (Interval a)) (Some (PublicKeyPath a))
             (omit_b (ApiEnabled a)) (omit_b (AuthEnabled a))
             (if decide (MTLS a = zeroMTLS) then None
              else Some (mkMTLSDoc (Some (Enable (MTLS a))) (Some (CertPem (MTLS a)))
                           (Some (KeyPem (MTLS a))) (Some (CAPem (MTLS a))))))).

Definition overlay_scheduler (d : SchedulerDoc) (s : SchedulerConfig) : SchedulerConfig :=
  mkSchedulerConfig (default (SliceNsDefault s) (d_slice_ns_default d)) (default (SliceNsMin s) (d_slice_ns_min d))
    (default (Mode s) (d_mode d)) (default (SchedulerName s) (d_scheduler_name d))
    (default (KernelMode s) (d_kernel_mode d)) (default (MaxTimeWatchdog s) (d_max_time_watchdog d)).

Definition overlay_monitor (d : MonitorDoc) (m : MonitorConfig) : MonitorConfig :=
  mkMonitorConfig (default (Enabled m) (d_enabled d)) (default (BPFObjectPath m) (d_bpf_object_path d))
    (default (CollectionIntervalSec m) (d_collection_interval_sec d)) (default (MonitorAll m) (d_monitor_all d))
    (default (StreamEvents m) (d_stream_events d)) (default (PrometheusPort m) (d_prometheus_port d))
    (default (EnableCRDWatcher m) (d_enable_crd_watcher d)) (default (KubeConfigPath m) (d_kubeconfig_path d)).

Definition overlay_mtls (d : MTLSDoc) (m : MTLSConfig) : MTLSConfig :=
  mkMTLSConfig (default (Enable m) (d_mtls_enable d)) (default (CertPem m) (d_cert_pem d))
    (default (KeyPem m) (d_key_pem d)) (default (CAPem m) (d_ca_pem d)).

Definition overlay_api (d : ApiDoc) (a : ApiConfig) : ApiConfig :=
  mkApiConfig (default (Url a) (d_url d)) (default (Interval a) (d_interval d))
    (default (PublicKeyPath a) (d_public_key_path d)) (default (ApiEnabled a) (d_api_enabled d))
    (default (AuthEnabled a) (d_auth_enabled d))
    (from_option (fun m => overlay_mtls m (MTLS a)) (MTLS a) (d_mtls d)).

(** Decoding into an existing [Config]: keys that are absent change nothing. *)
Definition overlay (d : ConfigDoc) (c : Config) : Config :=
  mkConfig (from_option (fun s => overlay_scheduler s (Scheduler c)) (Scheduler c) (d_scheduler d))
    (mkSimpleSchedulerConfig
       (default (EnableFifo (SimpleScheduler c)) (default None (d_simple_scheduler d))))
    (from_option (fun m => overlay_monitor m (Monitor c)) (Monitor c) (d_monitor d))
    (default (Debug c) (d_debug d)) (default (EarlyProcessing c) (d_early_processing d))
    (default (BuiltinIdle c) (d_builtin_idle d))
    (from_option (fun a => overlay_api a (Api c)) (Api c) (d_api d)).

(** ** Files *)

(** What [os.Open] and a full read of a path give. *)
Inductive open_result :=
| FileData (content : string)
| FileNotExist
| FileError.

Inductive config_error := ErrOpen | ErrDecode.

(** The YAML library: text to keys and keys to text. *)
Class YAML := {
  yaml_parse : string -> option ConfigDoc;
  yaml_print : ConfigDoc -> string
}.

(** Its documented behaviour the daemon relies on: what was printed parses back. *)
Class YAMLRoundTrip (Y : YAML) : Prop :=
  yaml_parse_print : forall d, yaml_parse (yaml_print d) = Some d.

Section with_yaml.
  Context `{Y : YAML}.

Definition LoadConfig (fs : string -> open_result) (filename : string) : result config_error Config :=
  if decide (filename = "") then Ok DefaultConfig else
  match fs filename with
  | FileNotExist => Ok DefaultConfig
  | FileError => Err ErrOpen
  | FileData content =>
      match yaml_parse content with
      | Some d => Ok (overlay d DefaultConfig)
      | None => Err ErrDecode
      end
  end.

End with_yaml.

(** ** sched_ext support: internal/schedext/support.go *)

Definition UnsupportedExitCode : Z := 78.
Definition minKernelMajor : Z := 6.
Definition minKernelMinor : Z := 12.

(** Every error of [CheckSupport] wraps [ErrUnsupported]; the constructor says
    which message it carries. *)
Inductive unsupported_error :=
| UnameFailed
| BadRelease (release : string)
| KernelTooOld (release : string)
| SysfsMissing
| SysfsInaccessible.

(** [os.Stat] on a path: success, [os.IsNotExist], or another error. *)
Inductive stat_error := StatNotExist | StatOther.

(** [cStringToGoString]: the bytes before the first NUL. *)
Fixpoint cStringToGoString (chars : list Z) : string :=
  match chars with
  | [] => ""
  | c :: cs => if (c =? 0)%Z then "" else String (ascii_of_N (Z.to_N (c mod 256))) (cStringToGoString cs)
  end.

(** The leading space [%d] skips; a newline is an error of [Sscanf]. *)
Fixpoint scan_space (s : string) : option string :=
  match s with
  | String a s1 =>
      if (byte_of a =? 10)%N then None
      else if (byte_of a =? 13)%N && HasPrefix s1 (String "010" "") then None
      else if is_space1 a then scan_space s1 else
      match s1 with
      | String b s2 =>
          if is_space2 a b then scan_space s2 else
          match s2 with
          | String c s3 => if is_space3 a b c then scan_space s3 else Some s
          | EmptyString => Some s
          end
      | EmptyString => Some s
      end
  | EmptyString => Some s
  end.

(** The longest run of digits and the rest. *)
Fixpoint take_digits (s : string) : string * string :=
  match s with
  | String a s' =>
      match digit_of a with
      | Some _ => let '(d, r) := take_digits s' in (String a d, r)
      | None => ("", s)
      end
  | EmptyString => ("", "")
  end.

(** The verb [%d] of [Sscanf]: the number and the rest of the input. *)
Definition scan_int (s : string) : option (Z * string) :=
  s ← scan_space s;
  let '(sign, s) := match s with
                    | String "-" s' => ("-", s')
                    | String "+" s' => ("+", s')
                    | _ => ("", s)
                    end in
  let '(digits, rest) := take_digits s in
  n ← Atoi (sign +:+ digits);
  Some (n, rest).

(** [fmt.Sscanf(release, "%d.%d", ...)] *)
Definition parseKernelMajorMinor (release : string) : option (Z * Z) :=
  '(major, rest) ← scan_int release;
  match rest with
  | String "." rest' => '(minor, _) ← scan_int rest'; Some (major, minor)
  | _ => None
  end.

(** [CheckSupport] with the results of [uname] and of the stat of
    [/sys/kernel/sched_ext]. *)
Definition CheckSupport (uname : option (list Z)) (sysfs : option stat_error) : option unsupported_error :=
  match uname with
  | None => Some UnameFailed
  | Some chars =>
      let release := cStringToGoString chars in
      match parseKernelMajorMinor release with
      | None => Some (BadRelease release)
      | Some (major, minor) =>
          if ((major <? minKernelMajor) || ((major =? minKernelMajor) && (minor <? minKernelMinor)))%Z
          then Some (KernelTooOld release)
          else match sysfs with
               | Some StatNotExist => Some SysfsMissing
               | Some StatOther => Some SysfsInaccessible
               | None => None
               end
      end
  end.

(** A kernel release as [uname] stores it: the bytes, a NUL, anything. *)
Definition uts_release (s : string) (junk : list Z) : list Z :=
  ((fun a => Z.of_N (byte_of a)) <$> chars s) ++ 0%Z :: junk.

(** ** Lemmas *)

Definition reloaded (c : Config) : Config :=
  let s := Scheduler c in let m := Monitor c in
  mkConfig
    (mkSchedulerConfig (SliceNsDefault s) (SliceNsMin s) (Mode s) (SchedulerName s) (KernelMode s) true)
    (SimpleScheduler c)
    (mkMonitorConfig (Enabled m)
       (if decide (BPFObjectPath m = "") then "sched_monitor.bpf.o" else BPFObjectPath m)
       (if decide (CollectionIntervalSec m = 0%Z) then 10%Z else CollectionIntervalSec m)
       (MonitorAll m) (StreamEvents m)
       (if decide (PrometheusPort m = 0%Z) then 9090%Z else PrometheusPort m)
       (EnableCRDWatcher m) (KubeConfigPath m))
    (Debug c) (EarlyProcessing c) (BuiltinIdle c) (Api c).

Lemma default_omit_s s : default "" (omit_s s) = s.
Proof. unfold omit_s. by case_decide. Qed.
Lemma default_omit_b b : default false (omit_b b) = b.
Proof. by destruct b. Qed.
Lemma default_omit_b_true b : default true (omit_b b) = true.
Proof. by destruct b. Qed.
Lemma default_omit_s' s x : default x (omit_s s) = if decide (s = "") then x else s.
Proof. unfold omit_s. by case_decide. Qed.
Lemma default_omit_z' z x : default x (omit_z z) = if decide (z = 0%Z) then x else z.
Proof. unfold omit_z. by case_decide. Qed.

#[export] Hint Rewrite default_omit_s default_omit_b default_omit_b_true : gthulhu_rw.

(** Printing a configuration and loading it over the defaults. *)
Lemma overlay_marshal c : overlay (marshal_doc c) DefaultConfig = reloaded c.
Proof.
  destruct c as [[] [ff] [] ? ? ? [? ? ? ? ? [? ? ? ?]]]. unfold overlay, marshal_doc, reloaded. simpl.
  unfold overlay_scheduler, overlay_monitor, overlay_api. simpl.
  autorewrite with gthulhu_rw. rewrite !default_omit_s', !default_omit_z'.
  f_equal; [by destruct ff|]. f_equal.
  case_decide as Hz; simpl; [by inversion Hz|done].
Qed.

Lemma config_load_marshal `{Y : YAML} `{!YAMLRoundTrip Y} (fs : string -> open_result) (path : string) (c : Config) :
  path <> "" -> fs path = FileData (yaml_print (marshal_doc c)) -> LoadConfig fs path = Ok (reloaded c).
Proof.
  intros Hp Hf. unfold LoadConfig. rewrite decide_False by done.
  by rewrite Hf, yaml_parse_print, overlay_marshal.
Qed.

Lemma cString_release s junk :
  Forall (fun a => byte_of a <> 0%N) (chars s) -> cStringToGoString (uts_release s junk) = s.
Proof.
  unfold uts_release, byte_of. induction s as [|a s IH]; [done|]. simpl. intros Hf. apply Forall_cons in Hf as [Ha Hf].
  pose proof (N_ascii_bounded a).
  destruct (Z.eqb_spec (Z.of_N (N_of_ascii a)) 0); [lia|].
  rewrite Z.mod_small by lia. rewrite N2Z.id, ascii_N_embedding. f_equal. by apply IH.
Qed.

Lemma digit_byte a d : digit_of a = Some d -> (48 <= byte_of a <= 57)%N.
Proof. unfold digit_of. case_match eqn:E; [|done]. intros _. lia. Qed.

Lemma digit_not_space1 a : is_digit a -> is_space1 a = false.
Proof. intros [d Hd%digit_byte]. unfold is_space1. cbv zeta. lia. Qed.

Lemma digit_not_space2 a b : is_digit a -> is_space2 a b = false.
Proof. intros [d Hd%digit_byte]. unfold is_space2. lia. Qed.

Lemma digit_not_space3 a b c : is_digit a -> is_space3 a b c = false.
Proof. intros [d Hd%digit_byte]. unfold is_space3. cbv zeta. lia. Qed.

Lemma scan_space_digit a s : is_digit a -> scan_space (String a s) = Some (String a s).
Proof.
  intros Ha. destruct Ha as [d Hd]. pose proof (digit_byte _ _ Hd) as Hb. simpl.
  replace (byte_of a =? 10)%N with false by lia. replace (byte_of a =? 13)%N with false by lia. simpl.
  rewrite digit_not_space1 by (by eexists). destruct s as [|b [|c s]]; [done|..];
    rewrite digit_not_space2 by (by eexists); [done|]. rewrite digit_not_space3 by (by eexists). done.
Qed.

Definition no_digit_front (s : string) : Prop :=
  match s with EmptyString => True | String a _ => digit_of a = None end.

Lemma take_digits_app s rest :
  Forall is_digit (chars s) -> no_digit_front rest -> take_digits (s +:+ rest) = (s, rest).
Proof.
  intros Hs Hr. induction s as [|a s IH].
  - rewrite string_app_nil_l. destruct rest as [|b r]; [done|]. simpl in *. by rewrite Hr.
  - simpl in Hs. apply Forall_cons in Hs as [[d Ha] Hs]. rewrite string_app_cons. simpl.
    rewrite Ha, IH by done. done.
Qed.

(** A printed number in front of something that is no digit is scanned. *)
Lemma scan_int_pretty (n : N) rest :
  (Z.of_N n <= max_i64)%Z -> no_digit_front rest -> scan_int (Itoa (Z.of_N n) +:+ rest) = Some (Z.of_N n, rest).
Proof.
  intros Hn Hr. pose proof (Atoi_Itoa (Z.of_N n)) as Ha. unfold is_i64, max_i64 in *.
  specialize (Ha ltac:(lia)).
  assert (Itoa (Z.of_N n) = pretty n) as Hp by (by destruct n). rewrite Hp in *.
  destruct (pretty_N_digits n) as [Hall Hne]. destruct (pretty n) as [|a s] eqn:E; [done|].
  unfold scan_int. rewrite string_app_cons, scan_space_digit by (by apply Forall_cons in Hall as [? _]).
  cbn [mbind option_bind]. rewrite <- string_app_cons.
  assert (a <> "-"%char /\ a <> "+"%char) as [H1 H2].
  { apply Forall_cons in Hall as [[d Hd] _]. by split; intros ->. }
  pose proof (take_digits_app (String a s) rest Hall Hr) as Ht.
  rewrite string_app_cons in *.
  by destruct a as [[] [] [] [] [] [] [] []]; try done; rewrite Ht, string_app_nil_l, Ha.
Qed.

Lemma parse_release (major minor : N) rest :
  (Z.of_N major <= max_i64)%Z -> (Z.of_N minor <= max_i64)%Z -> no_digit_front rest ->
  parseKernelMajorMinor (Itoa (Z.of_N major) +:+ "." +:+ Itoa (Z.of_N minor) +:+ rest) =
  Some (Z.of_N major, Z.of_N minor).
Proof.
  intros Hm Hn Hr. unfold parseKernelMajorMinor.
  rewrite scan_int_pretty by done. cbn [mbind option_bind].
  rewrite string_app_cons, string_app_nil_l, scan_int_pretty by done. done.
Qed.

(** ** Properties *)

(** Remark (kernel check).  On a release string [major.minor...], the check passes
    exactly when the kernel is 6.12 or newer and the sysfs directory of sched_ext
    can be read. *)
Theorem CheckSupport_correct (major minor : N) (rest : string) (junk : list Z) (sysfs : option stat_error) :
  (Z.of_N major <= max_i64)%Z -> (Z.of_N minor <= max_i64)%Z -> no_digit_front rest ->
  Forall (fun a => byte_of a <> 0%N) (chars rest) ->
  let release := Itoa (Z.of_N major) +:+ "." +:+ Itoa (Z.of_N minor) +:+ rest in
  CheckSupport (Some (uts_release release junk)) sysfs = None <->
  (6 < major \/ (major = 6 /\ 12 <= minor))%N /\ sysfs = None.
Proof.
  intros Hm Hn Hr Hz release. unfold CheckSupport.
  assert (forall n : N, Forall (fun a => byte_of a <> 0%N) (chars (Itoa (Z.of_N n)))) as Hd.
  { intros n. assert (Itoa (Z.of_N n) = pretty n) as -> by (by destruct n).
    eapply Forall_impl; [apply pretty_N_digits|]. intros a [d Ha%digit_byte]. lia. }
  rewrite cString_release.
  2:{ unfold release. rewrite !chars_app, !Forall_app. repeat split; auto; by repeat constructor. }
  unfold release. rewrite parse_release by done. unfold minKernelMajor, minKernelMinor.
  destruct (_ || _)%bool eqn:E.
  - split; [done|]. intros [H _]. lia.
  - destruct sysfs as [[]|]; [naive_solver..|]. split; [|done]. intros _. split; [lia|done].
Qed.

Lemma CheckSupport_correct_witness :
  CheckSupport (Some (uts_release "6.12.0-rc1" [7; 0]%Z)) None = None.
Proof.
  apply (CheckSupport_correct 6 12 ".0-rc1" [7; 0]%Z None).
  - vm_compute. discriminate.
  - vm_compute. discriminate.
  - reflexivity.
  - apply (bool_decide_eq_true_1 _). vm_compute. reflexivity.
  - split; [right; lia|reflexivity].
Defined.

(** Remark (a lossy round trip).  A configuration written by the daemon and loaded
    again is the same except where a zero value is dropped on the way out and a
    default put back on the way in: the watchdog flag always comes back true, and
    an empty BPF object path, a zero collection interval and a zero Prometheus
    port come back as their defaults. *)
Theorem config_write_load `{Y : YAML} `{!YAMLRoundTrip Y} (fs : string -> open_result) (path : string) (c : Config) :
  path <> "" -> fs path = FileData (yaml_print (marshal_doc c)) ->
  LoadConfig fs path = Ok (reloaded c) /\
  (reloaded c = c <->
     MaxTimeWatchdog (Scheduler c) = true /\ BPFObjectPath (Monitor c) <> "" /\
     CollectionIntervalSec (Monitor c) <> 0%Z /\ PrometheusPort (Monitor c) <> 0%Z).
Proof.
  intros Hp Hf. split.
  - by apply config_load_marshal.
  - destruct c as [[] ? [] ? ? ? ?]. unfold reloaded. simpl. split.
    + intros Heq. injection Heq as Hw Hb Hc Hp2. repeat case_decide; split_and!; congruence.
    + intros (-> & ? & ? & ?). by repeat case_decide.
Qed.

(** A YAML library for the witnesses: documents are countable, and a document is
    printed as its number. *)
#[global] Instance SchedulerDoc_eq_dec : EqDecision SchedulerDoc.
Proof. solve_decision. Defined.
#[global] Instance MonitorDoc_eq_dec : EqDecision MonitorDoc.
Proof. solve_decision. Defined.
#[global] Instance MTLSDoc_eq_dec : EqDecision MTLSDoc.
Proof. solve_decision. Defined.
#[global] Instance ApiDoc_eq_dec : EqDecision ApiDoc.
Proof. solve_decision. Defined.
#[global] Instance ConfigDoc_eq_dec : EqDecision ConfigDoc.
Proof. solve_decision. Defined.

#[global] Instance SchedulerDoc_countable : Countable SchedulerDoc.
Proof.
  refine (inj_countable' (fun '(mkSchedulerDoc a b c d e f) => (a, b, c, d, e, f))
    (fun '(a, b, c, d, e, f) => mkSchedulerDoc a b c d e f) _). by intros [].
Defined.
#[global] Instance MonitorDoc_countable : Countable MonitorDoc.
Proof.
  refine (inj_countable' (fun '(mkMonitorDoc a b c d e f g h) => (a, b, c, d, e, f, g, h))
    (fun '(a, b, c, d, e, f, g, h) => mkMonitorDoc a b c d e f g h) _). by intros [].
Defined.
#[global] Instance MTLSDoc_countable : Countable MTLSDoc.
Proof.
  refine (inj_countable' (fun '(mkMTLSDoc a b c d) => (a, b, c, d))
    (fun '(a, b, c, d) => mkMTLSDoc a b c d) _). by intros [].
Defined.
#[global] Instance ApiDoc_countable : Countable ApiDoc.
Proof.
  refine (inj_countable' (fun '(mkApiDoc a b c d e f) => (a, b, c, d, e, f))
    (fun '(a, b, c, d, e, f) => mkApiDoc a b c d e f) _). by intros [].
Defined.
#[global] Instance ConfigDoc_countable : Countable ConfigDoc.
Proof.
  refine (inj_countable' (fun '(mkConfigDoc a b c d e f g) => (a, b, c, d, e, f, g))
    (fun '(a, b, c, d, e, f, g) => mkConfigDoc a b c d e f g) _). by intros [].
Defined.

Definition counting_yaml : YAML := {|
  yaml_print d := pretty (Npos (encode d));
  yaml_parse s := z ← digits_go 0 s; decode (Z.to_pos z)
|}.

#[global] Instance counting_yaml_round_trip : YAMLRoundTrip counting_yaml.
Proof. intros d. simpl. rewrite digits_go_pretty_N. simpl. apply decode_encode. Qed.

Definition sample_config : Config :=
  mkConfig (mkSchedulerConfig 5000000 500000 "simple" "" true false) (mkSimpleSchedulerConfig true)
    (mkMonitorConfig true "m.o" 3 true false 9100 false "") false true false
    (mkApiConfig "http://api" 7 "k.pem" true true (mkMTLSConfig true "c" "k" "a")).

Lemma config_write_load_witness :
  let fs := fun _ => FileData (@yaml_print counting_yaml (marshal_doc sample_config)) in
  @LoadConfig counting_yaml fs "f.yaml" = Ok (reloaded sample_config) /\
  reloaded sample_config <> sample_config.
Proof.
  destruct (config_write_load (Y := counting_yaml)
    (fun _ => FileData (@yaml_print counting_yaml (marshal_doc sample_config))) "f.yaml" sample_config)
    as [H1 H2]; [discriminate|reflexivity|].
  split; [exact H1|]. intros Heq. apply H2 in Heq as [Hw _]. discriminate Hw.
Defined.
