(* ===== verification/DaemonConfig.v ===== *)
(** * The daemon's runtime configuration: internal/daemon/daemon.go, domain.go, adapters.go

    Loading, merging a request into, validating and atomically rewriting the
    runtime configuration file, and resolving the scheduler command from it.  The
    disk is a finite map from paths to contents; which system calls fail is an
    argument of the operations. *)

From stdpp Require Import base gmap strings list.
From Stdlib Require Import ZArith Lia Ascii.
From S2P Require Import Prelude GoStrings GoPath Config.

(** ** Data *)

Record runtimeConfigRequest := mkRequest {
  rq_ConfigVersion : string;
  rq_Mode : string;
  rq_SchedulerName : string;
  rq_SliceNsDefault : Z;
  rq_SliceNsMin : Z;
  rq_KernelMode : option bool;
  rq_MaxTimeWatchdog : option bool;
  rq_EarlyProcessing : option bool;
  rq_BuiltinIdle : option bool;
  rq_SchedulerEnabled : option bool;
  rq_MonitoringEnabled : option bool
}.

Definition allowedSCXSchedulers : gset string := list_to_set
  ["scx_beerland"; "scx_bpfland"; "scx_cake"; "scx_chaos"; "scx_cosmos"; "scx_flash"; "scx_lavd";
   "scx_layered"; "scx_mitosis"; "scx_p2dq"; "scx_pandemonium"; "scx_rlfifo"; "scx_rustland";
   "scx_rusty"; "scx_tickless"; "scx_timely"; "scx_wd40"].

(** The errors of this component; [errors.Is(err, schedext.ErrUnsupported)] holds
    of [ErrSchedExt] only. *)
Inductive daemon_error :=
| ErrLoad (e : config_error)
| ErrNameRequired
| ErrNameNotBinary (name : string)
| ErrNameNotAllowed (name : string)
| ErrMode (mode : string)
| ErrOutsideDir (name : string)
| ErrNotFound (path : string)
| ErrStat (path : string)
| ErrIsDir (path : string)
| ErrNotExecutable (path : string)
| ErrMkdir
| ErrWrite
| ErrSchedExt (e : unsupported_error).

Definition is_unsupported (e : daemon_error) : bool :=
  match e with ErrSchedExt _ => true | _ => false end.

(** ** The disk *)

(** [os.Open] on the disk; [bad] are the paths whose open fails otherwise. *)
Definition open_disk (bad : gset string) (disk : gmap string string) (path : string) : open_result :=
  if decide (path ∈ bad) then FileError
  else match disk !! path with Some c => FileData c | None => FileNotExist end.

(** What [os.Stat] says of a path that may be a binary. *)
Record file_info := mkFileInfo { fi_is_dir : bool; fi_mode : Z }.

(** ** Validation *)

Definition validateScheduler (mode schedulerName : string) : option daemon_error :=
  let mode := TrimSpace mode in
  let mode := if decide (mode = "") then "gthulhu" else mode in
  if decide (mode = "none" \/ mode = "gthulhu" \/ mode = "simple") then None
  else if decide (mode = "scx") then
    let name := TrimSpace schedulerName in
    if decide (name = "") then Some ErrNameRequired
    else if bool_decide (Base name <> name) || Contains name "/" then Some (ErrNameNotBinary schedulerName)
    else if decide (name ∈ allowedSCXSchedulers) then None
    else Some (ErrNameNotAllowed name)
  else Some (ErrMode mode).

Definition ensureExecutable (stat : string -> result stat_error file_info) (path : string)
    : option daemon_error :=
  match stat path with
  | Err StatNotExist => Some (ErrNotFound path)
  | Err StatOther => Some (ErrStat path)
  | Ok info =>
      if fi_is_dir info then Some (ErrIsDir path)
      else if (Z.land (fi_mode info) 73 =? 0)%Z then Some (ErrNotExecutable path)  (* 0o111 *)
      else None
  end.

Definition ensureExecutableInDir (stat : string -> result stat_error file_info) (dir name : string)
    : result daemon_error string :=
  let cleanDir := Clean dir in
  let cleanPath := Clean (PathJoin cleanDir name) in
  if HasPrefix cleanPath (cleanDir +:+ "/") then
    match ensureExecutable stat cleanPath with
    | Some e => Err e
    | None => Ok cleanPath
    end
  else Err (ErrOutsideDir name).

(** ** Atomic replacement of a file *)

(** Which of the system calls succeed; a failed write leaves some prefix. *)
Record write_outcomes := mkOutcomes {
  wo_create : bool;
  wo_chmod : bool;
  wo_write : result string unit;   (** [Err p]: only [p] reached the file *)
  wo_sync : bool;
  wo_close : bool;
  wo_rename : bool;
  wo_remove : bool                 (** the deferred removal *)
}.

(** The deferred function: the temporary file is removed unless it was renamed. *)
Definition cleanup_tmp (o : write_outcomes) (tmp : string) (disk : gmap string string) : gmap string string :=
  if wo_remove o then delete tmp disk else disk.

(** [atomicWriteConfigFile]: the disks after each system call, the last one being
    the disk on return, and whether the error is nil. *)
Definition atomicWriteConfigFile (o : write_outcomes) (tmp path content : string)
    (disk : gmap string string) : list (gmap string string) * bool :=
  if negb (wo_create o) then ([disk], false) else
  let d1 := <[tmp := ""]> disk in
  let fail d := ([d1; d; cleanup_tmp o tmp d], false) in
  if negb (wo_chmod o) then fail d1 else
  match wo_write o with
  | Err partial => fail (<[tmp := partial]> d1)
  | Ok _ =>
      let d2 := <[tmp := content]> d1 in
      if negb (wo_sync o && wo_close o) then fail d2
      else if negb (wo_rename o) then fail d2
      else ([d1; d2; <[path := content]> (delete tmp d2)], true)
  end.

(** The disk when the function returns. *)
Definition final_disk (disk : gmap string string) (trace : list (gmap string string)) : gmap string string :=
  default disk (last trace).

(** ** Merging a request *)

Definition set_nonempty (new old : string) : string := if decide (new = "") then old else new.
Definition set_nonzero (new old : Z) : Z := if decide (new = 0%Z) then old else new.

(** The mode: the one requested or the old one, and when both are empty the one
    [SchedulerEnabled] stands for. *)
Definition merge_mode (req : runtimeConfigRequest) (old : string) : string :=
  let mode := set_nonempty (rq_Mode req) old in
  match rq_SchedulerEnabled req with
  | Some false => if decide (mode = "") then "none" else mode
  | Some true => if decide (mode = "") then "gthulhu" else mode
  | None => mode
  end.

(** Lines 216 to 247: every field the request sets. *)
Definition merge_scheduler (req : runtimeConfigRequest) (cfg : Config) : Config :=
  let s := Scheduler cfg in
  mkConfig
    (mkSchedulerConfig (set_nonzero (rq_SliceNsDefault req) (SliceNsDefault s))
       (set_nonzero (rq_SliceNsMin req) (SliceNsMin s)) (merge_mode req (Mode s))
       (set_nonempty (rq_SchedulerName req) (SchedulerName s))
       (default (KernelMode s) (rq_KernelMode req)) (default (MaxTimeWatchdog s) (rq_MaxTimeWatchdog req)))
    (SimpleScheduler cfg) (Monitor cfg) (Debug cfg)
    (default (EarlyProcessing cfg) (rq_EarlyProcessing req))
    (default (BuiltinIdle cfg) (rq_BuiltinIdle req)) (Api cfg).

Definition set_monitor_enabled (b : bool) (m : MonitorConfig) : MonitorConfig :=
  mkMonitorConfig b (BPFObjectPath m) (CollectionIntervalSec m) (MonitorAll m) (StreamEvents m)
    (PrometheusPort m) (EnableCRDWatcher m) (KubeConfigPath m).

(** Lines 256 to 258. *)
Definition merge_monitoring (req : runtimeConfigRequest) (cfg : Config) : Config :=
  mkConfig (Scheduler cfg) (SimpleScheduler cfg)
    (set_monitor_enabled (default (Enabled (Monitor cfg)) (rq_MonitoringEnabled req)) (Monitor cfg))
    (Debug cfg) (EarlyProcessing cfg) (BuiltinIdle cfg) (Api cfg).

(** The struct [prev]: the nine fields a request can change. *)
Definition tracked (c : Config) : string * string * Z * Z * bool * bool * bool * bool * bool :=
  let s := Scheduler c in
  (Mode s, SchedulerName s, SliceNsDefault s, SliceNsMin s, KernelMode s, MaxTimeWatchdog s,
   EarlyProcessing c, BuiltinIdle c, Enabled (Monitor c)).

Section with_yaml.
  Context `{Y : YAML}.

(** [writeConfigFile] *)
Definition writeConfigFile (o : write_outcomes) (tmp path : string) (cfg : Config)
    (disk : gmap string string) : gmap string string * bool :=
  let '(trace, ok) := atomicWriteConfigFile o tmp path (yaml_print (marshal_doc cfg)) disk in
  (final_disk disk trace, ok).

(** [initializeRuntimeConfig] *)
Definition initializeRuntimeConfig (bad : gset string) (mkdir_ok : bool) (o : write_outcomes) (tmp : string)
    (bootstrapConfigPath runtimeConfigPath : string) (disk : gmap string string)
    : gmap string string * option daemon_error :=
  match LoadConfig (open_disk bad disk) bootstrapConfigPath with
  | Err e => (disk, Some (ErrLoad e))
  | Ok cfg =>
      if negb mkdir_ok then (disk, Some ErrMkdir) else
      let '(disk', ok) := writeConfigFile o tmp runtimeConfigPath cfg disk in
      (disk', if ok then None else Some ErrWrite)
  end.

(** [applyRuntimeConfigToFile]: the disk, [changed] and the error. *)
Definition applyRuntimeConfigToFile (bad : gset string) (stat : string -> result stat_error file_info)
    (o : write_outcomes) (tmp : string) (runtimeConfigPath schedulerBinPath : string)
    (req : runtimeConfigRequest) (disk : gmap string string)
    : gmap string string * bool * option daemon_error :=
  match LoadConfig (open_disk bad disk) runtimeConfigPath with
  | Err e => (disk, false, Some (ErrLoad e))
  | Ok prev =>
      let cfg := merge_scheduler req prev in
      let s := Scheduler cfg in
      match validateScheduler (Mode s) (SchedulerName s) with
      | Some e => (disk, false, Some e)
      | None =>
          let exec_err :=
            if decide (Mode s = "scx") then
              match ensureExecutableInDir stat (Dir schedulerBinPath) (SchedulerName s) with
              | Err e => Some e
              | Ok _ => None
              end
            else None in
          match exec_err with
          | Some e => (disk, false, Some e)
          | None =>
              let cfg := merge_monitoring req cfg in
              if decide (tracked prev = tracked cfg) then (disk, false, None) else
              let '(disk', ok) := writeConfigFile o tmp runtimeConfigPath cfg disk in
              (disk', true, if ok then None else Some ErrWrite)
          end
      end
  end.

(** [schedulerCommandFromConfig]: the binary, its arguments and [enabled]. *)
Definition schedulerCommandFromConfig (bad : gset string) (stat : string -> result stat_error file_info)
    (support : option unsupported_error) (configPath gthulhuBin : string) (disk : gmap string string)
    : result daemon_error (string * list string * bool) :=
  match LoadConfig (open_disk bad disk) configPath with
  | Err e => Err (ErrLoad e)
  | Ok cfg =>
      let mode := TrimSpace (Mode (Scheduler cfg)) in
      let mode := if decide (mode = "") then "gthulhu" else mode in
      let self := (gthulhuBin, ["scheduler"; "-config"; configPath], true) in
      if decide (mode = "none") then
        (if IsMonitorEnabled cfg then Ok self else Ok ("", [], false))
      else
      match validateScheduler mode (SchedulerName (Scheduler cfg)) with
      | Some e => Err e
      | None =>
          match support with
          | Some e => if IsMonitorEnabled cfg then Ok self else Err (ErrSchedExt e)
          | None =>
              if decide (mode = "gthulhu" \/ mode = "simple") then Ok self
              else if decide (mode = "scx") then
                rbind (ensureExecutableInDir stat (Dir gthulhuBin) (SchedulerName (Scheduler cfg)))
                  (fun path => Ok (path, [], true))
              else Err (ErrMode mode)
          end
      end
  end.

End with_yaml.

(** ** Lemmas *)

Ltac write_cases o :=
  destruct o as [[] [] [?|?] [] [] [] []]; simpl.

(** The whole story of one atomic write. *)
Lemma atomicWrite_trace o tmp path content disk :
  tmp <> path -> disk !! tmp = None ->
  let '(trace, ok) := atomicWriteConfigFile o tmp path content disk in
  (forall d p, d ∈ trace -> p <> tmp ->
     d !! p = disk !! p \/ (p = path /\ d !! p = Some content)) /\
  (if ok then final_disk disk trace = <[path := content]> disk
   else delete tmp (final_disk disk trace) = disk /\
        (wo_remove o = true -> final_disk disk trace = disk)).
Proof.
  intros Hne Hfresh. unfold atomicWriteConfigFile, cleanup_tmp, final_disk.
  assert (forall s, delete tmp (<[tmp := s]> disk) = disk) as Hdel.
  { intros s. by rewrite delete_insert_id. }
  write_cases o; rewrite ?insert_insert_eq, ?Hdel; (split; [|by rewrite ?Hdel, ?(delete_id disk)]).
  all: intros d p Hin Hp; rewrite !list_elem_of_In in Hin; simpl in Hin;
    repeat destruct Hin as [<-|Hin]; try done; rewrite ?lookup_insert_ne by done; auto.
  all: destruct (decide (p = path)) as [->|Hpp];
    [right; by rewrite lookup_insert_eq|left; by rewrite lookup_insert_ne].
Qed.

Lemma load_written `{Y : YAML} `{!YAMLRoundTrip Y} bad disk path cfg :
  path <> "" -> path ∉ bad ->
  LoadConfig (open_disk bad (<[path := yaml_print (marshal_doc cfg)]> disk)) path = Ok (reloaded cfg).
Proof.
  intros Hp Hb. apply config_load_marshal; [done|]. unfold open_disk.
  rewrite decide_False by done. by rewrite lookup_insert_eq.
Qed.

Lemma writeConfigFile_ok `{Y : YAML} o tmp path cfg disk disk' ok :
  tmp <> path -> disk !! tmp = None -> writeConfigFile o tmp path cfg disk = (disk', ok) ->
  if ok then disk' = <[path := yaml_print (marshal_doc cfg)]> disk
  else delete tmp disk' = disk /\ (wo_remove o = true -> disk' = disk).
Proof.
  intros Hne Hf. unfold writeConfigFile.
  pose proof (atomicWrite_trace o tmp path (yaml_print (marshal_doc cfg)) disk Hne Hf) as Ht.
  destruct (atomicWriteConfigFile _ _ _ _ _) as [trace ok']. intros [= <- <-]. apply Ht.
Qed.

(** Allowed names are plain file names. *)
Lemma allowed_plain name : name ∈ allowedSCXSchedulers -> Base name = name /\ Contains name "/" = false /\ name <> "".
Proof.
  unfold allowedSCXSchedulers. rewrite elem_of_list_to_set, list_elem_of_In. simpl. intros Hin.
  repeat destruct Hin as [<-|Hin]; [by vm_compute..|done].
Qed.

Lemma set_nonempty_idem n o : set_nonempty n (set_nonempty n o) = set_nonempty n o.
Proof. unfold set_nonempty. by repeat case_decide. Qed.
Lemma set_nonzero_idem n o : set_nonzero n (set_nonzero n o) = set_nonzero n o.
Proof. unfold set_nonzero. by repeat case_decide. Qed.
Lemma default_idem {A} (a : A) o : default (default a o) o = default a o.
Proof. by destruct o. Qed.
Lemma merge_mode_idem req old : merge_mode req (merge_mode req old) = merge_mode req old.
Proof.
  unfold merge_mode, set_nonempty. destruct (rq_SchedulerEnabled req) as [[]|]; by repeat case_decide.
Qed.

#[export] Hint Rewrite set_nonempty_idem set_nonzero_idem @default_idem merge_mode_idem : gthulhu_rw.

(** What merging does to the tracked fields, and what writing and loading does. *)
Definition merge_tracked (req : runtimeConfigRequest)
    (t : string * string * Z * Z * bool * bool * bool * bool * bool) :=
  let '(m, n, sd, sm, k, w, e, b, mon) := t in
  (merge_mode req m, set_nonempty (rq_SchedulerName req) n, set_nonzero (rq_SliceNsDefault req) sd,
   set_nonzero (rq_SliceNsMin req) sm, default k (rq_KernelMode req), default w (rq_MaxTimeWatchdog req),
   default e (rq_EarlyProcessing req), default b (rq_BuiltinIdle req), default mon (rq_MonitoringEnabled req)).

Definition reload_tracked (t : string * string * Z * Z * bool * bool * bool * bool * bool) :=
  let '(m, n, sd, sm, k, _, e, b, mon) := t in (m, n, sd, sm, k, true, e, b, mon).

Lemma tracked_merge req c : tracked (merge_monitoring req (merge_scheduler req c)) = merge_tracked req (tracked c).
Proof. reflexivity. Qed.

Lemma tracked_reloaded c : tracked (reloaded c) = reload_tracked (tracked c).
Proof. reflexivity. Qed.

(** Merging a request a second time, after the first result was written and
    loaded again, changes nothing it tracks, unless it asked for the watchdog to
    be off. *)
Lemma tracked_merge_same req prev :
  rq_MaxTimeWatchdog req <> Some false ->
  let once := reloaded (merge_monitoring req (merge_scheduler req prev)) in
  tracked once = tracked (merge_monitoring req (merge_scheduler req once)).
Proof.
  intros Hw. cbv zeta. rewrite tracked_merge, tracked_reloaded, tracked_merge.
  destruct (tracked prev) as [[[[[[[[m n] sd] sm] k] w] e] b] mon]. cbn [merge_tracked reload_tracked].
  rewrite merge_mode_idem, set_nonempty_idem, !set_nonzero_idem, !default_idem.
  destruct (rq_MaxTimeWatchdog req) as [[]|]; [reflexivity|congruence|reflexivity].
Qed.

(** The outcome of a request once the file is loaded and the request passes. *)
Definition accepts (stat : string -> result stat_error file_info) (schedulerBinPath : string) (cfg : Config) : Prop :=
  let s := Scheduler cfg in
  validateScheduler (Mode s) (SchedulerName s) = None /\
  (Mode s = "scx" -> exists p, ensureExecutableInDir stat (Dir schedulerBinPath) (SchedulerName s) = Ok p).

Lemma apply_spec `{Y : YAML} bad stat o tmp path bin req disk :
  let '(disk', changed, err) := applyRuntimeConfigToFile bad stat o tmp path bin req disk in
  (err = None ->
   exists prev, LoadConfig (open_disk bad disk) path = Ok prev /\
     let cfg := merge_scheduler req prev in
     accepts stat bin cfg /\
     if changed then writeConfigFile o tmp path (merge_monitoring req cfg) disk = (disk', true) /\
                     tracked prev <> tracked (merge_monitoring req cfg)
     else disk' = disk /\ tracked prev = tracked (merge_monitoring req cfg)) /\
  (changed = false -> disk' = disk).
Proof.
  unfold applyRuntimeConfigToFile, accepts. destruct (LoadConfig _ _) as [prev|e]; [|done].
  cbv zeta. destruct (validateScheduler _ _) as [e|] eqn:Ev; [done|].
  destruct (decide (Mode (Scheduler (merge_scheduler req prev)) = "scx")) as [Hm|Hm].
  - destruct (ensureExecutableInDir _ _ _) as [p|e] eqn:Ee; [|done].
    case_decide as Ht; [split; [|done]; intros _; exists prev; eauto 10|].
    destruct (writeConfigFile _ _ _ _ _) as [d []] eqn:Ew; (split; [|done]); [|done].
    intros _. exists prev. eauto 10.
  - case_decide as Ht; [split; [|done]; intros _; exists prev; repeat split; try done|].
    destruct (writeConfigFile _ _ _ _ _) as [d []] eqn:Ew; (split; [|done]); [|done].
    intros _. exists prev. repeat split; done.
Qed.

Lemma trim_front_slash f2 f3 s :
  (forall a b, f2 a b = true -> a <> "/"%char /\ b <> "/"%char) ->
  (forall a b c, f3 a b c = true -> a <> "/"%char /\ b <> "/"%char /\ c <> "/"%char) ->
  has_char "/" (trim_front f2 f3 s) = has_char "/" s.
Proof.
  intros H2 H3. induction s as [|a s IH1 IH2 IH3] using trim_front_ind; [done|]. simpl.
  destruct (is_space1 a) eqn:Ea.
  { rewrite IH1. by destruct (Ascii.eqb_spec a "/") as [->|]. }
  destruct s as [|b s]; [done|]. destruct (f2 a b) eqn:Eab.
  { apply H2 in Eab as [Ha Hb]. rewrite (IH2 _ _ eq_refl). simpl.
    by destruct (Ascii.eqb_spec a "/"), (Ascii.eqb_spec b "/"). }
  destruct s as [|c s]; [done|]. destruct (f3 a b c) eqn:Eabc; [|done].
  apply H3 in Eabc as (Ha & Hb & Hc). rewrite (IH3 _ _ _ eq_refl). simpl.
  by destruct (Ascii.eqb_spec a "/"), (Ascii.eqb_spec b "/"), (Ascii.eqb_spec c "/").
Qed.

Lemma TrimSpace_slash s : has_char "/" (TrimSpace s) = has_char "/" s.
Proof.
  assert (forall s, has_char "/" (String.rev s) = has_char "/" s) as Hrev.
  { intros t. apply eq_true_iff_eq. rewrite !has_char_chars, chars_rev. set_solver. }
  assert (forall a b, is_space2 a b = true -> a <> "/"%char /\ b <> "/"%char) as H2.
  { intros a b H. by split; intros ->; destruct a as [[] [] [] [] [] [] [] []] || destruct b as [[] [] [] [] [] [] [] []]. }
  assert (forall a b c, is_space3 a b c = true -> a <> "/"%char /\ b <> "/"%char /\ c <> "/"%char) as H3.
  { unfold is_space3. cbv zeta. intros a b c H. split_and!; intros ->; cbn -[byte_of] in H;
      change (byte_of "/") with 47%N in H; lia. }
  unfold TrimSpace, trim_right, trim_left.
  rewrite Hrev, trim_front_slash, Hrev, trim_front_slash; try done.
  - intros a b H%H2. tauto.
  - intros a b c H%H3. tauto.
Qed.

(** A name that validates is one component of a path. *)
Lemma allowed_good_part name :
  TrimSpace name ∈ allowedSCXSchedulers -> good_part name /\ name <> "..".
Proof.
  intros Hin. destruct (allowed_plain _ Hin) as (_ & _ & Hne).
  assert (has_char "/" name = false) as Hs.
  { rewrite <- TrimSpace_slash. revert Hin. unfold allowedSCXSchedulers.
    rewrite elem_of_list_to_set, list_elem_of_In. generalize (TrimSpace name). intros t Hin. simpl in Hin.
    repeat destruct Hin as [<-|Hin]; [by vm_compute..|done]. }
  assert (TrimSpace "." ∉ allowedSCXSchedulers /\ TrimSpace ".." ∉ allowedSCXSchedulers) as [H1 H2].
  { split; apply (bool_decide_eq_true_1 _); vm_compute; reflexivity. }
  split; [split_and!; [|intros ->; exact (H1 Hin)|exact Hs]|intros ->; exact (H2 Hin)].
  intros ->. rewrite TrimSpace_empty in Hne. exact (Hne eq_refl).
Qed.

#[global] Opaque allowedSCXSchedulers.

Lemma validateScheduler_inv mode name :
  validateScheduler mode name = None <->
  TrimSpace mode ∈ [""; "none"; "gthulhu"; "simple"] \/
  (TrimSpace mode = "scx" /\ TrimSpace name ∈ allowedSCXSchedulers).
Proof.
  unfold validateScheduler. cbv zeta. rewrite !elem_of_cons, elem_of_nil.
  destruct (decide (TrimSpace mode = "")) as [He|He].
  { rewrite decide_True by auto. tauto. }
  case_decide as Hm; [tauto|]. case_decide as Hs.
  2:{ split; [done|]. tauto. }
  assert (forall P, (TrimSpace mode = "" \/ TrimSpace mode = "none" \/ TrimSpace mode = "gthulhu" \/
    TrimSpace mode = "simple" \/ False) \/ (TrimSpace mode = "scx" /\ P) <-> P) as -> by (intros; tauto).
  destruct (decide (TrimSpace name ∈ allowedSCXSchedulers)) as [Ha|Ha].
  - destruct (allowed_plain _ Ha) as (Hb & Hc & Hn).
    rewrite decide_False by done. rewrite Hc, bool_decide_eq_false_2 by (rewrite Hb; tauto). tauto.
  - split; [|intros H; contradiction]. case_decide; [discriminate|].
    destruct (_ || _); discriminate.
Qed.

(** ** Concrete inputs *)

Definition good_outcomes : write_outcomes := mkOutcomes true true (Ok tt) true true true true.
Definition failed_rename : write_outcomes := mkOutcomes true true (Ok tt) true true false true.
Definition sample_request : runtimeConfigRequest :=
  mkRequest "v1" "simple" "" 3000000 0 (Some true) None None None None (Some false).
Definition no_binaries : string -> result stat_error file_info := fun _ => Err StatNotExist.

Lemma load_empty_disk `{Y : YAML} path : path <> "" -> LoadConfig (open_disk ∅ ∅) path = Ok DefaultConfig.
Proof.
  intros Hp. unfold LoadConfig, open_disk. rewrite decide_False by done.
  by rewrite decide_False, lookup_empty by set_solver.
Qed.

Lemma write_good `{Y : YAML} tmp path cfg disk :
  tmp <> path -> disk !! tmp = None ->
  writeConfigFile good_outcomes tmp path cfg disk = (<[path := yaml_print (marshal_doc cfg)]> disk, true).
Proof.
  intros Hne Hf. destruct (writeConfigFile _ _ _ _ _) as [d ok] eqn:E. pose proof E as E'.
  apply writeConfigFile_ok in E; [|done..].
  assert (ok = true) as -> by (by injection E'). by rewrite E.
Qed.

Lemma sample_applied `{Y : YAML} stat :
  applyRuntimeConfigToFile ∅ stat good_outcomes "run.yaml.tmp-1" "run.yaml" "/opt/g/gthulhu" sample_request ∅ =
  (<["run.yaml" := yaml_print (marshal_doc
      (merge_monitoring sample_request (merge_scheduler sample_request DefaultConfig)))]> ∅, true, None).
Proof.
  unfold applyRuntimeConfigToFile. rewrite load_empty_disk by done.
  change (validateScheduler _ _) with (@None daemon_error).
  cbv zeta. rewrite decide_False by done. rewrite decide_False by done. by rewrite write_good.
Qed.

(** The sched_ext binaries of an installation in [/opt/g]. *)
Definition one_binary : string -> result stat_error file_info :=
  fun p => if decide (p = "/opt/g/scx_rusty") then Ok (mkFileInfo false 493) else Err StatNotExist.

Definition scx_config : Config :=
  merge_scheduler (mkRequest "v2" "scx" "scx_rusty" 0 0 None None None None None None) DefaultConfig.

(** The file on a disk that holds one written configuration. *)
Definition written `{Y : YAML} (cfg : Config) : gmap string string := {["run.yaml" := yaml_print (marshal_doc cfg)]}.

Lemma load_one_file `{Y : YAML} `{!YAMLRoundTrip Y} cfg :
  LoadConfig (open_disk ∅ (written cfg)) "run.yaml" = Ok (reloaded cfg).
Proof. by apply load_written. Qed.

(** ** Properties *)

(** C17 (crash safety).  Whichever system calls fail, and wherever a crash cuts
    the write short, the file at [path] holds its old contents or the new
    contents in full, and no other file is touched.  On success the disk is the
    old one with the file replaced; on failure nothing but the temporary file can
    differ, and that is gone too when its removal succeeds. *)
Theorem atomic_write_crash_safe (o : write_outcomes) (tmp path content : string) (disk : gmap string string) :
  tmp <> path -> disk !! tmp = None ->
  let '(trace, ok) := atomicWriteConfigFile o tmp path content disk in
  (forall d p, d ∈ trace -> p <> tmp ->
     d !! p = disk !! p \/ (p = path /\ d !! p = Some content)) /\
  (if ok then final_disk disk trace = <[path := content]> disk
   else delete tmp (final_disk disk trace) = disk /\
        (wo_remove o = true -> final_disk disk trace = disk)).
Proof. apply atomicWrite_trace. Qed.

Lemma atomic_write_crash_safe_witness :
  final_disk ∅ (atomicWriteConfigFile failed_rename "f.tmp" "f" "new" {["f" := "old"]}).1 = {["f" := "old"]}.
Proof.
  pose proof (atomic_write_crash_safe failed_rename "f.tmp" "f" "new" {["f" := "old"]}
    ltac:(discriminate) ltac:(reflexivity)) as [_ [_ H]].
  exact (H eq_refl).
Defined.

(** Remark (validation).  A mode and scheduler name validate exactly when the mode,
    trimmed, is empty, [none], [gthulhu] or [simple], or is [scx] and the name,
    trimmed, is in the list of allowed scx schedulers. *)
Theorem validateScheduler_correct (mode name : string) :
  validateScheduler mode name = None <->
  TrimSpace mode ∈ [""; "none"; "gthulhu"; "simple"] \/
  (TrimSpace mode = "scx" /\ TrimSpace name ∈ allowedSCXSchedulers).
Proof. apply validateScheduler_inv. Qed.



(** Remark (idempotence).  Applying a request that was just applied, as long as it
    did not ask for the watchdog to be switched off, changes nothing and reports
    no change. *)
Theorem apply_idempotent `{Y : YAML} `{!YAMLRoundTrip Y} bad stat o o' tmp tmp' path bin req disk disk' changed :
  path <> "" -> path ∉ bad -> tmp <> path -> disk !! tmp = None -> rq_MaxTimeWatchdog req <> Some false ->
  applyRuntimeConfigToFile bad stat o tmp path bin req disk = (disk', changed, None) ->
  applyRuntimeConfigToFile bad stat o' tmp' path bin req disk' = (disk', false, None).
Proof.
  intros Hp Hb Hne Hf Hw Happ. pose proof (apply_spec bad stat o tmp path bin req disk) as Hs.
  rewrite Happ in Hs. destruct Hs as [(prev & Hl & [Hv Hx] & Hc)%(fun H => H eq_refl) _].
  set (cfg := merge_monitoring req (merge_scheduler req prev)) in *.
  assert (exists prev', LoadConfig (open_disk bad disk') path = Ok prev' /\
    tracked prev' = tracked (merge_monitoring req (merge_scheduler req prev')) /\
    Mode (Scheduler (merge_scheduler req prev')) = Mode (Scheduler (merge_scheduler req prev)) /\
    SchedulerName (Scheduler (merge_scheduler req prev')) = SchedulerName (Scheduler (merge_scheduler req prev)))
    as (prev' & Hl' & Ht' & Hm' & Hn').
  { destruct changed; destruct Hc as [Hc Ht].
    - exists (reloaded cfg). apply writeConfigFile_ok in Hc; [|done..]. rewrite Hc, load_written by done.
      split; [done|]. split; [by apply tracked_merge_same|]. simpl. by autorewrite with gthulhu_rw.
    - exists prev. by rewrite Hc. }
  unfold applyRuntimeConfigToFile. rewrite Hl'. cbv zeta. rewrite Hm', Hn', Hv.
  case_decide as Hd; [destruct (Hx Hd) as [p ->]|]; by rewrite decide_True.
Qed.

Lemma apply_idempotent_witness :
  let disk := written (Y := counting_yaml) (merge_monitoring sample_request (merge_scheduler sample_request DefaultConfig)) in
  applyRuntimeConfigToFile (Y := counting_yaml) ∅ no_binaries good_outcomes "run.yaml.tmp-2" "run.yaml"
    "/opt/g/gthulhu" sample_request disk = (disk, false, None).
Proof.
  exact (apply_idempotent (Y := counting_yaml) ∅ no_binaries good_outcomes good_outcomes "run.yaml.tmp-1"
    "run.yaml.tmp-2" "run.yaml" "/opt/g/gthulhu" sample_request ∅ _ true ltac:(discriminate) (not_elem_of_empty _)
    ltac:(discriminate) (lookup_empty _) ltac:(discriminate) (sample_applied (Y := counting_yaml) no_binaries)).
Defined.

(** Remark (the watchdog cannot be switched off).  After the daemon has initialised
    its runtime configuration, and after every request it applied as a change,
    the file loads with the watchdog on, whatever the bootstrap file or the
    request said. *)
Theorem watchdog_never_off `{Y : YAML} `{!YAMLRoundTrip Y} bad stat mkdir_ok o tmp boot path bin req disk disk1 disk2 :
  path <> "" -> path ∉ bad -> tmp <> path -> disk !! tmp = None ->
  (initializeRuntimeConfig bad mkdir_ok o tmp boot path disk = (disk1, None) ->
     exists c, LoadConfig (open_disk bad disk1) path = Ok c /\ MaxTimeWatchdog (Scheduler c) = true) /\
  (applyRuntimeConfigToFile bad stat o tmp path bin req disk = (disk2, true, None) ->
     exists c, LoadConfig (open_disk bad disk2) path = Ok c /\ MaxTimeWatchdog (Scheduler c) = true).
Proof.
  intros Hp Hb Hne Hf. split.
  - unfold initializeRuntimeConfig. destruct (LoadConfig _ _) as [cfg|]; [|done].
    destruct mkdir_ok; [simpl|done].
    destruct (writeConfigFile o tmp path cfg disk) as [d ok] eqn:Ew. apply writeConfigFile_ok in Ew; [|done..].
    destruct ok; [|done]. intros [= <-]. subst d. rewrite load_written by done. eauto.
  - intros Happ. pose proof (apply_spec bad stat o tmp path bin req disk) as Hs.
    rewrite Happ in Hs. destruct Hs as [(prev & _ & _ & Hw & _)%(fun H => H eq_refl) _].
    apply writeConfigFile_ok in Hw; [|done..]. subst disk2. rewrite load_written by done. eauto.
Qed.

Lemma watchdog_never_off_witness :
  exists c, LoadConfig (Y := counting_yaml) (open_disk ∅ (written (Y := counting_yaml)
      (merge_monitoring sample_request (merge_scheduler sample_request DefaultConfig)))) "run.yaml" = Ok c /\
    MaxTimeWatchdog (Scheduler c) = true.
Proof.
  exact (proj2 (watchdog_never_off (Y := counting_yaml) ∅ no_binaries true good_outcomes "run.yaml.tmp-1" "boot.yaml"
    "run.yaml" "/opt/g/gthulhu" sample_request ∅ ∅ _ ltac:(discriminate) (not_elem_of_empty _)
    ltac:(discriminate) (lookup_empty _))
    (sample_applied no_binaries)).
Defined.

(** C19 (what the daemon executes).  The command resolved from a configuration is
    the Gthulhu binary itself in scheduler mode, or, in scx mode, an executable
    regular file whose path is the cleaned directory of the Gthulhu binary, a
    slash and the configured name, where the name, trimmed, is an allowed scx
    scheduler; nothing else is ever started. *)
Theorem resolved_command_confined `{Y : YAML} bad stat support path bin disk p args :
  schedulerCommandFromConfig bad stat support path bin disk = Ok (p, args, true) ->
  exists cfg, LoadConfig (open_disk bad disk) path = Ok cfg /\
    ((p = bin /\ args = ["scheduler"; "-config"; path]) \/
     (TrimSpace (Mode (Scheduler cfg)) = "scx" /\ support = None /\ args = [] /\
      TrimSpace (SchedulerName (Scheduler cfg)) ∈ allowedSCXSchedulers /\
      p = Clean (Dir bin) +:+ "/" +:+ SchedulerName (Scheduler cfg) /\
      ensureExecutable stat p = None)).
Proof.
  unfold schedulerCommandFromConfig. destruct (LoadConfig _ _) as [cfg|e]; [|done]. cbv zeta.
  set (mode := if decide (TrimSpace (Mode (Scheduler cfg)) = "") then _ else _).
  intros Hr. exists cfg. split; [done|].
  case_decide as Hnone; [left; destruct (IsMonitorEnabled cfg); by simplify_eq|].
  destruct (validateScheduler mode _) as [e|] eqn:Hv; [done|].
  destruct support as [e|]; [left; destruct (IsMonitorEnabled cfg); by simplify_eq|].
  case_decide as Hg; [left; by simplify_eq|]. case_decide as Hs; [|done].
  assert (TrimSpace (Mode (Scheduler cfg)) = "scx") as Hmode.
  { unfold mode in Hs. by case_decide. }
  assert (TrimSpace (SchedulerName (Scheduler cfg)) ∈ allowedSCXSchedulers) as Ha.
  { rewrite Hs in Hv. unfold validateScheduler in Hv. vm_compute (TrimSpace "scx") in Hv. simpl in Hv.
    by repeat case_match. }
  right. unfold ensureExecutableInDir in Hr.
  destruct (HasPrefix _ _) eqn:Hpre; [|discriminate Hr].
  destruct (ensureExecutable _ _) eqn:He; [discriminate Hr|]. injection Hr as <- <-.
  destruct (allowed_good_part _ Ha) as [Hgood Hdd].
  rewrite (Clean_join_plain _ _ Hgood Hdd) in *.
  split; [exact Hmode|]. split; [reflexivity|]. split; [reflexivity|]. split; [exact Ha|].
  split; [|exact He]. clear He Ha.
  case_decide as H1; [|case_decide as H2; [|done]].
  - exfalso. rewrite H1 in Hpre. apply HasPrefix_spec in Hpre as [r Hr]. rewrite !string_app_cons, !string_app_nil_l in Hr.
    inversion Hr as [Hn]. destruct Hgood as (_ & _ & Hc). rewrite Hn in Hc. done.
  - exfalso. rewrite H2 in Hpre. apply HasPrefix_spec in Hpre as [r Hr]. destruct Hgood as (_ & _ & Hc).
    rewrite Hr, !string_app_cons in Hc. done.
Qed.

Lemma resolved_command_confined_witness :
  "/opt/g/scx_rusty" = Clean (Dir "/opt/g/gthulhu") +:+ "/" +:+ "scx_rusty" /\
  ensureExecutable one_binary "/opt/g/scx_rusty" = None.
Proof.
  destruct (resolved_command_confined (Y := counting_yaml) ∅ one_binary None "run.yaml" "/opt/g/gthulhu"
    (written (Y := counting_yaml) scx_config) "/opt/g/scx_rusty" []) as (cfg & Hl & [[H _]|(_ & _ & _ & _ & Hp & He)]).
  - unfold schedulerCommandFromConfig. rewrite load_one_file. vm_compute. reflexivity.
  - discriminate H.
  - rewrite load_one_file in Hl. injection Hl as <-. split; [exact Hp|exact He].
Defined.

(** Remark (accepted configurations start).  When a request is accepted and the mode
    it leaves in the file carries no surrounding white space, resolving the
    scheduler command from the file fails for lack of sched_ext support or not at
    all: the supervisor never dies of a configuration it accepted. *)
Theorem accepted_config_resolves `{Y : YAML} `{!YAMLRoundTrip Y} bad stat support o tmp path bin req disk disk' changed :
  path <> "" -> path ∉ bad -> tmp <> path -> disk !! tmp = None ->
  applyRuntimeConfigToFile bad stat o tmp path bin req disk = (disk', changed, None) ->
  (forall prev, LoadConfig (open_disk bad disk) path = Ok prev ->
     let mode := merge_mode req (Mode (Scheduler prev)) in TrimSpace mode = mode) ->
  match schedulerCommandFromConfig bad stat support path bin disk' with
  | Ok _ => True
  | Err e => is_unsupported e = true
  end.
Proof.
  intros Hp Hb Hne Hf Happ Htrim. pose proof (apply_spec bad stat o tmp path bin req disk) as Hs.
  rewrite Happ in Hs. destruct Hs as [(prev & Hl & [Hv Hx] & Hc)%(fun H => H eq_refl) _].
  specialize (Htrim _ Hl). simpl in Hv, Hx, Htrim.
  assert (exists cfg, LoadConfig (open_disk bad disk') path = Ok cfg /\
    Mode (Scheduler cfg) = merge_mode req (Mode (Scheduler prev)) /\
    SchedulerName (Scheduler cfg) = set_nonempty (rq_SchedulerName req) (SchedulerName (Scheduler prev)))
    as (cfg & Hl' & Hm & Hn).
  { destruct changed; destruct Hc as [Hc Ht].
    - apply writeConfigFile_ok in Hc; [|done..]. rewrite Hc, load_written by done. by eexists.
    - exists prev. rewrite Hc. split; [done|]. unfold tracked in Ht. simpl in Ht. by simplify_eq. }
  unfold schedulerCommandFromConfig. rewrite Hl', Hm, Hn, Htrim. cbv zeta.
  set (m := merge_mode req (Mode (Scheduler prev))) in *.
  set (n := set_nonempty (rq_SchedulerName req) (SchedulerName (Scheduler prev))) in *.
  destruct (decide (m = "")) as [He|He].
  { rewrite decide_False by done. simpl. destruct support; [by destruct (IsMonitorEnabled cfg)|done]. }
  case_decide as Hnone; [by destruct (IsMonitorEnabled cfg)|].
  rewrite Hv. destruct support; [by destruct (IsMonitorEnabled cfg)|].
  case_decide as Hg; [done|]. case_decide as Hscx; [destruct (Hx Hscx) as [q ->]; done|].
  exfalso. apply validateScheduler_inv in Hv. rewrite Htrim, !elem_of_cons, elem_of_nil in Hv. tauto.
Qed.

Lemma accepted_config_resolves_witness :
  match schedulerCommandFromConfig (Y := counting_yaml) ∅ no_binaries (Some SysfsMissing) "run.yaml" "/opt/g/gthulhu"
    (written (Y := counting_yaml) (merge_monitoring sample_request (merge_scheduler sample_request DefaultConfig)))
  with Ok _ => True | Err e => is_unsupported e = true end.
Proof.
  refine (accepted_config_resolves (Y := counting_yaml) ∅ no_binaries (Some SysfsMissing) good_outcomes "run.yaml.tmp-1"
    "run.yaml" "/opt/g/gthulhu" sample_request ∅ _ true ltac:(discriminate) (not_elem_of_empty _)
    ltac:(discriminate) (lookup_empty _) (sample_applied (Y := counting_yaml) no_binaries) _).
  intros prev Hl. rewrite load_empty_disk in Hl by discriminate. injection Hl as <-. vm_compute. reflexivity.
Defined.

(** Remark (scx needs a directory with a name).  When the Gthulhu binary lies in the
    root directory or is given relative to the current one, every scx scheduler
    is refused as lying outside the directory, even one that exists. *)
Theorem scx_refused_in_root_or_cwd (stat : string -> result stat_error file_info) (dir name : string) :
  Clean dir ∈ ["/"; "."] -> TrimSpace name ∈ allowedSCXSchedulers ->
  ensureExecutableInDir stat dir name = Err (ErrOutsideDir name).
Proof.
  intros Hd Ha. destruct (allowed_good_part _ Ha) as [Hgood Hdd].
  unfold ensureExecutableInDir. rewrite (Clean_join_plain _ _ Hgood Hdd).
  destruct Hgood as (_ & _ & Hc). rewrite !elem_of_cons, elem_of_nil in Hd.
  destruct Hd as [->|[->|[]]]; simpl.
  - destruct (HasPrefix _ _) eqn:E; [|done]. exfalso. apply HasPrefix_spec in E as [r Hr].
    rewrite !string_app_cons, !string_app_nil_l in Hr. inversion Hr as [Hn]. by rewrite Hn in Hc.
  - destruct (HasPrefix _ _) eqn:E; [|done]. exfalso. apply HasPrefix_spec in E as [r Hr].
    by rewrite Hr, !string_app_cons in Hc.
Qed.

Lemma scx_refused_in_root_or_cwd_witness :
  ensureExecutableInDir (fun _ => Ok (mkFileInfo false 493)) "/" "scx_rusty" = Err (ErrOutsideDir "scx_rusty").
Proof.
  apply scx_refused_in_root_or_cwd; apply (bool_decide_eq_true_1 _); vm_compute; reflexivity.
Defined.

(** A request whose mode carries white space. *)
Definition padded_request : runtimeConfigRequest :=
  mkRequest "v3" " scx" "scx_rusty" 0 0 None None None None None None.

(** Remark (a padded mode stops the daemon).  The hypothesis of the previous theorem
    on white space is needed: on a machine with no scx binary the request with
    mode [" scx"] is accepted and written, since only the exact mode [scx] has its
    binary looked for, and resolving the command from the file then fails with an
    error that is not the lack of sched_ext, on which the supervisor returns. *)
Theorem padded_scx_mode_accepted_then_fatal `{Y : YAML} `{!YAMLRoundTrip Y} :
  exists disk', applyRuntimeConfigToFile ∅ no_binaries good_outcomes "run.yaml.tmp-1" "run.yaml" "/opt/g/gthulhu"
      padded_request ∅ = (disk', true, None) /\
    exists e, schedulerCommandFromConfig ∅ no_binaries None "run.yaml" "/opt/g/gthulhu" disk' = Err e /\
      is_unsupported e = false.
Proof.
  exists (written (merge_monitoring padded_request (merge_scheduler padded_request DefaultConfig))). split.
  - unfold applyRuntimeConfigToFile. rewrite load_empty_disk by done.
    cbv zeta. replace (validateScheduler _ _) with (@None daemon_error) by (vm_compute; reflexivity).
    rewrite decide_False by done. rewrite decide_False by done. by rewrite write_good.
  - exists (ErrNotFound "/opt/g/scx_rusty"). split; [|done].
    unfold schedulerCommandFromConfig. rewrite load_one_file. vm_compute. reflexivity.
Qed.

Lemma padded_scx_mode_accepted_then_fatal_witness :
  exists disk', applyRuntimeConfigToFile (Y := counting_yaml) ∅ no_binaries good_outcomes "run.yaml.tmp-1" "run.yaml"
    "/opt/g/gthulhu" padded_request ∅ = (disk', true, None).
Proof.
  destruct (padded_scx_mode_accepted_then_fatal (Y := counting_yaml)) as (d & H & _). exists d. exact H.
Defined.
