(* ===== verification/DaemonSupervisor.v ===== *)
(** * The supervisor: internal/daemon/state.go, http_adapter.go, ports.go, adapters.go and the loop of daemon.go

    The daemon has one main goroutine (the loop of [Run]), one goroutine per
    control-API request, and one child process.  They share the control state
    (under a mutex), the runtime configuration file, and a restart channel of
    capacity one.  [step] is the transition of one goroutine up to its next access
    to something shared; [run] interleaves them.  The two ports of ports.go are
    the class [ConfigStore]; [file_store] is the adapter of adapters.go. *)

From stdpp Require Import base gmap strings list pretty stringmap.
From Stdlib Require Import ZArith Lia.
From S2P Require Import Prelude GoStrings Config DaemonConfig.

(** ** Instants *)

(** [time.Time.UTC().Format(time.RFC3339)] of an instant in nanoseconds since
    1970, for the years 0 to 9999: the civil date of a day number counts from
    March of year 0 in 400-year cycles. *)
Definition pad (width : nat) (z : Z) : string :=
  let s := Itoa z in
  String.concat "" (replicate (width - String.length s) "0") +:+ s.

Definition civil_of_days (days : Z) : Z * Z * Z :=
  (let z := days + 719468 in
   let era := z / 146097 in
   let doe := z mod 146097 in
   let yoe := (doe - doe / 1460 + doe / 36524 - doe / 146096) / 365 in
   let doy := doe - (365 * yoe + yoe / 4 - yoe / 100) in
   let mp := (5 * doy + 2) / 153 in
   let d := doy - (153 * mp + 2) / 5 + 1 in
   let m := if mp <? 10 then mp + 3 else mp - 9 in
   (yoe + era * 400 + (if m <=? 2 then 1 else 0), m, d))%Z.

Definition FormatRFC3339 (ns : Z) : string :=
  let secs := (ns / 1000000000)%Z in
  let '(y, m, d) := civil_of_days (secs / 86400)%Z in
  let t := (secs mod 86400)%Z in
  pad 4 y +:+ "-" +:+ pad 2 m +:+ "-" +:+ pad 2 d +:+ "T" +:+
  pad 2 (t / 3600)%Z +:+ ":" +:+ pad 2 ((t / 60) mod 60)%Z +:+ ":" +:+ pad 2 (t mod 60)%Z +:+ "Z".

Example FormatRFC3339_leap_day : FormatRFC3339 1709210096000000007 = "2024-02-29T12:34:56Z".
Proof. vm_compute. reflexivity. Qed.

(** ** The control state *)

Record currentConfig := mkCurrent {
  cur_Mode : string;
  cur_SchedulerName : string;
  cur_SliceNsDefault : Z;
  cur_SliceNsMin : Z;
  cur_KernelMode : bool;
  cur_MaxTimeWatchdog : bool;
  cur_EarlyProcessing : bool;
  cur_BuiltinIdle : bool;
  cur_SchedulerEnabled : bool;
  cur_MonitoringEnabled : bool
}.

(** The struct built from a loaded configuration in [readCurrentConfig]. *)
Definition current_of (cfg : Config) : currentConfig :=
  let s := Scheduler cfg in
  mkCurrent (Mode s) (SchedulerName s) (SliceNsDefault s) (SliceNsMin s) (KernelMode s) (MaxTimeWatchdog s)
    (EarlyProcessing cfg) (BuiltinIdle cfg) (IsSchedulerEnabled cfg) (Enabled (Monitor cfg)).

(** An error message, by the error it prints; [""] is [None]. *)
Inductive sup_error :=
| SupApply (e : daemon_error)
| SupResolve (e : daemon_error)
| SupChildUnsupported (code : Z).

Record controlState := mkControlState {
  cs_configVersion : string;
  cs_applied : bool;
  cs_appliedAt : option Z;              (** [None] is the zero time *)
  cs_restartCount : Z;
  cs_lastError : option sup_error;
  cs_runtimeConfigPath : string;
  cs_cachedConfig : option currentConfig;
  cs_cachedConfigMTime : Z
}.

Definition set (version : string) (applied : bool) (now : Z) (s : controlState) : controlState :=
  mkControlState version applied (if applied then Some now else cs_appliedAt s) (cs_restartCount s)
    (if applied then None else cs_lastError s) (cs_runtimeConfigPath s) (cs_cachedConfig s) (cs_cachedConfigMTime s).

Definition recordError (e : sup_error) (s : controlState) : controlState :=
  mkControlState (cs_configVersion s) (cs_applied s) (cs_appliedAt s) (cs_restartCount s)
    (Some e) (cs_runtimeConfigPath s) (cs_cachedConfig s) (cs_cachedConfigMTime s).

Definition recordRestart (s : controlState) : controlState :=
  mkControlState (cs_configVersion s) (cs_applied s) (cs_appliedAt s) (i64 (cs_restartCount s + 1))
    (cs_lastError s) (cs_runtimeConfigPath s) (cs_cachedConfig s) (cs_cachedConfigMTime s).

(** The last critical section of [readCurrentConfig]. *)
Definition store_cache (c : currentConfig) (mtime : Z) (s : controlState) : controlState :=
  mkControlState (cs_configVersion s) (cs_applied s) (cs_appliedAt s) (cs_restartCount s)
    (cs_lastError s) (cs_runtimeConfigPath s) (Some c) mtime.

(** [runtimeConfigStatus] and [detailedStatus], which have the same fields. *)
Record status := mkStatus {
  st_ConfigVersion : string;
  st_Applied : bool;
  st_AppliedAt : string;
  st_RestartCount : Z;
  st_LastError : option sup_error;
  st_Config : option currentConfig      (** [None]: [ConfigAvailable] is false *)
}.

(** The fields copied under the first lock of [snapshot]. *)
Definition status_fields (s : controlState) (c : option currentConfig) : status :=
  mkStatus (cs_configVersion s) (cs_applied s) (from_option FormatRFC3339 "" (cs_appliedAt s))
    (cs_restartCount s) (cs_lastError s) c.

Definition with_config (st : status) (c : option currentConfig) : status :=
  mkStatus (st_ConfigVersion st) (st_Applied st) (st_AppliedAt st) (st_RestartCount st) (st_LastError st) c.

(** The value of the [if] on the cache. *)
Definition cache_hit (cached : option currentConfig) (cached_mtime mtime : Z) : option currentConfig :=
  match cached with
  | Some c => if (mtime =? cached_mtime)%Z then Some c else None
  | None => None
  end.

(** [readCurrentConfig] with nothing in between: [mtime] is the result of the
    stat, [loaded] of the load. *)
Definition readCurrentConfig (mtime : option Z) (loaded : option currentConfig) (s : controlState)
    : controlState * option currentConfig :=
  if decide (cs_runtimeConfigPath s = "") then (s, None) else
  match mtime with
  | None => (s, None)
  | Some t =>
      match cache_hit (cs_cachedConfig s) (cs_cachedConfigMTime s) t with
      | Some c => (s, Some c)
      | None =>
          match loaded with
          | None => (s, None)
          | Some c => (store_cache c t s, Some c)
          end
      end
  end.

Definition snapshot (mtime : option Z) (loaded : option currentConfig) (s : controlState) : controlState * status :=
  let '(s', c) := readCurrentConfig mtime loaded s in (s', status_fields s c).

Definition detailedSnapshot (mtime : option Z) (loaded : option currentConfig) (s : controlState)
    : controlState * status :=
  let '(s', c) := readCurrentConfig mtime loaded s in (s', status_fields s c).

(** ** The ports *)

(** What the supervisor needs of the configuration store and of the command
    resolver.  Applying a request reads the store ([cs_plan]: the text to write,
    if anything changes) and then writes it ([cs_commit]); two requests may
    interleave between the two. *)
Class ConfigStore := {
  store : Type;
  cs_content : store -> option string;
  cs_plan : runtimeConfigRequest -> store -> result daemon_error (option string);
  cs_commit : write_outcomes -> string -> store -> store * bool;
  cs_load : option string -> option currentConfig;
  cs_resolve : option string -> result daemon_error (string * list string * bool)
}.

(** A commit replaces the contents when it succeeds and keeps them when not. *)
Class ConfigStoreLaws (CS : ConfigStore) : Prop :=
  cs_commit_content : forall o text s s' ok, cs_commit o text s = (s', ok) ->
    cs_content s' = if ok then Some text else cs_content s.

(** ** HTTP *)

(** The body of a POST: what [io.ReadAll] and [json.Unmarshal] make of it. *)
Inductive post_body :=
| Unreadable
| Malformed
| Decoded (req : runtimeConfigRequest).

Inductive http_request :=
| Get
| Post (body : post_body)
| OtherMethod.

Inductive http_body :=
| BodyText (s : string)
| BodyError (msg : string)
| BodyApplyError (e : daemon_error)
| BodyNoop (noop : bool)
| BodyData (st : status).

Record response := mkResponse { rs_code : Z; rs_body : http_body }.

Definition method_not_allowed : response := mkResponse 405 (BodyError "method not allowed").

(** The checks of a POST before anything is applied. *)
Definition check_post (s : controlState) (body : post_body) : response + runtimeConfigRequest :=
  match body with
  | Unreadable => inl (mkResponse 400 (BodyError "invalid request body"))
  | Malformed => inl (mkResponse 400 (BodyError "invalid request payload"))
  | Decoded req =>
      if decide (rq_ConfigVersion req = "") then inl (mkResponse 400 (BodyError "configVersion is required"))
      else if cs_applied s && bool_decide (cs_configVersion s = rq_ConfigVersion req)
      then inl (mkResponse 200 (BodyNoop true))
      else inr req
  end.

Section supervisor.
  Context `{CS : ConfigStore}.

(** What the goroutines share. *)
Record shared := mkShared {
  sh_state : controlState;
  sh_store : store;
  sh_mtime : Z;
  sh_token : bool          (** the restart channel holds a value *)
}.

Definition sh_mtime_opt (w : shared) : option Z :=
  match cs_content (sh_store w) with Some _ => Some (sh_mtime w) | None => None end.
Definition sh_load (w : shared) : option currentConfig := cs_load (cs_content (sh_store w)).

Definition upd_state (f : controlState -> controlState) (w : shared) : shared :=
  mkShared (f (sh_state w)) (sh_store w) (sh_mtime w) (sh_token w).

(** The non-blocking send on the restart channel. *)
Definition send_restart (w : shared) : shared :=
  mkShared (sh_state w) (sh_store w) (sh_mtime w) true.

Definition handleHealth : response := mkResponse 200 (BodyText "ok").

Definition handleStatus (r : http_request) (w : shared) : shared * response :=
  match r with
  | Get =>
      let '(s', st) := detailedSnapshot (sh_mtime_opt w) (sh_load w) (sh_state w) in
      (upd_state (fun _ => s') w, mkResponse 200 (BodyData st))
  | _ => (w, method_not_allowed)
  end.

(** [ApplyRuntimeConfig] of the store: plan, then commit at time [t]. *)
Definition ApplyRuntimeConfig (o : write_outcomes) (t : Z) (req : runtimeConfigRequest) (w : shared)
    : shared * bool * option daemon_error :=
  match cs_plan req (sh_store w) with
  | Err e => (w, false, Some e)
  | Ok None => (w, false, None)
  | Ok (Some text) =>
      let '(d, ok) := cs_commit o text (sh_store w) in
      if ok then (mkShared (sh_state w) d t (sh_token w), true, None)
      else (mkShared (sh_state w) d (sh_mtime w) (sh_token w), true, Some ErrWrite)
  end.

(** [handleRuntimeConfig], the whole handler with no other goroutine in between. *)
Definition handleRuntimeConfig (o : write_outcomes) (t now : Z) (r : http_request) (w : shared)
    : shared * response :=
  match r with
  | Get =>
      let '(s', st) := snapshot (sh_mtime_opt w) (sh_load w) (sh_state w) in
      (upd_state (fun _ => s') w, mkResponse 200 (BodyData st))
  | Post body =>
      match check_post (sh_state w) body with
      | inl resp => (w, resp)
      | inr req =>
          let '(w1, changed, err) := ApplyRuntimeConfig o t req w in
          match err with
          | Some e => (upd_state (recordError (SupApply e)) w1, mkResponse 500 (BodyApplyError e))
          | None =>
              let w2 := upd_state (set (rq_ConfigVersion req) true now) w1 in
              let w3 := if changed then send_restart w2 else w2 in
              (w3, mkResponse 200 (BodyNoop (negb changed)))
          end
      end
  | OtherMethod => (w, method_not_allowed)
  end.

(** ** The interleaving *)

(** Where a request's goroutine stands. *)
Inductive handler :=
| PChecked (req : runtimeConfigRequest)                     (** about to load and merge *)
| PPlanned (req : runtimeConfigRequest) (text : string)     (** about to write *)
| PApplied (req : runtimeConfigRequest) (changed : bool)    (** about to set the version *)
| PSet (changed : bool)                                     (** about to send *)
| GFields (st : status)                                     (** fields copied *)
| GCache (st : status) (c : option currentConfig) (t : Z)   (** cache copied *)
| GMiss (st : status) (t : Z)                               (** stat gave [t], the cache is stale *)
| GLoaded (st : status) (c : currentConfig) (t : Z)         (** about to store in the cache *)
| HDone (r : response).

(** What [Run] returns. *)
Inductive run_result := RunNil | RunResolveError (e : daemon_error) | RunStartError.

(** Where the loop of [Run] stands. *)
Inductive phase :=
| Resolving
| Starting (cmd : string * list string)
| WaitUnsupported
| WaitDisabled
| Running (pid : nat) (cmd : string * list string)
| Stopping (pid : nat) (restart : bool)    (** in [stopChildProcess] *)
| Sleeping
| Returned (r : run_result).

Inductive proc := Alive | Dead (code : Z).

Record world := mkWorld {
  w_sh : shared;
  w_sig : bool;                   (** the signal channel holds a value *)
  w_phase : phase;
  w_procs : gmap nat proc;
  w_handlers : gmap nat handler;
  w_seen : option string          (** the contents last resolved; read by no operation *)
}.

Inductive event :=
| EvSignal
| EvResolve
| EvStart (ok : bool) (pid : nat)
| EvTakeSignal
| EvTakeRestart
| EvTakeDone
| EvStopped
| EvSlept
| EvChildExit (pid : nat) (code : Z)
| EvRequest (h : nat) (r : http_request)
| EvPlan (h : nat)
| EvCommit (h : nat) (o : write_outcomes) (t : Z)
| EvSet (h : nat) (now : Z)
| EvSend (h : nat)
| EvCopyCache (h : nat)
| EvStat (h : nat)
| EvLoad (h : nat)
| EvStore (h : nat).

Definition w_with_sh (sh : shared) (w : world) : world :=
  mkWorld sh (w_sig w) (w_phase w) (w_procs w) (w_handlers w) (w_seen w).
Definition w_with_phase (p : phase) (w : world) : world :=
  mkWorld (w_sh w) (w_sig w) p (w_procs w) (w_handlers w) (w_seen w).
Definition w_with_handler (h : nat) (x : handler) (w : world) : world :=
  mkWorld (w_sh w) (w_sig w) (w_phase w) (w_procs w) (<[h := x]> (w_handlers w)) (w_seen w).

Definition isUnsupportedSchedExtExit (code : Z) : bool := (code =? UnsupportedExitCode)%Z.

(** *** The main goroutine *)

(** The top of the loop. *)
Definition main_resolve (w : world) : world :=
  let c := cs_content (sh_store (w_sh w)) in
  let w := mkWorld (w_sh w) (w_sig w) (w_phase w) (w_procs w) (w_handlers w) c in
  match cs_resolve c with
  | Err e =>
      if is_unsupported e
      then w_with_phase WaitUnsupported (w_with_sh (upd_state (recordError (SupResolve e)) (w_sh w)) w)
      else w_with_phase (Returned (RunResolveError e)) w
  | Ok (p, args, true) => w_with_phase (Starting (p, args)) w
  | Ok (_, _, false) => w_with_phase WaitDisabled w
  end.

Definition main_start (ok : bool) (pid : nat) (w : world) : option world :=
  match w_phase w with
  | Starting cmd =>
      if negb ok then Some (w_with_phase (Returned RunStartError) w) else
      match w_procs w !! pid with
      | Some _ => None
      | None =>
          Some (mkWorld (w_sh w) (w_sig w) (Running pid cmd) (<[pid := Alive]> (w_procs w)) (w_handlers w) (w_seen w))
      end
  | _ => None
  end.

(** The branch [<-sigCh] of the selects. *)
Definition main_signal (w : world) : option world :=
  if negb (w_sig w) then None else
  let go p := Some (mkWorld (w_sh w) false p (w_procs w) (w_handlers w) (w_seen w)) in
  match w_phase w with
  | WaitUnsupported | WaitDisabled => go (Returned RunNil)
  | Running pid _ => go (Stopping pid false)
  | _ => None
  end.

(** The branch [<-restartReqCh]. *)
Definition main_restart (w : world) : option world :=
  if negb (sh_token (w_sh w)) then None else
  let sh := mkShared (sh_state (w_sh w)) (sh_store (w_sh w)) (sh_mtime (w_sh w)) false in
  match w_phase w with
  | WaitUnsupported | WaitDisabled => Some (w_with_phase Resolving (w_with_sh sh w))
  | Running pid _ => Some (w_with_phase (Stopping pid true) (w_with_sh sh w))
  | _ => None
  end.

(** The branch [<-done]: the child exited by itself. *)
Definition main_done (w : world) : option world :=
  match w_phase w with
  | Running pid _ =>
      match w_procs w !! pid with
      | Some (Dead code) =>
          let sh := upd_state recordRestart (w_sh w) in
          Some (if isUnsupportedSchedExtExit code
                then w_with_phase WaitUnsupported (w_with_sh (upd_state (recordError (SupChildUnsupported code)) sh) w)
                else w_with_phase Sleeping (w_with_sh sh w))
      | _ => None
      end
  | _ => None
  end.

(** [stopChildProcess] returns when the child is dead, killed or not. *)
Definition stopChildProcess (w : world) : option world :=
  match w_phase w with
  | Stopping pid restart =>
      match w_procs w !! pid with
      | Some (Dead _) => Some (w_with_phase (if restart then Sleeping else Returned RunNil) w)
      | _ => None
      end
  | _ => None
  end.

(** *** The handlers *)

Definition post_step (e : event) (w : world) : option world :=
  let sh := w_sh w in
  match e with
  | EvPlan h =>
      match w_handlers w !! h with
      | Some (PChecked req) => Some
          match cs_plan req (sh_store sh) with
          | Err e => w_with_handler h (HDone (mkResponse 500 (BodyApplyError e)))
                       (w_with_sh (upd_state (recordError (SupApply e)) sh) w)
          | Ok None => w_with_handler h (PApplied req false) w
          | Ok (Some text) => w_with_handler h (PPlanned req text) w
          end
      | _ => None
      end
  | EvCommit h o t =>
      match w_handlers w !! h with
      | Some (PPlanned req text) => Some
          (let '(d, ok) := cs_commit o text (sh_store sh) in
           if ok then w_with_handler h (PApplied req true) (w_with_sh (mkShared (sh_state sh) d t (sh_token sh)) w)
           else w_with_handler h (HDone (mkResponse 500 (BodyApplyError ErrWrite)))
                  (w_with_sh (mkShared (recordError (SupApply ErrWrite) (sh_state sh)) d (sh_mtime sh) (sh_token sh)) w))
      | _ => None
      end
  | EvSet h now =>
      match w_handlers w !! h with
      | Some (PApplied req changed) =>
          Some (w_with_handler h (PSet changed) (w_with_sh (upd_state (set (rq_ConfigVersion req) true now) sh) w))
      | _ => None
      end
  | EvSend h =>
      match w_handlers w !! h with
      | Some (PSet changed) =>
          Some (w_with_handler h (HDone (mkResponse 200 (BodyNoop (negb changed))))
                  (w_with_sh (if changed then send_restart sh else sh) w))
      | _ => None
      end
  | _ => None
  end.

Definition finish_get (h : nat) (st : status) (c : option currentConfig) (w : world) : world :=
  w_with_handler h (HDone (mkResponse 200 (BodyData (with_config st c)))) w.

Definition get_step (e : event) (w : world) : option world :=
  let sh := w_sh w in
  match e with
  | EvCopyCache h =>
      match w_handlers w !! h with
      | Some (GFields st) => Some
          (if decide (cs_runtimeConfigPath (sh_state sh) = "") then finish_get h st None w
           else w_with_handler h (GCache st (cs_cachedConfig (sh_state sh)) (cs_cachedConfigMTime (sh_state sh))) w)
      | _ => None
      end
  | EvStat h =>
      match w_handlers w !! h with
      | Some (GCache st c t) => Some
          match sh_mtime_opt sh with
          | None => finish_get h st None w
          | Some m =>
              match cache_hit c t m with
              | Some c => finish_get h st (Some c) w
              | None => w_with_handler h (GMiss st m) w
              end
          end
      | _ => None
      end
  | EvLoad h =>
      match w_handlers w !! h with
      | Some (GMiss st t) => Some
          match sh_load sh with
          | None => finish_get h st None w
          | Some c => w_with_handler h (GLoaded st c t) w
          end
      | _ => None
      end
  | EvStore h =>
      match w_handlers w !! h with
      | Some (GLoaded st c t) => Some (finish_get h st (Some c) (w_with_sh (upd_state (store_cache c t) sh) w))
      | _ => None
      end
  | _ => None
  end.

(** A request arrives: method switch and checks. *)
Definition accept_request (h : nat) (r : http_request) (w : world) : option world :=
  match w_handlers w !! h with
  | Some _ => None
  | None => Some (w_with_handler h
      match r with
      | Get => GFields (status_fields (sh_state (w_sh w)) None)
      | Post body =>
          match check_post (sh_state (w_sh w)) body with
          | inl resp => HDone resp
          | inr req => PChecked req
          end
      | OtherMethod => HDone method_not_allowed
      end w)
  end.

(** *** One step *)

Definition child_exit (pid : nat) (code : Z) (w : world) : option world :=
  match w_procs w !! pid with
  | Some Alive => Some (mkWorld (w_sh w) (w_sig w) (w_phase w) (<[pid := Dead code]> (w_procs w)) (w_handlers w) (w_seen w))
  | _ => None
  end.

Definition step (e : event) (w : world) : option world :=
  match e with
  | EvSignal => Some (mkWorld (w_sh w) true (w_phase w) (w_procs w) (w_handlers w) (w_seen w))
  | EvResolve => match w_phase w with Resolving => Some (main_resolve w) | _ => None end
  | EvStart ok pid => main_start ok pid w
  | EvTakeSignal => main_signal w
  | EvTakeRestart => main_restart w
  | EvTakeDone => main_done w
  | EvStopped => stopChildProcess w
  | EvSlept => match w_phase w with Sleeping => Some (w_with_phase Resolving w) | _ => None end
  | EvChildExit pid code => child_exit pid code w
  | EvRequest h r => accept_request h r w
  | EvPlan _ | EvCommit _ _ _ | EvSet _ _ | EvSend _ => post_step e w
  | EvCopyCache _ | EvStat _ | EvLoad _ | EvStore _ => get_step e w
  end.

Fixpoint run (es : list event) (w : world) : option world :=
  match es with
  | [] => Some w
  | e :: es' => match step e w with Some w' => run es' w' | None => None end
  end.

(** The world when [Run] enters its loop, the file having been initialised. *)
Definition initial (path : string) (d : store) (mtime : Z) : world :=
  mkWorld (mkShared (set "bootstrap" false 0 (mkControlState "" false None 0 None path None 0)) d mtime false)
    false Resolving ∅ ∅ None.

End supervisor.

(** ** Invariants *)

Section invariants.
  Context `{CS : ConfigStore} `{!ConfigStoreLaws CS}.

Lemma run_inv (I : world -> Prop) es w w' :
  (forall e w w', I w -> step e w = Some w' -> I w') -> I w -> run es w = Some w' -> I w'.
Proof.
  intros Hstep. revert w. induction es as [|e es IH]; intros w Hw Hr; simplify_eq/=; [done|].
  destruct (step e w) as [w1|] eqn:E; [|done]. eauto.
Qed.

(** The pid the main loop holds. *)
Definition phase_child (p : phase) : option nat :=
  match p with Running pid _ | Stopping pid _ => Some pid | _ => None end.

Definition single_child (w : world) : Prop :=
  forall pid, w_procs w !! pid = Some Alive -> phase_child (w_phase w) = Some pid.

(** Opens a step into its branches. *)
Ltac step_cases H :=
  repeat (match type of H with
  | context [match ?x with _ => _ end] => destruct x eqn:?
  end; try discriminate H); try (injection H as <-).

Lemma post_get_frame e w w' :
  post_step e w = Some w' \/ get_step e w = Some w' ->
  w_procs w' = w_procs w /\ w_phase w' = w_phase w /\ w_seen w' = w_seen w.
Proof.
  intros [H|H]; destruct e; unfold post_step, get_step in H; try discriminate H; step_cases H; done.
Qed.

Lemma single_child_step e w w' : single_child w -> step e w = Some w' -> single_child w'.
Proof.
  intros Hw Hs. unfold single_child in *.
  assert (forall w', w_procs w' = w_procs w -> w_phase w' = w_phase w ->
    forall pid, w_procs w' !! pid = Some Alive -> phase_child (w_phase w') = Some pid) as Hframe.
  { intros w1 -> ->. exact Hw. }
  destruct e; cbn [step] in Hs; try (edestruct post_get_frame as (? & ? & _); [(left + right); exact Hs|by apply Hframe]).
  - simplify_eq. exact Hw.
  - destruct (w_phase w) eqn:Ep; try done. simplify_eq. unfold main_resolve. intros pid Hp.
    exfalso. cut (@None nat = Some pid); [done|]. apply Hw. destruct (cs_resolve _) as [[[? ?] []]|e]; try done.
    by destruct (is_unsupported e).
  - unfold main_start in Hs. step_cases Hs; simpl; intros q Hq; [by apply Hw in Hq|].
    rewrite lookup_insert_Some in Hq. destruct Hq as [[-> _]|[Hne Hq]]; [done|]. apply Hw in Hq. done.
  - unfold main_signal in Hs. step_cases Hs; simpl; intros q Hq; by apply Hw in Hq.
  - unfold main_restart in Hs. step_cases Hs; simpl; intros q Hq; by apply Hw in Hq.
  - unfold main_done in Hs. step_cases Hs; simpl; intros q Hq; pose proof (Hw q Hq); simplify_eq/=; congruence.
  - unfold stopChildProcess in Hs. step_cases Hs; simpl; intros q Hq; pose proof (Hw q Hq); simplify_eq/=; congruence.
  - step_cases Hs; simpl; intros q Hq; by apply Hw in Hq.
  - unfold child_exit in Hs. step_cases Hs; simpl; intros q Hq.
    rewrite lookup_insert_Some in Hq. destruct Hq as [[_ ?]|[_ Hq]]; [done|by apply Hw].
  - unfold accept_request in Hs. step_cases Hs; exact Hw.
Qed.

(** A request that has changed the file and not yet sent its restart. *)
Definition owes_restart (x : handler) : bool :=
  match x with PApplied _ true | PSet true => true | _ => false end.

Definition restart_due (w : world) : Prop :=
  sh_token (w_sh w) = true \/ exists h x, w_handlers w !! h = Some x /\ owes_restart x = true.

(** The phases that act on the contents last resolved. *)
Definition acts_on_seen (p : phase) : bool :=
  match p with Starting _ | WaitUnsupported | WaitDisabled | Running _ _ => true | _ => false end.

(** What each phase concluded from those contents. *)
Definition phase_matches (p : phase) (c : option string) : Prop :=
  match p with
  | Starting (b, args) | Running _ (b, args) => cs_resolve c = Ok (b, args, true)
  | WaitDisabled => exists b args, cs_resolve c = Ok (b, args, false)
  | WaitUnsupported =>
      (exists e, cs_resolve c = Err e /\ is_unsupported e = true) \/ exists b args, cs_resolve c = Ok (b, args, true)
  | _ => True
  end.

Definition up_to_date (w : world) : Prop :=
  acts_on_seen (w_phase w) = true -> cs_content (sh_store (w_sh w)) = w_seen w \/ restart_due w.

Definition supervised (w : world) : Prop := phase_matches (w_phase w) (w_seen w) /\ up_to_date w.

(** Updating a handler keeps a restart due unless it was that handler's. *)
Lemma restart_due_handler w w' h x :
  restart_due w -> w_handlers w' = <[h := x]> (w_handlers w) -> (sh_token (w_sh w) = true -> sh_token (w_sh w') = true) ->
  (forall y, w_handlers w !! h = Some y -> owes_restart y = true -> owes_restart x = true \/ sh_token (w_sh w') = true) ->
  restart_due w'.
Proof.
  intros [Ht|(h' & y & Hy & Ho)] Hh Htok Hx; [left; auto|].
  destruct (decide (h' = h)) as [->|Hne].
  - destruct (Hx _ Hy Ho) as [H|H]; [|by left]. right. exists h, x. by rewrite Hh, lookup_insert_eq.
  - right. exists h', y. by rewrite Hh, lookup_insert_ne.
Qed.

Lemma restart_due_frame w w' :
  restart_due w -> w_handlers w' = w_handlers w -> sh_token (w_sh w') = sh_token (w_sh w) -> restart_due w'.
Proof. unfold restart_due. by intros Hd -> ->. Qed.

(** A step of a handler changes the file only by owing a restart. *)
Lemma handler_up_to_date e w w' :
  post_step e w = Some w' \/ get_step e w = Some w' ->
  (cs_content (sh_store (w_sh w')) = cs_content (sh_store (w_sh w)) /\ (restart_due w -> restart_due w')) \/ restart_due w'.
Proof.
  intros [H|H].
  - destruct e; simpl in H; try discriminate H.
    + destruct (w_handlers w !! h) as [[]|] eqn:Eh; try discriminate H. injection H as <-.
      left. split; [by destruct (cs_plan _ _) as [[]|]|]. intros Hd.
      destruct (cs_plan _ _) as [[]|]; eapply restart_due_handler; try done; rewrite Eh; intros ? [= <-]; done.
    + destruct (w_handlers w !! h) as [[]|] eqn:Eh; try discriminate H. injection H as <-.
      destruct (cs_commit _ _ _) as [d []] eqn:Ec; pose proof (cs_commit_content _ _ _ _ _ Ec).
      * right. right. exists h, (PApplied req true). simpl. by rewrite lookup_insert_eq.
      * left. split; [done|]. intros Hd. eapply restart_due_handler; try done; rewrite Eh; intros ? [= <-]; done.
    + destruct (w_handlers w !! h) as [[]|] eqn:Eh; try discriminate H. injection H as <-.
      left. split; [done|]. intros Hd. eapply restart_due_handler; try done; rewrite Eh; intros ? [= <-]; auto.
    + destruct (w_handlers w !! h) as [[]|] eqn:Eh; try discriminate H. injection H as <-.
      left. split; [by destruct changed|]. intros Hd.
      destruct changed; eapply restart_due_handler; try done; rewrite Eh; intros ? [= <-]; auto.
  - left. destruct e; simpl in H; try discriminate H;
      (destruct (w_handlers w !! h) as [[]|] eqn:Eh; try discriminate H; injection H as <-);
      split; try (by repeat case_match); intros Hd; repeat case_match; eapply restart_due_handler; try done;
      rewrite Eh; intros ? [= <-]; done.
Qed.

Lemma supervised_step e w w' : supervised w -> step e w = Some w' -> supervised w'.
Proof.
  intros [Hm Hu] Hs. unfold supervised, up_to_date in *.
  destruct e; cbn [step] in Hs;
    try (edestruct post_get_frame as (_ & -> & ->); [(left + right); exact Hs|];
         split; [exact Hm|]; intros Ha; specialize (Hu Ha);
         edestruct handler_up_to_date as [[-> Hd]|Hd]; [(left + right); exact Hs| |by right]; tauto).
  - simplify_eq. split; [done|]. intros Ha. destruct (Hu Ha); auto.
  - destruct (w_phase w) eqn:Ep; try discriminate Hs. injection Hs as <-. unfold main_resolve.
    destruct (cs_resolve _) as [[[b args] []]|e] eqn:Er; simpl; [by auto|split; eauto|].
    destruct (is_unsupported e) eqn:Eu; simpl; split; eauto.
  - unfold main_start in Hs. step_cases Hs; simpl in *; auto.
  - unfold main_signal in Hs. step_cases Hs; simpl in *; done.
  - unfold main_restart in Hs. step_cases Hs; simpl in *; done.
  - unfold main_done in Hs. step_cases Hs; simpl in *; [|done]. destruct cmd as [b args].
    split; [eauto|]. intros _. destruct (Hu eq_refl) as [?|Hd]; [by left|]. right. by eapply restart_due_frame.
  - unfold stopChildProcess in Hs. step_cases Hs; simpl in *; done.
  - step_cases Hs; done.
  - unfold child_exit in Hs. step_cases Hs; simpl in *. auto.
  - unfold accept_request in Hs. destruct (w_handlers w !! h) eqn:Eh; [discriminate Hs|]. injection Hs as <-.
    split; [exact Hm|]. intros Ha. destruct (Hu Ha) as [?|Hd]; [by left|]. right.
    eapply restart_due_handler; try done. by rewrite Eh.
Qed.

(** A copy of the cache made at time stamp [t] is right as long as the file has
    not been written since. *)
Definition cache_valid (c : option currentConfig) (t : Z) (sh : shared) : Prop :=
  forall x, c = Some x -> (t <= sh_mtime sh)%Z /\ (t = sh_mtime sh -> sh_load sh = Some x).

Definition handler_valid (x : handler) (sh : shared) : Prop :=
  match x with
  | GCache _ c t => cache_valid c t sh
  | GMiss _ t => (t <= sh_mtime sh)%Z
  | GLoaded _ c t => cache_valid (Some c) t sh
  | _ => True
  end.

Definition coherent (w : world) : Prop :=
  cache_valid (cs_cachedConfig (sh_state (w_sh w))) (cs_cachedConfigMTime (sh_state (w_sh w))) (w_sh w) /\
  map_Forall (fun _ x => handler_valid x (w_sh w)) (w_handlers w).

(** The time stamps the writes of a run give the file. *)
Fixpoint stamps (es : list event) : list Z :=
  match es with
  | [] => []
  | EvCommit _ _ t :: es' => t :: stamps es'
  | _ :: es' => stamps es'
  end.

(** Validity looks at the file and its stamp only. *)
Lemma handler_valid_frame x sh sh' :
  sh_mtime sh' = sh_mtime sh -> cs_content (sh_store sh') = cs_content (sh_store sh) -> handler_valid x sh -> handler_valid x sh'.
Proof. intros H1 H2. unfold handler_valid, cache_valid, sh_load. by rewrite H1, H2. Qed.

(** After a write with a later stamp every copy is out of date, hence valid. *)
Lemma handler_valid_later x sh sh' :
  (sh_mtime sh < sh_mtime sh')%Z -> handler_valid x sh -> handler_valid x sh'.
Proof.
  intros Hlt. destruct x; simpl; unfold cache_valid; try done; try lia.
  - intros H y Hy. destruct (H y Hy). split; [lia|]. intros ->. lia.
  - intros H y Hy. destruct (H y Hy). split; [lia|]. intros ->. lia.
Qed.

Lemma coherent_frame w w' :
  coherent w -> w_handlers w' = w_handlers w ->
  sh_mtime (w_sh w') = sh_mtime (w_sh w) -> cs_content (sh_store (w_sh w')) = cs_content (sh_store (w_sh w)) ->
  cs_cachedConfig (sh_state (w_sh w')) = cs_cachedConfig (sh_state (w_sh w)) ->
  cs_cachedConfigMTime (sh_state (w_sh w')) = cs_cachedConfigMTime (sh_state (w_sh w)) -> coherent w'.
Proof.
  intros [Hc Hh] H1 H2 H3 H4 H5. unfold coherent. rewrite H1, H4, H5. split.
  - exact (handler_valid_frame (GCache (mkStatus "" false "" 0 None None) _ _) _ _ H2 H3 Hc).
  - intros h x Hx. eapply handler_valid_frame; [done..|]. by apply (Hh h).
Qed.

Lemma coherent_handler w h x :
  coherent w -> handler_valid x (w_sh w) -> coherent (w_with_handler h x w).
Proof. intros [Hc Hh] Hx. split; [exact Hc|]. by apply map_Forall_insert_2. Qed.

Lemma get_step_coherent e w w' : coherent w -> get_step e w = Some w' -> coherent w'.
Proof.
  intros [Hc Hh] Hs. pose proof (conj Hc Hh : coherent w) as Hw.
  destruct e; simpl in Hs; try discriminate Hs;
    (destruct (w_handlers w !! h) as [[]|] eqn:Eh; try discriminate Hs; injection Hs as <-);
    pose proof (Hh _ _ Eh) as Hx; simpl in Hx.
  - case_decide; apply coherent_handler; done.
  - destruct (sh_mtime_opt (w_sh w)) as [m|] eqn:Em; [|by apply coherent_handler].
    assert (m = sh_mtime (w_sh w)) as ->. { unfold sh_mtime_opt in Em. by case_match; simplify_eq. }
    destruct (cache_hit _ _ _); apply coherent_handler; simpl; try done; lia.
  - destruct (sh_load _) eqn:El; apply coherent_handler; simpl; try done.
    intros y [= <-]. done.
  - apply coherent_handler; [|done]. split; [exact Hx|]. exact Hh.
Qed.

Lemma post_step_coherent e w w' :
  coherent w -> (forall h o t, e = EvCommit h o t -> (sh_mtime (w_sh w) < t)%Z) ->
  post_step e w = Some w' -> coherent w'.
Proof.
  intros Hw Ht Hs. destruct e; simpl in Hs; try discriminate Hs;
    (destruct (w_handlers w !! h) as [[]|] eqn:Eh; try discriminate Hs; injection Hs as <-).
  - destruct (cs_plan _ _) as [[]|]; apply coherent_handler; try done; by eapply coherent_frame.
  - destruct (cs_commit _ _ _) as [d []] eqn:Ec; pose proof (cs_commit_content _ _ _ _ _ Ec);
      apply coherent_handler; try done; [|by eapply coherent_frame].
    specialize (Ht _ _ _ eq_refl). destruct Hw as [Hc Hh]. split.
    + eapply (handler_valid_later (GCache (mkStatus "" false "" 0 None None) _ _)); [|exact Hc]. exact Ht.
    + intros h' x Hx. eapply handler_valid_later; [|by apply (Hh h')]. exact Ht.
  - apply coherent_handler; [|done]. by eapply coherent_frame.
  - apply coherent_handler; [|done]. destruct changed; [|done]. by eapply coherent_frame.
Qed.

Lemma coherent_step e w w' :
  coherent w -> (forall h o t, e = EvCommit h o t -> (sh_mtime (w_sh w) < t)%Z) -> step e w = Some w' -> coherent w'.
Proof.
  intros Hw Ht Hs.
  destruct e; cbn [step] in Hs; try (by eapply post_step_coherent); try (by eapply get_step_coherent).
  - simplify_eq. by eapply coherent_frame.
  - step_cases Hs. unfold main_resolve.
    destruct (cs_resolve _) as [[[b args] []]|e]; [..|destruct (is_unsupported e)]; by eapply coherent_frame.
  - unfold main_start in Hs. step_cases Hs; by eapply coherent_frame.
  - unfold main_signal in Hs. step_cases Hs; by eapply coherent_frame.
  - unfold main_restart in Hs. step_cases Hs; by eapply coherent_frame.
  - unfold main_done in Hs. step_cases Hs; by eapply coherent_frame.
  - unfold stopChildProcess in Hs. step_cases Hs; by eapply coherent_frame.
  - step_cases Hs; by eapply coherent_frame.
  - unfold child_exit in Hs. step_cases Hs; by eapply coherent_frame.
  - unfold accept_request in Hs. destruct (w_handlers w !! h) eqn:Eh; [discriminate Hs|]. injection Hs as <-.
    apply coherent_handler; [done|]. destruct r; try done. simpl. by destruct (check_post _ _).
Qed.

(** The stamp of the file moves only with the stamps of the run. *)
Lemma step_mtime e w w' :
  step e w = Some w' ->
  sh_mtime (w_sh w') = sh_mtime (w_sh w) \/ exists h o t, e = EvCommit h o t /\ sh_mtime (w_sh w') = t.
Proof.
  intros Hs. destruct e; cbn [step] in Hs;
    unfold main_resolve, main_start, main_signal, main_restart, main_done, stopChildProcess, child_exit,
      accept_request, post_step, get_step in Hs; step_cases Hs; try (by left); right; eauto.
Qed.

Lemma coherent_run es w w' :
  coherent w -> Sorted.StronglySorted Z.lt (sh_mtime (w_sh w) :: stamps es) -> run es w = Some w' -> coherent w'.
Proof.
  revert w. induction es as [|e es IH]; intros w Hw Hsorted Hr; simplify_eq/=; [done|].
  destruct (step e w) as [w1|] eqn:E; [|done].
  assert (forall h o t, e = EvCommit h o t -> (sh_mtime (w_sh w) < t)%Z) as Ht.
  { intros h o t ->. apply Sorted.StronglySorted_inv in Hsorted as [_ Hf]. by apply Forall_inv in Hf. }
  apply (IH w1); [by eapply coherent_step| |done].
  destruct (step_mtime _ _ _ E) as [->|(h & o & t & -> & ->)].
  - destruct e; try done. simpl in Hsorted. apply Sorted.StronglySorted_inv in Hsorted as [Hs Hf].
    apply Sorted.StronglySorted_inv in Hs as [Hs _]. constructor; [done|]. by inversion Hf.
  - by apply Sorted.StronglySorted_inv in Hsorted as [? _].
Qed.

Lemma coherent_read w :
  coherent w -> cs_runtimeConfigPath (sh_state (w_sh w)) <> "" -> is_Some (cs_content (sh_store (w_sh w))) ->
  (readCurrentConfig (sh_mtime_opt (w_sh w)) (sh_load (w_sh w)) (sh_state (w_sh w))).2 = sh_load (w_sh w).
Proof.
  intros [Hc _] Hp [c Hcont]. unfold readCurrentConfig, sh_mtime_opt. rewrite decide_False by done.
  rewrite Hcont. unfold cache_hit. destruct (cs_cachedConfig _) as [x|] eqn:Ex.
  - destruct (Z.eqb_spec (sh_mtime (w_sh w)) (cs_cachedConfigMTime (sh_state (w_sh w)))) as [Heq|Hne].
    + simpl. destruct (Hc _ eq_refl) as [_ H]. rewrite H; [done|congruence].
    + destruct (sh_load _) eqn:El; [done|]. reflexivity.
  - destruct (sh_load _) eqn:El; done.
Qed.

Lemma initial_coherent path d mtime : coherent (initial path d mtime).
Proof. split; [done|]. intros h x. simpl. by rewrite lookup_empty. Qed.

End invariants.

(** ** The adapters of adapters.go *)

Section file_store.
  Context `{Y : YAML}.
  Variables (bad : gset string) (stat : string -> result stat_error file_info) (support : option unsupported_error)
    (path bin : string).

(** [applyRuntimeConfigToFile] up to its call of [writeConfigFile]. *)
Definition plan_config (req : runtimeConfigRequest) (disk : gmap string string) : result daemon_error (option string) :=
  match LoadConfig (open_disk bad disk) path with
  | Err e => Err (ErrLoad e)
  | Ok prev =>
      let cfg := merge_scheduler req prev in
      let s := Scheduler cfg in
      match validateScheduler (Mode s) (SchedulerName s) with
      | Some e => Err e
      | None =>
          let* _ := (if decide (Mode s = "scx")
                     then rmap (fun _ => tt) (ensureExecutableInDir stat (Dir bin) (SchedulerName s))
                     else Ok tt) in
          let cfg := merge_monitoring req cfg in
          Ok (if decide (tracked prev = tracked cfg) then None else Some (yaml_print (marshal_doc cfg)))
      end
  end%go.

(** The name [os.CreateTemp] picks: in the directory, and not taken. *)
Definition temp_name (disk : gmap string string) : string :=
  fresh_string (path +:+ ".tmp-1") (<[path := ""]> disk).

Definition commit_config (o : write_outcomes) (text : string) (disk : gmap string string) : gmap string string * bool :=
  let '(trace, ok) := atomicWriteConfigFile o (temp_name disk) path text disk in (final_disk disk trace, ok).

Definition content_disk (c : option string) : gmap string string :=
  match c with Some t => {[path := t]} | None => ∅ end.

Definition file_store : ConfigStore := {|
  store := gmap string string;
  cs_content disk := disk !! path;
  cs_plan := plan_config;
  cs_commit := commit_config;
  cs_load c := match LoadConfig (open_disk bad (content_disk c)) path with Ok cfg => Some (current_of cfg) | Err _ => None end;
  cs_resolve c := schedulerCommandFromConfig bad stat support path bin (content_disk c)
|}.

Lemma temp_name_fresh disk : temp_name disk <> path /\ disk !! temp_name disk = None.
Proof.
  pose proof (fresh_string_fresh (<[path := ""]> disk) (path +:+ ".tmp-1")) as Hf.
  apply lookup_insert_None in Hf as [Hf Hne]. split; [by intros Heq; apply Hne|exact Hf].
Qed.

#[global] Instance file_store_laws : ConfigStoreLaws file_store.
Proof.
  intros o text disk disk' ok Hc. cbn in Hc. unfold commit_config in Hc.
  destruct (temp_name_fresh disk) as [Hne Hf].
  pose proof (atomicWrite_trace o (temp_name disk) path text disk Hne Hf) as Ht.
  destruct (atomicWriteConfigFile _ _ _ _ _) as [trace ok']. injection Hc as <- <-. cbn. destruct ok'.
  - destruct Ht as [_ ->]. apply lookup_insert_eq.
  - destruct Ht as [_ [Hd _]]. rewrite <- Hd at 2. by rewrite lookup_delete_ne.
Qed.

Lemma load_content disk : LoadConfig (open_disk bad disk) path = LoadConfig (open_disk bad (content_disk (disk !! path))) path.
Proof.
  unfold LoadConfig. case_decide; [done|].
  replace (open_disk bad (content_disk (disk !! path)) path) with (open_disk bad disk path); [done|].
  unfold open_disk. case_decide; [done|]. destruct (disk !! path) as [t|] eqn:E; simpl.
  - by rewrite lookup_singleton_eq.
  - by rewrite lookup_empty.
Qed.

(** The adapter does what the functions of daemon.go do. *)
Lemma file_store_refines o req disk :
  applyRuntimeConfigToFile bad stat o (temp_name disk) path bin req disk =
    (match plan_config req disk with
     | Err e => (disk, false, Some e)
     | Ok None => (disk, false, None)
     | Ok (Some text) =>
         let '(d, ok) := commit_config o text disk in (d, true, if ok then None else Some ErrWrite)
     end) /\
  schedulerCommandFromConfig bad stat support path bin disk = @cs_resolve file_store (disk !! path).
Proof.
  split.
  - unfold applyRuntimeConfigToFile, plan_config, commit_config, writeConfigFile. destruct (LoadConfig _ _) as [prev|]; [|done].
    cbv zeta. destruct (validateScheduler _ _); [done|].
    destruct (decide (Mode _ = "scx")); [destruct (ensureExecutableInDir _ _ _); [|done]|];
      simpl; case_decide; try done; by destruct (atomicWriteConfigFile _ _ _ _ _).
  - cbn. unfold schedulerCommandFromConfig. by rewrite load_content.
Qed.

End file_store.

(** ** Requests as runs *)

Section requests.
  Context `{CS : ConfigStore} `{!ConfigStoreLaws CS}.

Lemma run_cons e es w w' : step e w = Some w' -> run (e :: es) w = run es w'.
Proof. intros H. simpl. by rewrite H. Qed.

Lemma handlers_twice (h : nat) (x y : handler) (m : gmap nat handler) : <[h := x]> (<[h := y]> m) = <[h := x]> m.
Proof. apply insert_insert_eq. Qed.

(** The world in which request [h] has been answered and nothing else moved. *)
Definition answered (w : world) (h : nat) (sh : shared) (resp : response) : world :=
  mkWorld sh (w_sig w) (w_phase w) (w_procs w) (<[h := HDone resp]> (w_handlers w)) (w_seen w).

(** Runs the next step of the one handler that moves; closes the goal at the end. *)
Ltac advance := simpl; rewrite lookup_insert_eq; simpl.
Ltac settle :=
  unfold finish_get, w_with_handler, w_with_sh, answered; simpl; by rewrite ?handlers_twice.

Lemma post_is_a_run o t now body w h :
  w_handlers w !! h = None ->
  let '(sh, resp) := handleRuntimeConfig o t now (Post body) (w_sh w) in
  exists es, run es w = Some (answered w h sh resp).
Proof.
  intros Hh. cbn. destruct (check_post (sh_state (w_sh w)) body) as [resp|req] eqn:Echk.
  { exists [EvRequest h (Post body)]. simpl. unfold accept_request. rewrite Hh, Echk. done. }
  unfold ApplyRuntimeConfig. assert (forall es, run (EvRequest h (Post body) :: es) w =
    run es (w_with_handler h (PChecked req) w)) as Hreq.
  { intros es. apply run_cons. simpl. unfold accept_request. by rewrite Hh, Echk. }
  destruct (cs_plan req (sh_store (w_sh w))) as [[text|]|e] eqn:Ep.
  - destruct (cs_commit o text (sh_store (w_sh w))) as [d []] eqn:Ec.
    + exists [EvRequest h (Post body); EvPlan h; EvCommit h o t; EvSet h now; EvSend h].
      rewrite Hreq. advance. rewrite Ep. advance.
      rewrite Ec. advance. advance.
      settle.
    + exists [EvRequest h (Post body); EvPlan h; EvCommit h o t].
      rewrite Hreq. advance. rewrite Ep. advance.
      rewrite Ec. settle.
  - exists [EvRequest h (Post body); EvPlan h; EvSet h now; EvSend h].
    rewrite Hreq. advance. rewrite Ep. advance.
    advance. settle.
  - exists [EvRequest h (Post body); EvPlan h].
    rewrite Hreq. advance. rewrite Ep.
    settle.
Qed.

Lemma get_is_a_run o t now w h :
  w_handlers w !! h = None ->
  let '(sh, resp) := handleRuntimeConfig o t now Get (w_sh w) in
  exists es, run es w = Some (answered w h sh resp).
Proof.
  intros Hh. cbn. unfold snapshot, readCurrentConfig.
  assert (forall es, run (EvRequest h Get :: es) w =
    run es (w_with_handler h (GFields (status_fields (sh_state (w_sh w)) None)) w)) as Hreq.
  { intros es. apply run_cons. simpl. unfold accept_request. by rewrite Hh. }
  assert (upd_state (fun _ => sh_state (w_sh w)) (w_sh w) = w_sh w) as Hid by (by destruct w as [[]]).
  destruct (decide (cs_runtimeConfigPath (sh_state (w_sh w)) = "")) as [He|He].
  { exists [EvRequest h Get; EvCopyCache h]. rewrite Hreq. advance.
    rewrite decide_True by done. rewrite Hid. settle. }
  destruct (sh_mtime_opt (w_sh w)) as [m|] eqn:Em.
  2:{ exists [EvRequest h Get; EvCopyCache h; EvStat h]. rewrite Hreq. advance.
    rewrite decide_False by done. advance. rewrite Em, Hid.
    settle. }
  destruct (cache_hit _ _ m) as [c|] eqn:Ec.
  { exists [EvRequest h Get; EvCopyCache h; EvStat h]. rewrite Hreq. advance.
    rewrite decide_False by done. advance. rewrite Em, Ec, Hid.
    settle. }
  destruct (sh_load (w_sh w)) as [c|] eqn:El.
  - exists [EvRequest h Get; EvCopyCache h; EvStat h; EvLoad h; EvStore h]. rewrite Hreq. advance. rewrite decide_False by done. advance.
    rewrite Em, Ec. advance. rewrite El. advance.
    settle.
  - exists [EvRequest h Get; EvCopyCache h; EvStat h; EvLoad h]. rewrite Hreq. advance. rewrite decide_False by done. advance.
    rewrite Em, Ec. advance. rewrite El, Hid.
    settle.
Qed.

(** A POST that is answered with 200 leaves its version applied. *)
Lemma post_ok_applied o t now req w :
  rs_code (handleRuntimeConfig o t now (Post (Decoded req)) w).2 = 200%Z ->
  let s := sh_state (handleRuntimeConfig o t now (Post (Decoded req)) w).1 in
  rq_ConfigVersion req <> "" /\ cs_applied s = true /\ cs_configVersion s = rq_ConfigVersion req.
Proof.
  cbn. case_decide as Hv; [done|]. destruct (cs_applied (sh_state w) && _) eqn:Esame.
  { apply andb_true_iff in Esame as [Ha He%bool_decide_eq_true]. done. }
  destruct (ApplyRuntimeConfig o t req w) as [[w1 changed] [e|]]; [done|]. by destruct changed.
Qed.

(** No step changes which file is read. *)
Lemma step_path e w w' :
  step e w = Some w' -> cs_runtimeConfigPath (sh_state (w_sh w')) = cs_runtimeConfigPath (sh_state (w_sh w)).
Proof.
  intros Hs. destruct e; cbn [step] in Hs;
    unfold main_resolve, main_start, main_signal, main_restart, main_done, stopChildProcess, child_exit,
      accept_request, post_step, get_step in Hs;
    repeat (match type of Hs with
    | context [match ?x with _ => _ end] => destruct x eqn:?
    end; try discriminate Hs); try (injection Hs as <-); done.
Qed.

End requests.

(** A store that keeps one text in memory, for concrete runs: the text is the
    mode, [none] disables the scheduler and anything else is the command. *)
Definition memory_store : ConfigStore := {|
  store := option string;
  cs_content s := s;
  cs_plan req s := Ok (if decide (s = Some (rq_Mode req)) then None else Some (rq_Mode req));
  cs_commit o text s := if wo_rename o then (Some text, true) else (s, false);
  cs_load c := (fun m => mkCurrent m "" 0 0 false false false false false false) <$> c;
  cs_resolve c := match c with
                  | Some m => if decide (m = "none") then Ok ("", [], false) else Ok (m, ["scheduler"], true)
                  | None => Err (ErrMode "")
                  end
|}.

#[global] Instance memory_store_laws : ConfigStoreLaws memory_store.
Proof. intros o text s s' ok. simpl. by destruct (wo_rename o); intros [= <- <-]. Qed.

Definition mode_request (version mode : string) : runtimeConfigRequest :=
  mkRequest version mode "" 0 0 None None None None None None.

Definition sample_store : store (ConfigStore := memory_store) := Some "gthulhu".
Definition sample_world : world (CS := memory_store) := initial "f" sample_store 10.

(** A run: the child of the first configuration is started, a request changes the
    mode while it runs, the child is stopped and the new one started. *)
Definition sample_run : list event :=
  [EvResolve; EvStart true 1; EvRequest 7 (Post (Decoded (mode_request "v1" "simple"))); EvPlan 7;
   EvCommit 7 good_outcomes 20; EvSet 7 30; EvSend 7; EvTakeRestart; EvChildExit 1 0; EvStopped; EvSlept;
   EvResolve; EvStart true 2].

Definition sample_end : world (CS := memory_store) := default sample_world (run sample_run sample_world).

Lemma sample_runs : run sample_run sample_world = Some sample_end.
Proof. vm_compute. reflexivity. Qed.

(** ** Properties *)

(** C8 (one child).  However the goroutines interleave, at most one scheduler
    child is alive, and none is while the daemon resolves, waits or sleeps, or
    once it has returned. *)
Theorem supervisor_single_child `{CS : ConfigStore} path (d : store) mtime es w :
  run es (initial path d mtime) = Some w ->
  (forall p q, w_procs w !! p = Some Alive -> w_procs w !! q = Some Alive -> p = q) /\
  (phase_child (w_phase w) = None -> forall p, w_procs w !! p <> Some Alive).
Proof.
  intros Hr. assert (single_child w) as Hw.
  { eapply run_inv; [|..|exact Hr]; [intros *; apply single_child_step|]. intros pid. simpl. by rewrite lookup_empty. }
  split.
  - intros p q Hp Hq. apply Hw in Hp, Hq. congruence.
  - intros Hn p Hp. apply Hw in Hp. congruence.
Qed.

Lemma supervisor_single_child_witness :
  w_phase sample_end = Running 2 ("simple", ["scheduler"]) /\ w_procs sample_end !! 2 = Some Alive /\
  w_procs sample_end !! 1 <> Some Alive.
Proof.
  assert (w_procs sample_end !! 2 = Some Alive) as H2 by (vm_compute; reflexivity).
  split; [vm_compute; reflexivity|]. split; [exact H2|]. intros H1.
  destruct (supervisor_single_child (CS := memory_store) "f" sample_store 10 sample_run sample_end sample_runs) as [H _].
  discriminate (H 1 2 H1 H2).
Defined.

(** C7 (no update is lost).  However requests, restarts, crashes of the child and
    signals interleave, once no restart is due (the restart channel is empty and no
    request stands between its write and its send), the phase of the supervisor is
    the one the configuration file calls for: what runs, or is about to be started,
    is the command resolved from the file's current contents; it waits as disabled
    only if those contents disable the scheduler. *)
Theorem supervisor_follows_config `{CS : ConfigStore} `{!ConfigStoreLaws CS} path (d : store) mtime es w :
  run es (initial path d mtime) = Some w -> ~ restart_due w ->
  phase_matches (w_phase w) (cs_content (sh_store (w_sh w))).
Proof.
  intros Hr Hq. assert (supervised w) as [Hm Hu].
  { eapply run_inv; [|..|exact Hr]; [intros *; apply supervised_step|]. done. }
  destruct (acts_on_seen (w_phase w)) eqn:Ha.
  - destruct (Hu Ha) as [->|?]; done.
  - by destruct (w_phase w).
Qed.

Lemma supervisor_follows_config_witness :
  phase_matches (CS := memory_store) (w_phase sample_end) (sh_store (w_sh sample_end)).
Proof.
  apply (supervisor_follows_config (CS := memory_store) "f" sample_store 10 sample_run sample_end sample_runs).
  intros [Ht|(h & x & Hx & Ho)]; [vm_compute in Ht; discriminate Ht|].
  assert (map_Forall (fun _ y => owes_restart y = false) (w_handlers sample_end)) as Hall.
  { apply (bool_decide_eq_true_1 _). vm_compute. reflexivity. }
  pose proof (Hall h x Hx) as Hn. simpl in Hn. congruence.
Defined.

(** Remark (the status cache).  If successive writes of the file get increasing time
    stamps, then after any interleaving a GET reports the settings that are in the
    file at that moment, though the cache is filled outside the lock. *)
Theorem snapshot_reports_file `{CS : ConfigStore} `{!ConfigStoreLaws CS} path (d : store) mtime es w o t now :
  path <> "" -> Sorted.StronglySorted Z.lt (mtime :: stamps es) ->
  run es (initial path d mtime) = Some w -> is_Some (cs_content (sh_store (w_sh w))) ->
  (handleRuntimeConfig o t now Get (w_sh w)).2 =
  mkResponse 200 (BodyData (status_fields (sh_state (w_sh w)) (cs_load (cs_content (sh_store (w_sh w)))))).
Proof.
  intros Hp Hs Hr Hc. assert (coherent w) as Hw by (eapply coherent_run; [apply initial_coherent|exact Hs|exact Hr]).
  assert (cs_runtimeConfigPath (sh_state (w_sh w)) = path) as Hpath.
  { eapply (run_inv (fun w => cs_runtimeConfigPath (sh_state (w_sh w)) = path)); [|..|exact Hr]; [|done].
    intros e w1 w2 H1 H2. by rewrite (step_path _ _ _ H2). }
  cbn. unfold snapshot. pose proof (coherent_read w Hw) as Hread.
  destruct (readCurrentConfig _ _ _) as [s c]. simpl in *. rewrite Hread by (congruence || done). done.
Qed.

Lemma snapshot_reports_file_witness :
  (handleRuntimeConfig good_outcomes 0 0 Get (w_sh sample_end)).2 =
  mkResponse 200 (BodyData (mkStatus "v1" true "1970-01-01T00:00:00Z" 0 None
    (Some (mkCurrent "simple" "" 0 0 false false false false false false)))).
Proof.
  rewrite (snapshot_reports_file (CS := memory_store) "f" sample_store 10 sample_run sample_end good_outcomes 0 0);
    [vm_compute; reflexivity|discriminate| |exact sample_runs|vm_compute; eexists; reflexivity].
  repeat constructor; lia.
Defined.

(** Remark (the handlers are runs).  Serving a request of the runtime-config endpoint
    in one go is one of the interleavings: the steps of the request, taken one after
    the other, give the shared state and the response of the handler and touch
    nothing else. *)
Theorem handler_is_a_run `{CS : ConfigStore} o t now r w h :
  w_handlers w !! h = None ->
  let '(sh, resp) := handleRuntimeConfig o t now r (w_sh w) in
  exists es, run es w = Some (answered w h sh resp).
Proof.
  intros Hh. destruct r as [|body|].
  - by apply get_is_a_run.
  - by apply post_is_a_run.
  - exists [EvRequest h OtherMethod]. simpl. unfold accept_request. by rewrite Hh.
Qed.

Lemma handler_is_a_run_witness :
  exists es w, run es sample_world = Some w /\
    w_handlers w !! 7 = Some (HDone (mkResponse 200 (BodyNoop false))).
Proof.
  destruct (handler_is_a_run (CS := memory_store) good_outcomes 20 30 (Post (Decoded (mode_request "v1" "simple"))) sample_world 7)
    as [es H]; [vm_compute; reflexivity|].
  exists es. eexists. split; [exact H|]. vm_compute. reflexivity.
Defined.

(** Remark (POST on every branch).  A POST answers 200 exactly when the control state
    then says that the requested version is applied; it answers 200 with [noop]
    false exactly when the file was replaced by new contents, and then a restart is
    requested; on every other answer the file's contents and the restart channel are
    as before, and unless it is 200 so are the version and the flag. *)
Theorem post_runtime_config_spec `{CS : ConfigStore} `{!ConfigStoreLaws CS} o t now body w :
  let '(w', resp) := handleRuntimeConfig o t now (Post body) w in
  (rs_code resp = 200%Z ->
     exists req, body = Decoded req /\ rq_ConfigVersion req <> "" /\
       cs_applied (sh_state w') = true /\ cs_configVersion (sh_state w') = rq_ConfigVersion req) /\
  (rs_code resp <> 200%Z ->
     cs_applied (sh_state w') = cs_applied (sh_state w) /\ cs_configVersion (sh_state w') = cs_configVersion (sh_state w)) /\
  (resp = mkResponse 200 (BodyNoop false) ->
     exists req text, body = Decoded req /\ cs_plan req (sh_store w) = Ok (Some text) /\
       cs_content (sh_store w') = Some text /\ sh_token w' = true) /\
  (resp <> mkResponse 200 (BodyNoop false) ->
     cs_content (sh_store w') = cs_content (sh_store w) /\ sh_token w' = sh_token w).
Proof.
  cbn. unfold check_post. destruct body as [| |req]; [by split_and!..|].
  case_decide as Hv; [by split_and!|].
  destruct (cs_applied (sh_state w) && _) eqn:Esame.
  { apply andb_true_iff in Esame as [Ha He%bool_decide_eq_true]. split_and!; try done. intros _. by exists req. }
  unfold ApplyRuntimeConfig. destruct (cs_plan req (sh_store w)) as [[text|]|e] eqn:Ep; simpl.
  - destruct (cs_commit o text (sh_store w)) as [d []] eqn:Ec; simpl; pose proof (cs_commit_content _ _ _ _ _ Ec) as Hc.
    + split_and!; try done; [by intros; exists req|]. intros _. by exists req, text.
    + by split_and!.
  - split_and!; try done. by intros; exists req.
  - by split_and!.
Qed.

Lemma post_runtime_config_spec_witness :
  exists w', handleRuntimeConfig (CS := memory_store) good_outcomes 20 30 (Post (Decoded (mode_request "v1" "simple")))
      (w_sh sample_world) = (w', mkResponse 200 (BodyNoop false)) /\ sh_token w' = true.
Proof.
  pose proof (post_runtime_config_spec (CS := memory_store) good_outcomes 20 30 (Decoded (mode_request "v1" "simple"))
    (w_sh sample_world)) as (_ & _ & H & _).
  eexists. split; [vm_compute; reflexivity|]. destruct (H eq_refl) as (_ & _ & _ & _ & _ & Ht). exact Ht.
Defined.
