(* ===== verification/Intents.v ===== *)
(** * Intents and node policies: api/decisionmaker/domain, and their canonical form in service.go and node_policy_svc.go

    The data the manager pushes to a decision maker, and the serialisation,
    sorting and hashing from which the Merkle root is built.  The lemmas say when
    the serialisation loses nothing and when the root does not depend on order. *)

From stdpp Require Import base gmap strings list sorting.
From Stdlib Require Import ZArith Lia Ascii.
From S2P Require Import Prelude GoStrings GoSort Sha256 Merkle.

(** ** Data *)

Record Intent := mkIntent {
  IntentID : string;
  PodName : string;
  PodID : string;
  NodeID : string;
  K8sNamespace : string;
  CommandRegex : string;
  Priority : Z;
  ExecutionTime : Z;
  PodLabels : gmap string string
}.

Record NodePolicy := mkNodePolicy {
  np_PolicyID : string;
  np_NodeID : string;
  np_CommandRegex : string;
  np_Priority : Z;
  np_ExecutionTime : Z
}.

Record LabelSelector := mkLabelSelector { ls_Key : string; ls_Value : string }.

Record SchedulingIntents := mkSchedulingIntents {
  si_Priority : Z;
  si_ExecutionTime : Z;     (** uint64 *)
  si_PID : Z;
  si_Selectors : list LabelSelector;
  si_CommandRegex : string
}.

Record TaskInfo := mkTaskInfo { TGID : Z; TID : Z; Comm : string }.

Record PodProcess := mkPodProcess { PID : Z; Command : string; PPID : Z; ContainerID : string }.

Record PodInfo := mkPodInfo { PodUID : string; pi_PodID : string; Processes : list PodProcess }.

#[global] Instance Intent_eq_dec : EqDecision Intent.
Proof. solve_decision. Defined.
#[global] Instance NodePolicy_eq_dec : EqDecision NodePolicy.
Proof. solve_decision. Defined.

(** ** Canonical form of intents *)

Definition normalizeIntentInputs (intents : list (option Intent)) : list Intent := non_nil intents.

(** The labels as [key=value], sorted. *)
Definition label_strings (labels : gmap string string) : list string :=
  sort_strings ((fun '(k, v) => k +:+ "=" +:+ v) <$> map_to_list labels).

Definition intentSortKey (i : Intent) : string :=
  Join [PodName i; PodID i; NodeID i; K8sNamespace i; CommandRegex i;
        Itoa (Priority i); Itoa (ExecutionTime i); Join (label_strings (PodLabels i)) ","] "|".

Definition sortIntentsByKey (intents : list Intent) : list Intent := sort_by intentSortKey String.le intents.

(** The string [hashIntent] hashes. *)
Definition serializeIntent (i : Intent) : string :=
  Join ["podName=" +:+ PodName i; "podID=" +:+ PodID i; "nodeID=" +:+ NodeID i;
        "k8sNamespace=" +:+ K8sNamespace i; "commandRegex=" +:+ CommandRegex i;
        "priority=" +:+ Itoa (Priority i); "executionTime=" +:+ Itoa (ExecutionTime i);
        "podLabels=" +:+ Join (label_strings (PodLabels i)) ","] "|".

Definition hashIntent (i : Intent) : string := HashStringSHA256Hex (serializeIntent i).

(** The leaves in canonical order, and the tree over them. *)
Definition intentLeaves (intents : list Intent) : list string := hashIntent <$> sortIntentsByKey intents.
Definition intentTree (intents : list Intent) : MerkleNode := BuildMerkleTree (intentLeaves intents).

(** ** Canonical form of node policies *)

Definition normalizeNodePolicyInputs (policies : list (option NodePolicy)) : list NodePolicy := non_nil policies.

Definition nodePolicySortKey (p : NodePolicy) : string :=
  Join [np_PolicyID p; np_NodeID p; np_CommandRegex p; Itoa (np_Priority p); Itoa (np_ExecutionTime p)] "|".

Definition sortNodePoliciesByKey (policies : list NodePolicy) : list NodePolicy :=
  sort_by nodePolicySortKey String.le policies.

Definition serializeNodePolicy (p : NodePolicy) : string :=
  Join ["policyID=" +:+ np_PolicyID p; "nodeID=" +:+ np_NodeID p; "commandRegex=" +:+ np_CommandRegex p;
        "priority=" +:+ Itoa (np_Priority p); "executionTime=" +:+ Itoa (np_ExecutionTime p)] "|".

Definition hashNodePolicy (p : NodePolicy) : string := HashStringSHA256Hex (serializeNodePolicy p).

Definition nodePolicyLeaves (policies : list NodePolicy) : list string :=
  hashNodePolicy <$> sortNodePoliciesByKey policies.
Definition nodePolicyTree (policies : list NodePolicy) : MerkleNode := BuildMerkleTree (nodePolicyLeaves policies).

(** ** Strings without separators *)

Definition no_bar (s : string) : Prop := has_char "|" s = false.

(** What Kubernetes guarantees of names and labels: no bar in the names, and in
    the labels no comma or bar, and no equals sign in a key.  Nothing is asked of
    the regular expression. *)
Definition clean_label (kv : string * string) : Prop :=
  has_char "," kv.1 = false /\ has_char "|" kv.1 = false /\ has_char "=" kv.1 = false /\
  has_char "," kv.2 = false /\ has_char "|" kv.2 = false.

Definition clean_intent (i : Intent) : Prop :=
  no_bar (PodName i) /\ no_bar (PodID i) /\ no_bar (NodeID i) /\ no_bar (K8sNamespace i) /\
  Forall clean_label (map_to_list (PodLabels i)).

Definition clean_policy (p : NodePolicy) : Prop := no_bar (np_PolicyID p) /\ no_bar (np_NodeID p).

(** An intent without its identifier, which no hash covers. *)
Definition intent_body (i : Intent) : Intent :=
  mkIntent "" (PodName i) (PodID i) (NodeID i) (K8sNamespace i) (CommandRegex i) (Priority i) (ExecutionTime i) (PodLabels i).

(** ** Lemmas *)

(** One field with bars in the middle of fields without: the fields can be told
    apart by cutting from both ends. *)
Lemma Join_mid_inj pre pre' m m' post post' :
  length pre = length pre' -> length post = length post' ->
  Forall no_bar pre -> Forall no_bar pre' -> Forall no_bar post -> Forall no_bar post' ->
  Join (pre ++ m :: post) "|" = Join (pre' ++ m' :: post') "|" -> pre = pre' /\ m = m' /\ post = post'.
Proof.
  intros Hlen. revert pre' Hlen. induction pre as [|x pre IH]; intros [|x' pre'] Hlen Hpost H1 H2 H3 H4 Heq;
    try discriminate Hlen; cbn [app] in Heq.
  - clear H1 H2. revert post' Hpost H4 Heq. induction post as [|y post IH] using rev_ind; intros post'.
    + by destruct post' as [|? ?].
    + destruct post' as [|y' post' _] using rev_ind; intros Hlen' H4 Heq; rewrite ?length_app in Hlen'; cbn in Hlen'; [lia|].
      rewrite (app_comm_cons post _ m), (app_comm_cons post' _ m'), !Join_snoc in Heq by done.
      apply Forall_app in H3 as [H3 [H3' _]%Forall_cons], H4 as [H4 [H4' _]%Forall_cons].
      apply cut_last in Heq as [Heq ->]; [|done..].
      destruct (IH H3 post') as (_ & -> & ->); [lia|done..].
  - apply Forall_cons in H1 as [H1 H1'], H2 as [H2 H2'].
    rewrite !(Join_cons _ (_ ++ _)) in Heq by (by destruct pre, pre').
    apply cut_first in Heq as [-> Heq]; [|done..].
    injection Hlen as Hlen. destruct (IH pre') as (-> & -> & ->); done.
Qed.

(** Fields none of which contains the separator. *)
Lemma Join_char_inj c l l' :
  Forall (fun s => has_char c s = false /\ s <> "") l -> Forall (fun s => has_char c s = false /\ s <> "") l' ->
  Join l (String c "") = Join l' (String c "") -> l = l'.
Proof.
  revert l'. induction l as [|x l IH]; intros [|x' l'] H1 H2 Heq; try done.
  - apply Forall_cons in H2 as [[_ Hx'] _]. destruct l'; [by simpl in Heq; subst|].
    rewrite Join_cons in Heq by done. by destruct x'.
  - apply Forall_cons in H1 as [[_ Hx] _]. destruct l; [by simpl in Heq; subst|].
    rewrite Join_cons in Heq by done. by destruct x.
  - apply Forall_cons in H1 as [[H1 Hx] H1'], H2 as [[H2 Hx'] H2'].
    assert (forall y z r, has_char c y = false -> y <> z +:+ String c r) as Hno.
    { intros y z r Hy ->. rewrite has_char_app in Hy. simpl in Hy. by rewrite Ascii.eqb_refl, orb_true_r in Hy. }
    destruct l as [|y l], l' as [|y' l']; [by simpl in Heq; subst|..].
    + rewrite (Join_cons x') in Heq by done. by apply Hno in Heq.
    + rewrite (Join_cons x) in Heq by done. symmetry in Heq. by apply Hno in Heq.
    + rewrite (Join_cons x), (Join_cons x') in Heq by done. apply cut_first in Heq as [-> Heq]; [|done..].
      by rewrite (IH (y' :: l')).
Qed.

Lemma no_bar_app s t : no_bar (s +:+ t) <-> no_bar s /\ no_bar t.
Proof. unfold no_bar. rewrite has_char_app. apply orb_false_iff. Qed.

Lemma no_bar_Itoa z : no_bar (Itoa z).
Proof. apply Itoa_no_bar. Qed.

Lemma string_app_inj_l s t u : s +:+ t = s +:+ u -> t = u.
Proof. induction s as [|a s IH]; [done|]. rewrite !string_app_cons. intros [= H]. auto. Qed.

Lemma has_char_Join c l sep :
  has_char c sep = false -> Forall (fun s => has_char c s = false) l -> has_char c (Join l sep) = false.
Proof.
  intros Hsep. induction 1 as [|x l Hx _ IH]; [done|]. destruct (decide (l = [])) as [->|Hl]; [done|].
  rewrite Join_cons by done. by rewrite !has_char_app, Hx, Hsep, IH.
Qed.

(** *** Labels *)

Lemma label_strings_elem labels s :
  s ∈ label_strings labels <-> exists k v, labels !! k = Some v /\ s = k +:+ "=" +:+ v.
Proof.
  unfold label_strings, sort_strings. rewrite (elem_of_sort_by id String.le), list_elem_of_fmap by apply _. split.
  - intros ([k v] & -> & H). exists k, v. by rewrite <- elem_of_map_to_list.
  - intros (k & v & H & ->). exists (k, v). by rewrite elem_of_map_to_list.
Qed.

Definition clean_labels (labels : gmap string string) : Prop := Forall clean_label (map_to_list labels).

Lemma clean_labels_lookup labels k v : clean_labels labels -> labels !! k = Some v -> clean_label (k, v).
Proof. unfold clean_labels. rewrite Forall_forall. intros H Hk. apply H. by rewrite elem_of_map_to_list. Qed.

Lemma clean_label_strings labels :
  clean_labels labels -> Forall (fun s => has_char "," s = false /\ s <> "") (label_strings labels).
Proof.
  intros Hc. apply Forall_forall. intros s (k & v & Hk & ->)%label_strings_elem.
  destruct (clean_labels_lookup _ _ _ Hc Hk) as (H1 & _ & _ & H2 & _). simpl in *.
  rewrite !has_char_app, H1, H2. split; [done|]. by destruct k.
Qed.

Lemma label_join_no_bar labels : clean_labels labels -> no_bar (Join (label_strings labels) ",").
Proof.
  intros Hc. apply has_char_Join; [done|]. apply Forall_forall. intros s (k & v & Hk & ->)%label_strings_elem.
  destruct (clean_labels_lookup _ _ _ Hc Hk) as (_ & H1 & _ & _ & H2). simpl in *. by rewrite !has_char_app, H1, H2.
Qed.

(** The joined labels determine the labels. *)
Lemma label_join_inj l1 l2 :
  clean_labels l1 -> clean_labels l2 -> Join (label_strings l1) "," = Join (label_strings l2) "," -> l1 = l2.
Proof.
  intros H1 H2 Heq. apply (Join_char_inj ",") in Heq; [|by apply clean_label_strings..].
  apply map_eq. intros k. apply option_eq. intros v.
  assert (forall la lb, clean_labels la -> clean_labels lb -> label_strings la = label_strings lb ->
    la !! k = Some v -> lb !! k = Some v) as Hsub.
  { intros la lb Ha Hb Hab Hk. assert (k +:+ "=" +:+ v ∈ label_strings lb) as Hin.
    { rewrite <- Hab. apply label_strings_elem. eauto. }
    apply label_strings_elem in Hin as (k' & v' & Hk' & Hs).
    destruct (clean_labels_lookup _ _ _ Ha Hk) as (_ & _ & He & _).
    destruct (clean_labels_lookup _ _ _ Hb Hk') as (_ & _ & He' & _).
    apply cut_first in Hs as [-> Hs]; [|done..]. cbn in Hs. by rewrite Hs. }
  split; eapply Hsub; done.
Qed.

(** *** The serialisations lose nothing *)

Lemma cons_inj {A} (x y : A) l l' : x :: l = y :: l' -> x = y /\ l = l'.
Proof. by intros [= -> ->]. Qed.

(** Splits an equation of lists of tagged fields, dropping the tags. *)
Ltac fields H := repeat (apply cons_inj in H as [?E H]); clear H.
Ltac untag := repeat match goal with H : _ +:+ _ = _ +:+ _ |- _ => apply string_app_inj_l in H end.

Ltac no_bars := rewrite ?Forall_cons, ?no_bar_app; repeat split; auto using no_bar_Itoa, label_join_no_bar.

Lemma serializeIntent_inj i j :
  clean_intent i -> clean_intent j -> serializeIntent i = serializeIntent j -> intent_body i = intent_body j.
Proof.
  intros (Hi1 & Hi2 & Hi3 & Hi4 & Hi5) (Hj1 & Hj2 & Hj3 & Hj4 & Hj5) Heq. unfold serializeIntent in Heq.
  apply (Join_mid_inj [_; _; _; _] [_; _; _; _] _ _ [_; _; _] [_; _; _]) in Heq; [|no_bars..].
  destruct Heq as (H1 & H2 & H3). fields H1. fields H3. untag.
  apply Itoa_inj in E3, E4. apply label_join_inj in E5; [|done..].
  unfold intent_body. congruence.
Qed.

Lemma intentSortKey_inj i j :
  clean_intent i -> clean_intent j -> intentSortKey i = intentSortKey j -> intent_body i = intent_body j.
Proof.
  intros (Hi1 & Hi2 & Hi3 & Hi4 & Hi5) (Hj1 & Hj2 & Hj3 & Hj4 & Hj5) Heq. unfold intentSortKey in Heq.
  apply (Join_mid_inj [_; _; _; _] [_; _; _; _] _ _ [_; _; _] [_; _; _]) in Heq; [|no_bars..].
  destruct Heq as (H1 & H2 & H3). fields H1. fields H3.
  apply Itoa_inj in E3, E4. apply label_join_inj in E5; [|done..].
  unfold intent_body. congruence.
Qed.

Lemma serializeIntent_body i : serializeIntent (intent_body i) = serializeIntent i.
Proof. done. Qed.

Lemma serializeNodePolicy_inj p q :
  clean_policy p -> clean_policy q -> serializeNodePolicy p = serializeNodePolicy q -> p = q.
Proof.
  intros (Hp1 & Hp2) (Hq1 & Hq2) Heq. unfold serializeNodePolicy in Heq.
  apply (Join_mid_inj [_; _] [_; _] _ _ [_; _] [_; _]) in Heq; [|no_bars..].
  destruct Heq as (H1 & H2 & H3). fields H1. fields H3. untag. apply Itoa_inj in E1, E2. destruct p, q. simpl in *. by subst.
Qed.

Lemma nodePolicySortKey_inj p q :
  clean_policy p -> clean_policy q -> nodePolicySortKey p = nodePolicySortKey q -> p = q.
Proof.
  intros (Hp1 & Hp2) (Hq1 & Hq2) Heq. unfold nodePolicySortKey in Heq.
  apply (Join_mid_inj [_; _] [_; _] _ _ [_; _] [_; _]) in Heq; [|no_bars..].
  destruct Heq as (H1 & H2 & H3). fields H1. fields H3. apply Itoa_inj in E1, E2. destruct p, q. simpl in *. by subst.
Qed.

(** ** Canonical lists, whatever the elements *)

Section canonical.
  Context {A B : Type} (key ser : A -> string) (body : A -> B) (clean : A -> Prop).
  Hypothesis key_inj : forall x y, clean x -> clean y -> key x = key y -> body x = body y.
  Hypothesis ser_body : forall x y, body x = body y -> ser x = ser y.
  Hypothesis ser_inj : forall x y, clean x -> clean y -> ser x = ser y -> body x = body y.

(** What is hashed does not depend on the order of the input nor on the sort. *)
Lemma canonical_order l1 l2 s1 s2 :
  Forall clean l1 -> l1 ≡ₚ l2 -> SortedBy key String.le l1 s1 -> SortedBy key String.le l2 s2 -> ser <$> s1 = ser <$> s2.
Proof.
  intros Hc Hp H1 H2. assert (SortedBy key String.le l1 s2) as H2'.
  { destruct H2 as [Hp2 ?]. split; [by rewrite Hp2|done]. }
  pose proof (SortedBy_keys key String.le l1 s1 s2 H1 H2') as Hk.
  assert (Forall clean s1) as Hc1 by (by rewrite (proj1 H1)).
  assert (Forall clean s2) as Hc2 by (by rewrite (proj1 H2')).
  clear -Hk Hc1 Hc2 key_inj ser_body. revert s2 Hk Hc2. induction Hc1 as [|x s1 Hx _ IH]; intros [|y s2] Hk Hc2; try done.
  apply Forall_cons in Hc2 as [Hy Hc2]. cbn [fmap list_fmap] in *. apply cons_inj in Hk as [Hxy Hk].
  f_equal; [|by apply IH]. apply ser_body. by apply key_inj.
Qed.

(** Equal serialisations come from equal elements. *)
Lemma canonical_inj s1 s2 : Forall clean s1 -> Forall clean s2 -> ser <$> s1 = ser <$> s2 -> body <$> s1 = body <$> s2.
Proof.
  intros Hc. revert s2. induction Hc as [|x s1 Hx _ IH]; intros [|y s2] Hc2 Hs; try done.
  apply Forall_cons in Hc2 as [Hy Hc2]. cbn [fmap list_fmap] in *. apply cons_inj in Hs as [Hxy Hs].
  f_equal; [|by apply IH]. by apply ser_inj.
Qed.

End canonical.

Section roots.
  Context {A : Type} (ser : A -> string).

(** The inputs hashed on the way to the root of [s]. *)
Definition root_inputs (s : list A) : list (list Z) :=
  let leaves := (fun x => HashStringSHA256Hex (ser x)) <$> s in
  ((fun x => bytes_of_string (ser x)) <$> s) ++ loop_inputs (length leaves) leaves.

Lemma leaf_digests (s : list A) : Forall is_digest ((fun x => HashStringSHA256Hex (ser x)) <$> s).
Proof. apply Forall_fmap, Forall_true. intros x. apply HashSHA256Hex_digest. Qed.

(** Equal leaves come from equal serialisations. *)
Lemma leaves_inj inputs s1 s2 :
  collision_free inputs -> (fun x => bytes_of_string (ser x)) <$> s1 ⊆ inputs ->
  (fun x => bytes_of_string (ser x)) <$> s2 ⊆ inputs ->
  (fun x => HashStringSHA256Hex (ser x)) <$> s1 = (fun x => HashStringSHA256Hex (ser x)) <$> s2 ->
  ser <$> s1 = ser <$> s2.
Proof.
  intros Hcf. revert s2. induction s1 as [|x s1 IH]; intros [|y s2] H1 H2 Hh; try done.
  cbn [fmap list_fmap] in *. apply cons_inj in Hh as [Hxy Hh].
  f_equal; [|apply IH; [set_solver..|done]].
  apply bytes_of_string_inj. unfold HashStringSHA256Hex, HashSHA256Hex in Hxy.
  apply Encode_inj in Hxy; [|apply Sum256_bytes..].
  eapply collision_free_spec; [exact Hcf|..|exact Hxy]; set_solver.
Qed.

(** Equal roots over as many elements mean equal serialisations. *)
Lemma canonical_root s1 s2 :
  collision_free (root_inputs s1 ++ root_inputs s2) -> length s1 = length s2 ->
  merkle_root ((fun x => HashStringSHA256Hex (ser x)) <$> s1) =
  merkle_root ((fun x => HashStringSHA256Hex (ser x)) <$> s2) -> ser <$> s1 = ser <$> s2.
Proof.
  intros Hcf Hlen Hroot. apply merkle_root_inj in Hroot; [..|by apply leaf_digests|by apply leaf_digests].
  - eapply leaves_inj; [exact Hcf|..|exact Hroot]; unfold root_inputs; set_solver.
  - eapply collision_free_sub; [|exact Hcf]. unfold root_inputs. set_solver.
  - by rewrite !length_fmap.
Qed.

End roots.

(** The tree over any sort of any reordering of the intents is the canonical one. *)
Lemma intentTree_sorted (l1 l2 s1 : list Intent) :
  Forall clean_intent l1 -> l1 ≡ₚ l2 -> SortedBy intentSortKey String.le l1 s1 ->
  BuildMerkleTree (hashIntent <$> s1) = intentTree l2.
Proof.
  intros Hc Hp Hs. unfold intentTree, intentLeaves. f_equal.
  assert (serializeIntent <$> s1 = serializeIntent <$> sortIntentsByKey l2) as Heq.
  { eapply (canonical_order intentSortKey serializeIntent intent_body clean_intent);
      [exact intentSortKey_inj| |exact Hc|exact Hp|exact Hs|apply sort_by_spec; apply _].
    intros x y Hxy. rewrite <- (serializeIntent_body x), Hxy. apply serializeIntent_body. }
  unfold hashIntent. rewrite !(list_fmap_compose serializeIntent HashStringSHA256Hex). by rewrite Heq.
Qed.

(** ** Properties *)

(** Remark (the root is canonical).  Two decision makers, or a decision maker and its
    own past, that hold the same intents in different orders compute the same root,
    whatever the sorting algorithm does with equal keys. *)
Theorem intent_root_order_independent (l1 l2 s1 : list Intent) :
  Forall clean_intent l1 -> l1 ≡ₚ l2 -> SortedBy intentSortKey String.le l1 s1 ->
  BuildMerkleTree (hashIntent <$> s1) = intentTree l2.
Proof. apply intentTree_sorted. Qed.

(** C16 (the root binds the intents).  Unless SHA-256 collides on the strings
    hashed, two sets of equally many intents with the same root are the same
    intents up to order and identifiers, so a manager that compares roots compares
    what the decision maker will act on. *)
Theorem intent_root_binds (l1 l2 : list Intent) :
  Forall clean_intent l1 -> Forall clean_intent l2 -> length l1 = length l2 ->
  collision_free (root_inputs serializeIntent (sortIntentsByKey l1) ++ root_inputs serializeIntent (sortIntentsByKey l2)) ->
  node_hash (intentTree l1) = node_hash (intentTree l2) ->
  intent_body <$> l1 ≡ₚ intent_body <$> l2.
Proof.
  intros H1 H2 Hlen Hcf Hroot.
  assert (forall l, sortIntentsByKey l ≡ₚ l) as Hsort by (intros l; apply (sort_by_spec intentSortKey String.le)).
  rewrite <- (Hsort l1), <- (Hsort l2).
  assert (forall l l' : list Intent, l = l' -> l ≡ₚ l') as Hrefl by (by intros ? ? ->). apply Hrefl.
  apply (canonical_inj serializeIntent intent_body clean_intent); [exact serializeIntent_inj|by rewrite Hsort..|].
  apply canonical_root; [exact Hcf|by rewrite !Hsort|].
  unfold intentTree in Hroot. by rewrite !BuildMerkleTree_root in Hroot.
Qed.

(** ** Concrete inputs *)

Definition sample_intent (id pod : string) : Intent :=
  mkIntent id "web" pod "n1" "default" "a|b" 3 20000 {["app" := "web"]}.

#[global] Instance clean_label_dec kv : Decision (clean_label kv).
Proof. unfold clean_label. apply _. Defined.
#[global] Instance clean_intent_dec i : Decision (clean_intent i).
Proof. unfold clean_intent, no_bar. apply _. Defined.

Lemma intent_root_order_independent_witness :
  BuildMerkleTree (hashIntent <$> [sample_intent "" "p1"; sample_intent "" "p2"]) =
  intentTree [sample_intent "" "p2"; sample_intent "" "p1"].
Proof.
  apply (intent_root_order_independent [sample_intent "" "p1"; sample_intent "" "p2"]).
  - apply (bool_decide_eq_true_1 _). vm_compute. reflexivity.
  - apply Permutation_swap.
  - split; [reflexivity|]. repeat constructor; unfold key_le; apply (bool_decide_eq_true_1 _); vm_compute; reflexivity.
Defined.

Lemma intent_root_binds_witness :
  intent_body <$> [sample_intent "x" "p1"] ≡ₚ intent_body <$> [sample_intent "y" "p1"].
Proof.
  apply intent_root_binds.
  - apply (bool_decide_eq_true_1 _). vm_compute. reflexivity.
  - apply (bool_decide_eq_true_1 _). vm_compute. reflexivity.
  - reflexivity.
  - apply collision_freeb_sound. vm_compute. reflexivity.
  - vm_compute. reflexivity.
Defined.
