(* ===== verification/ProcScan.v ===== *)
(** * Scanning /proc: service.go, procmonitor.go and pod_metric_collector.go of the decision maker

    How the decision maker finds the processes of each pod (by cgroup path), the
    threads of the node (by task directory), and their scheduling statistics.
    The proc file system is two functions, one that lists a directory and one
    that reads a file; what they fail with is part of their result. *)

From stdpp Require Import base gmap strings list sorting.
From Stdlib Require Import ZArith Lia Ascii.
From S2P Require Import Prelude GoStrings GoSort GoPath Intents.

(** ** Files *)

Inductive read_error := ENOENT | ESRCH | EOther.

Record dirent := mkDirent { de_name : string; de_is_dir : bool }.

Record procfs := mkProcfs {
  ReadDir : string -> result read_error (list dirent);
  ReadFile : string -> result read_error string
}.

(** [bufio.Scanner] over lines: the terminator is dropped with a carriage return
    before it, an unterminated last line counts, and scanning stops at a line
    that does not fit the buffer. *)
Definition drop_cr (s : string) : string := TrimSuffix s (String "013" "").

Fixpoint stop_too_long (lines : list string) : list string :=
  match lines with
  | [] => []
  | l :: ls => if (65536 <=? Z.of_nat (String.length l))%Z then [] else drop_cr l :: stop_too_long ls
  end.

Fixpoint drop_last_empty (lines : list string) : list string :=
  match lines with
  | [] => []
  | [l] => if decide (l = "") then [] else [l]
  | l :: ls => l :: drop_last_empty ls
  end.

Definition scan_lines (data : string) : list string := stop_too_long (drop_last_empty (Split data "010")).

(** ** Pods from cgroup paths *)

Definition is_hex (a : ascii) : bool :=
  let b := byte_of a in
  ((48 <=? b) && (b <=? 57) || (97 <=? b) && (b <=? 102) || (65 <=? b) && (b <=? 70))%N.

Definition is_dash (a : ascii) : bool := Ascii.eqb a "-" || Ascii.eqb a "_".

(** The character classes of the regular expression after [pod]: hexadecimal runs
    of 8, 4, 4, 4 and 12 with a dash or underscore between. *)
Definition uid_mask : list (ascii -> bool) :=
  replicate 8 is_hex ++ is_dash :: replicate 4 is_hex ++ is_dash :: replicate 4 is_hex ++
  is_dash :: replicate 4 is_hex ++ is_dash :: replicate 12 is_hex.

Fixpoint match_mask (mask : list (ascii -> bool)) (s : string) : option string :=
  match mask with
  | [] => Some ""
  | f :: mask' =>
      match s with
      | String a s' => if f a then String a <$> match_mask mask' s' else None
      | EmptyString => None
      end
  end.

(** The leftmost match of [podRegex]: its first group. *)
Fixpoint podRegex (s : string) : option string :=
  match strip_prefix "pod" s ≫= match_mask uid_mask with
  | Some uid => Some uid
  | None => match s with String _ s' => podRegex s' | EmptyString => None end
  end.

(** One turn of the loop over the parts of the path. *)
Definition cgroup_part (acc : string * string) (part : string) : string * string :=
  let '(podUID, containerID) := acc in
  (match podRegex part with Some uid => replace_char "_" "-" uid | None => podUID end,
   if HasPrefix part "cri-containerd-" && HasSuffix part ".scope"
   then TrimSuffix (TrimPrefix part "cri-containerd-") ".scope" else containerID).

Definition getPodInfoFromCgroup (cgroupPath : string) : option (string * string) :=
  let '(podUID, containerID) := foldl cgroup_part ("", "") (Split cgroupPath "/") in
  if decide (podUID = "") then None else Some (podUID, containerID).

Section scan.
  Variable fs : procfs.

Definition getProcessInfo (rootDir : string) (pid : Z) : PodProcess :=
  let comm := match ReadFile fs ("/" +:+ rootDir +:+ "/" +:+ Itoa pid +:+ "/comm") with
              | Ok data => TrimSpace data | Err _ => "" end in
  let ppid := match ReadFile fs ("/" +:+ rootDir +:+ "/" +:+ Itoa pid +:+ "/stat") with
              | Ok data => match Fields data !! 3 with
                           | Some f => default 0%Z (Atoi f) | None => 0%Z end
              | Err _ => 0%Z end in
  mkPodProcess pid comm ppid "".

Definition with_container (c : string) (p : PodProcess) : PodProcess :=
  mkPodProcess (PID p) (Command p) (PPID p) c.

(** Creating or extending the entry of a pod. *)
Definition add_process (uid : string) (p : PodProcess) (m : gmap string PodInfo) : gmap string PodInfo :=
  match m !! uid with
  | Some info => <[uid := mkPodInfo (PodUID info) (pi_PodID info) (Processes info ++ [p])]> m
  | None => <[uid := mkPodInfo uid "" [p]]> m
  end.

(** [parseCgroupToPodInfo]: [None] is the error. *)
Definition parseCgroupToPodInfo (rootDir line : string) (pid : Z) (m : gmap string PodInfo)
    : option (gmap string PodInfo) :=
  match Split line ":" !! 2 with
  | None => Some m
  | Some cgroupHierarchy =>
      match getPodInfoFromCgroup cgroupHierarchy with
      | None => None
      | Some (podUID, containerID) =>
          Some (add_process podUID (with_container containerID (getProcessInfo rootDir pid)) m)
      end
  end.

(** The loop over the lines of one cgroup file: it stops at the first line that
    does not parse. *)
Fixpoint scan_cgroup (rootDir : string) (pid : Z) (lines : list string) (m : gmap string PodInfo)
    : gmap string PodInfo :=
  match lines with
  | [] => m
  | line :: ls =>
      if Contains line "kubepods" then
        match parseCgroupToPodInfo rootDir line pid m with
        | Some m' => scan_cgroup rootDir pid ls m'
        | None => m
        end
      else scan_cgroup rootDir pid ls m
  end.

Definition scan_entry (rootDir : string) (m : gmap string PodInfo) (entry : dirent) : gmap string PodInfo :=
  if negb (de_is_dir entry) then m else
  match Atoi (de_name entry) with
  | None => m
  | Some pid =>
      match ReadFile fs (rootDir +:+ "/" +:+ Itoa pid +:+ "/cgroup") with
      | Err _ => m
      | Ok data => scan_cgroup rootDir pid (scan_lines data) m
      end
  end.

Definition FindPodInfoFrom (rootDir : string) : result read_error (gmap string PodInfo) :=
  match ReadDir fs rootDir with
  | Err e => Err e
  | Ok entries => Ok (foldl (scan_entry rootDir) ∅ entries)
  end.

Definition GetAllPodInfos : result read_error (gmap string PodInfo) := FindPodInfoFrom "/proc".

(** ** Threads of the node *)

Inductive snapshot_error :=
| SnapCancelled
| SnapRoot (e : read_error)
| SnapTaskDir (tgid : Z) (e : read_error)
| SnapComm (tid : Z) (e : read_error).

Definition isTransientProcError (e : read_error) : bool :=
  match e with ENOENT | ESRCH => true | EOther => false end.

(** [ctx_done tgid tid]: the context is found cancelled when the entry is visited. *)
Variable ctx_done : dirent -> option dirent -> bool.

(** The inner loop body. *)
Definition snapshot_tid (rootDir : string) (tgidEntry : dirent) (tgid : Z) (tasks : list TaskInfo) (tidEntry : dirent)
    : result snapshot_error (list TaskInfo) :=
  if ctx_done tgidEntry (Some tidEntry) then Err SnapCancelled else
  if negb (de_is_dir tidEntry) then Ok tasks else
  match Atoi (de_name tidEntry) with
  | None => Ok tasks
  | Some tid =>
      match ReadFile fs (rootDir +:+ "/" +:+ Itoa tgid +:+ "/task/" +:+ Itoa tid +:+ "/comm") with
      | Err e => if isTransientProcError e then Ok tasks else Err (SnapComm tid e)
      | Ok data => Ok (tasks ++ [mkTaskInfo tgid tid (TrimSpace data)])
      end
  end.

(** The outer loop body. *)
Definition snapshot_tgid (rootDir : string) (tasks : list TaskInfo) (tgidEntry : dirent)
    : result snapshot_error (list TaskInfo) :=
  if ctx_done tgidEntry None then Err SnapCancelled else
  if negb (de_is_dir tgidEntry) then Ok tasks else
  match Atoi (de_name tgidEntry) with
  | None => Ok tasks
  | Some tgid =>
      match ReadDir fs (rootDir +:+ "/" +:+ Itoa tgid +:+ "/task") with
      | Err e => if isTransientProcError e then Ok tasks else Err (SnapTaskDir tgid e)
      | Ok tidEntries => foldM (snapshot_tid rootDir tgidEntry tgid) tidEntries tasks
      end
  end.

Definition Snapshot (rootDir : string) : result snapshot_error (list TaskInfo) :=
  match ReadDir fs rootDir with
  | Err e => Err (SnapRoot e)
  | Ok tgidEntries => rmap (sort_by TID Z.le) (foldM (snapshot_tgid rootDir) tgidEntries [])
  end.

End scan.

Definition NewProcTaskSource (rootDir : string) : string := if decide (rootDir = "") then "/proc" else rootDir.

(** ** Specifications *)

Section scan_spec.
  Variable fs : procfs.

(** The processes a cgroup file contributes, each under its pod. *)
Fixpoint cgroup_hits (rootDir : string) (pid : Z) (lines : list string) : list (string * PodProcess) :=
  match lines with
  | [] => []
  | line :: ls =>
      if Contains line "kubepods" then
        match Split line ":" !! 2 with
        | None => cgroup_hits rootDir pid ls
        | Some h =>
            match getPodInfoFromCgroup h with
            | None => []
            | Some (u, c) => (u, with_container c (getProcessInfo fs rootDir pid)) :: cgroup_hits rootDir pid ls
            end
        end
      else cgroup_hits rootDir pid ls
  end.

Definition entry_hits (rootDir : string) (entry : dirent) : list (string * PodProcess) :=
  if negb (de_is_dir entry) then [] else
  match Atoi (de_name entry) with
  | None => []
  | Some pid =>
      match ReadFile fs (rootDir +:+ "/" +:+ Itoa pid +:+ "/cgroup") with
      | Err _ => []
      | Ok data => cgroup_hits rootDir pid (scan_lines data)
      end
  end.

(** The processes of one pod, in the order they were found. *)
Definition processes_of (uid : string) (hits : list (string * PodProcess)) : list PodProcess :=
  snd <$> filter (fun h => h.1 = uid) hits.

Definition pod_of (uid : string) (hits : list (string * PodProcess)) : option PodInfo :=
  match processes_of uid hits with [] => None | ps => Some (mkPodInfo uid "" ps) end.

Definition add_hit (m : gmap string PodInfo) (h : string * PodProcess) : gmap string PodInfo := add_process h.1 h.2 m.

Lemma scan_cgroup_hits rootDir pid lines m :
  scan_cgroup fs rootDir pid lines m = foldl add_hit m (cgroup_hits rootDir pid lines).
Proof.
  revert m. induction lines as [|line ls IH]; intros m; [done|]. cbn [scan_cgroup cgroup_hits].
  destruct (Contains line "kubepods"); [|done]. unfold parseCgroupToPodInfo.
  destruct (Split line ":" !! 2) as [h|]; [|done]. destruct (getPodInfoFromCgroup h) as [[u c]|]; [|done].
  apply IH.
Qed.

Lemma scan_entry_hits rootDir m entry : scan_entry fs rootDir m entry = foldl add_hit m (entry_hits rootDir entry).
Proof.
  unfold scan_entry, entry_hits. destruct (negb _); [done|]. destruct (Atoi _) as [pid|]; [|done].
  destruct (ReadFile fs _); [|done]. apply scan_cgroup_hits.
Qed.

Lemma scan_hits rootDir entries m :
  foldl (scan_entry fs rootDir) m entries = foldl add_hit m (entries ≫= entry_hits rootDir).
Proof.
  revert m. induction entries as [|e es IH]; intros m; [done|]. cbn [foldl]. rewrite IH, scan_entry_hits.
  cbn [mbind list_bind]. by rewrite foldl_app.
Qed.

(** A map that groups a list of hits. *)
Definition groups (m : gmap string PodInfo) (hits : list (string * PodProcess)) : Prop :=
  forall uid, m !! uid = pod_of uid hits.

Lemma processes_of_snoc uid hits h :
  processes_of uid (hits ++ [h]) = processes_of uid hits ++ (if decide (h.1 = uid) then [h.2] else []).
Proof.
  unfold processes_of. rewrite filter_app, fmap_app. f_equal.
  destruct (decide (h.1 = uid)); [by rewrite filter_cons_True|by rewrite filter_cons_False].
Qed.

Lemma add_hit_groups m hits h : groups m hits -> groups (add_hit m h) (hits ++ [h]).
Proof.
  intros Hg uid. unfold add_hit, add_process, pod_of. rewrite processes_of_snoc.
  pose proof (Hg h.1) as H1. pose proof (Hg uid) as H2. unfold pod_of in H1, H2.
  destruct (decide (h.1 = uid)) as [<-|Hne].
  - rewrite H1. destruct (processes_of h.1 hits) as [|p ps]; simpl; by rewrite lookup_insert_eq.
  - rewrite app_nil_r. destruct (m !! h.1); rewrite lookup_insert_ne by done; exact H2.
Qed.

Lemma foldl_groups hits m hits0 : groups m hits0 -> groups (foldl add_hit m hits) (hits0 ++ hits).
Proof.
  revert m hits0. induction hits as [|h hits IH]; intros m hits0 Hg; [by rewrite app_nil_r|].
  cbn [foldl]. rewrite cons_middle, (assoc_L (++)). apply IH. by apply add_hit_groups.
Qed.

(** *** Threads *)

Variable ctx_done : dirent -> option dirent -> bool.

(** A thread that can be read: its process and its own directory are listed and
    its name is readable. *)
Definition readable_task (rootDir : string) (t : TaskInfo) : Prop :=
  exists es1 e1 es2 e2 data,
    ReadDir fs rootDir = Ok es1 /\ e1 ∈ es1 /\ de_is_dir e1 = true /\ Atoi (de_name e1) = Some (TGID t) /\
    ReadDir fs (rootDir +:+ "/" +:+ Itoa (TGID t) +:+ "/task") = Ok es2 /\ e2 ∈ es2 /\ de_is_dir e2 = true /\
    Atoi (de_name e2) = Some (TID t) /\
    ReadFile fs (rootDir +:+ "/" +:+ Itoa (TGID t) +:+ "/task/" +:+ Itoa (TID t) +:+ "/comm") = Ok data /\
    Comm t = TrimSpace data.

Lemma snapshot_tid_spec rootDir e1 tgid tasks e2 tasks' :
  snapshot_tid fs ctx_done rootDir e1 tgid tasks e2 = Ok tasks' ->
  forall t, t ∈ tasks' <-> t ∈ tasks \/
    (TGID t = tgid /\ de_is_dir e2 = true /\ Atoi (de_name e2) = Some (TID t) /\
     exists data, ReadFile fs (rootDir +:+ "/" +:+ Itoa tgid +:+ "/task/" +:+ Itoa (TID t) +:+ "/comm") = Ok data /\
       Comm t = TrimSpace data).
Proof.
  unfold snapshot_tid. intros H t. destruct (ctx_done _ _); [done|].
  destruct (de_is_dir e2); simpl in H; [|simplify_eq; naive_solver].
  destruct (Atoi _) as [tid|]; [|simplify_eq; naive_solver].
  destruct (ReadFile fs _) as [data|e] eqn:Er.
  - simplify_eq. rewrite elem_of_app, list_elem_of_singleton. split.
    + intros [?| ->]; [by left|]. right. simpl. eauto 10.
    + intros [?|(<- & _ & [= ->] & d & Hd & Hc)]; [by left|]. right. rewrite Er in Hd.
      injection Hd as ->. rewrite <- Hc. by destruct t.
  - destruct (isTransientProcError e); simplify_eq. split; [by left|].
    intros [?|(<- & _ & [= ->] & d & Hd & _)]; [done|congruence].
Qed.

Lemma snapshot_tgid_spec rootDir tasks e1 tasks' :
  snapshot_tgid fs ctx_done rootDir tasks e1 = Ok tasks' ->
  forall t, t ∈ tasks' <-> t ∈ tasks \/
    (de_is_dir e1 = true /\ Atoi (de_name e1) = Some (TGID t) /\
     exists es2 e2 data, ReadDir fs (rootDir +:+ "/" +:+ Itoa (TGID t) +:+ "/task") = Ok es2 /\ e2 ∈ es2 /\
       de_is_dir e2 = true /\ Atoi (de_name e2) = Some (TID t) /\
       ReadFile fs (rootDir +:+ "/" +:+ Itoa (TGID t) +:+ "/task/" +:+ Itoa (TID t) +:+ "/comm") = Ok data /\
       Comm t = TrimSpace data).
Proof.
  unfold snapshot_tgid. intros H t. destruct (ctx_done _ _); [done|].
  destruct (de_is_dir e1); simpl in H; [|simplify_eq; naive_solver].
  destruct (Atoi _) as [tgid|]; [|simplify_eq; naive_solver].
  destruct (ReadDir fs _) as [es2|e] eqn:Er.
  - rewrite (foldM_elems _ _ _ _ _ (snapshot_tid_spec rootDir e1 tgid) H). split.
    + intros [?|(e2 & Hin & <- & Hd & Ha & data & Hr & Hc)]; [by left|]. right. eauto 15.
    + intros [?|(_ & [= ->] & es2' & e2 & data & Hr & Hin & Hd & Ha & Hr2 & Hc)]; [by left|]. right.
      rewrite Er in Hr. simplify_eq. eauto 15.
  - destruct (isTransientProcError e); simplify_eq. split; [by left|].
    intros [?|(_ & [= ->] & es2' & e2 & data & Hr & _)]; [done|congruence].
Qed.

End scan_spec.

(** *** Cgroup paths *)

Fixpoint conforms (mask : list (ascii -> bool)) (s : string) : bool :=
  match mask, s with
  | [], EmptyString => true
  | f :: mask', String a s' => f a && conforms mask' s'
  | _, _ => false
  end.

(** A pod UID as Kubernetes writes it: hexadecimal runs with dashes. *)
Definition pod_uid (uid : string) : Prop := conforms uid_mask uid = true /\ has_char "_" uid = false.

Lemma match_mask_app mask uid rest : conforms mask uid = true -> match_mask mask (uid +:+ rest) = Some uid.
Proof.
  revert uid. induction mask as [|f mask IH]; intros [|a uid] H; try done.
  simpl in H. apply andb_true_iff in H as [H1 H2]. rewrite string_app_cons. cbn. by rewrite H1, IH.
Qed.

Lemma podRegex_eq s :
  podRegex s = match strip_prefix "pod" s ≫= match_mask uid_mask with
               | Some uid => Some uid
               | None => match s with String _ s' => podRegex s' | EmptyString => None end
               end.
Proof. by destruct s. Qed.

Lemma podRegex_here uid rest : conforms uid_mask uid = true -> podRegex ("pod" +:+ uid +:+ rest) = Some uid.
Proof.
  intros H. rewrite podRegex_eq. rewrite (proj2 (strip_prefix_Some "pod" _ (uid +:+ rest))) by done.
  cbn [mbind option_bind]. by rewrite match_mask_app.
Qed.

(** Without a [p] there is no match until the rest begins. *)
Lemma podRegex_skip s rest : has_char "p" s = false -> podRegex (s +:+ rest) = podRegex rest.
Proof.
  induction s as [|a s IH]; [done|]. cbn [has_char]. intros [Ha Hs]%orb_false_iff.
  rewrite string_app_cons, <- (IH Hs).
  assert (strip_prefix "pod" (String a (s +:+ rest)) = None) as Hn.
  { destruct (strip_prefix "pod" (String a (s +:+ rest))) as [r|] eqn:E; [|done]. exfalso.
    apply strip_prefix_Some in E. rewrite string_app_cons in E. injection E as -> _. done. }
  rewrite podRegex_eq. by rewrite Hn.
Qed.

Lemma conforms_no_slash mask uid c :
  Forall (fun f => f c = false) mask -> conforms mask uid = true -> has_char c uid = false.
Proof.
  revert uid. induction mask as [|f mask IH]; intros [|a uid] Hf H; try done. simpl in *.
  apply Forall_cons in Hf as [Hc Hf]. apply andb_true_iff in H as [H1 H2].
  rewrite IH by done. destruct (Ascii.eqb_spec a c) as [->|]; [congruence|done].
Qed.

Lemma pod_uid_no_slash uid : conforms uid_mask uid = true -> has_char "/" uid = false.
Proof. intros H. eapply conforms_no_slash; [|exact H]. by repeat constructor. Qed.

Lemma replace_char_app a b s t : replace_char a b (s +:+ t) = replace_char a b s +:+ replace_char a b t.
Proof. induction s as [|c s IH]; [done|]. rewrite string_app_cons. cbn. by rewrite IH. Qed.

(** Writing underscores for dashes and back. *)
Lemma replace_char_undo a b s : has_char b s = false -> replace_char b a (replace_char a b s) = s.
Proof.
  induction s as [|c s IH]; [done|]. cbn. intros [Hc Hs]%orb_false_iff. rewrite IH by done. f_equal.
  destruct (Ascii.eqb_spec c a) as [->|Hne]; [by rewrite Ascii.eqb_refl|]. by rewrite Hc.
Qed.

Lemma conforms_underscores uid : conforms uid_mask uid = true -> conforms uid_mask (replace_char "-" "_" uid) = true.
Proof.
  assert (forall (mask : list (ascii -> bool)) s, Forall (fun f => f "-"%char = true -> f "_"%char = true) mask -> conforms mask s = true ->
    conforms mask (replace_char "-" "_" s) = true) as Hgen.
  { intros fs. induction fs as [|f fs IH]; intros [|a s] Hf H; try done. simpl in *.
    apply Forall_cons in Hf as [Hc Hf]. apply andb_true_iff in H as [H1 H2]. rewrite IH by done.
    destruct (Ascii.eqb_spec a "-") as [->|]; [by rewrite Hc|by rewrite H1]. }
  apply Hgen. by repeat constructor.
Qed.

Lemma pod_uid_nonempty uid : conforms uid_mask uid = true -> uid <> "".
Proof. by intros H ->. Qed.

Lemma strip_prefix_app p s : strip_prefix p (p +:+ s) = Some s.
Proof. by apply strip_prefix_Some. Qed.

Lemma TrimPrefix_app p s : TrimPrefix (p +:+ s) p = s.
Proof. unfold TrimPrefix. by rewrite strip_prefix_app. Qed.

Lemma TrimSuffix_app s p : TrimSuffix (s +:+ p) p = s.
Proof. unfold TrimSuffix. by rewrite string_rev_app, strip_prefix_app, string_rev_involutive. Qed.

Lemma HasSuffix_app s p : HasSuffix (s +:+ p) p = true.
Proof. apply HasSuffix_spec. eauto. Qed.

(** A container identifier, as container runtimes write them: no slash and no [p]. *)
Definition container_id (c : string) : Prop := has_char "/" c = false /\ has_char "p" c = false.

(** The last part of a systemd path. *)
Lemma scope_part u c0 c :
  container_id c -> cgroup_part (u, c0) ("cri-containerd-" +:+ c +:+ ".scope") = (u, c).
Proof.
  intros [_ Hp]. unfold cgroup_part.
  rewrite <- (string_app_assoc "cri-containerd-" c ".scope").
  rewrite podRegex_skip by (by rewrite has_char_app, Hp). vm_compute (podRegex ".scope").
  rewrite HasSuffix_app, string_app_assoc, HasPrefix_app, TrimPrefix_app, TrimSuffix_app. done.
Qed.

(** A part that names the pod in the middle. *)
Lemma slice_part u0 c0 pre uid post :
  conforms uid_mask uid = true -> podRegex (pre +:+ "pod" +:+ uid +:+ post) = Some uid ->
  HasPrefix (pre +:+ "pod" +:+ uid +:+ post) "cri-containerd-" = false ->
  cgroup_part (u0, c0) (pre +:+ "pod" +:+ uid +:+ post) = (replace_char "_" "-" uid, c0).
Proof. intros H1 H2 H3. unfold cgroup_part. by rewrite H2, H3. Qed.

Lemma podRegex_kubepods uid post :
  conforms uid_mask uid = true -> podRegex ("kubelet-kubepods-" +:+ "pod" +:+ uid +:+ post) = Some uid.
Proof.
  intros H. change ("kubelet-kubepods-" +:+ ?x) with ("kubelet-kube" +:+ "pods-" +:+ x).
  rewrite podRegex_skip by done. rewrite podRegex_eq.
  replace (strip_prefix "pod" ("pods-" +:+ _) ≫= match_mask uid_mask) with (@None string) by reflexivity.
  change (podRegex ("ods-" +:+ "pod" +:+ uid +:+ post) = Some uid).
  rewrite podRegex_skip by done. by apply podRegex_here.
Qed.

(** The two layouts of service.go's comment. *)
Definition systemd_path (uid container : string) : string :=
  Join [""; "kubelet.slice"; "kubelet-kubepods.slice";
        "kubelet-kubepods-" +:+ "pod" +:+ replace_char "-" "_" uid +:+ ".slice";
        "cri-containerd-" +:+ container +:+ ".scope"] "/".

Definition cgroupfs_path (uid container : string) : string :=
  Join [""; "kubepods"; "burstable"; "pod" +:+ uid; container] "/".

Lemma has_char_replace c a b s : c <> b -> has_char c s = false -> has_char c (replace_char a b s) = false.
Proof.
  intros Hcb. induction s as [|x s IH]; [done|]. cbn. intros [Hx Hs]%orb_false_iff. rewrite IH by done.
  destruct (Ascii.eqb x a); [|by rewrite Hx]. rewrite orb_false_r. apply Ascii.eqb_neq. congruence.
Qed.

Lemma plain_part u c part :
  podRegex part = None -> HasPrefix part "cri-containerd-" = false -> cgroup_part (u, c) part = (u, c).
Proof. intros H1 H2. unfold cgroup_part. by rewrite H1, H2. Qed.

(** ** Properties *)

(** Remark (pods are found by their cgroup).  A pod UID written into a cgroup path
    by either driver, systemd with underscores or cgroupfs with dashes, is read
    back as it was; under systemd the container identifier is too. *)
Theorem pod_uid_round_trip (uid container : string) :
  pod_uid uid -> container_id container ->
  getPodInfoFromCgroup (systemd_path uid container) = Some (uid, container) /\
  (HasPrefix container "cri-containerd-" = false ->
   getPodInfoFromCgroup (cgroupfs_path uid container) = Some (uid, "")).
Proof.
  intros [Hc Hu] Hcid. pose proof Hcid as [Hs Hp]. pose proof (pod_uid_no_slash _ Hc) as Hsl.
  pose proof (conforms_underscores _ Hc) as Hc'. pose proof (pod_uid_nonempty _ Hc) as Hne. split.
  - unfold getPodInfoFromCgroup, systemd_path. rewrite Split_Join; [|done|].
    2:{ rewrite !Forall_cons. split_and!; try done; by rewrite !has_char_app, ?Hs, ?has_char_replace. }
    cbn [foldl]. rewrite (plain_part _ _ ""), (plain_part _ _ "kubelet.slice"),
      (plain_part _ _ "kubelet-kubepods.slice") by (vm_compute; reflexivity).
    rewrite slice_part; [|done|by apply podRegex_kubepods|reflexivity].
    rewrite scope_part by done. rewrite replace_char_undo by done. by rewrite decide_False.
  - intros Hpre. unfold getPodInfoFromCgroup, cgroupfs_path. rewrite Split_Join; [|done|].
    2:{ rewrite !Forall_cons. split_and!; done. }
    cbn [foldl]. rewrite (plain_part _ _ ""), (plain_part _ _ "kubepods"), (plain_part _ _ "burstable")
      by (vm_compute; reflexivity).
    assert (podRegex ("pod" +:+ uid) = Some uid) as Hreg.
    { rewrite <- (string_app_nil_r uid) at 1. by apply podRegex_here. }
    assert (cgroup_part ("", "") ("pod" +:+ uid) = (uid, "")) as ->.
    { unfold cgroup_part. rewrite Hreg. assert (HasPrefix ("pod" +:+ uid) "cri-containerd-" = false) as -> by done.
      f_equal. clear -Hu. induction uid as [|a s IH]; [done|]. cbn in *. apply orb_false_iff in Hu as [Ha Hs].
      by rewrite Ha, IH. }
    assert (podRegex container = None) as Hno.
    { pose proof (podRegex_skip container "" Hp) as Hsk. by rewrite string_app_nil_r in Hsk. }
    rewrite plain_part by done. by rewrite decide_False.
Qed.

Lemma pod_uid_round_trip_witness :
  getPodInfoFromCgroup (systemd_path "20da609e-6973-4463-a1f9-2db9bcc5becc" "10ec3c89629f") =
  Some ("20da609e-6973-4463-a1f9-2db9bcc5becc", "10ec3c89629f").
Proof.
  apply pod_uid_round_trip; split; vm_compute; reflexivity.
Defined.

(** Remark (every process is filed under its pod).  Scanning fails exactly when the
    root directory cannot be read; otherwise the map holds, under each pod UID, the
    processes whose cgroup lines name that pod, in the order they were read, and
    no entry for any other pod. *)
Theorem find_pod_info_groups (fs : procfs) (rootDir : string) :
  match FindPodInfoFrom fs rootDir, ReadDir fs rootDir with
  | Ok m, Ok entries => forall uid, m !! uid = pod_of uid (entries ≫= entry_hits fs rootDir)
  | Err e, Err e' => e = e'
  | _, _ => False
  end.
Proof.
  unfold FindPodInfoFrom. destruct (ReadDir fs rootDir) as [entries|e]; [|done].
  rewrite scan_hits. apply (foldl_groups _ _ []). intros uid. by rewrite lookup_empty.
Qed.

(** Remark (a snapshot is complete or an error).  A snapshot that succeeds is sorted
    by thread and holds exactly the threads that can be read, and nothing failed to
    be read but processes and threads that vanished during the scan. *)
Theorem snapshot_complete (fs : procfs) ctx_done (rootDir : string) tasks :
  Snapshot fs ctx_done rootDir = Ok tasks ->
  StronglySorted (key_le TID Z.le) tasks /\
  (forall t, t ∈ tasks <-> readable_task fs rootDir t) /\
  (forall es e tgid, ReadDir fs rootDir = Ok es -> e ∈ es -> de_is_dir e = true -> Atoi (de_name e) = Some tgid ->
     match ReadDir fs (rootDir +:+ "/" +:+ Itoa tgid +:+ "/task") with
     | Err x => isTransientProcError x = true
     | Ok es' => forall e' tid x, e' ∈ es' -> de_is_dir e' = true -> Atoi (de_name e') = Some tid ->
         ReadFile fs (rootDir +:+ "/" +:+ Itoa tgid +:+ "/task/" +:+ Itoa tid +:+ "/comm") = Err x ->
         isTransientProcError x = true
     end).
Proof.
  unfold Snapshot. destruct (ReadDir fs rootDir) as [es|] eqn:Er; [|done].
  destruct (foldM _ _ _) as [acc|] eqn:Ef; [|done]. intros [= <-]. split; [|split].
  - apply (sort_by_spec TID Z.le).
  - intros t. rewrite (elem_of_sort_by TID Z.le).
    rewrite (foldM_elems _ _ _ _ _ (snapshot_tgid_spec fs ctx_done rootDir) Ef). unfold readable_task. split.
    + intros [?%elem_of_nil|(e1 & He1 & Hd & Ha & es2 & e2 & data & Hrest)]; [done|]. exists es, e1, es2, e2, data. tauto.
    + intros (es1 & e1 & es2 & e2 & data & Hes & Hrest). rewrite Er in Hes. injection Hes as <-. right.
      exists e1. split; [tauto|]. split; [tauto|]. split; [tauto|]. exists es2, e2, data. tauto.
  - intros es0 e tgid [= <-] He Hd Ha. destruct (foldM_ok_all _ _ _ _ Ef e He) as (x & y & Hxy).
    unfold snapshot_tgid in Hxy. destruct (ctx_done e None); [done|]. rewrite Hd, Ha in Hxy. simpl in Hxy.
    destruct (ReadDir fs (rootDir +:+ _)) as [es'|z]; [|by destruct (isTransientProcError z)].
    intros e' tid z He' Hd' Ha' Hz. destruct (foldM_ok_all _ _ _ _ Hxy e' He') as (x' & y' & Hxy').
    unfold snapshot_tid in Hxy'. destruct (ctx_done e (Some e')); [done|]. rewrite Hd', Ha' in Hxy'. simpl in Hxy'.
    rewrite Hz in Hxy'. by destruct (isTransientProcError z).
Qed.

(** A small proc file system: one process with two threads, one of which has gone. *)
Definition sample_procfs : procfs := mkProcfs
  (fun p => if decide (p = "/proc") then Ok [mkDirent "acpi" true; mkDirent "12" true]
            else if decide (p = "/proc/12/task") then Ok [mkDirent "13" true; mkDirent "12" true; mkDirent "14" true]
            else Err ENOENT)
  (fun p => if decide (p = "/proc/12/task/12/comm") then Ok "nginx
"
            else if decide (p = "/proc/12/task/13/comm") then Ok "nginx-w" else Err ESRCH).

Lemma snapshot_complete_witness :
  Snapshot sample_procfs (fun _ _ => false) "/proc" = Ok [mkTaskInfo 12 12 "nginx"; mkTaskInfo 12 13 "nginx-w"] /\
  readable_task sample_procfs "/proc" (mkTaskInfo 12 13 "nginx-w").
Proof.
  assert (Snapshot sample_procfs (fun _ _ => false) "/proc" = Ok [mkTaskInfo 12 12 "nginx"; mkTaskInfo 12 13 "nginx-w"])
    as H by (vm_compute; reflexivity).
  split; [exact H|]. apply (snapshot_complete _ _ _ _ H). right. left.
Defined.

(** The parent of a process whose name contains a space is not read: the fourth
    field of the stat line is then part of the name or the state.  Here the parent
    of process 12 is 1 and the scan says 0. *)
Lemma ppid_lost_for_spaced_name :
  PPID (getProcessInfo (mkProcfs (fun _ => Err ENOENT) (fun p =>
    if decide (p = "//proc/12/stat") then Ok "12 (tmux: server) S 1 12 12 0" else Err ENOENT)) "/proc" 12) = 0%Z.
Proof. vm_compute. reflexivity. Qed.
