(* ===== verification/PodMetrics.v ===== *)
(** * Pod scheduling metrics: pod_metric_collector.go of the decision maker

    Which pods are measured, how the statistics of a process are read from /proc,
    and what a collection emits. *)

From stdpp Require Import base gmap strings list.
From Stdlib Require Import ZArith Lia Ascii.
From S2P Require Import Prelude GoStrings Intents ProcScan.

(** ** Targets *)

Record podTarget := mkPodTarget {
  pt_PodName : string;
  pt_PodUID : string;
  pt_Namespace : string;
  pt_NodeName : string;
  pt_PIDs : list Z
}.

Fixpoint firstNonEmptyStr (vals : list string) : string :=
  match vals with
  | [] => ""
  | v :: vs => if decide (v = "") then firstNonEmptyStr vs else v
  end.

(** The processes of a pod that are measured: all but the pause container. *)
Definition target_pids (info : PodInfo) : list Z := PID <$> filter (fun p => Command p <> "pause") (Processes info).

Definition intent_target (nodeName : string) (podInfos : gmap string PodInfo) (i : Intent) : option podTarget :=
  match podInfos !! PodID i with
  | None => None
  | Some info =>
      match target_pids info with
      | [] => None
      | pids => Some (mkPodTarget (PodName i) (PodID i) (K8sNamespace i) (firstNonEmptyStr [NodeID i; nodeName]) pids)
      end
  end.

(** [UpdatePodTargets]: the new [intentPods]. *)
Definition UpdatePodTargets (nodeName : string) (intents : list (option Intent)) (podInfos : gmap string PodInfo)
    : list podTarget :=
  omap (fun i => i ≫= intent_target nodeName podInfos) intents.

(** [removePodMetricTarget] of service.go *)
Definition removePodMetricTarget (podID : string) (intentPods : list podTarget) : list podTarget :=
  filter (fun t => pt_PodUID t <> podID) intentPods.

(** ** Statistics of a process *)

Record procSchedStats := mkStats {
  VoluntaryCtxSwitches : Z;
  InvoluntaryCtxSwitches : Z;
  CPUTimeNs : Z;
  WaitTimeNs : Z;
  RunCount : Z;
  CPUMigrations : Z
}.

Definition zero_stats : procSchedStats := mkStats 0 0 0 0 0 0.

(** [x, _ = strconv.ParseUint(s, 10, 64)] *)
Definition parse_u64 (s : string) : Z := (ParseUint s).1.

Definition set_voluntary (v : Z) (s : procSchedStats) : procSchedStats :=
  mkStats v (InvoluntaryCtxSwitches s) (CPUTimeNs s) (WaitTimeNs s) (RunCount s) (CPUMigrations s).
Definition set_involuntary (v : Z) (s : procSchedStats) : procSchedStats :=
  mkStats (VoluntaryCtxSwitches s) v (CPUTimeNs s) (WaitTimeNs s) (RunCount s) (CPUMigrations s).
Definition set_migrations (v : Z) (s : procSchedStats) : procSchedStats :=
  mkStats (VoluntaryCtxSwitches s) (InvoluntaryCtxSwitches s) (CPUTimeNs s) (WaitTimeNs s) (RunCount s) v.

(** A line of /proc/<pid>/sched. *)
Definition sched_line (s : procSchedStats) (line : string) : procSchedStats :=
  match SplitN2 line ":" with
  | (_, None) => s
  | (k, Some v) =>
      let key := TrimSpace k in
      let valStr := TrimSpace v in
      if decide (key = "nr_voluntary_switches") then set_voluntary (parse_u64 valStr) s
      else if decide (key = "nr_involuntary_switches") then set_involuntary (parse_u64 valStr) s
      else if decide (key = "se.nr_migrations") then set_migrations (parse_u64 valStr) s
      else s
  end.

(** A line of /proc/<pid>/status. *)
Definition status_line (s : procSchedStats) (line : string) : procSchedStats :=
  if HasPrefix line "voluntary_ctxt_switches:" then
    set_voluntary (parse_u64 (TrimSpace (TrimPrefix line "voluntary_ctxt_switches:"))) s
  else if HasPrefix line "nonvoluntary_ctxt_switches:" then
    set_involuntary (parse_u64 (TrimSpace (TrimPrefix line "nonvoluntary_ctxt_switches:"))) s
  else s.

Section collector.
  Variable fs : procfs.

(** [readProcSchedStats]; its error is always nil. *)
Definition readProcSchedStats (pid : Z) : procSchedStats :=
  let stats :=
    match ReadFile fs ("/proc/" +:+ Itoa pid +:+ "/schedstat") with
    | Ok data =>
        match Fields (TrimSpace data) with
        | f0 :: f1 :: f2 :: _ => mkStats 0 0 (parse_u64 f0) (parse_u64 f1) (parse_u64 f2) 0
        | _ => zero_stats
        end
    | Err _ => zero_stats
    end in
  let stats :=
    match ReadFile fs ("/proc/" +:+ Itoa pid +:+ "/sched") with
    | Ok data => foldl sched_line stats (scan_lines data)
    | Err _ => stats
    end in
  if ((VoluntaryCtxSwitches stats =? 0) && (InvoluntaryCtxSwitches stats =? 0))%Z then
    match ReadFile fs ("/proc/" +:+ Itoa pid +:+ "/status") with
    | Ok data => foldl status_line stats (scan_lines data)
    | Err _ => stats
    end
  else stats.

(** The totals of a pod, in uint64, and the number of processes. *)
Definition add_stats (acc : procSchedStats * Z) (pid : Z) : procSchedStats * Z :=
  let '(t, n) := acc in
  let s := readProcSchedStats pid in
  (mkStats (u64 (VoluntaryCtxSwitches t + VoluntaryCtxSwitches s))
     (u64 (InvoluntaryCtxSwitches t + InvoluntaryCtxSwitches s)) (u64 (CPUTimeNs t + CPUTimeNs s))
     (u64 (WaitTimeNs t + WaitTimeNs s)) (u64 (RunCount t + RunCount s)) (u64 (CPUMigrations t + CPUMigrations s)),
   n + 1)%Z.

(** A metric that is sent: its name, its labels and its value before the
    conversion to a float. *)
Record metric := mkMetric { m_name : string; m_labels : list string; m_value : Z }.

Definition collect_pod (pod : podTarget) : list metric :=
  let '(t, processCount) := foldl add_stats (zero_stats, 0%Z) (pt_PIDs pod) in
  if (processCount =? 0)%Z then [] else
  let labels := [pt_PodName pod; pt_PodUID pod; pt_Namespace pod; pt_NodeName pod] in
  [mkMetric "gthulhu_pod_voluntary_ctx_switches_total" labels (VoluntaryCtxSwitches t);
   mkMetric "gthulhu_pod_involuntary_ctx_switches_total" labels (InvoluntaryCtxSwitches t);
   mkMetric "gthulhu_pod_cpu_time_nanoseconds_total" labels (CPUTimeNs t);
   mkMetric "gthulhu_pod_wait_time_nanoseconds_total" labels (WaitTimeNs t);
   mkMetric "gthulhu_pod_run_count_total" labels (RunCount t);
   mkMetric "gthulhu_pod_cpu_migrations_total" labels (CPUMigrations t);
   mkMetric "gthulhu_pod_process_count" labels processCount].

Definition Collect (intentPods : list podTarget) : list metric := intentPods ≫= collect_pod.

(** ** Lemmas *)

Definition sum_of (f : procSchedStats -> Z) (pids : list Z) : Z :=
  foldr (fun pid acc => f (readProcSchedStats pid) + acc)%Z 0%Z pids.

Lemma u64_add_l a b : u64 (u64 a + b) = u64 (a + b).
Proof. unfold u64. by rewrite Zplus_mod_idemp_l. Qed.

Lemma totals pids t n :
  let '(t', n') := foldl add_stats (t, n) pids in
  n' = (n + Z.of_nat (length pids))%Z /\
  (pids <> [] -> t' = mkStats (u64 (VoluntaryCtxSwitches t + sum_of VoluntaryCtxSwitches pids))
    (u64 (InvoluntaryCtxSwitches t + sum_of InvoluntaryCtxSwitches pids))
    (u64 (CPUTimeNs t + sum_of CPUTimeNs pids)) (u64 (WaitTimeNs t + sum_of WaitTimeNs pids))
    (u64 (RunCount t + sum_of RunCount pids)) (u64 (CPUMigrations t + sum_of CPUMigrations pids))).
Proof.
  revert t n. induction pids as [|pid pids IH]; intros t n; [split; [simpl; lia|done]|].
  cbn [foldl]. unfold add_stats at 2. specialize (IH (mkStats (u64 (VoluntaryCtxSwitches t + VoluntaryCtxSwitches (readProcSchedStats pid)))
     (u64 (InvoluntaryCtxSwitches t + InvoluntaryCtxSwitches (readProcSchedStats pid)))
     (u64 (CPUTimeNs t + CPUTimeNs (readProcSchedStats pid)))
     (u64 (WaitTimeNs t + WaitTimeNs (readProcSchedStats pid))) (u64 (RunCount t + RunCount (readProcSchedStats pid)))
     (u64 (CPUMigrations t + CPUMigrations (readProcSchedStats pid)))) (n + 1)%Z).
  destruct (foldl add_stats _ pids) as [t' n'] eqn:E. destruct IH as [-> IH]. split; [cbn [length]; lia|]. intros _.
  destruct (decide (pids = [])) as [->|Hne].
  - cbn in E. injection E as <- _. cbn. by rewrite !Z.add_0_r.
  - rewrite (IH Hne). cbn [sum_of foldr VoluntaryCtxSwitches InvoluntaryCtxSwitches CPUTimeNs WaitTimeNs RunCount CPUMigrations].
    rewrite !u64_add_l. unfold sum_of. by rewrite !Z.add_assoc.
Qed.

(** The metrics of a pod whose processes are [pids]. *)
Definition pod_metrics (labels : list string) (pids : list Z) : list metric :=
  let total name f := mkMetric name labels (u64 (sum_of f pids)) in
  [total "gthulhu_pod_voluntary_ctx_switches_total" VoluntaryCtxSwitches;
   total "gthulhu_pod_involuntary_ctx_switches_total" InvoluntaryCtxSwitches;
   total "gthulhu_pod_cpu_time_nanoseconds_total" CPUTimeNs;
   total "gthulhu_pod_wait_time_nanoseconds_total" WaitTimeNs;
   total "gthulhu_pod_run_count_total" RunCount;
   total "gthulhu_pod_cpu_migrations_total" CPUMigrations;
   mkMetric "gthulhu_pod_process_count" labels (Z.of_nat (length pids))].

Lemma collect_pod_spec t :
  collect_pod t = if decide (pt_PIDs t = []) then []
                  else pod_metrics [pt_PodName t; pt_PodUID t; pt_Namespace t; pt_NodeName t] (pt_PIDs t).
Proof.
  unfold collect_pod. case_decide as Hp; [by rewrite Hp|].
  pose proof (totals (pt_PIDs t) zero_stats 0) as Ht. destruct (foldl _ _ (pt_PIDs t)) as [st n].
  destruct Ht as [-> Ht]. rewrite (Ht Hp).
  replace (0 + Z.of_nat (length (pt_PIDs t)) =? 0)%Z with false
    by (symmetry; apply Z.eqb_neq; destruct (pt_PIDs t); [done|cbn [length]; lia]).
  cbn [zero_stats VoluntaryCtxSwitches InvoluntaryCtxSwitches CPUTimeNs WaitTimeNs RunCount CPUMigrations].
  by rewrite !Z.add_0_l.
Qed.

End collector.

(** ** Properties *)

(** Remark (what is exported).  After the targets are updated, a collection emits for
    each intent whose pod has a process other than the pause container exactly the
    seven metrics of that pod, the totals over those processes modulo 2^64 and
    their number, and nothing for any other intent. *)
Theorem collect_after_update (fs : procfs) nodeName intents podInfos :
  Collect fs (UpdatePodTargets nodeName intents podInfos) =
  non_nil intents ≫= (fun i =>
    let pids := from_option target_pids [] (podInfos !! PodID i) in
    if decide (pids = []) then [] else
    pod_metrics fs [PodName i; PodID i; K8sNamespace i; if decide (NodeID i = "") then nodeName else NodeID i] pids).
Proof.
  unfold Collect, UpdatePodTargets. induction intents as [|[i|] l IH]; [done| |exact IH].
  cbn [omap list_omap mbind option_bind non_nil]. rewrite bind_cons, <- IH. clear IH. unfold intent_target at 1.
  destruct (podInfos !! PodID i) as [info|]; cbn [from_option]; [|by rewrite decide_True].
  destruct (target_pids info) as [|pid pids] eqn:Et; [by rewrite decide_True|].
  rewrite bind_cons, collect_pod_spec, !decide_False by done. f_equal. unfold firstNonEmptyStr. cbn [pt_PodName pt_PodUID pt_Namespace pt_NodeName].
  destruct (decide (NodeID i = "")); [|done]. destruct (decide (nodeName = "")) as [->|]; done.
Qed.

(** Remark (exited processes are counted).  A process whose files are all gone still
    counts: it adds one to the process count and zero to every total. *)
Theorem exited_process_counted (fs : procfs) pid :
  (forall p, exists e, ReadFile fs p = Err e) ->
  add_stats fs (zero_stats, 0%Z) pid = (zero_stats, 1%Z).
Proof.
  intros Hgone. unfold add_stats, readProcSchedStats.
  destruct (Hgone ("/proc/" +:+ Itoa pid +:+ "/schedstat")) as [? ->].
  destruct (Hgone ("/proc/" +:+ Itoa pid +:+ "/sched")) as [? ->].
  destruct (Hgone ("/proc/" +:+ Itoa pid +:+ "/status")) as [? ->]. done.
Qed.

Lemma exited_process_counted_witness :
  add_stats (mkProcfs (fun _ => Err ENOENT) (fun _ => Err ENOENT)) (zero_stats, 0%Z) 4711 = (zero_stats, 1%Z).
Proof. apply exited_process_counted. intros p. exists ENOENT. reflexivity. Defined.
