(* ===== verification/DecisionMaker.v ===== *)
(** * The decision maker: service.go, node_policy_svc.go, intents_svc.go and the REST handlers over them

    The state of the service is its caches, its Merkle roots and its metric
    targets.  An operation that reads /proc takes the file system as it finds it;
    regular expressions are compiled by [regexp_compile]. *)

From stdpp Require Import base gmap strings list sorting.
From Stdlib Require Import ZArith Lia Ascii.
From S2P Require Import Prelude GoStrings GoSort Sha256 Merkle Intents ProcScan PodMetrics.

(** ** State *)

Record Service := mkService {
  schedulingIntentsMap : gmap string (list SchedulingIntents);
  intentPods : list podTarget;
  intentCache : list (option Intent);
  intentMerkleRoot : MerkleNode;
  intentMerkleRootHash : string;
  nodePolicyCache : list (option NodePolicy);
  nodePolicyMerkleRoot : MerkleNode;
  nodePolicyMerkleRootHash : string
}.

(** [NewService]: the fields that concern intents and policies. *)
Definition NewService : Service := mkService ∅ [] [] MNil "" [] MNil "".

(** What a root's hash is recorded as. *)
Definition root_hash (root : MerkleNode) : string := match root with MNil => "" | MNode h _ _ => h end.

Definition set_map (m : gmap string (list SchedulingIntents)) (s : Service) : Service :=
  mkService m (intentPods s) (intentCache s) (intentMerkleRoot s) (intentMerkleRootHash s)
    (nodePolicyCache s) (nodePolicyMerkleRoot s) (nodePolicyMerkleRootHash s).
Definition set_pods (p : list podTarget) (s : Service) : Service :=
  mkService (schedulingIntentsMap s) p (intentCache s) (intentMerkleRoot s) (intentMerkleRootHash s)
    (nodePolicyCache s) (nodePolicyMerkleRoot s) (nodePolicyMerkleRootHash s).
Definition set_intents (c : list (option Intent)) (root : MerkleNode) (s : Service) : Service :=
  mkService (schedulingIntentsMap s) (intentPods s) c root (root_hash root)
    (nodePolicyCache s) (nodePolicyMerkleRoot s) (nodePolicyMerkleRootHash s).
Definition set_policies (c : list (option NodePolicy)) (root : MerkleNode) (s : Service) : Service :=
  mkService (schedulingIntentsMap s) (intentPods s) (intentCache s) (intentMerkleRoot s) (intentMerkleRootHash s)
    c root (root_hash root).

Inductive dm_error :=
| DMScan (e : read_error)
| DMSnapshot (e : snapshot_error)
| DMNilRequest.

(** The environment of a call: the regular expression engine, the proc file
    system during it, the context, the machine's node name, and whether there is a
    task source. *)
Record dm_env := mkEnv {
  regexp_compile : string -> option (string -> bool);
  env_fs : procfs;
  env_done : dirent -> option dirent -> bool;
  env_nodeName : string;
  env_taskSource : bool
}.

Definition pauseCommand : string := "pause".

Section service.
  Variable env : dm_env.

(** ** Pod intents *)

Definition intent_labels (i : Intent) : list LabelSelector :=
  (fun '(k, v) => mkLabelSelector k v) <$> map_to_list (PodLabels i).

Definition schedulingIntent (i : Intent) (p : PodProcess) : SchedulingIntents :=
  mkSchedulingIntents (Priority i) (u64 (ExecutionTime i)) (PID p) (intent_labels i) (CommandRegex i).

Definition intentKey (podID : string) (pid : Z) : string := podID +:+ "-" +:+ Itoa pid.

(** The loop over the processes of a pod. *)
Definition resolve_process (re : string -> bool) (i : Intent)
    (acc : gmap string (list SchedulingIntents) * list SchedulingIntents) (p : PodProcess)
    : gmap string (list SchedulingIntents) * list SchedulingIntents :=
  if decide (Command p = pauseCommand) then acc
  else if negb (re (Command p)) then acc
  else let si := schedulingIntent i p in
       (<[intentKey (PodID i) (PID p) := [si]]> acc.1, acc.2 ++ [si]).

(** The loop over the intents. *)
Definition resolve_intent (podInfos : gmap string PodInfo)
    (acc : gmap string (list SchedulingIntents) * list SchedulingIntents) (i : Intent)
    : gmap string (list SchedulingIntents) * list SchedulingIntents :=
  match regexp_compile env (CommandRegex i) with
  | None => acc
  | Some re =>
      match podInfos !! PodID i with
      | Some info => foldl (resolve_process re i) acc (Processes info)
      | None => acc
      end
  end.

Definition resolveSchedulingIntents (intents : list Intent) (podInfos : gmap string PodInfo) (s : Service)
    : Service * list SchedulingIntents :=
  let '(m, all) := foldl (resolve_intent podInfos) (∅, []) intents in (set_map m s, all).

Definition ProcessIntents (intents : list (option Intent)) (s : Service) : Service * option dm_error :=
  match GetAllPodInfos (env_fs env) with
  | Err e => (s, Some (DMScan e))
  | Ok podInfos =>
      let normalized := normalizeIntentInputs intents in
      let root := BuildMerkleTree (hashIntent <$> sortIntentsByKey normalized) in
      let s := set_intents (Some <$> normalized) root s in
      let '(s, _) := resolveSchedulingIntents normalized podInfos s in
      (set_pods (UpdatePodTargets (env_nodeName env) (Some <$> normalized) podInfos) s, None)
  end.

(** [rebuildIntentMerkleTreeLocked] on a cache. *)
Definition rebuildIntentMerkleTree (c : list (option Intent)) : MerkleNode :=
  BuildMerkleTree (hashIntent <$> sortIntentsByKey (normalizeIntentInputs c)).

Definition refreshIntentMerkleTreeIfNeeded (s : Service) : Service :=
  match intentMerkleRoot s with
  | MNil => set_intents (intentCache s) (rebuildIntentMerkleTree (intentCache s)) s
  | MNode _ _ _ => s
  end.

Definition other_pod (podID : string) (o : option Intent) : bool :=
  match o with Some i => bool_decide (PodID i <> podID) | None => false end.

Definition DeleteIntentByPodID (podID : string) (s : Service) : Service :=
  let remaining := filter (fun o => other_pod podID o = true) (intentCache s) in
  let s := set_intents remaining (rebuildIntentMerkleTree remaining) s in
  let keysToDelete := filter (fun k => HasPrefix k (podID +:+ "-") = true) (map_to_list (schedulingIntentsMap s)).*1 in
  let s := set_map (foldr delete (schedulingIntentsMap s) keysToDelete) s in
  set_pods (removePodMetricTarget podID (intentPods s)) s.

Definition DeleteIntentByPID (podID : string) (pid : Z) (s : Service) : Service :=
  set_map (delete (intentKey podID pid) (schedulingIntentsMap s)) s.

Definition DeleteAllIntents (s : Service) : Service :=
  let s := set_intents [] (rebuildIntentMerkleTree []) s in
  let keysToDelete := (map_to_list (schedulingIntentsMap s)).*1 in
  let s := set_map (foldr delete (schedulingIntentsMap s) keysToDelete) s in
  set_pods (UpdatePodTargets (env_nodeName env) [] ∅) s.

(** ** Node policies *)

Definition ProcessNodePolicies (policies : list (option NodePolicy)) (s : Service) : Service :=
  let normalized := normalizeNodePolicyInputs policies in
  set_policies (Some <$> normalized) (BuildMerkleTree (hashNodePolicy <$> sortNodePoliciesByKey normalized)) s.

Definition rebuildNodePolicyMerkleRoot (c : list (option NodePolicy)) : MerkleNode :=
  BuildMerkleTree (hashNodePolicy <$> sortNodePoliciesByKey (normalizeNodePolicyInputs c)).

Definition other_policy (policyID : string) (o : option NodePolicy) : bool :=
  match o with Some p => bool_decide (np_PolicyID p <> policyID) | None => true end.

Definition DeleteNodePolicyByID (policyID : string) (s : Service) : Service :=
  let remaining := filter (fun o => other_policy policyID o = true) (nodePolicyCache s) in
  set_policies remaining (rebuildNodePolicyMerkleRoot remaining) s.

Definition DeleteAllNodePolicies (s : Service) : Service := set_policies [] (rebuildNodePolicyMerkleRoot []) s.

Definition GetNodePolicyMerkleRootHash (s : Service) : string := nodePolicyMerkleRootHash s.

Definition policyIntent (p : NodePolicy) (tid : Z) : SchedulingIntents :=
  mkSchedulingIntents (np_Priority p) (u64 (np_ExecutionTime p)) tid [] (np_CommandRegex p).

(** The loop over the tasks for one policy. *)
Definition match_task (re : string -> bool) (p : NodePolicy) (byTID : gmap Z SchedulingIntents) (t : TaskInfo)
    : gmap Z SchedulingIntents :=
  if decide (Comm t = pauseCommand) then byTID
  else if negb (re (Comm t)) then byTID
  else <[TID t := policyIntent p (TID t)]> byTID.

Definition match_policy (tasks : list TaskInfo) (byTID : gmap Z SchedulingIntents) (p : NodePolicy)
    : gmap Z SchedulingIntents :=
  if decide (np_CommandRegex p = "") then byTID else
  match regexp_compile env (np_CommandRegex p) with
  | None => byTID
  | Some re => foldl (match_task re p) byTID tasks
  end.

(** The matching of [resolveNodeSchedulingIntents], given the tasks. *)
Definition matchNodePolicies (policies : list NodePolicy) (tasks : list TaskInfo) : list SchedulingIntents :=
  let byTID := foldl (match_policy tasks) ∅ (sortNodePoliciesByKey policies) in
  omap (fun tid => byTID !! tid) (sort_ints (map_to_list byTID).*1).

Definition resolveNodeSchedulingIntents (s : Service) : result dm_error (list SchedulingIntents) :=
  match nodePolicyCache s with
  | [] => Ok []
  | _ =>
      if negb (env_taskSource env) then Ok [] else
      match Snapshot (env_fs env) (env_done env) (NewProcTaskSource "/proc") with
      | Err e => Err (DMSnapshot e)
      | Ok tasks => Ok (matchNodePolicies (normalizeNodePolicyInputs (nodePolicyCache s)) tasks)
      end
  end.

(** ** Listing *)

Definition ListAllSchedulingIntents (s : Service) : Service * result dm_error (list SchedulingIntents) :=
  let node s pods :=
    match resolveNodeSchedulingIntents s with
    | Err e => (s, Err e)
    | Ok nodes => (s, Ok (pods ++ nodes))
    end in
  match intentCache s with
  | [] => node (set_map ∅ (set_pods (UpdatePodTargets (env_nodeName env) [] ∅) s)) []
  | cached =>
      match GetAllPodInfos (env_fs env) with
      | Err e => (s, Err (DMScan e))
      | Ok podInfos =>
          let s := set_pods (UpdatePodTargets (env_nodeName env) cached podInfos) s in
          let '(s, pods) := resolveSchedulingIntents (non_nil cached) podInfos s in
          node s pods
      end
  end.

(** ** The Merkle tree *)

Record TraverseOptions := mkTraverse { to_RootHash : string; to_Depth : Z }.

(** [TraverseIntentMerkleTree]; the conversion to the response copies the tree. *)
Definition TraverseIntentMerkleTree (req : option TraverseOptions) (s : Service) : Service * result dm_error MerkleNode :=
  match req with
  | None => (s, Err DMNilRequest)
  | Some req =>
      let s := refreshIntentMerkleTreeIfNeeded s in
      let root := intentMerkleRoot s in
      match root with
      | MNil => (s, Ok (TruncateMerkleTree root (to_Depth req)))
      | _ =>
          if decide (to_RootHash req = "") then (s, Ok (TruncateMerkleTree root (to_Depth req))) else
          match FindMerkleNode root (to_RootHash req) with
          | MNil => (s, Ok MNil)
          | found => (s, Ok (TruncateMerkleTree found (to_Depth req)))
          end
      end
  end.

(** ** REST handlers *)

(** A response: the status code, and the data of a success. *)
Inductive dm_response :=
| RespEmpty
| RespIntents (l : list SchedulingIntents)
| RespRoot (hash : string)
| RespError (code : Z).

(** A decoded body, [None] when [JSONBind] fails. *)
Definition HandleIntents (body : option (list Intent)) (s : Service) : Service * dm_response :=
  match body with
  | None => (s, RespError 400)
  | Some intents =>
      match ProcessIntents (Some <$> intents) s with
      | (s, None) => (s, RespEmpty)
      | (s, Some _) => (s, RespError 500)
      end
  end.

Definition ListIntents (s : Service) : Service * dm_response :=
  match ListAllSchedulingIntents s with
  | (s, Ok l) => (s, RespIntents l)
  | (s, Err _) => (s, RespError 500)
  end.

Definition GetIntentMerkleRoot (s : Service) : Service * dm_response :=
  match TraverseIntentMerkleTree (Some (mkTraverse "" 0)) s with
  | (s, Ok root) => (s, RespRoot (root_hash root))
  | (s, Err _) => (s, RespError 500)
  end.

Record DeleteIntentRequest := mkDelete { del_PodID : string; del_PID : option Z; del_All : bool }.

Definition DeleteIntent (body : option DeleteIntentRequest) (s : Service) : Service * dm_response :=
  match body with
  | None => (s, RespError 400)
  | Some req =>
      if del_All req then (DeleteAllIntents s, RespEmpty)
      else if decide (del_PodID req = "") then (s, RespError 400)
      else match del_PID req with
           | Some pid => (DeleteIntentByPID (del_PodID req) pid s, RespEmpty)
           | None => (DeleteIntentByPodID (del_PodID req) s, RespEmpty)
           end
  end.

Definition HandleNodePolicies (body : option (list NodePolicy)) (s : Service) : Service * dm_response :=
  match body with
  | None => (s, RespError 400)
  | Some policies => (ProcessNodePolicies (Some <$> policies) s, RespEmpty)
  end.

Definition GetNodePolicyMerkleRoot (s : Service) : Service * dm_response :=
  (s, RespRoot (GetNodePolicyMerkleRootHash s)).

Record DeleteNodePolicyRequest := mkDeleteNP { dnp_PolicyID : string; dnp_All : bool }.

Definition DeleteNodePolicy (body : option DeleteNodePolicyRequest) (s : Service) : Service * dm_response :=
  match body with
  | None => (s, RespError 400)
  | Some req =>
      if dnp_All req then (DeleteAllNodePolicies s, RespEmpty)
      else if decide (dnp_PolicyID req <> "") then (DeleteNodePolicyByID (dnp_PolicyID req) s, RespEmpty)
      else (s, RespError 400)
  end.

End service.

(** ** Requests and the service invariant *)

Inductive dm_request :=
| RqIntents (body : option (list Intent))
| RqList
| RqRoot
| RqDelete (body : option DeleteIntentRequest)
| RqNodePolicies (body : option (list NodePolicy))
| RqNodeRoot
| RqDeleteNode (body : option DeleteNodePolicyRequest).

Definition serve (env : dm_env) (r : dm_request) (s : Service) : Service * dm_response :=
  match r with
  | RqIntents b => HandleIntents env b s
  | RqList => ListIntents env s
  | RqRoot => GetIntentMerkleRoot s
  | RqDelete b => DeleteIntent env b s
  | RqNodePolicies b => HandleNodePolicies b s
  | RqNodeRoot => GetNodePolicyMerkleRoot s
  | RqDeleteNode b => DeleteNodePolicy b s
  end.

(** The service after a sequence of requests, each in its own environment. *)
Definition serve_all (rs : list (dm_env * dm_request)) (s : Service) : Service :=
  foldl (fun s r => (serve r.1 r.2 s).1) s rs.

Definition intents_wf (c : list (option Intent)) (root : MerkleNode) (h : string) : Prop :=
  Forall is_Some c /\ h = root_hash root /\ ((root = MNil /\ c = []) \/ root = intentTree (non_nil c)).

Definition policies_wf (c : list (option NodePolicy)) (root : MerkleNode) (h : string) : Prop :=
  Forall is_Some c /\ h = root_hash root /\ ((root = MNil /\ c = []) \/ root = nodePolicyTree (non_nil c)).

Definition service_wf (s : Service) : Prop :=
  intents_wf (intentCache s) (intentMerkleRoot s) (intentMerkleRootHash s) /\
  policies_wf (nodePolicyCache s) (nodePolicyMerkleRoot s) (nodePolicyMerkleRootHash s).

Lemma Forall_Some {A} (l : list A) : Forall is_Some (Some <$> l).
Proof. apply Forall_fmap, Forall_true. by eexists. Qed.

Lemma set_intents_wf c s : service_wf s -> Forall is_Some c -> service_wf (set_intents c (rebuildIntentMerkleTree c) s).
Proof. intros [_ Hp] Hc. split; [|exact Hp]. split_and!; [done..|]. by right. Qed.

Lemma set_policies_wf c s : service_wf s -> Forall is_Some c -> service_wf (set_policies c (rebuildNodePolicyMerkleRoot c) s).
Proof. intros [Hi _] Hc. split; [exact Hi|]. split_and!; [done..|]. by right. Qed.

(** The caches and roots are all the invariant looks at. *)
Lemma wf_frame s m p : service_wf s -> service_wf (set_map m (set_pods p s)).
Proof. done. Qed.

Lemma resolve_keeps env l infos s : service_wf s -> service_wf (resolveSchedulingIntents env l infos s).1.
Proof. unfold resolveSchedulingIntents. by destruct (foldl _ _ _). Qed.

Lemma ProcessIntents_wf env l s : service_wf s -> service_wf (ProcessIntents env l s).1.
Proof.
  intros Hw. unfold ProcessIntents. destruct (GetAllPodInfos _) as [infos|e]; [|done].
  unfold resolveSchedulingIntents. destruct (foldl _ _ _) as [m all]. simpl.
  split; [|exact (proj2 Hw)]. split_and!; [apply Forall_Some|done|]. right.
  unfold intentTree, intentLeaves. cbn. by rewrite non_nil_fmap_Some.
Qed.

Lemma ListAll_wf env s : service_wf s -> service_wf (ListAllSchedulingIntents env s).1.
Proof.
  intros Hw. unfold ListAllSchedulingIntents. destruct (intentCache s) as [|o c] eqn:Ec.
  - destruct (resolveNodeSchedulingIntents _ _); exact (wf_frame _ _ _ Hw).
  - destruct (GetAllPodInfos _) as [infos|e]; [|done]. unfold resolveSchedulingIntents. destruct (foldl _ _ _) as [m all].
    destruct (resolveNodeSchedulingIntents _ _); exact (wf_frame _ _ _ Hw).
Qed.

Lemma refresh_wf s : service_wf s -> service_wf (refreshIntentMerkleTreeIfNeeded s).
Proof.
  intros Hw. unfold refreshIntentMerkleTreeIfNeeded. destruct (intentMerkleRoot s); [|done].
  apply set_intents_wf; [done|]. apply Hw.
Qed.

Lemma serve_wf env r s : service_wf s -> service_wf (serve env r s).1.
Proof.
  intros Hw. destruct r as [b| | |b|b| |b]; simpl.
  - unfold HandleIntents. destruct b as [l|]; [|done].
    pose proof (ProcessIntents_wf env (Some <$> l) s Hw). by destruct (ProcessIntents _ _ _) as [? []].
  - unfold ListIntents. pose proof (ListAll_wf env s Hw). by destruct (ListAllSchedulingIntents _ _) as [? []].
  - unfold GetIntentMerkleRoot, TraverseIntentMerkleTree. pose proof (refresh_wf s Hw) as Hr.
    simpl. by destruct (intentMerkleRoot (refreshIntentMerkleTreeIfNeeded s)).
  - unfold DeleteIntent. destruct b as [[p o []]|]; simpl; [| |done].
    + by apply set_intents_wf.
    + case_decide; [done|]. destruct o; simpl; [exact Hw|].
      refine (wf_frame (set_intents _ _ s) _ _ _). apply set_intents_wf; [done|].
      apply Forall_filter_keep. apply Hw.
  - unfold HandleNodePolicies. destruct b as [l|]; [|done]. simpl. unfold ProcessNodePolicies.
    split; [exact (proj1 Hw)|]. split_and!; [apply Forall_Some|done|]. right.
    unfold nodePolicyTree, nodePolicyLeaves. cbn. by rewrite non_nil_fmap_Some.
  - done.
  - unfold DeleteNodePolicy. destruct b as [[p []]|]; simpl; [| |done].
    + by apply set_policies_wf.
    + case_decide; [|done]. apply set_policies_wf; [done|]. apply Forall_filter_keep. apply Hw.
Qed.

Lemma serve_all_wf rs s : service_wf s -> service_wf (serve_all rs s).
Proof.
  unfold serve_all. revert s. induction rs as [|r rs IH]; intros s Hw; [done|]. simpl. apply IH. by apply serve_wf.
Qed.

Lemma NewService_wf : service_wf NewService.
Proof. split; (split_and!; [constructor|done|by left]). Qed.

(** ** What resolution produces *)

Section resolve_spec.
  Variable env : dm_env.

(** The scheduling intents of one intent: its pod's processes but the pause
    container whose command the regular expression matches. *)
Definition pod_matches (podInfos : gmap string PodInfo) (i : Intent) : list SchedulingIntents :=
  match regexp_compile env (CommandRegex i), podInfos !! PodID i with
  | Some re, Some info =>
      schedulingIntent i <$> filter (fun p => Command p <> pauseCommand /\ re (Command p) = true) (Processes info)
  | _, _ => []
  end.

Lemma resolve_processes re i ps acc :
  (foldl (resolve_process re i) acc ps).2 =
  acc.2 ++ (schedulingIntent i <$> filter (fun p => Command p <> pauseCommand /\ re (Command p) = true) ps).
Proof.
  revert acc. induction ps as [|p ps IH]; intros acc; [by rewrite app_nil_r|]. cbn [foldl]. rewrite IH.
  unfold resolve_process. case_decide as Hp; [by rewrite filter_cons_False by tauto|].
  destruct (re (Command p)) eqn:Er; simpl.
  - rewrite filter_cons_True by tauto. by rewrite <- (assoc_L (++)).
  - rewrite filter_cons_False; [done|]. intros [_ H]. congruence.
Qed.

Lemma resolve_list podInfos l acc :
  (foldl (resolve_intent env podInfos) acc l).2 = acc.2 ++ (l ≫= pod_matches podInfos).
Proof.
  revert acc. induction l as [|i l IH]; intros acc; [by rewrite app_nil_r|]. cbn [foldl]. rewrite IH, bind_cons, (assoc_L (++)).
  f_equal. unfold resolve_intent, pod_matches. destruct (regexp_compile env _) as [re|]; [|by rewrite app_nil_r].
  destruct (podInfos !! PodID i) as [info|]; [|by rewrite app_nil_r]. apply resolve_processes.
Qed.

(** *** Node policies *)

(** A policy applies to a thread of the snapshot. *)
Definition policy_matches (tasks : list TaskInfo) (tid : Z) (p : NodePolicy) : bool :=
  bool_decide (np_CommandRegex p <> "") &&
  match regexp_compile env (np_CommandRegex p) with
  | None => false
  | Some re => existsb (fun t => bool_decide (TID t = tid) && bool_decide (Comm t <> pauseCommand) && re (Comm t)) tasks
  end.

(** The policy that decides for a thread: the last one in canonical order. *)
Definition winner (policies : list NodePolicy) (tasks : list TaskInfo) (tid : Z) : option NodePolicy :=
  last (filter (fun p => policy_matches tasks tid p = true) policies).

Lemma match_tasks re p tasks m tid :
  foldl (match_task re p) m tasks !! tid =
  if existsb (fun t => bool_decide (TID t = tid) && bool_decide (Comm t <> pauseCommand) && re (Comm t)) tasks
  then Some (policyIntent p tid) else m !! tid.
Proof.
  revert m. induction tasks as [|t tasks IH]; intros m; [done|]. cbn [foldl existsb]. rewrite IH.
  destruct (existsb _ tasks) eqn:Ex; [by rewrite orb_true_r|]. rewrite orb_false_r. unfold match_task.
  case_decide as Hc; [by rewrite (bool_decide_eq_false_2 (_ <> _)), andb_false_r by tauto|].
  rewrite (bool_decide_eq_true_2 (_ <> _)), andb_true_r by done.
  destruct (re (Comm t)); simpl; [|by rewrite andb_false_r]. rewrite andb_true_r.
  destruct (decide (TID t = tid)) as [<-|Hne].
  - by rewrite bool_decide_eq_true_2, lookup_insert_eq.
  - by rewrite bool_decide_eq_false_2, lookup_insert_ne.
Qed.

Lemma match_policy_lookup tasks m p tid :
  match_policy env tasks m p !! tid = if policy_matches tasks tid p then Some (policyIntent p tid) else m !! tid.
Proof.
  unfold match_policy, policy_matches. case_decide as He.
  { by rewrite bool_decide_eq_false_2 by tauto. }
  rewrite bool_decide_eq_true_2 by done. simpl.
  destruct (regexp_compile env _) as [re|]; [|done]. apply match_tasks.
Qed.

Lemma match_policies_lookup tasks policies m tid :
  foldl (match_policy env tasks) m policies !! tid =
  match winner policies tasks tid with Some p => Some (policyIntent p tid) | None => m !! tid end.
Proof.
  unfold winner. revert m. induction policies as [|p policies IH]; intros m; [done|]. cbn [foldl]. rewrite IH.
  destruct (policy_matches tasks tid p) eqn:Ep.
  - rewrite filter_cons_True by done. rewrite last_cons. destruct (last _); [done|].
    by rewrite match_policy_lookup, Ep.
  - rewrite filter_cons_False by congruence. destruct (last _); [done|]. by rewrite match_policy_lookup, Ep.
Qed.

Lemma omap_lookup_keys {A} (m : gmap Z A) ks :
  (forall k, k ∈ ks -> is_Some (m !! k)) -> Forall2 (fun k x => m !! k = Some x) ks (omap (fun k => m !! k) ks).
Proof.
  induction ks as [|k ks IH]; intros H; [constructor|]. destruct (H k) as [x Hx]; [set_solver|].
  cbn [omap list_omap]. rewrite Hx. constructor; [done|]. apply IH. set_solver.
Qed.

Lemma matchNodePolicies_lookup policies tasks :
  Forall2 (fun tid si => exists p, winner (sortNodePoliciesByKey policies) tasks tid = Some p /\ si = policyIntent p tid)
    (sort_ints (map_to_list (foldl (match_policy env tasks) ∅ (sortNodePoliciesByKey policies))).*1)
    (matchNodePolicies env policies tasks).
Proof.
  unfold matchNodePolicies. set (m := foldl _ _ _). eapply Forall2_impl; [apply omap_lookup_keys|].
  - intros k Hk. unfold sort_ints in Hk. rewrite (elem_of_sort_by id Z.le) in Hk.
    apply list_elem_of_fmap in Hk as ([k' x] & -> & Hin%elem_of_map_to_list). eauto.
  - intros k x Hx. unfold m in Hx. rewrite match_policies_lookup, lookup_empty in Hx.
    destruct (winner _ _ _) as [p|] eqn:Ew; [|done]. injection Hx as <-. eauto.
Qed.

Lemma matched_tids policies tasks tid :
  tid ∈ sort_ints (map_to_list (foldl (match_policy env tasks) ∅ policies)).*1 <-> is_Some (winner policies tasks tid).
Proof.
  unfold sort_ints. rewrite (elem_of_sort_by id Z.le). split.
  - intros ([k x] & -> & Hin%elem_of_map_to_list)%list_elem_of_fmap.
    rewrite match_policies_lookup, lookup_empty in Hin. simpl. destruct (winner _ _ _); [eauto|done].
  - intros [p Hp]. apply list_elem_of_fmap. exists (tid, policyIntent p tid). split; [done|].
    apply elem_of_map_to_list. by rewrite match_policies_lookup, Hp.
Qed.

Lemma sorted_tids policies tasks :
  StronglySorted Z.lt (sort_ints (map_to_list (foldl (match_policy env tasks) ∅ policies)).*1).
Proof.
  set (m := foldl _ _ _). pose proof (NoDup_fst_map_to_list m) as Hnd.
  pose proof (sort_by_spec id Z.le (map_to_list m).*1) as [Hp Hs].
  unfold sort_ints. rewrite <- Hp in Hnd. clear Hp. revert Hnd Hs. generalize (sort_by id Z.le (map_to_list m).*1).
  induction l as [|k l IH]; intros Hnd Hs; [constructor|].
  apply NoDup_cons in Hnd as [Hk Hnd]. apply StronglySorted_inv in Hs as [Hs Hf].
  constructor; [by apply IH|]. apply Forall_forall. intros k' Hk'.
  rewrite Forall_forall in Hf. specialize (Hf k' Hk'). unfold key_le in Hf. simpl in Hf.
  assert (k <> k') by (by intros ->). lia.
Qed.

End resolve_spec.

(** ** Properties *)

Lemma truncate_root_hash root : root_hash (TruncateMerkleTree root 0) = root_hash root.
Proof. by destruct root. Qed.

Lemma intentTree_node l : intentTree l <> MNil.
Proof. apply BuildMerkleTree_not_nil. Qed.

(** A request for the intent root is answered from the cache and leaves it alone. *)
Lemma intent_root_answer s :
  service_wf s ->
  (GetIntentMerkleRoot s).2 = RespRoot (node_hash (intentTree (non_nil (intentCache s)))) /\
  intentCache (GetIntentMerkleRoot s).1 = intentCache s /\ nodePolicyCache (GetIntentMerkleRoot s).1 = nodePolicyCache s.
Proof.
  intros [Hi _]. assert (forall t, root_hash t = node_hash t) as Hh by (by intros []).
  unfold GetIntentMerkleRoot, TraverseIntentMerkleTree. cbv zeta. cbn [to_RootHash to_Depth].
  set (s' := refreshIntentMerkleTreeIfNeeded s).
  assert (intentCache s' = intentCache s /\ nodePolicyCache s' = nodePolicyCache s) as [Hc Hn].
  { unfold s', refreshIntentMerkleTreeIfNeeded. by destruct (intentMerkleRoot s). }
  assert (intentMerkleRoot s' = intentTree (non_nil (intentCache s))) as Hroot.
  { unfold s', refreshIntentMerkleTreeIfNeeded. destruct Hi as (_ & _ & [[Hnil Hc']|Hr]).
    - by rewrite Hnil.
    - rewrite Hr. destruct (intentTree (non_nil (intentCache s))) eqn:Et; [|done]. by apply intentTree_node in Et. }
  rewrite Hroot. pose proof (intentTree_node (non_nil (intentCache s))) as Hnn.
  destruct (intentTree (non_nil (intentCache s))) as [|h l r]; [done|]. rewrite decide_True by done.
  cbn [fst snd]. by rewrite truncate_root_hash.
Qed.



(** Remark (one policy per thread).  Matching node policies against the threads of a
    snapshot yields at most one scheduling intent per thread, in increasing order of
    threads, for exactly the threads some policy matches, with the values of the
    last matching policy in canonical order. *)
Theorem node_policy_resolution (env : dm_env) policies tasks :
  StronglySorted Z.lt (si_PID <$> matchNodePolicies env policies tasks) /\
  forall si, si ∈ matchNodePolicies env policies tasks <->
    exists p, winner env (sortNodePoliciesByKey policies) tasks (si_PID si) = Some p /\ si = policyIntent p (si_PID si).
Proof.
  pose proof (matchNodePolicies_lookup env policies tasks) as H2.
  assert (si_PID <$> matchNodePolicies env policies tasks =
    sort_ints (map_to_list (foldl (match_policy env tasks) ∅ (sortNodePoliciesByKey policies))).*1) as Hpids.
  { clear -H2. induction H2 as [|tid si ? ? (p & _ & ->) _ IH]; [done|]. cbn [fmap list_fmap]. by rewrite IH. }
  split; [rewrite Hpids; apply sorted_tids|]. intros si. split.
  - intros Hin. apply list_elem_of_lookup in Hin as [k Hk].
    destruct (Forall2_lookup_r _ _ _ _ _ H2 Hk) as (tid & _ & p & Hw & ->). by exists p.
  - intros (p & Hw & Hsi). assert (si_PID si ∈ si_PID <$> matchNodePolicies env policies tasks) as Hin.
    { rewrite Hpids. apply matched_tids. eauto. }
    apply list_elem_of_fmap in Hin as (si' & Hpid & Hin'). apply list_elem_of_lookup in Hin' as [k Hk].
    destruct (Forall2_lookup_r _ _ _ _ _ H2 Hk) as (tid & _ & p' & Hw' & Hsi').
    assert (tid = si_PID si) as -> by (rewrite Hpid, Hsi'; done).
    rewrite Hw in Hw'. injection Hw' as <-. rewrite Hsi, <- Hsi'. apply list_elem_of_lookup. eauto.
Qed.

(** Remark (push order does not matter).  Two decision makers that hold the same
    policies in different orders have the same root and resolve a snapshot of the
    same threads to the same scheduling intents, as the code promises. *)
Theorem node_policy_push_order (env : dm_env) l1 l2 tasks :
  Forall clean_policy l1 -> l1 ≡ₚ l2 ->
  nodePolicyTree l1 = nodePolicyTree l2 /\ matchNodePolicies env l1 tasks = matchNodePolicies env l2 tasks.
Proof.
  intros Hc Hp. assert (sortNodePoliciesByKey l1 = sortNodePoliciesByKey l2) as Hs.
  { apply (sort_by_perm nodePolicySortKey String.le); [|done]. intros x y Hx Hy.
    rewrite Forall_forall in Hc. apply nodePolicySortKey_inj; auto. }
  unfold nodePolicyTree, nodePolicyLeaves, matchNodePolicies. by rewrite Hs.
Qed.

(** An engine for concrete runs: an expression matches the commands it contains;
    an opening parenthesis does not compile. *)
Definition substring_env (fs : procfs) : dm_env :=
  mkEnv (fun re => if decide (re = "(") then None else Some (fun s => Contains s re)) fs (fun _ _ => false) "node" true.

Lemma node_policy_push_order_witness :
  let p1 := mkNodePolicy "a" "n" "ng" 1 10 in
  let p2 := mkNodePolicy "b" "n" "nginx" 2 20 in
  let tasks := [mkTaskInfo 12 12 "nginx"] in
  matchNodePolicies (substring_env sample_procfs) [p2; p1] tasks = [mkSchedulingIntents 2 20 12 [] "nginx"] /\
  matchNodePolicies (substring_env sample_procfs) [p1; p2] tasks =
  matchNodePolicies (substring_env sample_procfs) [p2; p1] tasks.
Proof.
  split; [vm_compute; reflexivity|].
  apply (node_policy_push_order (substring_env sample_procfs) [mkNodePolicy "a" "n" "ng" 1 10; mkNodePolicy "b" "n" "nginx" 2 20]).
  - repeat constructor.
  - apply Permutation_swap.
Defined.

Lemma foldr_delete_lookup {A} (m : gmap string A) ks k :
  foldr delete m ks !! k = if decide (k ∈ ks) then None else m !! k.
Proof.
  induction ks as [|k' ks IH]; [done|]. cbn [foldr]. destruct (decide (k = k')) as [->|Hne].
  - rewrite lookup_delete_eq. by rewrite decide_True by set_solver.
  - rewrite lookup_delete_ne by done. rewrite IH. by repeat case_decide; set_solver.
Qed.

Lemma non_nil_other_pod podID c :
  non_nil (filter (fun o => other_pod podID o = true) c) = filter (fun i => PodID i <> podID) (non_nil c).
Proof.
  induction c as [|[i|] c IH]; [done|..].
  - cbn [non_nil]. destruct (decide (PodID i = podID)) as [He|He].
    + rewrite filter_cons_False, (filter_cons_False _ i) by (simpl; rewrite ?bool_decide_eq_true; tauto). done.
    + rewrite filter_cons_True, (filter_cons_True _ i) by (simpl; rewrite ?bool_decide_eq_true; tauto).
      cbn [non_nil]. by rewrite IH.
  - rewrite filter_cons_False by done. done.
Qed.

(** Remark (deleting a pod).  Deleting the intents of a pod leaves exactly the intents
    of the other pods in the cache, removes the pod's entries from the map and its
    metric targets, and makes the root that of the remaining intents. *)
Theorem delete_pod_spec (podID : string) (s : Service) :
  let s' := DeleteIntentByPodID podID s in
  non_nil (intentCache s') = filter (fun i => PodID i <> podID) (non_nil (intentCache s)) /\
  (forall k, schedulingIntentsMap s' !! k =
     if HasPrefix k (podID +:+ "-") then None else schedulingIntentsMap s !! k) /\
  (forall t, t ∈ intentPods s' <-> t ∈ intentPods s /\ pt_PodUID t <> podID) /\
  intentMerkleRootHash s' = node_hash (intentTree (filter (fun i => PodID i <> podID) (non_nil (intentCache s)))).
Proof.
  intros s'. unfold s', DeleteIntentByPodID. cbv zeta. split_and!.
  - apply non_nil_other_pod.
  - intros k. cbn. rewrite foldr_delete_lookup.
    destruct (schedulingIntentsMap s !! k) as [x|] eqn:Ek.
    + assert (k ∈ (map_to_list (schedulingIntentsMap s)).*1) as Hin.
      { apply list_elem_of_fmap. exists (k, x). by rewrite elem_of_map_to_list. }
      case_decide as Hf; rewrite list_elem_of_filter in Hf.
      * destruct Hf as [-> _]. done.
      * destruct (HasPrefix k _); [tauto|done].
    + by case_decide; destruct (HasPrefix k _).
  - intros t. cbn. unfold removePodMetricTarget. rewrite list_elem_of_filter. tauto.
  - cbn. unfold rebuildIntentMerkleTree, normalizeIntentInputs. rewrite non_nil_other_pod.
    unfold intentTree, intentLeaves. by destruct (BuildMerkleTree _).
Qed.

(** Remark (deleting by PID has no effect).  A request that deletes one process of a
    pod is answered with success, and the next listing is the same as without it:
    the process is scheduled as before. *)
Theorem delete_by_pid_ineffective (env env' : dm_env) podID pid (s : Service) :
  podID <> "" ->
  (DeleteIntent env (Some (mkDelete podID (Some pid) false)) s).2 = RespEmpty /\
  (ListIntents env' (DeleteIntent env (Some (mkDelete podID (Some pid) false)) s).1).2 = (ListIntents env' s).2.
Proof.
  intros Hne. unfold DeleteIntent. cbn. rewrite decide_False by done. split; [done|].
  cbn. unfold ListIntents, ListAllSchedulingIntents, DeleteIntentByPID. cbn.
  destruct (intentCache s) as [|o c].
  - change (resolveNodeSchedulingIntents env' (set_map _ (set_pods ?p _)))
      with (resolveNodeSchedulingIntents env' (set_map ∅ (set_pods p s))).
    by destruct (resolveNodeSchedulingIntents _ _).
  - destruct (GetAllPodInfos (env_fs env')) as [infos|]; [|done].
    unfold resolveSchedulingIntents. destruct (foldl _ _ _) as [m all].
    change (resolveNodeSchedulingIntents env' (set_map _ (set_pods ?p (set_map _ s))))
      with (resolveNodeSchedulingIntents env' (set_map m (set_pods p s))).
    by destruct (resolveNodeSchedulingIntents _ _).
Qed.

Lemma delete_by_pid_ineffective_witness :
  (ListIntents (substring_env sample_procfs) (DeleteIntent (substring_env sample_procfs)
     (Some (mkDelete "p1" (Some 12%Z) false)) NewService).1).2 = RespIntents [].
Proof.
  rewrite (proj2 (delete_by_pid_ineffective (substring_env sample_procfs) (substring_env sample_procfs) "p1" 12 NewService
    ltac:(discriminate))).
  vm_compute. reflexivity.
Defined.
