(* ===== verification/DMRuntime.v ===== *)
(** * Runtime configuration through the decision maker

    domain/runtime_config.go, [ApplyRuntimeConfig] and [GetRuntimeConfigStatus] of
    service.go, and rest/runtime_config_handler.go: a configuration is normalised,
    validated, sent to the daemon's control API and remembered.  The JSON between
    the two programs is modelled by the fields it carries: a field with
    [omitempty] is absent when it has its zero value. *)

From stdpp Require Import base gmap strings list.
From Stdlib Require Import ZArith Lia.
From S2P Require Import Prelude GoStrings Config DaemonConfig DaemonSupervisor.

(** ** Data *)

Record RuntimeSchedulerConfig := mkRuntimeConfig {
  rc_ConfigVersion : string;
  rc_Mode : string;
  rc_SchedulerName : string;
  rc_SliceNsDefault : Z;
  rc_SliceNsMin : Z;
  rc_KernelMode : bool;
  rc_MaxTimeWatchdog : bool;
  rc_EarlyProcessing : bool;
  rc_BuiltinIdle : bool;
  rc_SchedulerEnabled : bool;
  rc_MonitoringEnabled : bool
}.

Definition with_scheduler (mode name : string) (enabled : bool) (c : RuntimeSchedulerConfig) : RuntimeSchedulerConfig :=
  mkRuntimeConfig (rc_ConfigVersion c) mode name (rc_SliceNsDefault c) (rc_SliceNsMin c) (rc_KernelMode c)
    (rc_MaxTimeWatchdog c) (rc_EarlyProcessing c) (rc_BuiltinIdle c) enabled (rc_MonitoringEnabled c).

Definition Normalize (c : RuntimeSchedulerConfig) : RuntimeSchedulerConfig :=
  let mode := TrimSpace (rc_Mode c) in
  let name := TrimSpace (rc_SchedulerName c) in
  let mode := if decide (mode = "") then (if rc_SchedulerEnabled c then "gthulhu" else "none") else mode in
  if decide (mode = "none") then with_scheduler mode "" false c
  else if decide (mode = "gthulhu" \/ mode = "simple") then with_scheduler mode "" true c
  else if decide (mode = "scx") then with_scheduler mode name true c
  else with_scheduler mode name (rc_SchedulerEnabled c) c.

Inductive validate_error := VNameRequired | VNotBinary | VNotScx | VBadMode.

Definition Validate (c : RuntimeSchedulerConfig) : option validate_error :=
  if decide (rc_Mode c = "none" \/ rc_Mode c = "gthulhu" \/ rc_Mode c = "simple") then None
  else if decide (rc_Mode c = "scx") then
    if decide (rc_SchedulerName c = "") then Some VNameRequired
    else if Contains (rc_SchedulerName c) "/" || Contains (rc_SchedulerName c) "\" then Some VNotBinary
    else if HasPrefix (rc_SchedulerName c) "scx_" then None else Some VNotScx
  else Some VBadMode.

Record RuntimeConfigStatus := mkDMStatus {
  rcs_ConfigVersion : string;
  rcs_Applied : bool;
  rcs_AppliedAt : string;
  rcs_RestartCount : Z;
  rcs_LastError : option sup_error;
  rcs_Config : option RuntimeSchedulerConfig
}.

(** ** The wire *)

(** A false flag with [omitempty] is not sent, so the daemon sees a nil pointer. *)
Definition omit_false (b : bool) : option bool := if b then Some true else None.

(** What the daemon decodes from the JSON of a configuration. *)
Definition daemon_request (c : RuntimeSchedulerConfig) : runtimeConfigRequest :=
  mkRequest (rc_ConfigVersion c) (rc_Mode c) (rc_SchedulerName c) (rc_SliceNsDefault c) (rc_SliceNsMin c)
    (omit_false (rc_KernelMode c)) (omit_false (rc_MaxTimeWatchdog c)) (omit_false (rc_EarlyProcessing c))
    (omit_false (rc_BuiltinIdle c)) (Some (rc_SchedulerEnabled c)) (Some (rc_MonitoringEnabled c)).

(** The configuration in the daemon's status, as [GetRuntimeConfigStatus] decodes it. *)
Definition daemon_config (st : status) : option RuntimeSchedulerConfig :=
  (fun c => mkRuntimeConfig (st_ConfigVersion st) (cur_Mode c) (cur_SchedulerName c) (cur_SliceNsDefault c)
     (cur_SliceNsMin c) (cur_KernelMode c) (cur_MaxTimeWatchdog c) (cur_EarlyProcessing c) (cur_BuiltinIdle c)
     (cur_SchedulerEnabled c) (cur_MonitoringEnabled c)) <$> st_Config st.

(** ** The service *)

(** What comes back over HTTP: nothing, or a response. *)
Definition http_result := option response.

Inductive apply_error :=
| AEVersionRequired
| AEInvalid (e : validate_error)
| AECall                       (** the daemon could not be reached *)
| AEStatus (code : Z).

(** [ApplyRuntimeConfig]: [runtimeConfig] before, and the daemon as a function of
    what it is sent.  The result is [runtimeConfig] after and the error. *)
Definition ApplyRuntimeConfig (post : runtimeConfigRequest -> http_result) (config : RuntimeSchedulerConfig)
    (cached : option RuntimeSchedulerConfig) : option RuntimeSchedulerConfig * option apply_error :=
  if decide (rc_ConfigVersion config = "") then (cached, Some AEVersionRequired) else
  let config := Normalize config in
  match Validate config with
  | Some e => (cached, Some (AEInvalid e))
  | None =>
      match post (daemon_request config) with
      | None => (cached, Some AECall)
      | Some resp =>
          if negb (rs_code resp =? 200)%Z then (cached, Some (AEStatus (rs_code resp))) else
          match cached with
          | Some c => if decide (rc_ConfigVersion c = rc_ConfigVersion config) then (cached, None)
                      else (Some config, None)
          | None => (Some config, None)
          end
      end
  end.

(** [GetRuntimeConfigStatus]: [got] is the answer of the daemon's status endpoint. *)
Definition GetRuntimeConfigStatus (got : http_result) (cached : option RuntimeSchedulerConfig) : RuntimeConfigStatus :=
  let fallback :=
    match cached with
    | None => mkDMStatus "" false "" 0 None None
    | Some c => mkDMStatus (rc_ConfigVersion c) true "" 0 None (Some c)
    end in
  match got with
  | Some (mkResponse code (BodyData st)) =>
      if (code =? 200)%Z then
        mkDMStatus (st_ConfigVersion st) (st_Applied st) (st_AppliedAt st) (st_RestartCount st) (st_LastError st)
          (daemon_config st)
      else fallback
  | _ => fallback
  end.

(** The REST handlers: the status code. *)
Definition HandleApplyRuntimeConfig (post : runtimeConfigRequest -> http_result) (body : option RuntimeSchedulerConfig)
    (cached : option RuntimeSchedulerConfig) : option RuntimeSchedulerConfig * Z :=
  match body with
  | None => (cached, 400%Z)
  | Some c =>
      match ApplyRuntimeConfig post c cached with
      | (cached, None) => (cached, 200%Z)
      | (cached, Some _) => (cached, 400%Z)
      end
  end.

(** ** Lemmas *)

(** The mode after trimming and defaulting, and the rest of the normalisation. *)
Definition norm_mode (c : RuntimeSchedulerConfig) : string :=
  if decide (TrimSpace (rc_Mode c) = "") then (if rc_SchedulerEnabled c then "gthulhu" else "none")
  else TrimSpace (rc_Mode c).

Definition norm_with (m n : string) (e : bool) (c : RuntimeSchedulerConfig) : RuntimeSchedulerConfig :=
  if decide (m = "none") then with_scheduler m "" false c
  else if decide (m = "gthulhu" \/ m = "simple") then with_scheduler m "" true c
  else if decide (m = "scx") then with_scheduler m n true c
  else with_scheduler m n e c.

Lemma Normalize_eq c :
  Normalize c = norm_with (norm_mode c) (TrimSpace (rc_SchedulerName c)) (rc_SchedulerEnabled c) c.
Proof. reflexivity. Qed.

Lemma norm_mode_trimmed c : TrimSpace (norm_mode c) = norm_mode c /\ norm_mode c <> "".
Proof.
  unfold norm_mode. case_decide as He; [by destruct (rc_SchedulerEnabled c)|]. by rewrite TrimSpace_idem.
Qed.

Lemma Normalize_fixed m n e c :
  TrimSpace m = m -> m <> "" -> Normalize (with_scheduler m n e c) = norm_with m (TrimSpace n) e c.
Proof.
  intros Ht Hne. rewrite Normalize_eq.
  assert (norm_mode (with_scheduler m n e c) = m) as ->; [|reflexivity].
  unfold norm_mode. cbn [with_scheduler rc_Mode]. by rewrite Ht, decide_False.
Qed.

(** A normalised mode is trimmed and not empty. *)
Lemma Normalize_mode c :
  let m := rc_Mode (Normalize c) in
  m = (if decide (TrimSpace (rc_Mode c) = "") then (if rc_SchedulerEnabled c then "gthulhu" else "none")
       else TrimSpace (rc_Mode c)) /\ TrimSpace m = m /\ m <> "".
Proof.
  cbv zeta. rewrite Normalize_eq. destruct (norm_mode_trimmed c) as [Ht Hne].
  assert (rc_Mode (norm_with (norm_mode c) (TrimSpace (rc_SchedulerName c)) (rc_SchedulerEnabled c) c) = norm_mode c) as ->.
  { unfold norm_with. by repeat case_decide. }
  done.
Qed.

Lemma Normalize_name c :
  rc_SchedulerName (Normalize c) = "" \/ rc_SchedulerName (Normalize c) = TrimSpace (rc_SchedulerName c).
Proof. unfold Normalize. cbv zeta. repeat case_decide; auto. Qed.

Lemma Validate_mode c : Validate c = None -> rc_Mode c ∈ ["none"; "gthulhu"; "simple"; "scx"].
Proof.
  unfold Validate. rewrite !elem_of_cons, elem_of_nil. case_decide; [tauto|]. case_decide; [tauto|done].
Qed.

Lemma omit_false_or b prev : default prev (omit_false b) = prev || b.
Proof. by destruct b, prev. Qed.

(** Merging a request of the decision maker into the daemon's configuration. *)
Lemma merge_dm_request c prev :
  rc_Mode c <> "" ->
  let cfg := merge_monitoring (daemon_request c) (merge_scheduler (daemon_request c) prev) in
  Mode (Scheduler cfg) = rc_Mode c /\
  KernelMode (Scheduler cfg) = KernelMode (Scheduler prev) || rc_KernelMode c /\
  EarlyProcessing cfg = EarlyProcessing prev || rc_EarlyProcessing c /\
  BuiltinIdle cfg = BuiltinIdle prev || rc_BuiltinIdle c /\
  Enabled (Monitor cfg) = rc_MonitoringEnabled c.
Proof.
  intros Hm. cbn. rewrite !omit_false_or. split_and!; try done.
  unfold merge_mode, set_nonempty. cbn. destruct (rc_SchedulerEnabled c); repeat case_decide; congruence.
Qed.

Lemma Normalize_flags c :
  rc_ConfigVersion (Normalize c) = rc_ConfigVersion c /\ rc_KernelMode (Normalize c) = rc_KernelMode c /\
  rc_EarlyProcessing (Normalize c) = rc_EarlyProcessing c /\ rc_BuiltinIdle (Normalize c) = rc_BuiltinIdle c /\
  rc_MonitoringEnabled (Normalize c) = rc_MonitoringEnabled c.
Proof. unfold Normalize. cbv zeta. by repeat case_decide. Qed.

(** ** Properties *)

(** Remark (normal form).  Normalising twice is normalising once; a normalised
    configuration that validates has its enabled flag set exactly when its mode is
    not [none], and a scheduler name only in scx mode. *)
Theorem normalize_canonical (c : RuntimeSchedulerConfig) :
  Normalize (Normalize c) = Normalize c /\
  (Validate (Normalize c) = None ->
   (rc_SchedulerEnabled (Normalize c) = true <-> rc_Mode (Normalize c) <> "none") /\
   (rc_Mode (Normalize c) <> "scx" -> rc_SchedulerName (Normalize c) = "")).
Proof.
  destruct (norm_mode_trimmed c) as [Ht Hne]. rewrite (Normalize_eq c).
  generalize dependent (norm_mode c). intros m Ht Hne. split.
  - unfold norm_with. repeat case_decide; rewrite Normalize_fixed by done; unfold norm_with;
      repeat case_decide; rewrite ?TrimSpace_idem; try done; tauto.
  - intros Hv%Validate_mode. rewrite !elem_of_cons, elem_of_nil in Hv.
    revert Hv. unfold norm_with. repeat case_decide; cbn [with_scheduler rc_Mode rc_SchedulerName rc_SchedulerEnabled];
      intros Hv; split; try done; try (split; [congruence|done]); tauto.
Qed.

(** Remark (what a configuration becomes).  When a configuration sent through the
    decision maker is accepted by the daemon, the file afterwards has its mode and
    its monitoring flag, but each of the kernel-mode, early-processing and
    builtin-idle flags is the old value or the new one: a flag that is on cannot be
    switched off through the decision maker. *)
Theorem dm_flags_only_rise `{Y : YAML} `{!YAMLRoundTrip Y} bad stat o tmp path bin c disk disk' changed prev :
  path <> "" -> path ∉ bad -> tmp <> path -> disk !! tmp = None ->
  LoadConfig (open_disk bad disk) path = Ok prev ->
  applyRuntimeConfigToFile bad stat o tmp path bin (daemon_request (Normalize c)) disk = (disk', changed, None) ->
  exists cfg, LoadConfig (open_disk bad disk') path = Ok cfg /\
    Mode (Scheduler cfg) = rc_Mode (Normalize c) /\
    KernelMode (Scheduler cfg) = KernelMode (Scheduler prev) || rc_KernelMode c /\
    EarlyProcessing cfg = EarlyProcessing prev || rc_EarlyProcessing c /\
    BuiltinIdle cfg = BuiltinIdle prev || rc_BuiltinIdle c /\
    Enabled (Monitor cfg) = rc_MonitoringEnabled c.
Proof.
  intros Hp Hb Hne Hf Hprev Happ. pose proof (apply_spec bad stat o tmp path bin (daemon_request (Normalize c)) disk) as Hs.
  rewrite Happ in Hs. destruct Hs as [(prev' & Hl & _ & Hc)%(fun H => H eq_refl) _].
  rewrite Hprev in Hl. injection Hl as <-.
  destruct (Normalize_mode c) as (_ & _ & Hm). destruct (Normalize_flags c) as (_ & Fk & Fe & Fb & Fm).
  pose proof (merge_dm_request (Normalize c) prev Hm) as (M1 & M2 & M3 & M4 & M5).
  set (cfg := merge_monitoring _ _) in *. rewrite Fk, Fe, Fb, Fm in *. destruct changed; destruct Hc as [Hc Ht].
  - apply writeConfigFile_ok in Hc; [|done..]. exists (reloaded cfg). rewrite Hc, load_written by done. done.
  - exists prev. rewrite Hc. split; [done|]. clearbody cfg. unfold tracked in Ht.
    injection Ht as T1 T2 T3 T4 T5 T6 T7 T8 T9. split_and!; congruence.
Qed.

(** Remark (the decision maker and the daemon agree).  When the decision maker reports
    that it applied a configuration, the daemon it called reports that version as
    applied, and so does the decision maker's own status afterwards. *)
Theorem dm_apply_then_status `{CS : ConfigStore} o t now c cached cached' w :
  ApplyRuntimeConfig (fun req => Some (handleRuntimeConfig o t now (Post (Decoded req)) w).2) c cached = (cached', None) ->
  let w' := (handleRuntimeConfig o t now (Post (Decoded (daemon_request (Normalize c)))) w).1 in
  let st := GetRuntimeConfigStatus (Some (handleStatus Get w').2) cached' in
  rcs_ConfigVersion st = rc_ConfigVersion c /\ rcs_Applied st = true /\
  (exists r, cached' = Some r /\ rc_ConfigVersion r = rc_ConfigVersion c).
Proof.
  unfold ApplyRuntimeConfig. case_decide as Hv; [done|]. destruct (Validate _); [done|].
  destruct (negb _) eqn:Ecode; [done|]. apply negb_false_iff, Z.eqb_eq in Ecode.
  destruct (post_ok_applied _ _ _ _ _ Ecode) as (_ & Ha & Hver). destruct (Normalize_flags c) as (Fv & _).
  intros Hc. cbv zeta. rewrite <- Fv. split; [|split].
  - cbn [handleStatus]. unfold detailedSnapshot. destruct (readCurrentConfig _ _ _). exact Hver.
  - cbn [handleStatus]. unfold detailedSnapshot. destruct (readCurrentConfig _ _ _). exact Ha.
  - destruct cached as [r|]; [case_decide|]; injection Hc as <-; eauto.
Qed.

Definition sample_runtime_config : RuntimeSchedulerConfig :=
  mkRuntimeConfig "v9" " simple " "" 3000000 0 false true false false false false.

Definition kernel_mode_config : Config :=
  mkConfig (mkSchedulerConfig 5000000 500000 "simple" "" true true) (mkSimpleSchedulerConfig false)
    (Monitor DefaultConfig) false false false (Api DefaultConfig).

Lemma sample_runtime_applied `{Y : YAML} `{!YAMLRoundTrip Y} :
  let req := daemon_request (Normalize sample_runtime_config) in
  applyRuntimeConfigToFile ∅ no_binaries good_outcomes "run.yaml.tmp-1" "run.yaml" "/opt/g/gthulhu" req
    (written kernel_mode_config) =
  (<["run.yaml" := yaml_print (marshal_doc (merge_monitoring req (merge_scheduler req kernel_mode_config)))]>
     (written kernel_mode_config), true, None).
Proof.
  cbv zeta. unfold applyRuntimeConfigToFile. rewrite load_one_file.
  replace (reloaded kernel_mode_config) with kernel_mode_config by (vm_compute; reflexivity). cbv zeta.
  replace (validateScheduler _ _) with (@None daemon_error) by (vm_compute; reflexivity).
  rewrite decide_False by (vm_compute; discriminate). rewrite decide_False by (vm_compute; discriminate).
  by rewrite write_good.
Qed.

Lemma dm_flags_only_rise_witness :
  exists cfg, KernelMode (Scheduler cfg) = true /\ rc_KernelMode sample_runtime_config = false /\
    Mode (Scheduler cfg) = "simple".
Proof.
  assert (LoadConfig (Y := counting_yaml) (open_disk ∅ (written (Y := counting_yaml) kernel_mode_config)) "run.yaml" =
    Ok kernel_mode_config) as Hl.
  { rewrite load_one_file. f_equal. }
  assert (written (Y := counting_yaml) kernel_mode_config !! "run.yaml.tmp-1" = None) as Hf.
  { unfold written. rewrite lookup_singleton_ne; [reflexivity|discriminate]. }
  destruct (dm_flags_only_rise (Y := counting_yaml) ∅ no_binaries good_outcomes "run.yaml.tmp-1" "run.yaml" "/opt/g/gthulhu"
    sample_runtime_config (written (Y := counting_yaml) kernel_mode_config) _ true kernel_mode_config ltac:(discriminate)
    (not_elem_of_empty _) ltac:(discriminate) Hf Hl (sample_runtime_applied (Y := counting_yaml))) as (cfg & _ & Hm & Hk & _).
  exists cfg. split; [rewrite Hk; reflexivity|]. split; [reflexivity|]. rewrite Hm. vm_compute. reflexivity.
Defined.

Lemma dm_apply_then_status_witness :
  exists cached', ApplyRuntimeConfig (fun req => Some (handleRuntimeConfig (CS := memory_store) good_outcomes 20 30
      (Post (Decoded req)) (w_sh sample_world)).2) sample_runtime_config None = (cached', None) /\
    exists r, cached' = Some r /\ rc_ConfigVersion r = "v9".
Proof.
  eexists. split; [vm_compute; reflexivity|].
  refine (proj2 (proj2 (dm_apply_then_status (CS := memory_store) good_outcomes 20 30 sample_runtime_config None _
    (w_sh sample_world) _))). vm_compute. reflexivity.
Defined.
