(* ===== verification/Clustering.v ===== *)
(** * The mathematics of the workload classifier

    src/api/manager/rest/classifier_engine.go, first half: feature vectors, the two
    moving averages of a pod ([ewmaState]), the tiers of older and older summaries
    ([tieredBuffer]) and the clustering model shared by all pods
    ([adaptiveClusteringModel]).  Arithmetic is that of GoFloat, operation by
    operation in the order of the source.

    The theorems: the tiers are the last summaries of consecutive blocks of samples
    ([tiers_are_block_summaries]); [Predict] returns the nearest centre
    ([predict_nearest]); a snapshot has as many centres as asked for and gives each
    tag to exactly one cluster ([snapshot_labels_clusters]). *)

From stdpp Require Import base gmap strings list.
From Stdlib Require Import ZArith Lia.
From S2P Require Import Prelude GoFloat.
Open Scope go_scope.

(** ** Feature vectors *)

(** [featureVector]: six numbers; the comment of the source names the entries. *)
Record featureVector := FV {
  fv0 : float64; fv1 : float64; fv2 : float64; fv3 : float64; fv4 : float64; fv5 : float64;
}.

Definition featureCount : Z := 6.

(** Loops [for i := 0; i < featureCount; i++] over one, two or three vectors. *)
Definition fv_const (c : float64) : featureVector := FV c c c c c c.
Definition fv_map (f : float64 -> float64) (a : featureVector) : featureVector :=
  FV (f (fv0 a)) (f (fv1 a)) (f (fv2 a)) (f (fv3 a)) (f (fv4 a)) (f (fv5 a)).
Definition fv_map2 (f : float64 -> float64 -> float64) (a b : featureVector) : featureVector :=
  FV (f (fv0 a) (fv0 b)) (f (fv1 a) (fv1 b)) (f (fv2 a) (fv2 b))
     (f (fv3 a) (fv3 b)) (f (fv4 a) (fv4 b)) (f (fv5 a) (fv5 b)).
Definition fv_map3 (f : float64 -> float64 -> float64 -> float64) (a b c : featureVector) : featureVector :=
  FV (f (fv0 a) (fv0 b) (fv0 c)) (f (fv1 a) (fv1 b) (fv1 c)) (f (fv2 a) (fv2 b) (fv2 c))
     (f (fv3 a) (fv3 b) (fv3 c)) (f (fv4 a) (fv4 b) (fv4 c)) (f (fv5 a) (fv5 b) (fv5 c)).

(** The entries in order, and the entry at an index. *)
Definition fv_list (a : featureVector) : list float64 := [fv0 a; fv1 a; fv2 a; fv3 a; fv4 a; fv5 a].
Definition fv_get (a : featureVector) (i : nat) : float64 := nth i (fv_list a) f64_zero.

(** The zero value of the type *)
Definition fv_zero : featureVector := fv_const f64_zero.

(** ** Metrics *)

Record metricsPayload := {
  VolCtxSW : Z; InvolCtxSW : Z; CPUTime : Z; WaitTime : Z; RunCount : Z;
  SMTMigr : Z; L3Migr : Z; NUMAMigr : Z;
}.

Definition computeFeatures (m : metricsPayload) : featureVector :=
  let one := f64_of_Z 1 in
  let run := fMax (f64_of_Z (RunCount m)) one in
  let cpu := f64_of_Z (CPUTime m) in
  let wait := f64_of_Z (WaitTime m) in
  let crossCache := f64_of_Z (u64 (L3Migr m + NUMAMigr m)) in
  FV (fdiv (f64_of_Z (VolCtxSW m)) run)
     (fdiv (f64_of_Z (InvolCtxSW m)) run)
     (fdiv cpu run)
     (fdiv wait (fMax (fadd cpu wait) one))
     (fdiv crossCache run)
     (fdiv (f64_of_Z (NUMAMigr m)) (fMax crossCache (f64_lit 1 1000000000))).

(** ** Moving averages *)

Definition ewmaShortAlpha : float64 := f64_lit 3 10.
Definition ewmaLongAlpha : float64 := f64_lit 5 100.
(** [1 - ewmaShortAlpha] and [1 - ewmaLongAlpha] are constant expressions, exact
    before they are rounded. *)
Definition ewmaShortRest : float64 := f64_lit 7 10.
Definition ewmaLongRest : float64 := f64_lit 95 100.
Definition ewmaEpsilon : float64 := f64_lit 1 1000000000.

Record ewmaState := {
  initialized : bool;
  shortMean : featureVector;
  shortVar : featureVector;
  longMean : featureVector;
  longVar : featureVector;
  updateCount : Z;
}.

Definition ewmaZero : ewmaState :=
  {| initialized := false; shortMean := fv_zero; shortVar := fv_zero;
     longMean := fv_zero; longVar := fv_zero; updateCount := 0 |}.

Definition Normalize (e : ewmaState) (x : featureVector) : featureVector :=
  if initialized e
  then fv_map3 (fun x mean var => fdiv (fsub x mean) (fSqrt (fadd var ewmaEpsilon))) x (longMean e) (longVar e)
  else x.

(** One average: the mean and the variance after a sample. *)
Definition ewmaMean (alpha : float64) (x mean : float64) : float64 :=
  let diff := fsub x mean in fadd mean (fmul alpha diff).
Definition ewmaVar (alpha rest : float64) (x mean var : float64) : float64 :=
  let diff := fsub x mean in fmul rest (fadd var (fmul (fmul alpha diff) diff)).

Definition ewmaUpdate (e : ewmaState) (x : featureVector) : ewmaState :=
  if initialized e then
    {| initialized := true;
       shortMean := fv_map2 (ewmaMean ewmaShortAlpha) x (shortMean e);
       shortVar := fv_map3 (ewmaVar ewmaShortAlpha ewmaShortRest) x (shortMean e) (shortVar e);
       longMean := fv_map2 (ewmaMean ewmaLongAlpha) x (longMean e);
       longVar := fv_map3 (ewmaVar ewmaLongAlpha ewmaLongRest) x (longMean e) (longVar e);
       updateCount := updateCount e + 1 |}
  else
    {| initialized := true; shortMean := x; shortVar := fv_const (f64_lit 1 1000000);
       longMean := x; longVar := fv_const (f64_lit 1 1000000); updateCount := 1 |}.

Definition DriftScore (e : ewmaState) : float64 :=
  if initialized e then
    let terms := fv_map3 (fun s l v => fdiv (fAbs (fsub s l)) (fSqrt (fadd v ewmaEpsilon)))
                   (shortMean e) (longMean e) (longVar e) in
    fdiv (foldl fadd f64_zero (fv_list terms)) (f64_of_Z featureCount)
  else f64_zero.

(** ** Tiers of summaries *)

Record tieredSummary := {
  Mean : featureVector;
  Std : featureVector;
  Timestamp : Z;
  Count : Z;
}.

Definition summaryZero : tieredSummary :=
  {| Mean := fv_zero; Std := fv_zero; Timestamp := 0; Count := 0 |}.

Record tieredBuffer := {
  raw : list tieredSummary;
  tier1 : list tieredSummary;
  tier2 : list tieredSummary;
  tier3 : list tieredSummary;
  pending1 : list tieredSummary;
  pending2 : list tieredSummary;
  pending3 : list tieredSummary;
}.

Definition bufferZero : tieredBuffer :=
  {| raw := []; tier1 := []; tier2 := []; tier3 := []; pending1 := []; pending2 := []; pending3 := [] |}.

(** A full slice is shifted by one to make room at its end. *)
Definition appendBoundedSummary (items : list tieredSummary) (item : tieredSummary) (max : nat) : list tieredSummary :=
  if (max <=? length items)%nat then drop 1 items ++ [item] else items ++ [item].

Definition summarizeTiered (items : list tieredSummary) : tieredSummary :=
  match items with
  | [] => summaryZero
  | _ =>
    let totalCount := foldl (fun n item => n + Count item) 0 items in
    let sum := foldl (fun s item => fv_map2 (fun s m => fadd s (fmul m (f64_of_Z (Count item)))) s (Mean item))
                 fv_zero items in
    let ts := foldl (fun t item => if t <? Timestamp item then Timestamp item else t) 0 items in
    let totalCount := if totalCount =? 0 then Z.of_nat (length items) else totalCount in
    let mean := fv_map (fun s => fdiv s (f64_of_Z totalCount)) sum in
    let sq := foldl (fun s item => fv_map3 (fun s m mu => let d := fsub m mu in fadd s (fmul d d)) s (Mean item) mean)
                fv_zero items in
    {| Mean := mean;
       Std := fv_map (fun s => fSqrt (fdiv s (f64_of_Z (Z.of_nat (length items))))) sq;
       Timestamp := ts;
       Count := totalCount |}
  end%Z.

Definition rawSample (v : featureVector) (ts : Z) : tieredSummary :=
  {| Mean := v; Std := fv_zero; Timestamp := ts; Count := 1 |}.

Definition Push (b : tieredBuffer) (v : featureVector) (ts : Z) : tieredBuffer :=
  let s := rawSample v ts in
  let raw' := appendBoundedSummary (raw b) s 10 in
  let p1 := pending1 b ++ [s] in
  let '(p1, t1, p2) :=
    if (2 <=? length p1)%nat
    then let s1 := summarizeTiered p1 in ([], appendBoundedSummary (tier1 b) s1 10, pending2 b ++ [s1])
    else (p1, tier1 b, pending2 b) in
  let '(p2, t2, p3) :=
    if (5 <=? length p2)%nat
    then let s2 := summarizeTiered p2 in ([], appendBoundedSummary (tier2 b) s2 6, pending3 b ++ [s2])
    else (p2, tier2 b, pending3 b) in
  let '(p3, t3) :=
    if (6 <=? length p3)%nat
    then let s3 := summarizeTiered p3 in ([], appendBoundedSummary (tier3 b) s3 6)
    else (p3, tier3 b) in
  {| raw := raw'; tier1 := t1; tier2 := t2; tier3 := t3; pending1 := p1; pending2 := p2; pending3 := p3 |}.

(** ** Clustering *)

Definition maxClusterBufferSamples : nat := 1000.

Record adaptiveClusteringModel := {
  nClusters : Z;
  dataBuffer : list featureVector;
  clusterCenters : list featureVector;
  clusterSemantics : gmap Z (list string);
  isFitted : bool;
}.

Definition newAdaptiveClusteringModel (n : Z) : adaptiveClusteringModel :=
  {| nClusters := n; dataBuffer := []; clusterCenters := []; clusterSemantics := ∅; isFitted := false |}.

Definition squaredDistance (a b : featureVector) : float64 :=
  foldl fadd f64_zero (fv_list (fv_map2 (fun a b => let d := fsub a b in fmul d d) a b)).

(** The loop of [Predict] and of [kmeans] for the closest centre: the first index with
    the least distance below [MaxFloat64], 0 when there is none. *)
Fixpoint nearest_go (x : featureVector) (best : nat) (bestDist : float64) (i : nat) (cs : list featureVector) : nat :=
  match cs with
  | [] => best
  | c :: cs' =>
      let d := squaredDistance x c in
      if fltb d bestDist then nearest_go x i d (S i) cs' else nearest_go x best bestDist (S i) cs'
  end.
Definition nearest (x : featureVector) (centers : list featureVector) : nat :=
  nearest_go x 0 MaxFloat64 0 centers.

Definition Predict (m : adaptiveClusteringModel) (x : featureVector) : Z :=
  if negb (isFitted m) || (length (clusterCenters m) =? 0)%nat then -1
  else Z.of_nat (nearest x (clusterCenters m)).

Definition PartialFit (m : adaptiveClusteringModel) (x : featureVector) : adaptiveClusteringModel :=
  let buf := if (maxClusterBufferSamples <=? length (dataBuffer m))%nat
             then drop 1 (dataBuffer m) ++ [x] else dataBuffer m ++ [x] in
  let m := {| nClusters := nClusters m; dataBuffer := buf; clusterCenters := clusterCenters m;
              clusterSemantics := clusterSemantics m; isFitted := isFitted m |} in
  if negb (isFitted m) || (length (clusterCenters m) =? 0)%nat then m else
  let cid := Predict m x in
  if (cid <? 0)%Z || (Z.of_nat (length (clusterCenters m)) <=? cid)%Z then m else
  let eta := f64_lit 5 100 in
  {| nClusters := nClusters m; dataBuffer := dataBuffer m;
     clusterCenters := alter (fun c => fv_map2 (fun c x => fadd c (fmul eta (fsub x c))) c x)
                         (Z.to_nat cid) (clusterCenters m);
     clusterSemantics := clusterSemantics m; isFitted := isFitted m |}.

(** One pass of [kmeans] over the data: the sums and the counts of the clusters. *)
Definition kmeans_sums (k : nat) (data : list featureVector) (assign : list nat) : list featureVector * list Z :=
  foldl (fun '(sums, counts) '(x, cid) => (alter (fun s => fv_map2 fadd s x) cid sums, alter Z.succ cid counts))
    (replicate k fv_zero, replicate k 0%Z) (zip data assign).

Definition kmeans_centers (centers sums : list featureVector) (counts : list Z) : list featureVector :=
  zip_with (fun c '(s, n) => if (n =? 0)%Z then c else fv_map (fun s => fdiv s (f64_of_Z n)) s)
    centers (zip sums counts).

(** The loop over [t], with [left] turns to go. *)
Fixpoint kmeans_loop (data : list featureVector) (k : nat) (left t : nat)
    (centers : list featureVector) (assign : list nat) : list featureVector :=
  match left with
  | O => centers
  | S left' =>
      let assign' := (fun x => nearest x centers) <$> data in
      let changed := negb (bool_decide (assign = assign')) in
      if negb changed && (0 <? t)%nat then centers else
      let '(sums, counts) := kmeans_sums k data assign' in
      kmeans_loop data k left' (S t) (kmeans_centers centers sums counts) assign'
  end.

Definition kmeans (data : list featureVector) (k : Z) (iter : nat) : list featureVector :=
  if (length data =? 0)%nat || (k <=? 0)%Z then [] else
  let k := if (Z.of_nat (length data) <? k)%Z then length data else Z.to_nat k in
  kmeans_loop data k iter 0 (take k data) (replicate (length data) 0%nat).

(** The index of the first largest entry [f] of the centres. *)
Fixpoint max_go (best : nat) (bestV : float64) (i : nat) (vs : list float64) : nat :=
  match vs with
  | [] => best
  | v :: vs' => if fltb bestV v then max_go i v (S i) vs' else max_go best bestV (S i) vs'
  end.
Definition max_index (vs : list float64) : nat :=
  match vs with [] => 0%nat | v :: vs' => max_go 0 v 1 vs' end.

(** The tags in the order the source tests them, each with the feature it stands for. *)
Definition tag_features : list (nat * string) :=
  [(2, "cpu_heavy"); (1, "needs_higher_priority"); (0, "interactive");
   (4, "cache_unfriendly"); (5, "numa_unfriendly"); (3, "scheduling_latency")]%nat.

Definition cluster_tags (centers : list featureVector) (i : nat) : list string :=
  let maxIdx f := max_index ((fun c => fv_get c f) <$> centers) in
  let tags := snd <$> filter (fun ft => maxIdx ft.1 = i) tag_features in
  if decide (tags = []) then ["balanced"] else tags.

Definition inferSemantics (centers : list featureVector) : gmap Z (list string) :=
  list_to_map ((fun i => (Z.of_nat i, cluster_tags centers i)) <$> seq 0 (length centers)).

Definition SnapshotAndRelabel (m : adaptiveClusteringModel) : adaptiveClusteringModel :=
  if (length (dataBuffer m) <? 2)%nat then m else
  let k := if (Z.of_nat (length (dataBuffer m)) <? nClusters m)%Z
           then Z.of_nat (length (dataBuffer m)) else nClusters m in
  if (k <=? 0)%Z then m else
  let centers := kmeans (dataBuffer m) k 10 in
  if (length centers =? 0)%nat then m else
  {| nClusters := nClusters m; dataBuffer := dataBuffer m; clusterCenters := centers;
     clusterSemantics := inferSemantics centers; isFitted := true |}.

(** ** Tiers are summaries of consecutive blocks *)

(** Reference definitions: the summaries of the full blocks of [n] consecutive items,
    the items after the last full block, the last [k] items. *)
Definition blocks (n : nat) (l : list tieredSummary) : list tieredSummary :=
  (fun i => summarizeTiered (take n (drop (i * n) l))) <$> seq 0 (length l / n).
Definition rest (n : nat) (l : list tieredSummary) : list tieredSummary := drop (length l / n * n) l.
Definition lastn {A} (k : nat) (l : list A) : list A := drop (length l - k) l.

Lemma lastn_append k items item :
  (0 < k)%nat -> appendBoundedSummary (lastn k items) item k = lastn k (items ++ [item]).
Proof.
  intros Hk. unfold appendBoundedSummary, lastn. rewrite length_drop, length_app. cbn [length].
  destruct (Nat.leb_spec k (length items - (length items - k))) as [H|H].
  - rewrite drop_drop. replace (length items - k + 1)%nat with (length items + 1 - k)%nat by lia.
    rewrite drop_app_le by lia. done.
  - replace (length items - k)%nat with 0%nat by lia. replace (length items + 1 - k)%nat with 0%nat by lia. done.
Qed.

Lemma length_rest n l : (0 < n)%nat -> length (rest n l) = (length l mod n)%nat.
Proof. intros Hn. unfold rest. rewrite length_drop. pose proof (Nat.div_mod_eq (length l) n). lia. Qed.

(** One more item either completes a block or stays pending. *)
Lemma blocks_snoc n l x :
  (0 < n)%nat ->
  let p := rest n l ++ [x] in
  blocks n (l ++ [x]) = (if (n <=? length p)%nat then blocks n l ++ [summarizeTiered p] else blocks n l) /\
  rest n (l ++ [x]) = (if (n <=? length p)%nat then [] else p).
Proof.
  intros Hn p. unfold p. rewrite length_app, length_rest by done. cbn [length].
  pose proof (Nat.mod_upper_bound (length l) n ltac:(lia)) as Hm.
  pose proof (Nat.div_mod_eq (length l) n) as Hdm. set (q := (length l / n)%nat) in *.
  assert (forall i, (i < q)%nat -> take n (drop (i * n) (l ++ [x])) = take n (drop (i * n) l)) as Hsame.
  { intros i Hi. assert (i * n + n <= q * n)%nat by nia. rewrite drop_app_le by lia. rewrite take_app_le; [done|].
    rewrite length_drop. lia. }
  destruct (Nat.leb_spec n (length l mod n + 1)) as [H|H].
  - assert ((length (l ++ [x])) / n = S q)%nat as Hq.
    { rewrite length_app. cbn [length]. symmetry. apply (Nat.div_unique _ _ _ 0); [lia|]. lia. }
    split.
    + unfold blocks at 1. rewrite Hq, seq_S, fmap_app. f_equal.
      * apply list_fmap_ext. intros i j Hj%lookup_seq. f_equal. apply Hsame. lia.
      * cbn. f_equal. f_equal. unfold rest. fold q. rewrite drop_app_le by lia. apply take_ge.
        rewrite length_app, length_drop. cbn [length]. lia.
    + unfold rest at 1. rewrite Hq. apply drop_ge. rewrite length_app. cbn [length]. lia.
  - assert ((length (l ++ [x])) / n = q)%nat as Hq.
    { rewrite length_app. cbn [length]. symmetry. apply (Nat.div_unique _ _ _ (length l mod n + 1)); lia. }
    split.
    + unfold blocks at 1. rewrite Hq. apply list_fmap_ext. intros i j Hj%lookup_seq. f_equal. apply Hsame. lia.
    + unfold rest. rewrite Hq. fold q. by rewrite drop_app_le by lia.
Qed.

Definition push_all (samples : list (featureVector * Z)) : tieredBuffer :=
  foldl (fun b '(v, ts) => Push b v ts) bufferZero samples.

(** The buffer a list of samples should leave. *)
Definition tiers_of (samples : list (featureVector * Z)) : tieredBuffer :=
  let s0 := (fun '(v, ts) => rawSample v ts) <$> samples in
  let s1 := blocks 2 s0 in
  let s2 := blocks 5 s1 in
  let s3 := blocks 6 s2 in
  {| raw := lastn 10 s0; tier1 := lastn 10 s1; tier2 := lastn 6 s2; tier3 := lastn 6 s3;
     pending1 := rest 2 s0; pending2 := rest 5 s1; pending3 := rest 6 s2 |}.

Lemma rest_not_full n l : (0 < n)%nat -> (n <=? length (rest n l))%nat = false.
Proof. intros Hn. rewrite length_rest by done. apply Nat.leb_gt, Nat.mod_upper_bound. lia. Qed.

Lemma push_tiers_of samples v ts : Push (tiers_of samples) v ts = tiers_of (samples ++ [(v, ts)]).
Proof.
  unfold tiers_of. rewrite fmap_app. cbn [fmap list_fmap]. set (s0 := _ <$> samples). set (x := rawSample v ts).
  unfold Push. cbn [raw tier1 tier2 tier3 pending1 pending2 pending3]. fold x.
  destruct (blocks_snoc 2 s0 x ltac:(lia)) as [B1 R1]. rewrite B1, R1, (lastn_append 10 s0) by lia.
  destruct (2 <=? length (rest 2 s0 ++ [x]))%nat.
  2: { by rewrite !rest_not_full by lia. }
  set (x1 := summarizeTiered _). destruct (blocks_snoc 5 (blocks 2 s0) x1 ltac:(lia)) as [B2 R2].
  rewrite B2, R2, (lastn_append 10 (blocks 2 s0)) by lia.
  destruct (5 <=? length (rest 5 (blocks 2 s0) ++ [x1]))%nat.
  2: { by rewrite !rest_not_full by lia. }
  set (x2 := summarizeTiered (rest 5 _ ++ _)).
  destruct (blocks_snoc 6 (blocks 5 (blocks 2 s0)) x2 ltac:(lia)) as [B3 R3].
  rewrite B3, R3, (lastn_append 6 (blocks 5 (blocks 2 s0))) by lia.
  destruct (6 <=? _)%nat; [|done]. by rewrite (lastn_append 6 (blocks 6 _)) by lia.
Qed.

(** Remark (equivalence): the tiers kept incrementally by [Push] hold exactly the last ten
    samples, the last ten summaries of consecutive pairs, the last six summaries of five
    consecutive pairs and the last six summaries of six of those, and what is pending is
    what follows the last full block; no sample is lost or counted twice. *)
Theorem tiers_are_block_summaries samples : push_all samples = tiers_of samples.
Proof.
  unfold push_all. induction samples as [|[v ts] samples IH] using rev_ind; [done|].
  by rewrite foldl_snoc, IH, push_tiers_of.
Qed.

(** ** The nearest centre *)

(** [c] at index [i] is nearest to [x]: no centre at a distance below [MaxFloat64] is
    closer, and those before it are farther. *)
Definition is_nearest (x : featureVector) (centers : list featureVector) (i : nat) : Prop :=
  exists c, centers !! i = Some c /\
  forall j c', centers !! j = Some c' -> fltb (squaredDistance x c') MaxFloat64 = true ->
    fltb (squaredDistance x c') (squaredDistance x c) = false /\
    ((j < i)%nat -> fltb (squaredDistance x c) (squaredDistance x c') = true).

Lemma nearest_go_spec x done best bd cs :
  (best = 0%nat /\ bd = MaxFloat64 \/
   fltb bd MaxFloat64 = true /\ exists c, done !! best = Some c /\ squaredDistance x c = bd) ->
  (forall j c', done !! j = Some c' -> fltb (squaredDistance x c') MaxFloat64 = true ->
     fltb (squaredDistance x c') bd = false /\ ((j < best)%nat -> fltb bd (squaredDistance x c') = true)) ->
  done ++ cs <> [] ->
  is_nearest x (done ++ cs) (nearest_go x best bd (length done) cs).
Proof.
  revert done best bd. induction cs as [|c cs IH]; intros done best bd Hb Hinv Hne; cbn [nearest_go].
  - rewrite app_nil_r in *. destruct Hb as [[-> ->]|[Hlt (c & Hc & <-)]].
    + destruct done as [|c done]; [done|]. exists c. split; [done|]. intros j c' Hj Hlt.
      destruct (Hinv j c' Hj Hlt) as [Hf _]. congruence.
    + exists c. split; [done|]. exact Hinv.
  - rewrite cons_middle, app_assoc.
    replace (S (length done)) with (length (done ++ [c])) by (rewrite length_app; cbn; lia).
    assert (forall j c', (done ++ [c]) !! j = Some c' -> done !! j = Some c' \/ j = length done /\ c' = c) as Hsplit.
    { intros j c' Hj. apply lookup_app_Some in Hj as [Hj|[Hge Hj]]; [by left|]. right.
      apply list_lookup_singleton_Some in Hj as [Hj ->]. split; [lia|done]. }
    destruct (fltb (squaredDistance x c) bd) eqn:Hd; apply IH; [| |by destruct done| | |by destruct done].
    + right. split.
      * destruct Hb as [[_ ->]|[Hlt _]]; [done|]. by eapply fltb_trans.
      * exists c. split; [|done]. apply lookup_app_Some. right. split; [lia|]. by rewrite Nat.sub_diag.
    + intros j c' Hj Hlt. destruct (Hsplit j c' Hj) as [Hj'|[-> ->]].
      * destruct (Hinv j c' Hj' Hlt) as [Hf _].
        assert (fltb (squaredDistance x c) (squaredDistance x c') = true) as Hcc.
        { eapply fltb_weak; [exact Hd|exact Hf|]. by destruct (squaredDistance x c'). }
        split; [by apply fltb_asym|done].
      * split; [apply fltb_irrefl|lia].
    + destruct Hb as [Hb|[Hlt (c0 & Hc0 & Hd0)]]; [by left|right]. split; [done|]. exists c0.
      split; [by apply lookup_app_l_Some|done].
    + intros j c' Hj Hlt. destruct (Hsplit j c' Hj) as [Hj'|[-> ->]]; [by apply Hinv|].
      split; [done|]. intros Hlb. destruct Hb as [[-> _]|[_ (c0 & Hc0 & _)]]; [lia|].
      apply lookup_lt_Some in Hc0. lia.
Qed.

Lemma nearest_spec x centers : centers <> [] -> is_nearest x centers (nearest x centers).
Proof.
  intros Hne. apply (nearest_go_spec x [] 0 MaxFloat64 centers); [by left|by intros j c' Hj|done].
Qed.

Lemma nearest_lt x centers : centers <> [] -> (nearest x centers < length centers)%nat.
Proof. intros Hne. destruct (nearest_spec x centers Hne) as (c & Hc & _). by apply lookup_lt_Some in Hc. Qed.

Lemma Predict_fitted m x :
  isFitted m = true -> clusterCenters m <> [] -> Predict m x = Z.of_nat (nearest x (clusterCenters m)).
Proof. intros Hf Hc. unfold Predict. rewrite Hf. by destruct (clusterCenters m). Qed.

(** Remark (functional): [Predict] of a fitted model is the index of a centre, the first one
    with the least squared distance to the vector, among those whose distance a
    [float64] can tell from infinity. *)
Theorem predict_nearest m x :
  isFitted m = true -> clusterCenters m <> [] ->
  exists i, Predict m x = Z.of_nat i /\ is_nearest x (clusterCenters m) i.
Proof. intros Hf Hc. rewrite Predict_fitted by done. eauto using nearest_spec. Qed.

(** ** Centres *)

Lemma length_kmeans_sums k data assign :
  length (kmeans_sums k data assign).1 = k /\ length (kmeans_sums k data assign).2 = k.
Proof.
  unfold kmeans_sums. induction (zip data assign) as [|[x cid] l IH] using rev_ind.
  - cbn. by rewrite !length_replicate.
  - rewrite foldl_snoc. destruct (foldl _ _ l) as [sums counts]. cbn [fst snd] in *. by rewrite !length_alter.
Qed.

Lemma length_kmeans_loop data k left t centers assign :
  length centers = k -> length (kmeans_loop data k left t centers assign) = k.
Proof.
  revert t centers assign. induction left as [|left IH]; intros t centers assign Hk; [done|]. cbn [kmeans_loop].
  destruct (negb _ && _); [done|].
  destruct (length_kmeans_sums k data ((fun x => nearest x centers) <$> data)) as [H1 H2].
  destruct (kmeans_sums _ _ _) as [sums counts]. apply IH. unfold kmeans_centers.
  cbn [fst snd] in *. rewrite length_zip_with, length_zip_with. lia.
Qed.

(** [kmeans] returns as many centres as it is asked for and there are points. *)
Lemma length_kmeans data k iter : length (kmeans data k iter) = Z.to_nat (Z.min k (Z.of_nat (length data))).
Proof.
  unfold kmeans. destruct (Nat.eqb_spec (length data) 0) as [H0|H0]; [rewrite H0; cbn; lia|].
  destruct (Z.leb_spec k 0) as [Hk|Hk]; [cbn; lia|]. cbn [orb].
  rewrite length_kmeans_loop; [destruct (Z.ltb_spec (Z.of_nat (length data)) k); lia|].
  rewrite length_take. destruct (Z.ltb_spec (Z.of_nat (length data)) k); lia.
Qed.

(** ** Labels *)

Lemma max_go_spec done best bv vs :
  done !! best = Some bv -> (forall w, w ∈ done -> fltb bv w = false) ->
  exists v, (done ++ vs) !! max_go best bv (length done) vs = Some v /\
  forall w, w ∈ done ++ vs -> fltb v w = false.
Proof.
  revert done best bv. induction vs as [|v vs IH]; intros done best bv Hb Hinv; cbn [max_go].
  - rewrite app_nil_r. eauto.
  - rewrite cons_middle, app_assoc.
    replace (S (length done)) with (length (done ++ [v])) by (rewrite length_app; cbn; lia).
    destruct (fltb bv v) eqn:Hv; apply IH.
    + apply lookup_app_Some. right. split; [lia|]. by rewrite Nat.sub_diag.
    + intros w [Hw| ->%list_elem_of_singleton]%elem_of_app; [|apply fltb_irrefl].
      apply not_true_iff_false. intros Hvw. specialize (Hinv w Hw). rewrite (fltb_trans _ _ _ Hv Hvw) in Hinv. done.
    + by apply lookup_app_l_Some.
    + intros w [Hw| ->%list_elem_of_singleton]%elem_of_app; auto.
Qed.

Lemma max_index_spec vs : vs <> [] -> exists v, vs !! max_index vs = Some v /\ forall w, w ∈ vs -> fltb v w = false.
Proof.
  destruct vs as [|v vs]; [done|]. intros _. apply (max_go_spec [v] 0 v vs); [done|].
  intros w ->%list_elem_of_singleton. apply fltb_irrefl.
Qed.

Definition known_tags : list string := snd <$> tag_features.

(** Labels of a cluster: some tag, none twice, "balanced" only alone. *)
Definition labels_ok (tags : list string) : Prop :=
  tags = ["balanced"] \/ tags <> [] /\ NoDup tags /\ tags ⊆ known_tags.

#[global] Instance labels_ok_dec tags : Decision (labels_ok tags).
Proof.
  unfold labels_ok. apply or_dec; [apply _|]. apply and_dec; [apply _|]. apply and_dec; [apply _|].
  destruct (decide (Forall (.∈ known_tags) tags)) as [H|H]; [left|right]; rewrite Forall_forall in H; set_solver.
Defined.

Lemma known_tags_NoDup : NoDup known_tags.
Proof. by apply (bool_decide_unpack _). Qed.

Lemma cluster_tags_ok centers i : labels_ok (cluster_tags centers i).
Proof.
  unfold cluster_tags. case_decide as H; [by left|right]. split_and!; [done| |].
  - eapply sublist_NoDup; [apply known_tags_NoDup|apply fmap_sublist, sublist_filter].
  - intros t (ft & -> & [_ Hft]%list_elem_of_filter)%list_elem_of_fmap. unfold known_tags. by apply list_elem_of_fmap_2.
Qed.

(** The cluster that wins a tag is the one with the largest entry. *)
Definition wins (centers : list featureVector) (f i : nat) : Prop :=
  exists c, centers !! i = Some c /\ forall c', c' ∈ centers -> fltb (fv_get c f) (fv_get c' f) = false.

Lemma max_index_wins centers f :
  centers <> [] -> wins centers f (max_index ((fun c => fv_get c f) <$> centers)).
Proof.
  intros Hne. destruct (max_index_spec ((fun c => fv_get c f) <$> centers)) as (v & Hv & Hmax).
  { by destruct centers. }
  rewrite list_lookup_fmap in Hv. apply fmap_Some in Hv as (c & Hv & ->). exists c. split; [done|]. intros c' Hc'.
  apply Hmax. by apply (list_elem_of_fmap_2 (fun c => fv_get c f)).
Qed.

Lemma elem_of_cluster_tags centers f tag i :
  (f, tag) ∈ tag_features -> tag ∈ cluster_tags centers i <-> max_index ((fun c => fv_get c f) <$> centers) = i.
Proof.
  intros Hft. unfold cluster_tags. case_decide as H.
  - split.
    + intros ->%list_elem_of_singleton. exfalso. revert Hft. clear. unfold tag_features. set_solver.
    + intros Hi. exfalso. assert (tag ∈ @nil string) as []%not_elem_of_nil. rewrite <- H.
      apply list_elem_of_fmap. exists (f, tag). split; [done|]. apply list_elem_of_filter. by split.
  - rewrite list_elem_of_fmap. split.
    + intros ([f' tag'] & Heq & [Hi Hft']%list_elem_of_filter). cbn [fst snd] in *. subst tag'.
      replace f with f'; [done|]. revert Hft Hft'. clear. unfold tag_features.
      rewrite !elem_of_cons. set_solver.
    + intros Hi. exists (f, tag). split; [done|]. apply list_elem_of_filter. by split.
Qed.

Lemma inferSemantics_lookup centers i :
  inferSemantics centers !! Z.of_nat i = if decide (i < length centers)%nat then Some (cluster_tags centers i) else None.
Proof.
  unfold inferSemantics. set (l := _ <$> _).
  assert (NoDup l.*1) as Hnd.
  { unfold l. rewrite <- list_fmap_compose. apply NoDup_fmap_2; [intros ?? H; by apply Nat2Z.inj in H|apply NoDup_seq]. }
  case_decide as H.
  - apply elem_of_list_to_map; [done|]. unfold l. apply list_elem_of_fmap. exists i. split; [done|]. apply elem_of_seq. lia.
  - apply not_elem_of_list_to_map. unfold l. rewrite <- list_fmap_compose. intros (j & Hj & Hin)%list_elem_of_fmap.
    cbn in Hj. apply Nat2Z.inj in Hj as ->. apply elem_of_seq in Hin. lia.
Qed.

(** ** The model *)

(** What holds of the model at all times: a bounded buffer, and once fitted a centre and
    labels for each cluster. *)
Definition model_ok (m : adaptiveClusteringModel) : Prop :=
  (length (dataBuffer m) <= maxClusterBufferSamples)%nat /\
  (0 < nClusters m)%Z /\
  (isFitted m = true -> clusterCenters m <> []) /\
  (forall i tags, clusterSemantics m !! i = Some tags -> labels_ok tags) /\
  (isFitted m = true -> forall i, (i < length (clusterCenters m))%nat -> is_Some (clusterSemantics m !! Z.of_nat i)).

Lemma SnapshotAndRelabel_cases m :
  SnapshotAndRelabel m = m /\ ((length (dataBuffer m) < 2)%nat \/ (nClusters m <= 0)%Z) \/
  (2 <= length (dataBuffer m))%nat /\ (0 < nClusters m)%Z /\
  let centers := kmeans (dataBuffer m) (nClusters m) 10 in
  length centers = Z.to_nat (Z.min (nClusters m) (Z.of_nat (length (dataBuffer m)))) /\
  SnapshotAndRelabel m =
    {| nClusters := nClusters m; dataBuffer := dataBuffer m; clusterCenters := centers;
       clusterSemantics := inferSemantics centers; isFitted := true |}.
Proof.
  unfold SnapshotAndRelabel. destruct (Nat.ltb_spec (length (dataBuffer m)) 2) as [H2|H2]; [auto|].
  destruct (Z.ltb_spec (Z.of_nat (length (dataBuffer m))) (nClusters m)) as [Hk|Hk];
    (destruct (Z.leb_spec (nClusters m) 0) as [H0|H0]; [by left; split; [try done; rewrite (proj2 (Z.leb_le _ _)) by lia; done|right; lia]|]);
    rewrite ?(proj2 (Z.leb_gt _ _)) by lia.
  - right. split_and!; [done..|lia| |].
    + rewrite length_kmeans. lia.
    + replace (kmeans (dataBuffer m) (nClusters m) 10) with (kmeans (dataBuffer m) (Z.of_nat (length (dataBuffer m))) 10).
      2: { unfold kmeans. rewrite (proj2 (Z.ltb_ge _ _)) by lia. rewrite (proj2 (Z.ltb_lt _ _)) by lia.
           rewrite !(proj2 (Z.leb_gt _ _)) by lia. by rewrite Nat2Z.id. }
      destruct (Nat.eqb_spec (length (kmeans (dataBuffer m) (Z.of_nat (length (dataBuffer m))) 10)) 0) as [E|E]; [|done].
      rewrite length_kmeans in E. lia.
  - right. split_and!; [done..| |].
    + rewrite length_kmeans. lia.
    + destruct (Nat.eqb_spec (length (kmeans (dataBuffer m) (nClusters m) 10)) 0) as [E|E]; [|done].
      rewrite length_kmeans in E. lia.
Qed.

Lemma newAdaptiveClusteringModel_ok n : (0 < n)%Z -> model_ok (newAdaptiveClusteringModel n).
Proof. intros Hn. split_and!; cbn; [lia|lia|done|by intros i tags ?|done]. Qed.

Lemma SnapshotAndRelabel_ok m : model_ok m -> model_ok (SnapshotAndRelabel m).
Proof.
  intros (H1 & H2 & H3 & H4 & H5).
  destruct (SnapshotAndRelabel_cases m) as [[-> _]|(Hl & Hn & Hc & ->)]; [by split_and!|].
  split_and!; cbn [dataBuffer nClusters isFitted clusterCenters clusterSemantics]; [done..| | |].
  - intros _ E. rewrite E in Hc. cbn in Hc. lia.
  - intros i tags Hi. unfold inferSemantics in Hi. apply elem_of_list_to_map_2 in Hi.
    apply list_elem_of_fmap in Hi as (j & [= -> ->] & _). apply cluster_tags_ok.
  - intros _ i Hi. rewrite inferSemantics_lookup, decide_True by done. eauto.
Qed.

Lemma PartialFit_ok m x : model_ok m -> model_ok (PartialFit m x).
Proof.
  intros (H1 & H2 & H3 & H4 & H5).
  assert (forall cs, (isFitted m = true -> cs <> []) -> length cs = length (clusterCenters m) ->
    model_ok {| nClusters := nClusters m;
                dataBuffer := if (maxClusterBufferSamples <=? length (dataBuffer m))%nat
                              then drop 1 (dataBuffer m) ++ [x] else dataBuffer m ++ [x];
                clusterCenters := cs; clusterSemantics := clusterSemantics m; isFitted := isFitted m |}) as Hok.
  { intros cs Hcs Hlen. split_and!; cbn [dataBuffer nClusters isFitted clusterCenters clusterSemantics]; [|done..|by rewrite Hlen].
    destruct (Nat.leb_spec maxClusterBufferSamples (length (dataBuffer m))); rewrite length_app, ?length_drop; cbn [length];
      unfold maxClusterBufferSamples in *; lia. }
  unfold PartialFit. cbn [nClusters dataBuffer clusterCenters clusterSemantics isFitted].
  destruct (negb _ || _); [by apply Hok|]. destruct (_ || _)%bool; [by apply Hok|].
  apply Hok; [|by rewrite length_alter]. intros Hf E. apply (f_equal length) in E. rewrite length_alter in E.
  apply H3 in Hf. by destruct (clusterCenters m).
Qed.

Lemma PartialFit_fitted m x : isFitted (PartialFit m x) = isFitted m.
Proof. unfold PartialFit. by repeat case_match. Qed.

Lemma SnapshotAndRelabel_fitted m : isFitted m = true -> isFitted (SnapshotAndRelabel m) = true.
Proof. intros Hf. destruct (SnapshotAndRelabel_cases m) as [[-> _]|(? & ? & _ & ->)]; done. Qed.

Lemma PartialFit_buffer m x :
  dataBuffer (PartialFit m x) = lastn maxClusterBufferSamples (dataBuffer m ++ [x]) \/
  (maxClusterBufferSamples < length (dataBuffer m))%nat.
Proof.
  assert (dataBuffer (PartialFit m x) = if (maxClusterBufferSamples <=? length (dataBuffer m))%nat
            then drop 1 (dataBuffer m) ++ [x] else dataBuffer m ++ [x]) as ->.
  { unfold PartialFit. cbn [isFitted clusterCenters]. by repeat case_match. }
  unfold lastn. rewrite length_app. cbn [length]. set (n := maxClusterBufferSamples).
  destruct (Nat.leb_spec n (length (dataBuffer m))) as [H|H].
  - destruct (decide (length (dataBuffer m) = n)) as [->|Hne]; [left|right; lia].
    assert (n + 1 - n = 1)%nat as -> by lia. rewrite drop_app_le; [done|]. unfold n, maxClusterBufferSamples in H. lia.
  - left. by assert (length (dataBuffer m) + 1 - n = 0)%nat as -> by lia.
Qed.

(** The labels a prediction refers to exist. *)
Lemma Predict_labels m x :
  model_ok m ->
  if isFitted m then (0 <= Predict m x)%Z /\ exists tags, clusterSemantics m !! Predict m x = Some tags /\ labels_ok tags
  else Predict m x = (-1)%Z.
Proof.
  intros (H1 & H2 & H3 & H4 & H5). destruct (isFitted m) eqn:Hf; [|unfold Predict; by rewrite Hf].
  rewrite Predict_fitted by auto. split; [lia|].
  destruct (H5 eq_refl (nearest x (clusterCenters m))) as [tags Ht]; [by apply nearest_lt, H3|]. eauto.
Qed.

(** Remark (functional): a snapshot of a model with at least two samples has as many centres
    as clusters were asked for (or samples exist), and labels every one of them: each
    known tag goes to exactly one cluster, whose centre is largest in the feature of that
    tag, and a cluster that wins no tag is "balanced". *)
Theorem snapshot_labels_clusters m :
  (2 <= length (dataBuffer m))%nat -> (0 < nClusters m)%Z ->
  let m' := SnapshotAndRelabel m in
  let k := Z.to_nat (Z.min (nClusters m) (Z.of_nat (length (dataBuffer m)))) in
  let labels i := default [] (clusterSemantics m' !! Z.of_nat i) in
  isFitted m' = true /\ length (clusterCenters m') = k /\ dataBuffer m' = dataBuffer m /\
  (forall i, (i < k)%nat -> labels_ok (labels i)) /\
  forall f tag, (f, tag) ∈ tag_features ->
    exists i, (i < k)%nat /\ wins (clusterCenters m') f i /\ forall j, (j < k)%nat -> tag ∈ labels j <-> j = i.
Proof.
  intros Hlen Hn. cbn zeta.
  destruct (SnapshotAndRelabel_cases m) as [[_ [?|?]]|(_ & _ & Hc & Heq)]; [lia..|]. cbn zeta in Hc.
  set (centers := kmeans _ _ _) in *. rewrite Heq. cbn [isFitted clusterCenters dataBuffer clusterSemantics].
  assert (centers <> []) as Hne by (intros E; rewrite E in Hc; cbn in Hc; lia).
  split_and!; [done..| |].
  - intros i Hi. rewrite inferSemantics_lookup, decide_True by (rewrite Hc; lia). apply cluster_tags_ok.
  - intros f tag Hft. pose proof (max_index_wins centers f Hne) as Hw.
    set (i := max_index _) in *. exists i. split; [|split; [done|]].
    + destruct Hw as (c & Hi%lookup_lt_Some & _). lia.
    + intros j Hj. rewrite inferSemantics_lookup, decide_True by (rewrite Hc; lia). cbn [default].
      rewrite (elem_of_cluster_tags centers f tag j Hft). unfold i. naive_solver.
Qed.

(** Two samples, one with a larger CPU time per run, the other with more waiting. *)
Definition fv_of (a b c d e g : Z) : featureVector :=
  FV (f64_of_Z a) (f64_of_Z b) (f64_of_Z c) (f64_of_Z d) (f64_of_Z e) (f64_of_Z g).
Definition two_samples : adaptiveClusteringModel :=
  PartialFit (PartialFit (newAdaptiveClusteringModel 5) (fv_of 1 1 7 1 0 0)) (fv_of 1 1 1 5 0 0).

Lemma predict_nearest_witness :
  let x := fv_of 1 1 2 3 0 0 in
  Predict (SnapshotAndRelabel two_samples) x = 1%Z /\
  exists i, Predict (SnapshotAndRelabel two_samples) x = Z.of_nat i /\
    is_nearest x (clusterCenters (SnapshotAndRelabel two_samples)) i.
Proof. intros x. split; [by vm_compute|]. apply predict_nearest; [by vm_compute|by vm_compute]. Defined.

Lemma snapshot_labels_clusters_witness :
  clusterSemantics (SnapshotAndRelabel two_samples) !! 1%Z = Some ["scheduling_latency"] /\
  exists i, (i < 2)%nat /\ wins (clusterCenters (SnapshotAndRelabel two_samples)) 2 i.
Proof.
  split; [by vm_compute|].
  destruct (snapshot_labels_clusters two_samples ltac:(vm_compute; reflexivity) ltac:(vm_compute; reflexivity)) as (_ & _ & _ & _ & H).
  destruct (H 2%nat "cpu_heavy") as (i & Hi & Hw & _); [by apply list_elem_of_here|]. exists i. split; [exact Hi|exact Hw].
Defined.
