(* ===== verification/Classifier.v ===== *)
(** * The workload classifier of the manager

    src/api/manager/rest/classifier_engine.go, second half: the state of a pod with its
    phase ([podState]), tags and recommendations, and [AdaptiveClassifier], the table of
    pods with its clustering model.  A method that changes its receiver returns it.

    [AdaptiveClassifier] takes one lock for each operation, so a run is a sequence of
    operations.  The clock is an argument of [Ingest] (it is read twice).  The order in
    which Go ranges over the table is a parameter [range]; with it, every order
    [sort.Slice] may give to pods with equal time stamps is covered.

    The theorems: what a pod reports is well formed at all times
    ([classifier_reports_well_formed]); its phase is a function of its own samples only
    ([phase_follows_samples]); the table is bounded and evicts expired and oldest pods
    only ([ingest_evicts_only_stale]); [List] returns exactly the matching pods, in order
    ([list_classifications_spec]). *)

From stdpp Require Import base gmap strings list sorting.
From Stdlib Require Import ZArith Lia Ascii.
From S2P Require Import Prelude GoStrings GoSort GoFloat Clustering.
Open Scope go_scope.

(** ** Phases and tags *)

Inductive PodPhase := ColdStart | WarmingUp | Stable | Drifting | Transitioning.
#[global] Instance PodPhase_eq_dec : EqDecision PodPhase.
Proof. solve_decision. Defined.

(** The constants of the type *)
Definition phase_string (p : PodPhase) : string :=
  match p with
  | ColdStart => "cold_start" | WarmingUp => "warming_up" | Stable => "stable"
  | Drifting => "drifting" | Transitioning => "transitioning"
  end.

Definition driftThreshold : float64 := f64_lit 15 10.
Definition driftConfirmThreshold : Z := 3.
Definition warmupMinSamples : Z := 10.
Definition stableMinSamples : Z := 30.
Definition classifierPodTTLSeconds : Z := 1800.
Definition classifierMaxPods : Z := 20000.
Definition cpuHeavyPerRunNS : float64 := f64_of_Z 10000000.
Definition half : float64 := f64_lit 5 10.

Definition appendTag (tags : list string) (tag : string) : list string :=
  if decide (tag ∈ tags) then tags else tags ++ [tag].

Definition removeTag (tags : list string) (tag : string) : list string := filter (fun t => t <> tag) tags.

(** The heuristics of [applyProfileTags] in the order of the source: the feature, its
    threshold and the tag. *)
Definition profile_rules : list (nat * float64 * string) :=
  [(2, cpuHeavyPerRunNS, "cpu_heavy"); (0, half, "interactive"); (1, half, "needs_higher_priority");
   (3, half, "scheduling_latency"); (4, half, "cache_unfriendly"); (5, half, "numa_unfriendly")]%nat.

Definition applyProfileTags (clusterTags : list string) (x : featureVector) : list string :=
  let tags := foldl (fun tags '(f, limit, tag) => if fleb limit (fv_get x f) then appendTag tags tag else tags)
                clusterTags profile_rules in
  let tags := if decide (tags = []) then tags else removeTag tags "balanced" in
  if decide (tags = []) then ["balanced"] else tags.

(** ** The state of a pod *)

Record podState := {
  namespace : string;
  pod : string;
  node : string;
  ewma : ewmaState;
  buffer : tieredBuffer;
  phase : PodPhase;
  currentCluster : Z;
  previousCluster : Z;
  driftConfirmed : Z;
  lastDriftScore : float64;
  currentTypes : list string;
  previousTypes : list string;
  lastTimestamp : Z;
}.

Definition newPodState (ns p : string) : podState :=
  {| namespace := ns; pod := p; node := ""; ewma := ewmaZero; buffer := bufferZero; phase := ColdStart;
     currentCluster := -1; previousCluster := -1; driftConfirmed := 0; lastDriftScore := f64_zero;
     currentTypes := ["collecting"]; previousTypes := []; lastTimestamp := 0 |}.

(** The assignments of [Update] to its receiver. *)
Definition setSample (p : podState) (ts : Z) (n : string) (e : ewmaState) (b : tieredBuffer) : podState :=
  {| namespace := namespace p; pod := pod p; node := n; ewma := e; buffer := b; phase := phase p;
     currentCluster := currentCluster p; previousCluster := previousCluster p; driftConfirmed := driftConfirmed p;
     lastDriftScore := lastDriftScore p; currentTypes := currentTypes p; previousTypes := previousTypes p;
     lastTimestamp := ts |}.
Definition setPhase (p : podState) (ph : PodPhase) (confirmed : Z) : podState :=
  {| namespace := namespace p; pod := pod p; node := node p; ewma := ewma p; buffer := buffer p; phase := ph;
     currentCluster := currentCluster p; previousCluster := previousCluster p; driftConfirmed := confirmed;
     lastDriftScore := lastDriftScore p; currentTypes := currentTypes p; previousTypes := previousTypes p;
     lastTimestamp := lastTimestamp p |}.
Definition setDrift (p : podState) (d : float64) : podState :=
  {| namespace := namespace p; pod := pod p; node := node p; ewma := ewma p; buffer := buffer p; phase := phase p;
     currentCluster := currentCluster p; previousCluster := previousCluster p; driftConfirmed := driftConfirmed p;
     lastDriftScore := d; currentTypes := currentTypes p; previousTypes := previousTypes p;
     lastTimestamp := lastTimestamp p |}.
Definition setCurrent (p : podState) (cid : Z) (types : list string) : podState :=
  {| namespace := namespace p; pod := pod p; node := node p; ewma := ewma p; buffer := buffer p; phase := phase p;
     currentCluster := cid; previousCluster := previousCluster p; driftConfirmed := driftConfirmed p;
     lastDriftScore := lastDriftScore p; currentTypes := types; previousTypes := previousTypes p;
     lastTimestamp := lastTimestamp p |}.
Definition setPrevious (p : podState) (cid : Z) (types : list string) : podState :=
  {| namespace := namespace p; pod := pod p; node := node p; ewma := ewma p; buffer := buffer p; phase := phase p;
     currentCluster := currentCluster p; previousCluster := cid; driftConfirmed := driftConfirmed p;
     lastDriftScore := lastDriftScore p; currentTypes := currentTypes p; previousTypes := types;
     lastTimestamp := lastTimestamp p |}.

(** [model.clusterSemantics[cid]], [nil] when there is no entry *)
Definition semanticsOf (m : adaptiveClusteringModel) (cid : Z) : list string := default [] (clusterSemantics m !! cid).

(** [cid := model.Predict(norm); if cid >= 0 { ... }] *)
Definition assignCluster (p : podState) (m : adaptiveClusteringModel) (norm x : featureVector) : podState :=
  let cid := Predict m norm in
  if (0 <=? cid)%Z then setCurrent p cid (applyProfileTags (semanticsOf m cid) x) else p.

(** Below [stableMinSamples]: the cold start and the warm-up. *)
Definition updateWarmup (p : podState) (x norm : featureVector) (m : adaptiveClusteringModel) :
    podState * adaptiveClusteringModel :=
  let p := setPhase p WarmingUp (driftConfirmed p) in
  let m := if negb (isFitted m) && (stableMinSamples <=? Z.of_nat (length (dataBuffer m)))%Z
           then SnapshotAndRelabel m else m in
  let p := if isFitted m then assignCluster p m norm x
           else setCurrent p (currentCluster p) (applyProfileTags [] x) in
  (setDrift p (DriftScore (ewma p)), m).

(** From [stableMinSamples] on: stable, drifting or in transition. *)
Definition updateStable (p : podState) (x norm : featureVector) (m : adaptiveClusteringModel) :
    podState * adaptiveClusteringModel :=
  let m := if isFitted m then m else SnapshotAndRelabel m in
  let drift := DriftScore (ewma p) in
  let p := setDrift p drift in
  if fltb driftThreshold drift then
    let confirmed := (driftConfirmed p + 1)%Z in
    if (driftConfirmThreshold <=? confirmed)%Z then
      let p := setPrevious (setPhase p Transitioning confirmed) (currentCluster p)
                 (if (0 <=? currentCluster p)%Z then semanticsOf m (currentCluster p) else previousTypes p) in
      let m := SnapshotAndRelabel m in
      let newCID := Predict m norm in
      let p := setCurrent p newCID (applyProfileTags (semanticsOf m newCID) x) in
      (setPhase p Transitioning 0, m)
    else (setPhase p Drifting confirmed, m)
  else (assignCluster (setPhase p Stable 0) m norm x, m).

Definition Update (p : podState) (ts : Z) (nodeName : string) (x : featureVector) (m : adaptiveClusteringModel) :
    podState * adaptiveClusteringModel :=
  let norm := Normalize (ewma p) x in
  let p := setSample p ts nodeName (ewmaUpdate (ewma p) x) (Push (buffer p) x ts) in
  let m := PartialFit m norm in
  if (updateCount (ewma p) <? warmupMinSamples)%Z then
    let p := setCurrent (setPhase p ColdStart (driftConfirmed p)) (currentCluster p) ["collecting"] in
    (setDrift p (DriftScore (ewma p)), m)
  else if (updateCount (ewma p) <? stableMinSamples)%Z then updateWarmup p x norm m
  else updateStable p x norm m.

Definition Confidence (p : podState) : float64 :=
  match phase p with
  | ColdStart => f64_zero
  | WarmingUp =>
      let v := fadd (f64_lit 2 10)
                 (fmul (fdiv (f64_of_Z (updateCount (ewma p))) (f64_of_Z stableMinSamples)) (f64_lit 4 10)) in
      if fltb (f64_lit 6 10) v then f64_lit 6 10 else v
  | Drifting => f64_lit 55 100
  | Transitioning => f64_lit 7 10
  | Stable =>
      let v := fsub (f64_lit 95 100) (fmul (fMin (lastDriftScore p) (f64_lit 15 10)) (f64_lit 1 10)) in
      if fltb v (f64_lit 75 100) then f64_lit 75 100 else v
  end.

Record classifyRecommendation := { Action : string; PriorityClass : string; Reason : string }.

Definition Recommendation (p : podState) : classifyRecommendation :=
  let tagged t := bool_decide (t ∈ currentTypes p) in
  if tagged "cpu_heavy" then
    {| Action := "increase_cpu_limit"; PriorityClass := "default";
       Reason := "CPU per run exceeds heavy threshold; consider increasing CPU limit." |}
  else if tagged "needs_higher_priority" then
    {| Action := "raise_priority"; PriorityClass := "high-priority";
       Reason := "Involuntary context switch ratio remains high and indicates CPU contention." |}
  else if tagged "numa_unfriendly" || tagged "cache_unfriendly" then
    {| Action := "enable_cpu_pinning"; PriorityClass := "default";
       Reason := "Cross-core/NUMA migration pattern suggests topology-unaware placement." |}
  else
    {| Action := "keep_current"; PriorityClass := "default";
       Reason := "Current profile is stable and does not require immediate tuning." |}.

(** ** Responses *)

Record classifyResponseItem := {
  iPod : string;
  iNamespace : string;
  iNode : string;
  iPhase : PodPhase;
  iCurrentType : list string;
  iPreviousType : list string;
  iConfidence : float64;
  iDriftScore : float64;
  iDriftConfirmedPeriods : Z;
  iShortTerm : featureVector;
  iLongTermBaseline : featureVector;
  iRecommendation : classifyRecommendation;
  iUpdatedAt : Z;
}.

Definition buildClassifyItem (st : podState) : classifyResponseItem :=
  {| iPod := pod st; iNamespace := namespace st; iNode := node st; iPhase := phase st;
     iCurrentType := currentTypes st; iPreviousType := previousTypes st; iConfidence := Confidence st;
     iDriftScore := lastDriftScore st; iDriftConfirmedPeriods := driftConfirmed st;
     iShortTerm := shortMean (ewma st); iLongTermBaseline := longMean (ewma st);
     iRecommendation := Recommendation st; iUpdatedAt := lastTimestamp st |}.

(** ** The table of pods *)

Record AdaptiveClassifier := {
  pods : gmap string podState;
  model : adaptiveClusteringModel;
  podTTL : Z;
  maxPods : Z;
}.

Definition NewAdaptiveClassifier (n : Z) : AdaptiveClassifier :=
  {| pods := ∅; model := newAdaptiveClusteringModel (if (n <=? 0)%Z then 5 else n)%Z;
     podTTL := classifierPodTTLSeconds; maxPods := classifierMaxPods |}.

Record classificationInput := {
  inTimestamp : Z; inNamespace : string; inPod : string; inNode : string; inMetrics : metricsPayload;
}.

Definition podKey (ns p : string) : string := ns +:+ "/" +:+ p.

Section engine.
  Context (range : gmap string podState -> list (string * podState)).

Definition expired (ttl now : Z) (st : podState) : bool :=
  negb (lastTimestamp st <=? 0)%Z && (lastTimestamp st <? i64 (now - ttl))%Z.

Definition cleanupLocked (c : AdaptiveClassifier) (now : Z) : AdaptiveClassifier :=
  let ps := if (0 <? podTTL c)%Z
            then foldl (fun m '(key, st) => if expired (podTTL c) now st then delete key m else m) (pods c) (range (pods c))
            else pods c in
  let ps := if (maxPods c <=? 0)%Z || (Z.of_nat (size ps) <=? maxPods c)%Z then ps else
            let entries := sort_by (fun e => e.2) Z.le ((fun '(key, st) => (key, lastTimestamp st)) <$> range ps) in
            let toDelete := (Z.of_nat (length entries) - maxPods c)%Z in
            foldl (fun m '(key, _) => delete key m) ps (take (Z.to_nat toDelete) entries) in
  {| pods := ps; model := model c; podTTL := podTTL c; maxPods := maxPods c |}.

(** [now] and [now'] are the two readings of the clock. *)
Definition Ingest (c : AdaptiveClassifier) (input : classificationInput) (now now' : Z) :
    AdaptiveClassifier * classifyResponseItem :=
  let ts := if (inTimestamp input <=? 0)%Z then now else inTimestamp input in
  let c := cleanupLocked c now' in
  let key := podKey (inNamespace input) (inPod input) in
  let st := default (newPodState (inNamespace input) (inPod input)) (pods c !! key) in
  let '(st, m) := Update st ts (inNode input) (computeFeatures (inMetrics input)) (model c) in
  ({| pods := <[key := st]> (pods c); model := m; podTTL := podTTL c; maxPods := maxPods c |}, buildClassifyItem st).

Definition Get (c : AdaptiveClassifier) (ns p : string) : option classifyResponseItem :=
  buildClassifyItem <$> pods c !! podKey (TrimSpace ns) (TrimSpace p).

(** [strings.ToLower], as far as a comparison with a string of ASCII can tell: of the
    other code points only U+0130 and U+212A have a lower case in ASCII. *)
Definition lower_byte (a : ascii) : ascii :=
  let b := byte_of a in if ((65 <=? b) && (b <=? 90))%N then ascii_of_N (b + 32) else a.
Fixpoint ToLower (s : string) : string :=
  match s with
  | String "196" (String "176" s') => String "i" (ToLower s')
  | String "226" (String "132" (String "170" s')) => String "k" (ToLower s')
  | String a s' => String (lower_byte a) (ToLower s')
  | EmptyString => EmptyString
  end.

Definition containsTag (tags : list string) (target : string) : bool :=
  let target := TrimSpace (ToLower target) in existsb (fun t => bool_decide (ToLower t = target)) tags.

(** The filter of [List] *)
Definition selected (ns ph t : string) (st : podState) : bool :=
  (bool_decide (ns = "") || bool_decide (namespace st = ns)) &&
  (bool_decide (ph = "") || bool_decide (phase_string (phase st) = ph)) &&
  (bool_decide (t = "") || containsTag (currentTypes st) t).

(** The comparison of [List]: by namespace, then by pod. *)
Definition item_key (i : classifyResponseItem) : string * string := (iNamespace i, iPod i).
Definition key2_le : relation (string * string) :=
  fun a b => if decide (a.1 = b.1) then String.le a.2 b.2 else String.le a.1 b.1.

#[global] Instance key2_le_dec : RelDecision key2_le.
Proof. intros a b. unfold key2_le. case_decide; apply _. Defined.

#[global] Instance key2_le_po : PartialOrder key2_le.
Proof.
  split; [split|].
  - intros a. unfold key2_le. by rewrite decide_True.
  - intros [a1 a2] [b1 b2] [c1 c2]. unfold key2_le. cbn. repeat case_decide; subst; intros Hab Hbc; try done; try by etransitivity.
    assert (b1 = c1) by by apply (anti_symm String.le). done.
  - intros [a1 a2] [b1 b2]. unfold key2_le. cbn. repeat case_decide; subst; intros Hab Hbc; try done.
    + f_equal. by apply (anti_symm String.le).
    + assert (a1 = b1) by by apply (anti_symm String.le). done.
Qed.

#[global] Instance key2_le_total : Total key2_le.
Proof.
  intros [a1 a2] [b1 b2]. unfold key2_le. cbn. repeat case_decide; subst; try done; apply (total String.le).
Qed.

Definition List (c : AdaptiveClassifier) (ns ph t : string) : list classifyResponseItem :=
  sort_by item_key key2_le (buildClassifyItem <$> filter (fun st => selected ns ph t st = true) (snd <$> range (pods c))).
End engine.

(** ** Tags *)

Lemma appendTag_elem tags tag t : t ∈ appendTag tags tag <-> t ∈ tags \/ t = tag.
Proof. unfold appendTag. case_decide; [naive_solver|]. set_solver. Qed.

Lemma appendTag_NoDup tags tag : NoDup tags -> NoDup (appendTag tags tag).
Proof. intros H. unfold appendTag. case_decide; [done|]. apply NoDup_app. split_and!; [done|set_solver|apply NoDup_singleton]. Qed.

(** The tags the heuristics find in a sample. *)
Definition found (x : featureVector) (t : string) : Prop :=
  exists f limit, (f, limit, t) ∈ profile_rules /\ fleb limit (fv_get x f) = true.

Lemma profile_fold x rules tags :
  NoDup tags ->
  let out := foldl (fun tags '(f, limit, tag) => if fleb limit (fv_get x f) then appendTag tags tag else tags) tags rules in
  NoDup out /\ forall t, t ∈ out <-> t ∈ tags \/ exists f limit, (f, limit, t) ∈ rules /\ fleb limit (fv_get x f) = true.
Proof.
  intros Hnd. cbn zeta. induction rules as [|[[f limit] tag] rules IH] using rev_ind; [cbn; set_solver|].
  rewrite foldl_snoc. destruct IH as [IH1 IH2]. destruct (fleb limit (fv_get x f)) eqn:Hle.
  - split; [by apply appendTag_NoDup|]. intros t. rewrite appendTag_elem, IH2. setoid_rewrite elem_of_app.
    setoid_rewrite list_elem_of_singleton. clear IH1 IH2. split.
    + intros [[?|(f0 & l0 & ? & ?)]| ->]; eauto 8.
    + intros [?|(f0 & l0 & [?|?] & ?)]; simplify_eq; eauto 8.
  - split; [done|]. intros t. rewrite IH2. setoid_rewrite elem_of_app. setoid_rewrite list_elem_of_singleton.
    clear IH1 IH2. split.
    + intros [?|(f0 & l0 & ? & ?)]; eauto 8.
    + intros [?|(f0 & l0 & [?|?] & ?)]; simplify_eq; [eauto 8..|congruence].
Qed.

Lemma balanced_unknown : "balanced" ∉ known_tags.
Proof. by apply (bool_decide_unpack _). Qed.

Lemma found_known x t : found x t -> t ∈ known_tags.
Proof.
  intros (f & limit & Hin & _). revert Hin. unfold profile_rules, known_tags, tag_features. cbn. set_solver.
Qed.

(** What [applyProfileTags] returns: the tags of the cluster and those found in the
    sample, "balanced" only when there is neither. *)
Lemma applyProfileTags_spec tags x :
  tags = [] \/ labels_ok tags ->
  labels_ok (applyProfileTags tags x) /\
  forall t, t ∈ known_tags -> t ∈ applyProfileTags tags x <-> t ∈ tags \/ found x t.
Proof.
  intros Htags. assert (NoDup tags /\ forall t, t ∈ tags -> t = "balanced" \/ t ∈ known_tags) as [Hnd Hin].
  { destruct Htags as [->|[->|(_ & Hnd & Hsub)]].
    - split; [constructor|set_solver].
    - split; [apply NoDup_singleton|set_solver].
    - split; [done|]. intros t Ht. right. by apply Hsub. }
  pose proof balanced_unknown as Hbal.
  unfold applyProfileTags. destruct (profile_fold x profile_rules tags Hnd) as [Hnd' Hel].
  set (out := foldl _ _ _) in *. fold (found x) in Hel.
  assert (forall t, t ∈ (if decide (out = []) then out else removeTag out "balanced") <-> t ∈ out /\ t <> "balanced") as Hrem.
  { intros t. case_decide as Ho; [rewrite Ho; split; [by intros []%not_elem_of_nil|by intros [[]%not_elem_of_nil _]]|].
    unfold removeTag. rewrite list_elem_of_filter. clear. tauto. }
  assert (NoDup (if decide (out = []) then out else removeTag out "balanced")) as Hnd2.
  { case_decide; [done|]. by apply NoDup_filter. }
  set (out2 := if decide (out = []) then out else _) in *. case_decide as H2.
  - split; [by left|]. intros t Ht. rewrite H2 in Hrem. rewrite list_elem_of_singleton. split; [intros ->; done|].
    intros Ht'. exfalso. apply (not_elem_of_nil t), Hrem. split; [by apply Hel|]. intros ->. done.
  - split.
    + right. split_and!; [done..|]. intros t [Ht Hne]%Hrem. apply Hel in Ht as [Ht|Ht]; [|by eapply found_known].
      destruct (Hin t Ht); done.
    + intros t Ht. rewrite Hrem, Hel. split; [naive_solver|]. intros H. split; [done|]. intros ->. done.
Qed.

Lemma semanticsOf_ok m cid : model_ok m -> semanticsOf m cid = [] \/ labels_ok (semanticsOf m cid).
Proof.
  intros (_ & _ & _ & H & _). unfold semanticsOf. destruct (clusterSemantics m !! cid) as [tags|] eqn:E; [|by left].
  right. by apply (H cid).
Qed.

(** ** Phases as a function of the samples *)

(** The averages after a list of samples *)
Definition ewma_after (xs : list featureVector) : ewmaState := foldl ewmaUpdate ewmaZero xs.

(** How many of the last samples, newest first, were drifting in a row since the pod had
    [stableMinSamples]. *)
Fixpoint drift_run (newest_first : list featureVector) : nat :=
  match newest_first with
  | [] => 0
  | x :: older =>
      if (30 <=? length (x :: older))%nat && fltb driftThreshold (DriftScore (ewma_after (reverse (x :: older))))
      then S (drift_run older) else 0
  end.

(** The phase a list of samples calls for: every third drifting sample in a row is a
    transition. *)
Definition phase_of (xs : list featureVector) : PodPhase :=
  if (length xs <? 10)%nat then ColdStart
  else if (length xs <? 30)%nat then WarmingUp
  else let r := drift_run (reverse xs) in
       if (r =? 0)%nat then Stable else if (r mod 3 =? 0)%nat then Transitioning else Drifting.
Definition confirmed_of (xs : list featureVector) : Z := Z.of_nat (drift_run (reverse xs) mod 3).

Lemma ewma_after_snoc xs x : ewma_after (xs ++ [x]) = ewmaUpdate (ewma_after xs) x.
Proof. unfold ewma_after. by rewrite foldl_snoc. Qed.

Lemma ewma_after_count xs :
  updateCount (ewma_after xs) = Z.of_nat (length xs) /\ initialized (ewma_after xs) = negb (bool_decide (xs = [])).
Proof.
  induction xs as [|x xs [IH1 IH2]] using rev_ind; [done|]. rewrite ewma_after_snoc, length_app. unfold ewmaUpdate.
  rewrite IH2. destruct (decide (xs = [])) as [->|Hne].
  - done.
  - rewrite (bool_decide_eq_false_2 (xs = [])) by done. cbn [negb updateCount initialized length].
    split; [rewrite IH1; lia|]. rewrite bool_decide_eq_false_2; [done|]. by destruct xs.
Qed.

Lemma drift_run_short xs : (length xs < 30)%nat -> drift_run (reverse xs) = 0%nat.
Proof.
  rewrite <- (length_reverse xs). destruct (reverse xs) as [|x older]; [done|]. intros H.
  cbn [drift_run]. by rewrite (proj2 (Nat.leb_gt _ _)) by done.
Qed.

Lemma drift_run_snoc xs x :
  drift_run (reverse (xs ++ [x])) =
    if (30 <=? S (length xs))%nat && fltb driftThreshold (DriftScore (ewma_after (xs ++ [x])))
    then S (drift_run (reverse xs)) else 0%nat.
Proof.
  rewrite reverse_snoc. cbn [drift_run length]. rewrite length_reverse.
  replace (reverse (x :: reverse xs)) with (xs ++ [x]) by (rewrite reverse_cons, reverse_involutive; done). done.
Qed.

(** ** What holds of a pod that got the samples [xs] *)

Record pod_inv (xs : list featureVector) (p : podState) : Prop := {
  inv_ewma : ewma p = ewma_after xs;
  inv_phase : phase p = phase_of xs;
  inv_confirmed : driftConfirmed p = confirmed_of xs;
  inv_collecting : (length xs < 10)%nat -> currentTypes p = ["collecting"];
  inv_current : (10 <= length xs)%nat -> labels_ok (currentTypes p);
  inv_previous : previousTypes p = [] \/ labels_ok (previousTypes p);
  inv_buffer : exists l, l.*1 = xs /\ buffer p = tiers_of l;
}.

Lemma newPodState_inv ns p : pod_inv [] (newPodState ns p).
Proof. split; cbn; try done; [lia|by left|by exists []]. Qed.

(** [assignCluster] touches the cluster and the tags only, and leaves good tags. *)
Lemma assignCluster_spec p m norm x :
  model_ok m ->
  exists cid types, assignCluster p m norm x = setCurrent p cid types /\
  (types = currentTypes p /\ isFitted m = false \/ labels_ok types).
Proof.
  intros Hm. unfold assignCluster. pose proof (Predict_labels m norm Hm) as Hp.
  destruct (isFitted m).
  - destruct Hp as [H0 _]. rewrite (proj2 (Z.leb_le _ _)) by done. eexists _, _. split; [done|]. right.
    apply applyProfileTags_spec, semanticsOf_ok, Hm.
  - rewrite Hp. cbn. exists (currentCluster p), (currentTypes p). split; [by destruct p|]. by left.
Qed.

Lemma updateWarmup_spec p x norm m :
  model_ok m ->
  exists cid types, (updateWarmup p x norm m).1 =
    setDrift (setCurrent (setPhase p WarmingUp (driftConfirmed p)) cid types) (DriftScore (ewma p)) /\
  labels_ok types /\ model_ok (updateWarmup p x norm m).2.
Proof.
  intros Hm. unfold updateWarmup. set (m' := if _ && _ then _ else _).
  assert (model_ok m') as Hm' by (unfold m'; destruct (_ && _); [by apply SnapshotAndRelabel_ok|done]).
  destruct (isFitted m') eqn:Hf.
  - destruct (assignCluster_spec (setPhase p WarmingUp (driftConfirmed p)) m' norm x Hm') as (cid & types & -> & [[_ ?]|Ht]);
      [congruence|]. by exists cid, types.
  - eexists _, _. split; [done|]. split; [|done]. apply applyProfileTags_spec. by left.
Qed.

Lemma updateStable_spec p x norm m :
  model_ok m ->
  let d := DriftScore (ewma p) in
  let drift := fltb driftThreshold d in
  let third := (3 <=? driftConfirmed p + 1)%Z in
  exists cid types pcid ptypes,
  (updateStable p x norm m).1 =
    setPhase (setCurrent (setPrevious (setDrift p d) pcid ptypes) cid types)
      (if drift then if third then Transitioning else Drifting else Stable)
      (if drift then if third then 0 else driftConfirmed p + 1 else 0)%Z /\
  (types = currentTypes p \/ labels_ok types) /\
  (ptypes = previousTypes p \/ ptypes = [] \/ labels_ok ptypes) /\ model_ok (updateStable p x norm m).2.
Proof.
  intros Hm d drift third. unfold updateStable. set (m' := if isFitted m then _ else _).
  assert (model_ok m') as Hm' by (unfold m'; destruct (isFitted m); [done|by apply SnapshotAndRelabel_ok]).
  fold d drift. destruct drift.
  - cbn [driftConfirmed setDrift]. unfold driftConfirmThreshold. fold third. destruct third.
    + eexists _, _, _, _. split; [done|]. split; [|split; [|by apply SnapshotAndRelabel_ok]].
      * right. by apply applyProfileTags_spec, semanticsOf_ok, SnapshotAndRelabel_ok.
      * cbn [currentCluster previousTypes setPhase setDrift]. destruct (_ <=? _)%Z; [|by left].
        right. by apply semanticsOf_ok.
    + exists (currentCluster p), (currentTypes p), (previousCluster p), (previousTypes p). split; [by destruct p|auto].
  - destruct (assignCluster_spec (setPhase (setDrift p d) Stable 0) m' norm x Hm') as (cid & types & -> & Ht).
    exists cid, types, (previousCluster p), (previousTypes p). split; [by destruct p|]. cbn in Ht. naive_solver.
Qed.

Lemma buffer_inv xs p ts x :
  pod_inv xs p -> exists l, l.*1 = xs ++ [x] /\ Push (buffer p) x ts = tiers_of l.
Proof.
  intros Hp. destruct (inv_buffer _ _ Hp) as (l & Hl & ->). exists (l ++ [(x, ts)]).
  rewrite fmap_app, Hl, push_tiers_of. done.
Qed.

(** The next phase from the last. *)
Lemma phase_of_snoc_short xs x :
  (length xs < 29)%nat ->
  phase_of (xs ++ [x]) = (if (length xs <? 9)%nat then ColdStart else WarmingUp) /\ confirmed_of (xs ++ [x]) = 0%Z /\ confirmed_of xs = 0%Z.
Proof.
  intros Hl. unfold phase_of, confirmed_of. rewrite !drift_run_short by (rewrite ?length_app; cbn; lia).
  rewrite length_app. cbn [length]. split; [|done].
  destruct (Nat.ltb_spec (length xs) 9), (Nat.ltb_spec (length xs + 1) 10), (Nat.ltb_spec (length xs + 1) 30); try lia; done.
Qed.

Lemma phase_of_snoc_long xs x :
  (29 <= length xs)%nat ->
  let drift := fltb driftThreshold (DriftScore (ewma_after (xs ++ [x]))) in
  let third := (3 <=? confirmed_of xs + 1)%Z in
  phase_of (xs ++ [x]) = (if drift then if third then Transitioning else Drifting else Stable) /\
  confirmed_of (xs ++ [x]) = (if drift then if third then 0 else confirmed_of xs + 1 else 0)%Z.
Proof.
  intros Hl. cbn zeta. unfold phase_of, confirmed_of. rewrite drift_run_snoc, length_app. cbn [length].
  rewrite (proj2 (Nat.ltb_ge (length xs + 1) 10)), (proj2 (Nat.ltb_ge (length xs + 1) 30)), (proj2 (Nat.leb_le 30 (S (length xs)))) by lia.
  cbn [andb]. destruct (fltb driftThreshold _); [|done]. set (r := drift_run (reverse xs)). cbn [Nat.eqb].
  pose proof (Nat.mod_upper_bound r 3 ltac:(lia)). pose proof (Nat.div_mod_eq r 3).
  destruct (Z.leb_spec 3 (Z.of_nat (r mod 3) + 1)) as [H3|H3].
  - assert (S r mod 3 = 0)%nat as ->; [|done]. symmetry. apply (Nat.mod_unique _ _ (S (r / 3))); lia.
  - assert (S r mod 3 = S (r mod 3))%nat as ->; [|split; [done|lia]]. symmetry. apply (Nat.mod_unique _ _ (r / 3)); lia.
Qed.

Lemma Update_inv xs p ts n x m :
  pod_inv xs p -> model_ok m ->
  pod_inv (xs ++ [x]) (Update p ts n x m).1 /\ model_ok (Update p ts n x m).2 /\
  namespace (Update p ts n x m).1 = namespace p /\ pod (Update p ts n x m).1 = pod p /\
  node (Update p ts n x m).1 = n /\ lastTimestamp (Update p ts n x m).1 = ts.
Proof.
  intros Hp Hm. pose proof (buffer_inv xs p ts x Hp) as Hbuf. destruct Hp as [He Hph Hc H1 H2 H3 _].
  unfold Update. cbn [ewma setSample]. set (norm := Normalize _ _).
  pose proof (PartialFit_ok m norm Hm) as Hm'. set (m' := PartialFit m norm) in *.
  rewrite He, <- ewma_after_snoc. set (p' := setSample _ _ _ _ _).
  destruct (ewma_after_count (xs ++ [x])) as [-> _]. rewrite length_app. cbn [length].
  unfold warmupMinSamples, stableMinSamples.
  destruct (Z.ltb_spec (Z.of_nat (length xs + 1)) 10) as [Hn|Hn];
    [|destruct (Z.ltb_spec (Z.of_nat (length xs + 1)) 30) as [Hn'|Hn']].
  - destruct (phase_of_snoc_short xs x) as (Hphase & Hc1 & Hc2); [lia|]. rewrite (proj2 (Nat.ltb_lt _ _)) in Hphase by lia.
    split; [|done]. split; cbn; try done; [congruence|rewrite length_app; cbn; lia].
  - destruct (phase_of_snoc_short xs x) as (Hphase & Hc1 & Hc2); [lia|]. rewrite (proj2 (Nat.ltb_ge _ _)) in Hphase by lia.
    destruct (updateWarmup_spec p' x norm m' Hm') as (cid & types & -> & Ht & Hm'').
    split; [|done]. split; cbn; try done; [congruence|rewrite length_app; cbn; lia].
  - destruct (phase_of_snoc_long xs x) as (Hphase & Hc1); [lia|].
    destruct (updateStable_spec p' x norm m' Hm') as (cid & types & pcid & ptypes & -> & Ht & Hpt & Hm'').
    cbn [ewma setSample driftConfirmed p'] in Ht, Hpt |- *. unfold p'. cbn [ewma setSample driftConfirmed]. rewrite Hc.
    split; [|done]. split; cbn; try done.
    + rewrite length_app. cbn. lia.
    + intros _. destruct Ht as [->|Ht]; [|done]. apply H2. lia.
    + destruct Hpt as [->|Hpt]; [done|done].
Qed.

(** ** The table *)

(** Deleting the keys of a list whose entry satisfies [P]. *)
Lemma foldl_delete_lookup {A B} (P : B -> bool) (l : list (string * B)) (m : gmap string A) k :
  (exists e, e ∈ l /\ e.1 = k /\ P e.2 = true) /\ foldl (fun m '(key, b) => if P b then delete key m else m) m l !! k = None \/
  (forall e, e ∈ l -> e.1 = k -> P e.2 = false) /\ foldl (fun m '(key, b) => if P b then delete key m else m) m l !! k = m !! k.
Proof.
  induction l as [|[key b] l IH] using rev_ind; [right; set_solver|]. rewrite foldl_snoc.
  destruct (P b) eqn:Hb; [destruct (decide (key = k)) as [->|Hne]|].
  - left. rewrite lookup_delete_eq. split; [|done]. exists (k, b). set_solver.
  - rewrite lookup_delete_ne by done. destruct IH as [[He ->]|[Hall ->]]; [left; set_solver|right]. split; [|done].
    intros e [He| ->%list_elem_of_singleton]%elem_of_app Hk; [by apply Hall|done].
  - destruct IH as [[He ->]|[Hall ->]]; [left; set_solver|right]. split; [|done].
    intros e [He| ->%list_elem_of_singleton]%elem_of_app Hk; [by apply Hall|done].
Qed.

Section table.
  Context (range : gmap string podState -> list (string * podState)).
  Context (range_ok : forall m, range m ≡ₚ map_to_list m).

Lemma elem_of_range m k st : (k, st) ∈ range m <-> m !! k = Some st.
Proof. rewrite range_ok. by rewrite elem_of_map_to_list. Qed.

(** The pods after the first half of [cleanupLocked]. *)
Definition unexpired (c : AdaptiveClassifier) (now : Z) : gmap string podState :=
  if (0 <? podTTL c)%Z
  then foldl (fun m '(key, st) => if expired (podTTL c) now st then delete key m else m) (pods c) (range (pods c))
  else pods c.

Lemma unexpired_lookup c now k st :
  unexpired c now !! k = Some st <->
  pods c !! k = Some st /\ ((0 < podTTL c)%Z -> expired (podTTL c) now st = false).
Proof.
  unfold unexpired. destruct (Z.ltb_spec 0 (podTTL c)) as [Ht|Ht]; [|split; [intros; split; [done|lia]|by intros []]].
  destruct (foldl_delete_lookup (expired (podTTL c) now) (range (pods c)) (pods c) k) as [[([k' st'] & He & Hk & Hx) ->]|[Hall ->]].
  - cbn in Hk, Hx. subst k'. apply elem_of_range in He. split; [done|]. intros [Hst Hex]. simplify_eq. specialize (Hex Ht). congruence.
  - split; [|by intros []]. intros Hst. split; [done|]. intros _. apply (Hall (k, st)); [by apply elem_of_range|done].
Qed.

(** The entries of the second half, oldest first. *)
Definition byAge (ps : gmap string podState) : list (string * Z) :=
  sort_by (fun e => e.2) Z.le ((fun '(key, st) => (key, lastTimestamp st)) <$> range ps).
Lemma byAge_spec ps :
  StronglySorted (key_le (fun e : string * Z => e.2) Z.le) (byAge ps) /\
  NoDup (byAge ps).*1 /\ length (byAge ps) = size ps /\
  forall k t, (k, t) ∈ byAge ps <-> exists st, ps !! k = Some st /\ t = lastTimestamp st.
Proof.
  unfold byAge. set (l := _ <$> range ps). destruct (sort_by_spec (fun e : string * Z => e.2) Z.le l) as [Hp Hs].
  assert (l.*1 = (range ps).*1) as Hl1.
  { unfold l. rewrite <- list_fmap_compose. apply list_fmap_ext. by intros i [k st] _. }
  split_and!; [done| | |].
  - rewrite Hp, Hl1. rewrite (range_ok ps). apply NoDup_fst_map_to_list.
  - rewrite Hp. unfold l. rewrite length_fmap, (Permutation_length (range_ok ps)). apply length_map_to_list.
  - intros k t. rewrite Hp. unfold l. rewrite list_elem_of_fmap. split.
    + intros ([k' st] & [= -> ->] & He). exists st. split; [|done]. by apply elem_of_range.
    + intros (st & Hst & ->). exists (k, st). split; [done|]. by apply elem_of_range.
Qed.

(** Deleting the first [n] entries of a list of distinct keys of a map. *)
Lemma foldl_delete_size {B} (l : list (string * B)) (m : gmap string podState) :
  NoDup l.*1 -> (forall k, k ∈ l.*1 -> is_Some (m !! k)) ->
  size (foldl (fun m '(key, _) => delete key m) m l) = (size m - length l)%nat.
Proof.
  revert m. induction l as [|[key b] l IH]; intros m Hnd Hin; cbn [foldl length]; [lia|].
  cbn in Hnd, Hin. apply NoDup_cons in Hnd as [Hk Hnd]. rewrite IH; [|done|].
  - destruct (Hin key) as [v Hv]; [set_solver|]. rewrite map_size_delete, Hv. lia.
  - intros k Hk'. rewrite lookup_delete_ne; [apply Hin; set_solver|]. intros ->. done.
Qed.

(** Evicting the [n] oldest: what goes is no younger than what stays. *)
Lemma evict_spec ps n :
  (n <= size ps)%nat ->
  let ps' := foldl (fun m '(key, _) => delete key m) ps (take n (byAge ps)) in
  ps' ⊆ ps /\ size ps' = (size ps - n)%nat /\
  forall k st k' st', ps !! k = Some st -> ps' !! k = None -> ps' !! k' = Some st' ->
    (lastTimestamp st <= lastTimestamp st')%Z.
Proof.
  intros Hn. cbn zeta. destruct (byAge_spec ps) as (Hs & Hnd & Hlen & Hel). set (entries := byAge ps) in *.
  rewrite <- (take_drop n entries) in Hs, Hnd. rewrite fmap_app in Hnd. apply NoDup_app in Hnd as (Hnd & Hdisj & _).
  set (gone := take n entries) in *.
  assert (forall e, e ∈ gone -> e ∈ entries) as Hgone by (intros e He; rewrite <- (take_drop n entries); apply elem_of_app; by left).
  assert (forall k, (exists e, e ∈ gone /\ e.1 = k) /\ foldl (fun m '(key, _) => delete key m) ps gone !! k = None \/
    k ∉ gone.*1 /\ foldl (fun m '(key, _) => delete key m) ps gone !! k = ps !! k) as Hlook.
  { intros k. destruct (foldl_delete_lookup (fun _ => true) gone ps k) as [[(e & He & Hk & _) Hl]|[Hall Hl]]; [left|right]; cbn in Hl.
    - eauto.
    - split; [|done]. intros (e & -> & He)%list_elem_of_fmap. by specialize (Hall e He eq_refl). }
  split_and!.
  - apply map_subseteq_spec. intros k st Hk. destruct (Hlook k) as [[_ E]|[_ E]]; congruence.
  - rewrite foldl_delete_size; [unfold gone; rewrite length_take; lia|done|].
    intros k ([k0 t] & -> & He)%list_elem_of_fmap. apply Hgone, Hel in He as (st & Hst & _). by exists st.
  - intros k st k' st' Hk Hk0 Hk'. destruct (Hlook k) as [[([k1 t] & He & Hk1) _]|[_ E]]; [|congruence]. cbn in Hk1. subst k1.
    destruct (Hlook k') as [[_ E]|[Hnot E]]; [congruence|]. rewrite E in Hk'.
    assert (t = lastTimestamp st) as -> by (apply Hgone, Hel in He as (? & ? & ->); congruence).
    assert ((k', lastTimestamp st') ∈ drop n entries) as Hd.
    { assert ((k', lastTimestamp st') ∈ gone ++ drop n entries) as [Hin|Hin]%elem_of_app; [|exfalso|done].
      - unfold gone. rewrite take_drop. apply Hel. eauto.
      - apply Hnot. by apply (list_elem_of_fmap_2 fst) in Hin. }
    exact (StronglySorted_app_1_elem_of _ _ _ _ _ Hs He Hd).
Qed.

(** Cleaning up removes only what it may and enough of it. *)
Lemma cleanupLocked_spec c now :
  let c' := cleanupLocked range c now in
  pods c' ⊆ pods c /\ model c' = model c /\
  ((0 < podTTL c)%Z -> forall k st, pods c' !! k = Some st -> expired (podTTL c) now st = false) /\
  ((0 < maxPods c)%Z -> (Z.of_nat (size (pods c')) <= maxPods c)%Z) /\
  forall k st, pods c !! k = Some st -> pods c' !! k = None ->
    (0 < podTTL c)%Z /\ expired (podTTL c) now st = true \/
    Z.of_nat (size (pods c')) = maxPods c /\
    forall k' st', pods c' !! k' = Some st' -> (lastTimestamp st <= lastTimestamp st')%Z.
Proof.
  cbn zeta. unfold cleanupLocked. fold (unexpired c now). set (ps := unexpired c now).
  cbn [pods model podTTL maxPods]. fold (byAge ps).
  assert (forall k st, ps !! k = Some st <-> pods c !! k = Some st /\ ((0 < podTTL c)%Z -> expired (podTTL c) now st = false)) as Hps.
  { intros k st. by apply unexpired_lookup. }
  assert (forall k st, pods c !! k = Some st -> ps !! k = None -> (0 < podTTL c)%Z /\ expired (podTTL c) now st = true) as Hgone.
  { intros k st Hk Hn. destruct (decide (0 < podTTL c)%Z) as [Ht|Ht], (expired (podTTL c) now st) eqn:Ex; [done|..];
      assert (ps !! k = Some st) as Hs by (apply Hps; split; [done|intros; first [done|lia]]); congruence. }
  destruct ((maxPods c <=? 0)%Z || (Z.of_nat (size ps) <=? maxPods c)%Z) eqn:Hbig.
  - split_and!; [|done| | |].
    + apply map_subseteq_spec. intros k st Hk. by apply Hps.
    + intros Ht k st Hk. by apply (Hps k st).
    + intros Hm. apply orb_true_iff in Hbig as [?%Z.leb_le|?%Z.leb_le]; lia.
    + eauto.
  - apply orb_false_iff in Hbig as [Hm%Z.leb_gt Hbig%Z.leb_gt].
    destruct (byAge_spec ps) as (_ & _ & Hlen & _). rewrite Hlen.
    set (n := Z.to_nat (Z.of_nat (size ps) - maxPods c)).
    destruct (evict_spec ps n ltac:(lia)) as (Hsub & Hsize & Hold). set (ps' := foldl _ _ _) in *.
    split_and!; [|done| | |].
    + etransitivity; [exact Hsub|]. apply map_subseteq_spec. intros k st Hk. by apply Hps.
    + intros Ht k st Hk. by apply (Hps k st); [eapply lookup_weaken|].
    + intros _. lia.
    + intros k st Hk Hn. destruct (ps !! k) as [st0|] eqn:E; [|left; eauto]. right. split; [lia|].
      assert (st0 = st) as -> by (apply Hps in E as [E _]; congruence). eauto.
Qed.
End table.

(** ** Runs *)

(** The samples of the pods still in the table. *)
Definition kept (ps : gmap string podState) (h : gmap string (list featureVector)) : gmap string (list featureVector) :=
  filter (fun kv => is_Some (ps !! kv.1)) h.

(** What a classifier for [n] clusters can become, with the samples each pod got since it
    entered the table.  Every operation ranges over the table in an order of its own. *)
Inductive reaches (n : Z) : AdaptiveClassifier -> gmap string (list featureVector) -> Prop :=
| reaches_new : reaches n (NewAdaptiveClassifier n) ∅
| reaches_cleanup c h range now :
    reaches n c h -> (forall m, range m ≡ₚ map_to_list m) ->
    reaches n (cleanupLocked range c now) (kept (pods (cleanupLocked range c now)) h)
| reaches_ingest c h range input now now' :
    reaches n c h -> (forall m, range m ≡ₚ map_to_list m) ->
    let h' := kept (pods (cleanupLocked range c now')) h in
    let key := podKey (inNamespace input) (inPod input) in
    reaches n (Ingest range c input now now').1
      (<[key := default [] (h' !! key) ++ [computeFeatures (inMetrics input)]]> h').

(** A pod of the table and its samples. *)
Definition entry_inv (k : string) (ost : option podState) (oxs : option (list featureVector)) : Prop :=
  match ost, oxs with
  | Some st, Some xs => pod_inv xs st /\ xs <> [] /\ podKey (namespace st) (pod st) = k
  | None, None => True
  | _, _ => False
  end.

Definition table_inv (c : AdaptiveClassifier) (h : gmap string (list featureVector)) : Prop :=
  model_ok (model c) /\ podTTL c = classifierPodTTLSeconds /\ maxPods c = classifierMaxPods /\
  (Z.of_nat (size (pods c)) <= maxPods c + 1)%Z /\ forall k, entry_inv k (pods c !! k) (h !! k).

Lemma cleanup_inv range c h now :
  (forall m, range m ≡ₚ map_to_list m) -> table_inv c h ->
  let c' := cleanupLocked range c now in
  table_inv c' (kept (pods c') h) /\ (Z.of_nat (size (pods c')) <= maxPods c)%Z.
Proof.
  intros Hr (Hm & Ht & Hmax & Hsize & Hall). cbn zeta.
  destruct (cleanupLocked_spec range Hr c now) as (Hsub & Hmodel & _ & Hle & _). cbn zeta in *. set (c' := cleanupLocked range c now) in *.
  assert (Z.of_nat (size (pods c')) <= maxPods c)%Z as Hle' by (apply Hle; rewrite Hmax; done).
  split; [|done]. split_and!; [by rewrite Hmodel|done|done| |].
  - change (maxPods c') with (maxPods c). lia.
  - intros k. unfold kept. destruct (pods c' !! k) as [st|] eqn:E.
    + pose proof (lookup_weaken _ _ _ _ E Hsub) as E'. specialize (Hall k). rewrite E' in Hall.
      destruct (h !! k) as [xs|] eqn:Eh; [|done]. rewrite (map_lookup_filter_Some_2 _ _ _ xs); [done|done|]. cbn. by exists st.
    + unfold entry_inv. destruct (filter _ h !! k) as [xs|] eqn:Ef; [|done].
      apply map_lookup_filter_Some in Ef as [_ [st Hst]]. cbn [fst] in Hst. congruence.
Qed.

Lemma reaches_inv n c h : reaches n c h -> table_inv c h.
Proof.
  induction 1 as [|c h range now _ IH Hr|c h range input now now' _ IH Hr h' key].
  - split_and!; cbn; [|done|done|done|].
    + apply newAdaptiveClusteringModel_ok. destruct (Z.leb_spec n 0); lia.
    + intros k. by rewrite !lookup_empty.
  - by apply cleanup_inv.
  - destruct (cleanup_inv range c h now' Hr IH) as [(Hm & Ht & Hmax & _ & Hall) Hsize]. cbn zeta in *. fold h' in Hall.
    unfold Ingest. set (c0 := cleanupLocked range c now') in *. fold key.
    assert (exists xs, default [] (h' !! key) = xs /\ let st := default (newPodState (inNamespace input) (inPod input)) (pods c0 !! key) in
      pod_inv xs st /\ podKey (namespace st) (pod st) = key) as (xs & Hxs & Hst & Hkey).
    { specialize (Hall key). destruct (pods c0 !! key) as [st|], (h' !! key) as [xs|]; try done; cbn in *.
      - exists xs. destruct Hall as (? & _ & ?). done.
      - exists []. split; [done|]. split; [apply newPodState_inv|done]. }
    rewrite Hxs. set (st := default _ (pods c0 !! key)) in *. set (ts := if (_ <=? _)%Z then _ else _).
    destruct (Update_inv xs st ts (inNode input) (computeFeatures (inMetrics input)) (model c0) Hst Hm) as (Hinv & Hm' & Hns & Hpod & _).
    destruct (Update st ts _ _ _) as [st' m']. cbn [fst snd] in *. split_and!; cbn [pods model podTTL maxPods]; try done.
    + change (maxPods c0) with (maxPods c). rewrite map_size_insert. unfold id. destruct (pods c0 !! key); lia.
    + intros k. destruct (decide (key = k)) as [<-|Hne].
      * rewrite !lookup_insert_eq. cbn. split_and!; [done|by destruct xs|by rewrite Hns, Hpod].
      * rewrite !lookup_insert_ne by done. apply Hall.
Qed.

Lemma ingest_pods range c input now now' :
  let c0 := cleanupLocked range c now' in
  let key := podKey (inNamespace input) (inPod input) in
  exists st, pods (Ingest range c input now now').1 = <[key := st]> (pods c0) /\
    (Ingest range c input now now').2 = buildClassifyItem st.
Proof. cbn zeta. unfold Ingest. destruct (Update _ _ _ _ _) as [st m]. by exists st. Qed.

(** Remark (safety): the table never outgrows its limit by more than the pod being reported,
    and takes nothing from a pod that is still reporting: after [Ingest] the reported
    pod is there, every other pod is as it was or gone, and one that is gone had been
    silent for longer than its time to live, or the table was full and all the others
    left in it were heard of no earlier. *)
Theorem ingest_evicts_only_stale n c h range input now now' :
  reaches n c h -> (forall m, range m ≡ₚ map_to_list m) ->
  let c' := (Ingest range c input now now').1 in
  let key := podKey (inNamespace input) (inPod input) in
  (Z.of_nat (size (pods c')) <= 20001)%Z /\ is_Some (pods c' !! key) /\
  forall k, k <> key ->
    pods c' !! k = pods c !! k \/
    exists st, pods c !! k = Some st /\ pods c' !! k = None /\
      ((0 < lastTimestamp st < i64 (now' - 1800))%Z \/
       (20000 <= Z.of_nat (size (pods c')))%Z /\
       forall k' st', k' <> key -> pods c' !! k' = Some st' -> (lastTimestamp st <= lastTimestamp st')%Z).
Proof.
  intros Hreach Hr. pose proof (reaches_inv _ _ _ Hreach) as Hinv. destruct (cleanup_inv range c h now' Hr Hinv) as [_ Hsize].
  destruct Hinv as (_ & Ht & Hmax & _). destruct (cleanupLocked_spec range Hr c now') as (Hsub & _ & _ & _ & Hgone). cbn zeta in *.
  destruct (ingest_pods range c input now now') as (st' & Hp & _). cbn zeta in Hp. rewrite Hp. clear Hp.
  set (ps := pods (cleanupLocked range c now')) in *. set (key := podKey _ _). rewrite Hmax in *. unfold classifierMaxPods in *.
  split_and!.
  - rewrite map_size_insert. unfold id. destruct (ps !! key); lia.
  - rewrite lookup_insert_eq. eauto.
  - intros k Hk. rewrite lookup_insert_ne by done. destruct (ps !! k) as [st|] eqn:E.
    + left. symmetry. by eapply lookup_weaken.
    + destruct (pods c !! k) as [st|] eqn:Ec; [right|by left]. exists st. split_and!; [done..|].
      destruct (Hgone k st Ec E) as [[_ Hex]|[Hfull Hold]].
      * left. unfold expired in Hex. rewrite Ht in Hex. apply andb_true_iff in Hex as [H1 H2].
        apply negb_true_iff, Z.leb_gt in H1. apply Z.ltb_lt in H2. unfold classifierPodTTLSeconds in H2. by split.
      * right. split; [rewrite map_size_insert; unfold id; destruct (ps !! key); lia|].
        intros k' st0 Hk' Hst0. rewrite lookup_insert_ne in Hst0 by done. eauto.
Qed.

(** C20 (refinement): the phase of a pod and the number of drifting periods it reports are
    the function [phase_of] and [confirmed_of] of the samples it got since it entered the
    table: below 10 samples it is in its cold start, below 30 it warms up, and from then
    on every third of consecutive drifting samples is a transition, the others drift, and
    a sample that does not drift is stable.  Other pods, the clustering model they share
    and the clock have no influence on it. *)
Theorem phase_follows_samples n c h k st :
  reaches n c h -> pods c !! k = Some st ->
  exists xs, h !! k = Some xs /\ xs <> [] /\
    phase st = phase_of xs /\ driftConfirmed st = confirmed_of xs /\ ewma st = ewma_after xs /\
    exists stamps, buffer st = tiers_of (zip xs stamps) /\ length stamps = length xs.
Proof.
  intros Hr Hk. destruct (reaches_inv _ _ _ Hr) as (_ & _ & _ & _ & Hall). specialize (Hall k). rewrite Hk in Hall.
  destruct (h !! k) as [xs|]; [|done]. destruct Hall as (Hinv & Hne & _). exists xs. destruct Hinv as [? ? ? _ _ _ (l & Hl & Hb)].
  split_and!; try done. exists l.*2. rewrite <- Hl, zip_fst_snd. split; [done|]. by rewrite !length_fmap.
Qed.

Lemma phase_confirmed xs : (0 < confirmed_of xs)%Z <-> phase_of xs = Drifting.
Proof.
  unfold phase_of, confirmed_of. destruct (Nat.ltb_spec (length xs) 10) as [H|H]; [rewrite drift_run_short by lia; done|].
  destruct (Nat.ltb_spec (length xs) 30) as [H'|H']; [rewrite drift_run_short by lia; done|].
  set (r := drift_run _). destruct (Nat.eqb_spec r 0) as [->|Hr]; [done|].
  destruct (Nat.eqb_spec (r mod 3) 0) as [->|Hm]; [done|]. split; [done|lia].
Qed.

Lemma phase_cold xs : phase_of xs = ColdStart <-> (length xs < 10)%nat.
Proof.
  unfold phase_of. destruct (Nat.ltb_spec (length xs) 10) as [H|H]; [done|]. split; [|lia]. by repeat case_match.
Qed.


(** ** Listing *)

Lemma containsTag_spec tags t :
  (forall x, x ∈ tags -> ToLower x = x) -> containsTag tags t = true <-> TrimSpace (ToLower t) ∈ tags.
Proof.
  intros Hl. unfold containsTag. rewrite existsb_exists. split.
  - intros (x & Hx%list_elem_of_In & Heq%bool_decide_eq_true). rewrite Hl in Heq by done. by rewrite <- Heq.
  - intros Hx. exists (TrimSpace (ToLower t)). split; [by apply list_elem_of_In|]. apply bool_decide_eq_true. auto.
Qed.

Lemma types_lower xs st x : pod_inv xs st -> x ∈ currentTypes st -> ToLower x = x.
Proof.
  intros Hp Hx. assert (Forall (fun x => ToLower x = x) ("collecting" :: "balanced" :: known_tags)) as Hall.
  { by apply (bool_decide_unpack _). }
  rewrite Forall_forall in Hall. apply Hall. destruct (decide (length xs < 10)%nat) as [Hs|Hs].
  - rewrite (inv_collecting _ _ Hp Hs) in Hx. apply list_elem_of_singleton in Hx as ->. by left.
  - destruct (inv_current _ _ Hp ltac:(lia)) as [E|(_ & _ & Hsub)].
    + rewrite E in Hx. apply list_elem_of_singleton in Hx as ->. by right; left.
    + right; right. by apply Hsub.
Qed.

(** Remark (functional): [List] returns exactly the pods of the table that match every filter
    given (an empty filter matches all, types are compared without regard to case or
    surrounding space), each once, ordered by namespace and then by pod. *)
Theorem list_classifications_spec n c h range ns ph t :
  reaches n c h -> (forall m, range m ≡ₚ map_to_list m) ->
  StronglySorted (key_le item_key key2_le) (List range c ns ph t) /\
  NoDup (item_key <$> List range c ns ph t) /\
  forall item, item ∈ List range c ns ph t <->
    exists st, pods c !! podKey (namespace st) (pod st) = Some st /\ item = buildClassifyItem st /\
      (ns = "" \/ ns = namespace st) /\ (ph = "" \/ ph = phase_string (phase st)) /\
      (t = "" \/ TrimSpace (ToLower t) ∈ currentTypes st).
Proof.
  intros Hreach Hr. destruct (reaches_inv _ _ _ Hreach) as (_ & _ & _ & _ & Hall).
  assert (forall k st, pods c !! k = Some st -> podKey (namespace st) (pod st) = k /\ forall x, x ∈ currentTypes st -> ToLower x = x) as Hk.
  { intros k st Hst. specialize (Hall k). rewrite Hst in Hall. destruct (h !! k) as [xs|]; [|done]. destruct Hall as (Hp & _ & Hkey).
    split; [done|]. intros x. by apply (types_lower xs). }
  clear Hall. unfold List. set (sel := filter _ _). destruct (sort_by_spec item_key key2_le (buildClassifyItem <$> sel)) as [Hperm Hs].
  split; [exact Hs|]. split.
  - rewrite Hperm, <- list_fmap_compose. unfold sel. rewrite (Hr (pods c)).
    apply (NoDup_fmap_1 (fun '(a, b) => podKey a b)). rewrite <- list_fmap_compose.
    eapply sublist_NoDup; [|apply fmap_sublist, sublist_filter]. rewrite <- list_fmap_compose.
    replace (_ <$> map_to_list (pods c)) with (map_to_list (pods c)).*1; [apply NoDup_fst_map_to_list|].
    apply list_fmap_ext. intros i [k st] Hi%list_elem_of_lookup_2%elem_of_map_to_list. cbn. symmetry. by apply (Hk k st).
  - intros item. rewrite Hperm, list_elem_of_fmap. unfold sel. setoid_rewrite list_elem_of_filter.
    setoid_rewrite list_elem_of_fmap. split.
    + intros (st & -> & Hsel & [k st'] & -> & Hin). apply (elem_of_range range Hr) in Hin. destruct (Hk k st' Hin) as [Hkey Hlow].
      cbn [snd]. exists st'. rewrite Hkey. split; [done|]. split; [done|]. cbn [snd] in Hsel. unfold selected in Hsel.
      rewrite !andb_true_iff, !orb_true_iff, !bool_decide_eq_true, (containsTag_spec _ _ Hlow) in Hsel. naive_solver.
    + intros (st & Hin & -> & H1 & H2 & H3). destruct (Hk _ st Hin) as [_ Hlow]. exists st. split; [done|]. split.
      * unfold selected. rewrite !andb_true_iff, !orb_true_iff, !bool_decide_eq_true, (containsTag_spec _ _ Hlow). naive_solver.
      * exists (podKey (namespace st) (pod st), st). split; [done|]. by apply (elem_of_range range Hr).
Qed.

(** ** Runs on concrete reports *)

(** Reports of one pod: [steady] is quiet, [busy] has every feature of a quiet pod
    multiplied, [growing k] grows by a third from report to report. *)
Definition report (vol invol cpu wait run l3 numa : Z) : classificationInput :=
  {| inTimestamp := 100; inNamespace := "shop"; inPod := "cart"; inNode := "n1";
     inMetrics := {| VolCtxSW := vol; InvolCtxSW := invol; CPUTime := cpu; WaitTime := wait; RunCount := run;
                     SMTMigr := 0; L3Migr := l3; NUMAMigr := numa |} |}.
Definition steady : classificationInput := report 1 1 10000 1 1000 100 1.
Definition busy : classificationInput := report 1000 1000 100000000000 100000000000 1000 10000 10000.
Definition growing (k : nat) : classificationInput :=
  let g := (10 * 136 ^ Z.of_nat k / 100 ^ Z.of_nat k)%Z in
  report g g g (g * g / 100000) 10000 g (g * g / 100000).

Definition features_of (inputs : list classificationInput) : list featureVector :=
  (fun i => computeFeatures (inMetrics i)) <$> inputs.
Definition step_run (n : nat) : list classificationInput := replicate 40 steady ++ replicate n busy.
Definition growth_run (n : nat) : list classificationInput := replicate 16 (growing 0) ++ (growing <$> seq 0 n).

(** Growth is noticed: the third drifting sample in a row is a transition. *)
Example growth_is_noticed : (fun n => phase_of (features_of (growth_run n))) <$> [14; 15; 16]%nat = [Drifting; Drifting; Transitioning].
Proof. by vm_compute. Qed.

(** Remark (functional): an abrupt and lasting change is not.  The long variance takes in the
    jump at once, so that the score stays below the threshold of 1.5 however large the
    jump: a pod that was quiet for 40 samples and then is busier in all six features, by
    factors of 100 to 10,000,000, stays in the phase "stable" and is never confirmed to
    have drifted. *)
Theorem abrupt_change_goes_unnoticed n c h k st m :
  reaches n c h -> pods c !! k = Some st -> (m < 10)%nat -> h !! k = Some (features_of (step_run m)) ->
  phase st = Stable /\ driftConfirmed st = 0%Z.
Proof.
  intros Hr Hk Hm Hh. destruct (reaches_inv _ _ _ Hr) as (_ & _ & _ & _ & Hall). specialize (Hall k). rewrite Hk, Hh in Hall.
  destruct Hall as ([_ -> -> _ _ _ _] & _).
  assert (forallb (fun m => bool_decide (phase_of (features_of (step_run m)) = Stable)) (seq 0 10) = true) as Hst by by vm_compute.
  rewrite forallb_True_iff, Forall_forall in Hst. specialize (Hst m ltac:(apply elem_of_seq; lia)).
  apply bool_decide_eq_true in Hst. split; [done|]. pose proof (phase_confirmed (features_of (step_run m))) as Hc.
  rewrite Hst in Hc. unfold confirmed_of in *. destruct (Z.of_nat _) eqn:E; [done| |lia]. by destruct Hc as [Hc _]; discriminate Hc.
Qed.

(** One report of one pod. *)
Definition one_report : AdaptiveClassifier := (Ingest map_to_list (NewAdaptiveClassifier 5) steady 300 300).1.

Lemma one_report_reaches : exists h, reaches 5 one_report h.
Proof. eexists. apply (reaches_ingest 5 _ ∅ map_to_list steady 300 300); [constructor|done]. Qed.

Lemma one_report_pod : exists st, pods one_report !! podKey "shop" "cart" = Some st.
Proof.
  destruct (ingest_pods map_to_list (NewAdaptiveClassifier 5) steady 300 300) as (st & Hp & _). exists st.
  unfold one_report. rewrite Hp. apply lookup_insert_eq.
Qed.

Lemma phase_follows_samples_witness :
  exists (h : gmap string (list featureVector)) st xs, pods one_report !! podKey "shop" "cart" = Some st /\ h !! podKey "shop" "cart" = Some xs /\ phase st = phase_of xs.
Proof.
  destruct one_report_reaches as [h Hr]. destruct one_report_pod as [st Hst].
  destruct (phase_follows_samples 5 one_report h _ st Hr Hst) as (xs & Hxs & _ & Hp & _). by exists h, st, xs.
Defined.


Lemma ingest_evicts_only_stale_witness :
  is_Some (pods (Ingest map_to_list one_report busy 301 5000).1 !! podKey "shop" "cart").
Proof.
  destruct one_report_reaches as [h Hr].
  by destruct (ingest_evicts_only_stale 5 one_report h map_to_list busy 301 5000 Hr (fun m => reflexivity _)) as (_ & H & _).
Defined.

Lemma list_classifications_spec_witness :
  NoDup (item_key <$> List map_to_list one_report "shop" "" "") /\
  forall item, item ∈ List map_to_list one_report "shop" "" "" -> iNamespace item = "shop".
Proof.
  destruct one_report_reaches as [h Hr].
  destruct (list_classifications_spec 5 one_report h map_to_list "shop" "" "" Hr (fun m => reflexivity _)) as (_ & Hnd & H).
  split; [done|]. intros item (st & _ & -> & [?|?] & _)%H; done.
Defined.
