(* ===== verification/ManagerDomain.v ===== *)
(** * The manager's data: api/manager/domain

    Strategies and node policies as users declare them, the intents derived from
    them for each pod or node, and what the manager knows of the cluster.  An
    object identifier is kept in the hexadecimal form in which it is stored, sent
    and compared. *)

From stdpp Require Import base gmap strings list.
From Stdlib Require Import ZArith Lia.
From S2P Require Import Prelude GoStrings Intents.

(** ** Entities *)

Notation ObjectID := string (only parsing).

(** [bson.NilObjectID], the zero value of the type. *)
Definition NilObjectID : ObjectID := "000000000000000000000000".

Record BaseEntity := mkBase {
  be_ID : ObjectID;
  be_CreatedTime : Z;
  be_UpdatedTime : Z;
  be_DeletedTime : Z;
  be_CreatorID : ObjectID;
  be_UpdaterID : ObjectID
}.

(** [NewBaseEntity] at a time, for a creator and an updater that are given. *)
Definition NewBaseEntity (nowInmsec : Z) (creatorID updaterID : ObjectID) : BaseEntity :=
  mkBase NilObjectID nowInmsec nowInmsec 0 creatorID updaterID.

(** ** Claims *)

(** The claims of a token, those of the JWT standard with times in seconds. *)
Record Claims := mkJWTClaims {
  cl_UID : string;
  cl_NeedChangePassword : bool;
  cl_TokenVersion : Z;
  cl_TokenType : string;
  cl_ExpiresAt : Z;
  cl_IssuedAt : Z;
  cl_NotBefore : Z;
  cl_Issuer : string;
  cl_Subject : string;
  cl_ID : string
}.

(** The claims of an operator of whom only the identity matters. *)
Definition mkClaims (uid : string) : Claims := mkJWTClaims uid false 0 "access" 0 0 0 "bss-api-server" uid "".

(** ** Enumerations *)

Definition IntentStateUnknown : Z := 0.
Definition IntentStateInitialized : Z := 1.
Definition IntentStateSent : Z := 2.

Inductive NodeState := NodeStateUnknown | NodeStateOnline | NodeStateOffline.

#[global] Instance NodeState_eq_dec : EqDecision NodeState.
Proof. solve_decision. Defined.

(** ** The cluster *)

Record Pod := mkPod {
  pod_Name : string;
  pod_K8SNamespace : string;
  pod_Labels : gmap string string;
  pod_PodID : string;
  pod_NodeID : string
}.

Record Node := mkNode { node_Name : string; node_Labels : gmap string string; node_Status : string }.

Record DecisionMakerPod := mkDMPod { dm_NodeID : string; dm_Port : Z; dm_Host : string; dm_State : NodeState }.

(** Where the decision maker of a pod listens. *)
Definition dm_addr (dm : DecisionMakerPod) : string := dm_Host dm +:+ ":" +:+ Itoa (dm_Port dm).

(** ** Strategies and their intents *)

Record ScheduleStrategy := mkStrategy {
  ss_Base : BaseEntity;
  ss_StrategyNamespace : string;
  ss_LabelSelectors : list LabelSelector;
  ss_K8sNamespace : list string;
  ss_CommandRegex : string;
  ss_Priority : Z;
  ss_ExecutionTime : Z
}.

Record ScheduleIntent := mkScheduleIntent {
  sc_Base : BaseEntity;
  sc_StrategyID : ObjectID;
  sc_PodID : string;
  sc_PodName : string;
  sc_NodeID : string;
  sc_K8sNamespace : string;
  sc_CommandRegex : string;
  sc_Priority : Z;
  sc_ExecutionTime : Z;
  sc_PodLabels : gmap string string;
  sc_State : Z
}.

Definition ss_ID (s : ScheduleStrategy) : ObjectID := be_ID (ss_Base s).
Definition ss_CreatorID (s : ScheduleStrategy) : ObjectID := be_CreatorID (ss_Base s).
Definition sc_ID (i : ScheduleIntent) : ObjectID := be_ID (sc_Base i).
Definition sc_CreatorID (i : ScheduleIntent) : ObjectID := be_CreatorID (sc_Base i).

Definition NewScheduleIntent (now : Z) (strategy : ScheduleStrategy) (pod : Pod) : ScheduleIntent :=
  mkScheduleIntent (NewBaseEntity now (ss_CreatorID strategy) (be_UpdaterID (ss_Base strategy)))
    (ss_ID strategy) (pod_PodID pod) (pod_Name pod) (pod_NodeID pod) (pod_K8SNamespace pod)
    (ss_CommandRegex strategy) (ss_Priority strategy) (ss_ExecutionTime strategy) (pod_Labels pod)
    IntentStateInitialized.

(** ** Node policies and their intents *)

Record DRASelector := mkDRA { dra_DeviceClass : string; dra_Attributes : list LabelSelector }.

Record NodeSchedulingPolicy := mkNodeSchedulingPolicy {
  nsp_Base : BaseEntity;
  nsp_NodeSelectors : list LabelSelector;
  nsp_NodeNames : list string;
  nsp_DRASelectors : list DRASelector;
  nsp_CommandRegex : string;
  nsp_Priority : Z;
  nsp_ExecutionTime : Z
}.

Record NodeSchedulingIntent := mkNodeIntent {
  ni_Base : BaseEntity;
  ni_PolicyID : ObjectID;
  ni_NodeID : string;
  ni_CommandRegex : string;
  ni_Priority : Z;
  ni_ExecutionTime : Z;
  ni_State : Z
}.

Definition nsp_ID (p : NodeSchedulingPolicy) : ObjectID := be_ID (nsp_Base p).
Definition nsp_CreatorID (p : NodeSchedulingPolicy) : ObjectID := be_CreatorID (nsp_Base p).
Definition ni_CreatorID (i : NodeSchedulingIntent) : ObjectID := be_CreatorID (ni_Base i).
Definition ni_ID (i : NodeSchedulingIntent) : ObjectID := be_ID (ni_Base i).

Definition NewNodeSchedulingIntent (now : Z) (policy : NodeSchedulingPolicy) (node : Node) : NodeSchedulingIntent :=
  mkNodeIntent (NewBaseEntity now (nsp_CreatorID policy) (be_UpdaterID (nsp_Base policy)))
    (nsp_ID policy) (node_Name node) (nsp_CommandRegex policy) (nsp_Priority policy) (nsp_ExecutionTime policy)
    IntentStateInitialized.

(** ** Queries *)

Record QueryNodePolicyOptions := mkQueryNodePolicy { qp_IDs : list ObjectID; qp_CreatorIDs : list ObjectID }.

Record QueryNodeIntentOptions := mkQueryNodeIntent {
  qn_IDs : list ObjectID;
  qn_PolicyIDs : list ObjectID;
  qn_NodeIDs : list string;
  qn_States : list Z;
  qn_CreatorIDs : list ObjectID
}.

Record QueryStrategyOptions := mkQueryStrategy {
  qs_IDs : list ObjectID;
  qs_K8SNamespaces : list string;
  qs_CreatorIDs : list ObjectID
}.

Record QueryIntentOptions := mkQueryIntent {
  qi_IDs : list ObjectID;
  qi_K8SNamespaces : list string;
  qi_StrategyIDs : list ObjectID;
  qi_States : list Z;
  qi_PodIDs : list string;
  qi_CreatorIDs : list ObjectID
}.

(** ** Decidable equality *)

#[global] Instance BaseEntity_eq_dec : EqDecision BaseEntity.
Proof. solve_decision. Defined.
#[global] Instance LabelSelector_eq_dec : EqDecision LabelSelector.
Proof. solve_decision. Defined.
#[global] Instance ScheduleStrategy_eq_dec : EqDecision ScheduleStrategy.
Proof. solve_decision. Defined.
#[global] Instance ScheduleIntent_eq_dec : EqDecision ScheduleIntent.
Proof. solve_decision. Defined.
#[global] Instance NodeSchedulingIntent_eq_dec : EqDecision NodeSchedulingIntent.
Proof. solve_decision. Defined.
