(* ===== verification/KubeStore.v ===== *)
(** * The Kubernetes store: what the custom-resource repositories share

    Unstructured objects, the API server as an interface with laws, the helpers of
    api/manager/repository that do not depend on the kind of object, and what they
    guarantee for any kind.  A server held in a map is an instance of the
    interface. *)

From stdpp Require Import base gmap strings list.
From Stdlib Require Import ZArith Lia.
From S2P Require Import Prelude GoStrings Intents ManagerDomain.
#[local] Open Scope go_scope.

(** ** Unstructured objects *)

(** JSON as client-go decodes it.  A [float64] is kept by its integral part, all
    the conversions use. *)
Inductive jval :=
| JNull
| JBool (b : bool)
| JInt (z : Z)
| JFloat (integral : Z)
| JStr (s : string)
| JArr (l : list jval)
| JObj (m : list (string * jval)).

Notation fields := (list (string * jval)).

(** [m[key]] and [m[key] = v]. *)
Fixpoint jget (m : fields) (key : string) : option jval :=
  match m with
  | [] => None
  | (k, v) :: m' => if decide (k = key) then Some v else jget m' key
  end.

Fixpoint jset (m : fields) (key : string) (v : jval) : fields :=
  match m with
  | [] => [(key, v)]
  | (k, w) :: m' => if decide (k = key) then (k, v) :: m' else (k, w) :: jset m' key v
  end.

Definition unstructured := fields.

Definition NestedMap (o : unstructured) (key : string) : option fields :=
  match jget o key with Some (JObj m) => Some m | _ => None end.

Definition getStr (m : fields) (key : string) : string :=
  match jget m key with Some (JStr s) => s | _ => "" end.

Definition getInt64 (m : fields) (key : string) : Z :=
  match jget m key with Some (JInt z) => z | Some (JFloat z) => i64 z | _ => 0 end.

Definition GetName (o : unstructured) : string :=
  match NestedMap o "metadata" with Some md => getStr md "name" | None => "" end.

(** A map whose values must all be strings. *)
Fixpoint string_map (m : fields) : option (gmap string string) :=
  match m with
  | [] => Some ∅
  | (k, JStr v) :: m' => (fun r => <[k := v]> r) <$> string_map m'
  | _ => None
  end.

Definition GetLabels (o : unstructured) : gmap string string :=
  match NestedMap o "metadata" with
  | Some md => match NestedMap md "labels" with Some l => default ∅ (string_map l) | None => ∅ end
  | None => ∅
  end.

Definition string_fields (m : gmap string string) : fields := (fun '(k, v) => (k, JStr v)) <$> map_to_list m.

Definition SetLabels (l : gmap string string) (o : unstructured) : unstructured :=
  match NestedMap o "metadata" with
  | Some md => jset o "metadata" (JObj (jset md "labels" (JObj (string_fields l))))
  | None => jset o "metadata" (JObj [("labels", JObj (string_fields l))])
  end.

(** ** The API server *)

Inductive gvr := strategyGVR | intentGVR | nodePolicyGVR | nodeIntentGVR | psmGVR.

#[global] Instance gvr_eq_dec : EqDecision gvr.
Proof. solve_decision. Defined.

Inductive kube_error := KNotFound | KOther.

(** A label selector by its requirements: with one value it is written
    [label=value], with several [label in (v1,v2)]. *)
Record requirement := mkReq { rq_label : string; rq_values : list string }.

Definition satisfies (l : gmap string string) (r : requirement) : bool :=
  match l !! rq_label r with Some v => bool_decide (v ∈ rq_values r) | None => false end.

(** What of a stored object the repository reads back. *)
Record content := mkContent { ct_labels : gmap string string; ct_spec : option fields }.

Definition content_of (o : unstructured) : content := mkContent (GetLabels o) (NestedMap o "spec").

Class KubeAPI (K : Type) := {
  kube_objects : K -> gvr -> gmap string content;
  kube_Create : gvr -> unstructured -> SE K kube_error unstructured;
  kube_Get : gvr -> string -> SE K kube_error unstructured;
  kube_Update : gvr -> unstructured -> SE K kube_error unstructured;
  kube_Delete : gvr -> string -> SE K kube_error unit;
  kube_List : gvr -> list requirement -> SE K kube_error (list unstructured)
}.

(** [objs] of one kind became [objs'], the other kinds are as before. *)
Definition changes {K} `{KubeAPI K} (g : gvr) (k k' : K) (objs' : gmap string content) : Prop :=
  kube_objects k' g = objs' /\ forall g', g' <> g -> kube_objects k' g' = kube_objects k g'.

Definition unchanged {K} `{KubeAPI K} (k k' : K) : Prop := forall g, kube_objects k' g = kube_objects k g.

(** What the server documents.  A call that fails for another reason than a
    missing object may or may not have been executed. *)
Class KubeLaws (K : Type) `{KubeAPI K} := {
  create_law : forall g o (k : K), let '(k', r) := kube_Create g o k in
    match r with
    | Ok o' => kube_objects k g !! GetName o = None /\ GetName o' = GetName o /\
        changes g k k' (<[GetName o := content_of o]> (kube_objects k g))
    | Err _ => unchanged k k' \/
        kube_objects k g !! GetName o = None /\ changes g k k' (<[GetName o := content_of o]> (kube_objects k g))
    end;
  get_law : forall g n (k : K), let '(k', r) := kube_Get g n k in
    unchanged k k' /\
    match r with
    | Ok o => GetName o = n /\ kube_objects k g !! n = Some (content_of o)
    | Err KNotFound => kube_objects k g !! n = None
    | Err KOther => True
    end;
  update_law : forall g o (k : K), let '(k', r) := kube_Update g o k in
    match r with
    | Ok _ => is_Some (kube_objects k g !! GetName o) /\
        changes g k k' (<[GetName o := content_of o]> (kube_objects k g))
    | Err _ => unchanged k k' \/
        is_Some (kube_objects k g !! GetName o) /\ changes g k k' (<[GetName o := content_of o]> (kube_objects k g))
    end;
  delete_law : forall g n (k : K), let '(k', r) := kube_Delete g n k in
    match r with
    | Ok _ => changes g k k' (delete n (kube_objects k g))
    | Err KNotFound => kube_objects k g !! n = None /\ unchanged k k'
    | Err KOther => unchanged k k' \/ changes g k k' (delete n (kube_objects k g))
    end;
  list_law : forall g reqs (k : K), let '(k', r) := kube_List g reqs k in
    unchanged k k' /\
    match r with
    | Ok l => (fun o => (GetName o, content_of o)) <$> l ≡ₚ
        filter (fun nc => forallb (satisfies (ct_labels nc.2)) reqs = true) (map_to_list (kube_objects k g))
    | Err _ => True
    end
}.

(** ** The repository *)

Inductive repo_error :=
| RNil
| RKube (e : kube_error)
| RCreateIntent (e : kube_error) (rollback : list kube_error)
| RNoSpec
| RBadName
| RMissingField (f : string)
| RNotString (f : string)
| REmptyField (f : string)
| RBadID (f : string).

(** The repository's store and its supply of new identifiers. *)
Record repo K := mkRepo { r_kube : K; r_next : nat }.
Arguments mkRepo {K} r_kube r_next.
Arguments r_kube {K} r.
Arguments r_next {K} r.

Definition labelCreatorID : string := "gthulhu.io/creator-id".
Definition labelStrategyID : string := "gthulhu.io/strategy-id".
Definition labelState : string := "gthulhu.io/state".

(** int8, the type of [IntentState]. *)
Definition i8 (z : Z) : Z := ((z + 2 ^ 7) mod 2 ^ 8 - 2 ^ 7)%Z.

Section conversions.
  (** The parser of identifiers in the MongoDB driver. *)
  Variable ObjectIDFromHex : string -> option ObjectID.

Definition parseObjectIDField (m : fields) (key : string) : result repo_error ObjectID :=
  match jget m key with
  | None => Err (RMissingField key)
  | Some (JStr value) =>
      if decide (value = "") then Err (REmptyField key) else
      match ObjectIDFromHex value with None => Err (RBadID key) | Some id => Ok id end
  | Some _ => Err (RNotString key)
  end.

End conversions.

Definition selector_fields (ls : LabelSelector) : jval := JObj [("key", JStr (ls_Key ls)); ("value", JStr (ls_Value ls))].

Definition decode_selector (item : jval) : option LabelSelector :=
  match item with JObj m => Some (mkLabelSelector (getStr m "key") (getStr m "value")) | _ => None end.

Definition decode_string (item : jval) : option string := match item with JStr s => Some s | _ => None end.

(** The entries of [podLabels] that are strings. *)
Fixpoint decode_labels (m : fields) : gmap string string :=
  match m with
  | [] => ∅
  | (k, JStr v) :: m' => <[k := v]> (decode_labels m')
  | _ :: m' => decode_labels m'
  end.

(** ** Filters and selectors *)

Definition containsOID (ids : list ObjectID) (target : ObjectID) : bool := existsb (String.eqb target) ids.
Definition containsStr (haystack : list string) (needle : string) : bool := existsb (String.eqb needle) haystack.
Definition containsState (haystack : list Z) (needle : Z) : bool := existsb (Z.eqb needle) haystack.
Definition sliceOverlap (a b : list string) : bool := existsb (fun v => containsStr b v) a.

(** [len(l) > 0 && !test] refuses. *)
Definition passes {A} (l : list A) (test : bool) : bool := match l with [] => true | _ => test end.

Definition buildLabelSelector (ids : list ObjectID) (label : string) : list requirement :=
  match ids with [] => [] | _ => [mkReq label ids] end.

Definition buildStateLabelSelector (states : list Z) : list requirement :=
  match states with [] => [] | _ => [mkReq labelState (Itoa <$> states)] end.

(** ** Operations *)

Section operations.
  Context {K : Type} `{KubeAPI K}.
  (** [bson.NewObjectID]. *)
  Variable NewObjectID : nat -> ObjectID.

Notation M := (SE (repo K) repo_error).

(** A call to the API server. *)
Definition kube {A} (m : SE K kube_error A) : SE (repo K) kube_error A :=
  fun r => let '(k, res) := m (r_kube r) in (mkRepo k (r_next r), res).

Definition new_id : M ObjectID := fun r => (mkRepo (r_kube r) (S (r_next r)), Ok (NewObjectID (r_next r))).

(** A conversion that may fail. *)
Definition lift {A} (m : result repo_error A) : M A := fun r => (r, m).

(** [if id.IsZero() { id = bson.NewObjectID() }]. *)
Definition ensure_id (id : ObjectID) : M ObjectID := if decide (id = NilObjectID) then new_id else sret id.

Definition or_now (now t : Z) : Z := if (t =? 0)%Z then now else t.

(** A deletion during the rollback: a missing object is no error. *)
Definition rollback_delete (g : gvr) (name : string) : M (list kube_error) :=
  let! r := stry (kube (kube_Delete g name)) in
  sret match r with Err KOther => [KOther] | _ => [] end.

(** [cg] is the kind of the intents, [pg] that of what they derive from. *)
Definition rollback (cg pg : gvr) (names : list string) (parent : string) : M (list kube_error) :=
  let! errs := scollect (rollback_delete cg) names in
  let! err := rollback_delete pg parent in
  sret (errs ++ err).

(** The loop that creates the intents, with the rollback of the first failure; the
    intents come back with their identifiers. *)
Fixpoint create_all {A} (cg pg : gvr) (id_of : A -> ObjectID) (stamp : ObjectID -> A -> A) (enc : A -> unstructured)
    (parent : ObjectID) (created : list string) (l : list A) : M (list A) :=
  match l with
  | [] => sret []
  | a :: rest =>
      let! id := ensure_id (id_of a) in
      let a := stamp id a in
      let! r := stry (kube (kube_Create cg (enc a))) in
      match r with
      | Err e =>
          let! errs := rollback cg pg created parent in
          sfail (RCreateIntent e errs)
      | Ok _ =>
          let! rest := create_all cg pg id_of stamp enc parent (created ++ [id_of a]) rest in
          sret (a :: rest)
      end
  end.

(** The object with its state, time stamp and label changed. *)
Definition update_state (now newState : Z) (obj : unstructured) (spec : fields) : unstructured :=
  let spec := jset (jset spec "state" (JInt newState)) "updatedTime" (JInt now) in
  let obj := jset obj "spec" (JObj spec) in
  SetLabels (<[labelState := Itoa newState]> (GetLabels obj)) obj.

Definition update_object_state (g : gvr) (now newState : Z) (id : ObjectID) : M unit :=
  let! r := stry (kube (kube_Get g id)) in
  match r with
  | Err KNotFound => sret tt
  | Err e => sfail (RKube e)
  | Ok obj =>
      match NestedMap obj "spec" with
      | None => sfail RNoSpec
      | Some spec =>
          let! _ := swrap RKube (kube (kube_Update g (update_state now newState obj spec))) in
          sret tt
      end
  end.

(** One object by name, converted and filtered; a missing one is skipped. *)
Definition fetch {A} (g : gvr) (from : unstructured -> result repo_error A) (keep : A -> bool) (id : ObjectID)
    : M (list A) :=
  let! r := stry (kube (kube_Get g id)) in
  match r with
  | Err KNotFound => sret []
  | Err e => sfail (RKube e)
  | Ok obj => let! x := lift (from obj) in sret (if keep x then [x] else [])
  end.

(** The objects of a list, converted and filtered. *)
Definition convert {A} (from : unstructured -> result repo_error A) (keep : A -> bool) (obj : unstructured) : M (list A) :=
  let! x := lift (from obj) in sret (if keep x then [x] else []).

(** A query: by names when some are given, otherwise by a selector. *)
Definition query_objects {A} (g : gvr) (from : unstructured -> result repo_error A) (keep : A -> bool) (ids : list ObjectID)
    (sel : list requirement) : M (list A) :=
  match ids with
  | [] => let! items := swrap RKube (kube (kube_List g sel)) in scollect (convert from keep) items
  | _ => scollect (fetch g from keep) ids
  end.

(** A deletion for which a missing object is no error. *)
Definition delete_object (g : gvr) (name : string) : M unit :=
  let! r := stry (kube (kube_Delete g name)) in
  match r with Err KOther => sfail (RKube KOther) | _ => sret tt end.

(** The deletion of all objects a requirement selects. *)
Definition delete_selected (g : gvr) (req : requirement) : M unit :=
  let! items := swrap RKube (kube (kube_List g [req])) in
  sfor (fun item => delete_object g (GetName item)) items.

End operations.

(** ** Conversions *)

Lemma decode_labels_fields m : decode_labels (string_fields m) = m.
Proof.
  unfold string_fields. rewrite <- (list_to_map_to_list m) at 2. generalize (map_to_list m).
  induction l as [|[k v] l IH]; [done|]. cbn. by rewrite IH.
Qed.

Lemma decode_selectors (l : list LabelSelector) : omap decode_selector (selector_fields <$> l) = l.
Proof. induction l as [|[k v] ls IH]; [done|]. cbn in *. by rewrite IH. Qed.
Lemma decode_strings (l : list string) : omap decode_string (JStr <$> l) = l.
Proof. induction l as [|x ns IH]; [done|]. cbn in *. by rewrite IH. Qed.

Lemma string_map_fields m : string_map (string_fields m) = Some m.
Proof.
  unfold string_fields. rewrite <- (list_to_map_to_list m) at 2. generalize (map_to_list m).
  induction l as [|[k v] l IH]; [done|]. cbn. by rewrite IH.
Qed.

Lemma jget_jset m k v k' : jget (jset m k v) k' = if decide (k' = k) then Some v else jget m k'.
Proof.
  induction m as [|[k0 w] m IH]; cbn.
  - by repeat case_decide; subst.
  - destruct (decide (k0 = k)) as [->|Hk]; cbn; [by repeat case_decide; subst|].
    destruct (decide (k0 = k')) as [->|Hk']; [by rewrite decide_False|]. exact IH.
Qed.

Lemma i8_id z : (-128 <= z < 128)%Z -> i8 z = z.
Proof. intros. unfold i8. rewrite Z.mod_small; lia. Qed.

Section identifiers.
  Variable ObjectIDFromHex : string -> option ObjectID.

(** An identifier as the driver prints it. *)
Definition valid_id (id : ObjectID) : Prop := id <> "" /\ ObjectIDFromHex id = Some id.

(** What is stored of an entity: no deletion time. *)
Definition valid_base (b : BaseEntity) : Prop :=
  valid_id (be_ID b) /\ be_DeletedTime b = 0%Z /\ valid_id (be_CreatorID b) /\ valid_id (be_UpdaterID b).

Lemma parse_valid m key id : jget m key = Some (JStr id) -> valid_id id -> parseObjectIDField ObjectIDFromHex m key = Ok id.
Proof. intros Hg [Hne Hp]. unfold parseObjectIDField. by rewrite Hg, decide_False, Hp. Qed.

End identifiers.

Lemma existsb_eqb_elem x l : existsb (String.eqb x) l = true <-> x ∈ l.
Proof.
  rewrite existsb_exists, list_elem_of_In. split.
  - intros (y & Hy & ->%String.eqb_eq). done.
  - intros Hx. exists x. split; [done|]. apply String.eqb_refl.
Qed.

Lemma passes_selector label ids (l : gmap string string) v :
  l !! label = Some v -> passes ids (containsOID ids v) = true -> forallb (satisfies l) (buildLabelSelector ids label) = true.
Proof.
  intros Hl Hp. destruct ids as [|x ids]; [done|]. cbn [forallb buildLabelSelector]. unfold satisfies.
  cbn [rq_label rq_values]. rewrite Hl, bool_decide_eq_true_2; [done|].
  by apply existsb_eqb_elem.
Qed.

Lemma passes_state_selector states (l : gmap string string) s :
  l !! labelState = Some (Itoa s) -> passes states (containsState states s) = true ->
  forallb (satisfies l) (buildStateLabelSelector states) = true.
Proof.
  intros Hl Hp. destruct states as [|x states]; [done|]. cbn [forallb buildStateLabelSelector]. unfold satisfies.
  cbn [rq_label rq_values]. rewrite Hl, bool_decide_eq_true_2; [done|].
  cbn [passes] in Hp. unfold containsState in Hp. apply existsb_exists in Hp as (y & Hy & ->%Z.eqb_eq).
  apply list_elem_of_fmap_2, list_elem_of_In. done.
Qed.

(** ** An API server to run the repository on

    Objects are held by name; each call consumes one outcome of a script and
    succeeds when the script is over. *)

Inductive kube_fate := FateOk | FateFails | FateLost.

Record map_kube := mkMapKube { mk_objects : gvr -> gmap string unstructured; mk_script : list kube_fate }.

Definition mk_put (g : gvr) (m : gmap string unstructured) (k : map_kube) : map_kube :=
  mkMapKube (fun g' => if decide (g' = g) then m else mk_objects k g') (tail (mk_script k)).

Definition mk_fate (k : map_kube) : kube_fate := default FateOk (head (mk_script k)).

(** An object read back carries its name. *)
Definition with_name (n : string) (o : unstructured) : unstructured :=
  match NestedMap o "metadata" with
  | Some md => jset o "metadata" (JObj (jset md "name" (JStr n)))
  | None => jset o "metadata" (JObj [("name", JStr n)])
  end.

Lemma with_name_name n o : GetName (with_name n o) = n.
Proof.
  unfold GetName, with_name, NestedMap, getStr. destruct (jget o "metadata") as [[]|]; rewrite jget_jset, decide_True by done;
    try done. cbv beta iota. by rewrite jget_jset, decide_True.
Qed.

Lemma with_name_content n o : content_of (with_name n o) = content_of o.
Proof.
  unfold content_of, with_name, GetLabels, NestedMap.
  destruct (jget o "metadata") as [[]|]; rewrite !jget_jset; try reflexivity.
  cbv beta iota. rewrite (decide_True (P := "metadata" = "metadata")) by done. cbv beta iota. by rewrite jget_jset.
Qed.

(** A write: what it does when it is executed, and what it answers then. *)
Definition mk_write {A} (g : gvr) (possible : bool) (missing : kube_error) (m : gmap string unstructured) (a : A)
    : SE map_kube kube_error A :=
  fun k =>
    match mk_fate k with
    | FateFails => (mk_put g (mk_objects k g) k, Err KOther)
    | FateLost => (mk_put g (if possible then m else mk_objects k g) k, Err KOther)
    | FateOk => if possible then (mk_put g m k, Ok a) else (mk_put g (mk_objects k g) k, Err missing)
    end.

Definition mk_read {A} (a : result kube_error A) : SE map_kube kube_error A :=
  fun k => (mk_put intentGVR (mk_objects k intentGVR) k, match mk_fate k with FateOk => a | _ => Err KOther end).

Definition is_there (m : gmap string unstructured) (n : string) : bool := bool_decide (is_Some (m !! n)).

#[global] Instance map_kube_api : KubeAPI map_kube := {|
  kube_objects k g := content_of <$> mk_objects k g;
  kube_Create g o := fun k => mk_write g (negb (is_there (mk_objects k g) (GetName o))) KOther
                       (<[GetName o := o]> (mk_objects k g)) o k;
  kube_Get g n := fun k => mk_read match mk_objects k g !! n with Some o => Ok (with_name n o) | None => Err KNotFound end k;
  kube_Update g o := fun k => mk_write g (is_there (mk_objects k g) (GetName o)) KNotFound
                       (<[GetName o := o]> (mk_objects k g)) o k;
  kube_Delete g n := fun k => mk_write g (is_there (mk_objects k g) n) KNotFound (delete n (mk_objects k g)) tt k;
  kube_List g reqs := fun k => mk_read (Ok ((fun no => with_name no.1 no.2) <$>
    filter (fun no => forallb (satisfies (GetLabels no.2)) reqs = true) (map_to_list (mk_objects k g)))) k
|}.

Lemma mk_unchanged g k : unchanged k (mk_put g (mk_objects k g) k).
Proof. intros g'. cbn. by case_decide; subst. Qed.

Lemma mk_changes g m k : changes g k (mk_put g m k) (content_of <$> m).
Proof. split; [|intros g' Hg]; cbn; [by rewrite decide_True|by rewrite decide_False]. Qed.

Lemma is_there_true m n : is_there m n = true -> is_Some ((content_of <$> m) !! n).
Proof. unfold is_there. rewrite bool_decide_eq_true, lookup_fmap. intros [o ->]. by eexists. Qed.

Lemma is_there_false m n : is_there m n = false -> (content_of <$> m) !! n = None.
Proof. unfold is_there. rewrite bool_decide_eq_false, lookup_fmap, <- eq_None_not_Some. by intros ->. Qed.

Lemma filter_contents reqs (l : list (string * unstructured)) :
  (fun o => (GetName o, content_of o)) <$>
    ((fun no => with_name no.1 no.2) <$> filter (fun no => forallb (satisfies (GetLabels no.2)) reqs = true) l) =
  filter (fun nc => forallb (satisfies (ct_labels nc.2)) reqs = true) (prod_map id content_of <$> l).
Proof.
  induction l as [|[n o] l IH]; [done|]. cbn [fmap list_fmap].
  destruct (forallb (satisfies (GetLabels o)) reqs) eqn:E.
  - rewrite !filter_cons_True by done. cbn [fmap list_fmap]. rewrite IH. f_equal. cbn.
    by rewrite with_name_name, with_name_content.
  - rewrite !filter_cons_False by (cbn; rewrite E; done). exact IH.
Qed.

#[global] Instance map_kube_laws : KubeLaws map_kube.
Proof.
  split; intros g; cbn; unfold mk_write, mk_read.
  - intros o k. destruct (is_there _ _) eqn:Et; cbn; destruct (mk_fate k); try (by left; apply mk_unchanged);
      apply is_there_false in Et; rewrite <- fmap_insert; auto using mk_changes.
  - intros n k. split; [apply (mk_unchanged intentGVR)|]. destruct (mk_fate k); try done. rewrite lookup_fmap.
    destruct (mk_objects k g !! n); cbn; [by rewrite with_name_name, with_name_content|done].
  - intros o k. destruct (is_there _ _) eqn:Et; cbn; destruct (mk_fate k); try (by left; apply mk_unchanged);
      apply is_there_true in Et; rewrite <- fmap_insert; auto using mk_changes.
  - intros n k. destruct (is_there _ _) eqn:Et; cbn; destruct (mk_fate k); try (by left; apply mk_unchanged);
      rewrite <- ?fmap_delete; auto using mk_changes, mk_unchanged, is_there_false.
  - intros reqs k. split; [apply (mk_unchanged intentGVR)|]. destruct (mk_fate k); try done.
    rewrite filter_contents. by rewrite map_to_list_fmap.
Qed.

(** ** What is stored *)

(** A domain type kept as a custom resource. *)
Class Resource (A : Type) := {
  res_gvr : gvr;
  res_name : A -> string;
  res_enc : A -> unstructured;
  res_dec : unstructured -> result repo_error A;
  res_valid : A -> Prop;
  res_enc_name : forall a, GetName (res_enc a) = res_name a;
  res_dec_enc : forall a o, res_valid a -> GetName o = res_name a -> content_of o = content_of (res_enc a) -> res_dec o = Ok a
}.

Section stored.
  Context {K : Type} {KA : KubeAPI K} {KL : KubeLaws K} {A : Type} {RA : Resource A}.

(** The store holds the resource. *)
Definition holds (k : K) (a : A) : Prop :=
  res_valid a /\ kube_objects k res_gvr !! res_name a = Some (content_of (res_enc a)).

(** It holds nothing else of its kind. *)
Definition all_held (k : K) : Prop :=
  forall n c, kube_objects k res_gvr !! n = Some c -> exists a, holds k a /\ res_name a = n /\ c = content_of (res_enc a).

Lemma unchanged_refl (k : K) : unchanged k k.
Proof. done. Qed.

Lemma unchanged_trans (k1 k2 k3 : K) : unchanged k1 k2 -> unchanged k2 k3 -> unchanged k1 k3.
Proof. intros H1 H2 g. by rewrite H2, H1. Qed.

Lemma holds_unchanged (k k' : K) a : unchanged k k' -> holds k' a <-> holds k a.
Proof. intros Hu. unfold holds. by rewrite Hu. Qed.

Lemma holds_inj (k : K) a b : holds k a -> holds k b -> res_name a = res_name b -> a = b.
Proof.
  intros [Ha Hka] [Hb Hkb] Hn. rewrite <- Hn, Hka in Hkb. apply (inj Some) in Hkb.
  assert (res_dec (res_enc a) = Ok a) as E1 by (apply res_dec_enc; [done|apply res_enc_name|done]).
  rewrite (res_dec_enc b (res_enc a)) in E1; [congruence|done|by rewrite res_enc_name|done].
Qed.

Lemma get_state g n (k : K) : unchanged k (kube_Get g n k).1.
Proof. pose proof (get_law g n k) as L. destruct (kube_Get g n k). apply L. Qed.

(** Fetching by name finds what is held under it. *)
Lemma fetch_spec keep id (r : repo K) :
  all_held (r_kube r) ->
  let '(r', res) := fetch res_gvr res_dec keep id r in
  unchanged (r_kube r) (r_kube r') /\
  match res with
  | Ok l => forall a, a ∈ l <-> holds (r_kube r) a /\ res_name a = id /\ keep a = true
  | Err e => exists ke, e = RKube ke
  end.
Proof.
  intros Hall. unfold fetch, sbind, stry, kube. pose proof (get_law res_gvr id (r_kube r)) as L.
  destruct (kube_Get res_gvr id (r_kube r)) as [k' [o|[]]]; destruct L as [Hu L]; cbn.
  - destruct L as [Hn Hk]. destruct (Hall _ _ Hk) as (a & Ha & Hna & Hc).
    unfold lift. rewrite (res_dec_enc a o); [|apply Ha|congruence|done]. cbn. split; [exact Hu|]. intros b.
    assert (b ∈ (if keep a then [a] else []) <-> b = a /\ keep a = true) as -> by (destruct (keep a); set_solver).
    split; [intros [-> ?]; done|]. intros (Hb & Hnb & Hkb).
    assert (b = a) as -> by (apply (holds_inj (r_kube r)); congruence). done.
  - split; [exact Hu|]. intros a. split; [set_solver|]. intros ([_ Ha] & <- & _). congruence.
  - split; [exact Hu|]. eauto.
Qed.

Lemma fetches_spec keep ids (r : repo K) :
  all_held (r_kube r) ->
  let '(r', res) := scollect (fetch res_gvr res_dec keep) ids r in
  unchanged (r_kube r) (r_kube r') /\
  match res with
  | Ok l => forall a, a ∈ l <-> holds (r_kube r) a /\ res_name a ∈ ids /\ keep a = true
  | Err e => exists ke, e = RKube ke
  end.
Proof.
  intros Hall.
  pose proof (scollect_elems (fun s => unchanged (r_kube r) (r_kube s))
    (fun (id : ObjectID) a => holds (r_kube r) a /\ res_name a = id /\ keep a = true)
    (fun e => exists ke, e = RKube ke) (fetch res_gvr res_dec keep) ids r (unchanged_refl _)) as L.
  destruct (scollect _ ids r) as [r' res]. cbn in L. destruct L as [Hu L].
  - intros id s _ Hs. assert (all_held (r_kube s)) as Hall'.
    { intros n c Hc. rewrite Hs in Hc. destruct (Hall n c Hc) as (a & Ha & ?). exists a. by rewrite (holds_unchanged _ _ _ Hs). }
    pose proof (fetch_spec keep id s Hall') as F. destruct (fetch res_gvr res_dec keep id s) as [s' x]. destruct F as [F1 F2].
    split; [by eapply unchanged_trans|]. cbn. destruct x as [bs|]; [|done]. intros a. by rewrite F2, (holds_unchanged _ _ _ Hs).
  - split; [exact Hu|]. destruct res as [bs|]; [|done]. intros a. rewrite L. set_solver.
Qed.

(** What fetching gives for one name. *)
Definition fetched (k : K) (keep : A -> bool) (id : ObjectID) (l : list A) : Prop :=
  (exists a, l = [a] /\ holds k a /\ res_name a = id /\ keep a = true) \/
  (l = [] /\ forall a, holds k a -> res_name a = id -> keep a = false).

(** Fetching several names gives at most one resource for each, in their order. *)
Lemma fetches_exact keep ids (r r' : repo K) l :
  all_held (r_kube r) -> scollect (fetch res_gvr res_dec keep) ids r = (r', Ok l) ->
  exists ll, Forall2 (fetched (r_kube r) keep) ids ll /\ l = concat ll.
Proof.
  intros Hall. assert (forall ids s, unchanged (r_kube r) (r_kube s) ->
    match scollect (fetch res_gvr res_dec keep) ids s with
    | (_, Ok l) => exists ll, Forall2 (fetched (r_kube r) keep) ids ll /\ l = concat ll
    | _ => True end) as Hloop.
  { clear ids l. induction ids as [|id ids IH]; intros s Hs; [cbn; exists []; by split|]. cbn [scollect]. unfold sbind.
    assert (all_held (r_kube s)) as Hall'.
    { intros n c Hc. rewrite Hs in Hc. destruct (Hall n c Hc) as (a & Ha & ?). exists a. by rewrite (holds_unchanged _ _ _ Hs). }
    pose proof (fetch_spec keep id s Hall') as F.
    assert (match (fetch res_gvr res_dec keep id s).2 with Ok l => length l <= 1 | Err _ => True end) as Hlen.
    { unfold fetch, sbind, stry, kube. destruct (kube_Get res_gvr id (r_kube s)) as [k' [o|[]]]; cbn; try lia; try done.
      unfold lift. destruct (res_dec o) as [x|]; cbn; [destruct (keep x); cbn; lia|done]. }
    destruct (fetch res_gvr res_dec keep id s) as [s1 [l1|e]]; [|done]. destruct F as [Hu F].
    specialize (IH s1 (unchanged_trans _ _ _ Hs Hu)). destruct (scollect _ ids s1) as [s2 [l2|e]]; [|done].
    destruct IH as (ll & Hll & ->). cbn. exists (l1 :: ll). split; [|done]. constructor; [|done].
    destruct l1 as [|a [|b l1]]; [|..|cbn in Hlen; lia].
    - right. split; [done|]. intros a Ha Hn. destruct (keep a) eqn:E; [|done].
      assert (a ∈ ([] : list A)) as []%not_elem_of_nil. apply F. by rewrite (holds_unchanged _ _ _ Hs).
    - left. exists a. split; [done|]. rewrite <- (holds_unchanged _ _ _ Hs). apply F. set_solver. }
  intros E. pose proof (Hloop ids r (unchanged_refl _)) as L. by rewrite E in L.
Qed.

(** As many as were asked for only if each is there. *)
Lemma fetched_all (k : K) keep ids ll :
  Forall2 (fetched k keep) ids ll -> length (concat ll) <= length ids /\
  (length (concat ll) = length ids -> forall id, id ∈ ids -> exists a, holds k a /\ res_name a = id /\ keep a = true).
Proof.
  induction 1 as [|id l ids ll Hf _ [IH1 IH2]]; [cbn; split; [lia|set_solver]|]. cbn. rewrite length_app.
  destruct Hf as [(a & -> & Ha)|[-> _]]; cbn; (split; [lia|]); intros Hl; [|lia].
  intros id' [->|Hid]%elem_of_cons; [eauto|]. apply IH2; [lia|done].
Qed.

(** Listing with a selector that every wanted resource satisfies. *)
Lemma list_spec keep reqs (r : repo K) :
  all_held (r_kube r) ->
  (forall a, keep a = true -> forallb (satisfies (GetLabels (res_enc a))) reqs = true) ->
  let '(r', res) := (swrap RKube (kube (kube_List res_gvr reqs)) : SE (repo K) repo_error _) r in
  match res with
  | Ok items =>
      let '(r', res) := scollect (convert res_dec keep) items r' in
      unchanged (r_kube r) (r_kube r') /\
      match res with Ok l => forall a, a ∈ l <-> holds (r_kube r) a /\ keep a = true | Err e => False end
  | Err e => unchanged (r_kube r) (r_kube r') /\ exists ke, e = RKube ke
  end.
Proof.
  intros Hall Hsel. unfold swrap, kube. pose proof (list_law res_gvr reqs (r_kube r)) as L.
  destruct (kube_List res_gvr reqs (r_kube r)) as [k' [items|e]]; destruct L as [Hu L]; cbn; [|eauto].
  set (r1 := mkRepo k' (r_next r)).
  pose proof (scollect_elems (fun s => s = r1) (fun o a => res_dec o = Ok a /\ keep a = true) (fun _ => False)
    (convert res_dec keep) items r1 eq_refl) as C.
  destruct (scollect (convert res_dec keep) items r1) as [r' res]. cbn in C. destruct C as [-> C].
  { intros o s Ho ->.
    assert ((GetName o, content_of o) ∈ filter (fun nc => forallb (satisfies (ct_labels nc.2)) reqs = true)
      (map_to_list (kube_objects (r_kube r) res_gvr))) as Hin by (rewrite <- L; apply list_elem_of_fmap; eauto).
    apply list_elem_of_filter in Hin as [_ Hin%elem_of_map_to_list].
    destruct (Hall _ _ Hin) as (a & Ha & Hna & Hc). unfold convert, sbind, lift.
    rewrite (res_dec_enc a o); [|apply Ha|done|done]. cbn. split; [done|]. intros b.
    split; [destruct (keep a) eqn:Ek; set_solver|]. intros [[= <-] ->]. set_solver. }
  split; [exact Hu|]. destruct res as [l|]; [|done]. intros a. rewrite C. split.
  - intros (o & Ho & Hd & Hk).
    assert ((GetName o, content_of o) ∈ filter (fun nc => forallb (satisfies (ct_labels nc.2)) reqs = true)
      (map_to_list (kube_objects (r_kube r) res_gvr))) as Hin by (rewrite <- L; apply list_elem_of_fmap; eauto).
    apply list_elem_of_filter in Hin as [_ Hin%elem_of_map_to_list]. destruct (Hall _ _ Hin) as (b & Hb & Hnb & Hc).
    rewrite (res_dec_enc b o) in Hd; [|apply Hb|done|done]. injection Hd as <-. done.
  - intros [Ha Hk]. assert ((res_name a, content_of (res_enc a)) ∈ filter (fun nc => forallb (satisfies (ct_labels nc.2)) reqs = true)
      (map_to_list (kube_objects (r_kube r) res_gvr))) as Hin.
    { apply list_elem_of_filter. split; [by apply Hsel|]. apply elem_of_map_to_list. apply Ha. }
    rewrite <- L in Hin. apply list_elem_of_fmap in Hin as (o & [= Hn Hc] & Ho). exists o. split; [done|]. split; [|done].
    apply res_dec_enc; [apply Ha|done|]. unfold content_of. by f_equal.
Qed.

(** [len(opt.IDs) > 0] restricts a query to the names. *)
Definition named (ids : list ObjectID) (id : ObjectID) : Prop := ids = [] \/ id ∈ ids.

Lemma query_spec keep ids reqs (r : repo K) :
  all_held (r_kube r) ->
  (forall a, keep a = true -> forallb (satisfies (GetLabels (res_enc a))) reqs = true) ->
  let '(r', res) := query_objects res_gvr res_dec keep ids reqs r in
  unchanged (r_kube r) (r_kube r') /\
  match res with
  | Ok l => forall a, a ∈ l <-> holds (r_kube r) a /\ named ids (res_name a) /\ keep a = true
  | Err e => exists ke, e = RKube ke
  end.
Proof.
  intros Hall Hsel. unfold query_objects, named. destruct ids as [|x ids].
  - pose proof (list_spec keep reqs r Hall Hsel) as L. unfold sbind. destruct (swrap _ _ r) as [r1 [items|e]]; [|done].
    destruct (scollect _ items r1) as [r' [l|e]]; [|by destruct L].
    destruct L as [Hu L]. split; [done|]. intros a. rewrite L. tauto.
  - pose proof (fetches_spec keep (x :: ids) r Hall) as L.
    destruct (scollect _ (x :: ids) r) as [r' [l|e]]; [|done]. destruct L as [Hu L]. split; [done|]. intros a. rewrite L.
    naive_solver.
Qed.

(** *** Keeping the store well formed *)

Lemma all_held_same (k k' : K) : kube_objects k' res_gvr = kube_objects k res_gvr -> all_held k -> all_held k'.
Proof. unfold all_held, holds. by intros ->. Qed.

(** Objects of this kind may disappear. *)
Lemma all_held_subset (k k' : K) :
  (forall m, kube_objects k' res_gvr !! m = None \/ kube_objects k' res_gvr !! m = kube_objects k res_gvr !! m) ->
  all_held k -> all_held k'.
Proof.
  intros Hs Hall n c Hc. destruct (Hs n) as [Hn|Hn]; [congruence|]. rewrite Hn in Hc.
  destruct (Hall n c Hc) as (a & [Ha _] & Hna & ->). exists a. split; [split; [done|]|done]. by rewrite Hna, Hn.
Qed.

Lemma all_held_insert (k k' : K) a :
  res_valid a -> kube_objects k' res_gvr = <[res_name a := content_of (res_enc a)]> (kube_objects k res_gvr) ->
  all_held k -> all_held k'.
Proof.
  intros Hv Hk Hall n c Hc. rewrite Hk in Hc. apply lookup_insert_Some in Hc as [[<- <-]|[Hne Hc]].
  - exists a. split; [|done]. split; [done|]. by rewrite Hk, lookup_insert_eq.
  - destruct (Hall n c Hc) as (b & [Hb Hkb] & <- & ->). exists b. split; [|done]. split; [done|].
    by rewrite Hk, lookup_insert_ne.
Qed.

End stored.


(** ** What the operations do *)

Section deletion.
  Context {K : Type} {KA : KubeAPI K} {KL : KubeLaws K}.

(** Objects of one kind disappear; nothing else changes. *)
Lemma delete_object_spec g n (r : repo K) :
  let '(r', res) := delete_object g n r in
  (forall g' m, (g', m) <> (g, n) -> kube_objects (r_kube r') g' !! m = kube_objects (r_kube r) g' !! m) /\
  match res with
  | Ok _ => kube_objects (r_kube r') g !! n = None
  | Err e => e = RKube KOther /\
      (kube_objects (r_kube r') g !! n = None \/ kube_objects (r_kube r') g !! n = kube_objects (r_kube r) g !! n)
  end.
Proof.
  unfold delete_object, sbind, stry, kube. pose proof (delete_law g n (r_kube r)) as L.
  destruct (kube_Delete g n (r_kube r)) as [k' [[]|[]]]; cbn.
  - destruct L as [L1 L2]. split; [|by rewrite L1, lookup_delete_eq]. intros g' m Hne.
    destruct (decide (g' = g)) as [->|]; [rewrite L1, lookup_delete_ne; congruence|by rewrite L2].
  - destruct L as [Hn Hu]. split; [intros g' m _; by rewrite Hu|by rewrite Hu].
  - destruct L as [Hu|[L1 L2]].
    + split; [intros g' m _; by rewrite Hu|]. split; [done|]. right. by rewrite Hu.
    + split; [|by rewrite L1, lookup_delete_eq; auto]. intros g' m Hne.
      destruct (decide (g' = g)) as [->|]; [rewrite L1, lookup_delete_ne; congruence|by rewrite L2].
Qed.

Lemma delete_objects_spec {B} (name : B -> string) g l (r : repo K) :
  let '(r', res) := sfor (fun b => delete_object g (name b)) l r in
  (forall g' m, g' <> g \/ m ∉ name <$> l -> kube_objects (r_kube r') g' !! m = kube_objects (r_kube r) g' !! m) /\
  (forall m, kube_objects (r_kube r') g !! m = None \/ kube_objects (r_kube r') g !! m = kube_objects (r_kube r) g !! m) /\
  match res with
  | Ok _ => forall m, m ∈ name <$> l -> kube_objects (r_kube r') g !! m = None
  | Err e => e = RKube KOther
  end.
Proof.
  revert r. induction l as [|b l IH]; intros r; [cbn; split_and!; auto; set_solver|]. cbn [sfor]. unfold sbind.
  pose proof (delete_object_spec g (name b) r) as D. destruct (delete_object g (name b) r) as [r1 res1]. destruct D as [D1 D2].
  assert (forall m, kube_objects (r_kube r1) g !! m = None \/ kube_objects (r_kube r1) g !! m = kube_objects (r_kube r) g !! m) as D3.
  { intros m. destruct (decide (m = name b)) as [->|]; [destruct res1; [by left|apply D2]|]. right. apply D1. congruence. }
  destruct res1 as [[]|e]; cbn [fmap list_fmap].
  - specialize (IH r1). destruct (sfor _ l r1) as [r' res]. destruct IH as (I1 & I2 & I3). split_and!.
    + intros g' m Hm. rewrite I1 by set_solver. apply D1. intros [= -> ->]. set_solver.
    + intros m. destruct (I2 m) as [Hnone| ->]; [by left|apply D3].
    + destruct res; [|done]. intros m [->|Hm]%elem_of_cons; [|by apply I3].
      destruct (I2 (name b)) as [Hnone| ->]; done.
  - split_and!; [|exact D3|apply D2]. intros g' m Hm. apply D1. intros [= -> ->]. set_solver.
Qed.

Lemma delete_names_spec g (l : list ObjectID) (r : repo K) :
  let '(r', res) := sfor (delete_object g) l r in
  (forall g' m, g' <> g \/ m ∉ l -> kube_objects (r_kube r') g' !! m = kube_objects (r_kube r) g' !! m) /\
  match res with
  | Ok _ => forall m, m ∈ l -> kube_objects (r_kube r') g !! m = None
  | Err e => e = RKube KOther
  end.
Proof.
  assert (sfor (delete_object g) l r = sfor (fun b : ObjectID => delete_object g (id b)) l r) as -> by done.
  pose proof (delete_objects_spec id g l r) as D. destruct (sfor _ l r) as [r' res]. rewrite list_fmap_id in D.
  destruct D as (D1 & _ & D3). done.
Qed.

End deletion.

Section selection.
  Context {K : Type} {KA : KubeAPI K} {KL : KubeLaws K} {A : Type} {RA : Resource A}.

(** Deleting by selector removes exactly what the selector selects. *)
Lemma delete_selected_spec req (r : repo K) :
  all_held (r_kube r) ->
  let '(r', res) := delete_selected res_gvr req r in
  (forall g, g <> res_gvr -> forall m, kube_objects (r_kube r') g !! m = kube_objects (r_kube r) g !! m) /\
  all_held (r_kube r') /\
  (forall a, holds (r_kube r') a -> holds (r_kube r) a) /\
  (forall a, holds (r_kube r) a -> satisfies (GetLabels (res_enc a)) req = false -> holds (r_kube r') a) /\
  match res with
  | Ok _ => forall a, holds (r_kube r') a -> satisfies (GetLabels (res_enc a)) req = false
  | Err e => exists ke, e = RKube ke
  end.
Proof.
  intros Hw. unfold delete_selected, sbind, swrap, kube. pose proof (list_law res_gvr [req] (r_kube r)) as L.
  destruct (kube_List _ _ (r_kube r)) as [k1 [items|e]]; destruct L as [Hu L].
  2: { cbn. split_and!; [intros g _ m; by rewrite Hu|by eapply all_held_same; [apply Hu|]|..|eauto];
       intros a; rewrite (holds_unchanged _ _ _ Hu); done. }
  pose proof (delete_objects_spec GetName res_gvr items (mkRepo k1 (r_next r))) as D.
  destruct (sfor _ items _) as [r' res]. cbn [r_kube] in D. destruct D as (D1 & D2 & D3).
  assert (forall g m, kube_objects k1 g !! m = kube_objects (r_kube r) g !! m) as Hu' by (intros; by rewrite Hu).
  setoid_rewrite Hu' in D1. setoid_rewrite Hu' in D2.
  assert (forall a, holds (r_kube r) a -> res_name a ∈ GetName <$> items <-> satisfies (GetLabels (res_enc a)) req = true) as Hnames.
  { intros a [Hv Hi]. rewrite list_elem_of_fmap. split.
    - intros (o & Hn & Ho). assert ((GetName o, content_of o) ∈ (fun o => (GetName o, content_of o)) <$> items) as Hin
        by (apply list_elem_of_fmap; eauto).
      rewrite L, list_elem_of_filter, elem_of_map_to_list, <- Hn, Hi in Hin. destruct Hin as [Hf E].
      apply (inj Some) in E. rewrite <- E in Hf. cbn in Hf. by rewrite andb_true_r in Hf.
    - intros Hf. assert ((res_name a, content_of (res_enc a)) ∈ (fun o => (GetName o, content_of o)) <$> items) as Hin.
      { rewrite L, list_elem_of_filter, elem_of_map_to_list. cbn. by rewrite Hf. }
      apply list_elem_of_fmap in Hin as (o & E & Ho). apply (f_equal fst) in E. eauto. }
  assert (forall a, holds (r_kube r') a -> holds (r_kube r) a) as Hback.
  { intros a [Hv Hi]. split; [done|]. destruct (D2 (res_name a)) as [Hn|Hn]; congruence. }
  split_and!.
  - intros g Hg m. apply D1. by left.
  - eapply all_held_subset; [exact D2|done].
  - exact Hback.
  - intros a Ha Hne. destruct (Ha) as [Hv Hk]. split; [done|]. rewrite D1; [done|]. right.
    rewrite Hnames by done. congruence.
  - destruct res as [[]|e]; [|eauto]. intros a Ha. apply not_true_is_false. intros Hs%Hnames; [|auto].
    destruct Ha as [_ Hi]. by rewrite (D3 _ Hs) in Hi.
Qed.

End selection.

Section creation.
  Context {K : Type} {KA : KubeAPI K} {KL : KubeLaws K}.
  Variable NewObjectID : nat -> ObjectID.

Notation at_ r g m := (kube_objects (r_kube r) g !! m).

Lemma rollback_delete_spec g n (r : repo K) :
  let '(r', res) := rollback_delete g n r in
  (forall g' m, (g', m) <> (g, n) -> at_ r' g' m = at_ r g' m) /\
  exists errs, res = Ok errs /\ (errs = [] -> at_ r' g n = None).
Proof.
  pose proof (delete_object_spec g n r) as D. unfold delete_object, rollback_delete, sbind, stry, kube in *.
  destruct (kube_Delete g n (r_kube r)) as [k' [[]|[]]]; cbn in *; destruct D as [D1 D2];
    (split; [exact D1|]); eexists; (split; [reflexivity|]); try done.
Qed.

Lemma rollback_spec cg pg names n (r : repo K) :
  let '(r', res) := rollback cg pg names n r in
  (forall g m, ~ (g = cg /\ m ∈ names) -> ~ (g = pg /\ m = n) -> at_ r' g m = at_ r g m) /\
  exists errs, res = Ok errs /\
    (cg <> pg -> errs = [] -> (forall m, m ∈ names -> at_ r' cg m = None) /\ at_ r' pg n = None).
Proof.
  unfold rollback. assert (forall names (r : repo K), let '(r', res) := scollect (rollback_delete cg) names r in
    (forall g m, ~ (g = cg /\ m ∈ names) -> at_ r' g m = at_ r g m) /\
    exists errs, res = Ok errs /\ (errs = [] -> forall m, m ∈ names -> at_ r' cg m = None)) as Hloop.
  { clear r names. induction names as [|x names IH]; intros r; [cbn; split; [done|]; exists []; set_solver|].
    cbn [scollect]. unfold sbind. pose proof (rollback_delete_spec cg x r) as D.
    destruct (rollback_delete cg x r) as [r1 res1]. destruct D as [D1 (e1 & -> & D2)].
    specialize (IH r1). destruct (scollect _ names r1) as [r' res]. destruct IH as [I1 (e2 & -> & I2)]. cbn. split.
    - intros g m Hm. rewrite I1 by set_solver. apply D1. intros [= -> ->]. apply Hm. set_solver.
    - exists (e1 ++ e2). split; [done|]. intros [-> ->]%app_eq_nil m Hm.
      destruct (decide (m ∈ names)) as [Hin|Hin]; [by apply I2|]. apply elem_of_cons in Hm as [->|]; [|done].
      rewrite I1 by tauto. by apply D2. }
  unfold sbind. pose proof (Hloop names r) as L. destruct (scollect _ names r) as [r1 res1]. destruct L as [L1 (e1 & -> & L2)].
  pose proof (rollback_delete_spec pg n r1) as D. destruct (rollback_delete pg n r1) as [r' res].
  destruct D as [D1 (e2 & -> & D2)]. cbn. split.
  - intros g m H1 H2. rewrite D1 by (intros [= -> ->]; tauto). by apply L1.
  - exists (e1 ++ e2). split; [done|]. intros Hne [-> ->]%app_eq_nil. split; [|by apply D2]. intros m Hm.
    rewrite D1 by congruence. by apply L2.
Qed.

Lemma ensure_id_kube id (r : repo K) : exists id' r', ensure_id NewObjectID id r = (r', Ok id') /\ r_kube r' = r_kube r /\
  (id = NilObjectID \/ id' = id) /\ (id <> NilObjectID \/ exists n, id' = NewObjectID n).
Proof. unfold ensure_id. case_decide; cbn; eexists _, _; (split; [reflexivity|]); split_and!; eauto. Qed.

(** A creation: the object appears, or nothing else than it may have changed. *)
Lemma create_spec g o (r : repo K) :
  let '(r', res) := (kube (kube_Create g o) : SE (repo K) kube_error _) r in
  (forall g' m, (g', m) <> (g, GetName o) -> at_ r' g' m = at_ r g' m) /\
  match res with
  | Ok o' => GetName o' = GetName o /\ at_ r g (GetName o) = None /\ at_ r' g (GetName o) = Some (content_of o)
  | Err _ => True
  end.
Proof.
  unfold kube. pose proof (create_law g o (r_kube r)) as L. destruct (kube_Create g o (r_kube r)) as [k' res]. cbn.
  assert (changes g (r_kube r) k' (<[GetName o := content_of o]> (kube_objects (r_kube r) g)) ->
    (forall g' m, (g', m) <> (g, GetName o) -> kube_objects k' g' !! m = at_ r g' m) /\
    kube_objects k' g !! GetName o = Some (content_of o)) as Hc.
  { intros [C1 C2]. split; [|by rewrite C1, lookup_insert_eq]. intros g' m Hne.
    destruct (decide (g' = g)) as [->|]; [rewrite C1, lookup_insert_ne; congruence|by rewrite C2]. }
  destruct res as [o'|e].
  - destruct L as (L1 & L2 & [H1 H2]%Hc). done.
  - split; [|done]. destruct L as [Hu|[_ [H1 _]%Hc]]; [|done]. intros g' m _. by rewrite Hu.
Qed.

(** The loop over the intents, from a state in which [created] exist since [r0]. *)
Lemma create_all_spec {A} cg pg (id_of : A -> ObjectID) stamp enc parent created l (r r0 : repo K) :
  cg <> pg -> (forall a, GetName (enc a) = id_of a) ->
  (forall m, m ∈ created -> at_ r0 cg m = None) -> at_ r0 pg parent = None ->
  (forall g m, ~ (g = cg /\ m ∈ created) -> ~ (g = pg /\ m = parent) -> at_ r g m = at_ r0 g m) ->
  let '(r', res) := create_all NewObjectID cg pg id_of stamp enc parent created l r in
  match res with
  | Ok l' =>
      Forall2 (fun a a' => exists id, a' = stamp id a) l l' /\
      (forall a, a ∈ l' -> at_ r' cg (id_of a) = Some (content_of (enc a))) /\
      (forall g m c, at_ r g m = Some c -> at_ r' g m = Some c) /\
      (forall g m, g <> cg \/ m ∉ id_of <$> l' -> at_ r' g m = at_ r g m)
  | Err (RCreateIntent _ errs) =>
      errs = [] -> exists failed, forall g m, (g, m) <> (cg, failed) -> at_ r' g m = at_ r0 g m
  | Err _ => False
  end.
Proof.
  intros Hkinds Hname. revert created r. induction l as [|a rest IH]; intros created r Hc Hs Hr.
  { cbn. split_and!; [constructor|set_solver|done|done]. }
  cbn [create_all]. unfold sbind. destruct (ensure_id_kube (id_of a) r) as (id & r1 & -> & Hk1 & _).
  set (a' := stamp id a). unfold stry. pose proof (create_spec cg (enc a') r1) as C. rewrite Hname in C.
  destruct (kube _ r1) as [r2 [o|e]]; destruct C as [C1 C2]; rewrite Hk1 in C1.
  - destruct C2 as (_ & C2 & C3). rewrite Hk1 in C2.
    assert (forall m, m ∈ created ++ [id_of a'] -> at_ r0 cg m = None) as P1.
    { intros m Hm. destruct (decide (m ∈ created)) as [Hin|Hin]; [by apply Hc|].
      assert (m = id_of a') as -> by set_solver. rewrite <- Hr; [done|tauto|]. by intros [? _]. }
    assert (forall g m, ~ (g = cg /\ m ∈ created ++ [id_of a']) -> ~ (g = pg /\ m = parent) ->
      at_ r2 g m = at_ r0 g m) as P3.
    { intros g m H1 H2. rewrite C1; [apply Hr; set_solver|]. intros [= -> ->]. apply H1. set_solver. }
    specialize (IH _ r2 P1 Hs P3). destruct (create_all _ _ _ _ _ _ _ (created ++ [id_of a']) rest r2) as [r' res].
    destruct res as [l'|e]; [|destruct e; done]. destruct IH as (I1 & I2 & I3 & I4). cbn. split_and!.
    + constructor; [|done]. by exists id.
    + intros b [->|Hb]%elem_of_cons; [by apply I3|by apply I2].
    + intros g m c Hm. apply I3. rewrite C1; [done|]. intros [= -> ->]. congruence.
    + intros g m Hm. rewrite I4 by set_solver. apply C1. intros [= -> ->]. set_solver.
  - pose proof (rollback_spec cg pg created parent r2) as R. destruct (rollback cg pg created parent r2) as [r' res].
    destruct R as [R1 (errs & -> & R2)]. cbn. intros He. destruct (R2 Hkinds He) as [R3 R4]. exists (id_of a'). intros g m Hne.
    destruct (decide (g = cg /\ m ∈ created)) as [[-> Hin]|Hn1]; [by rewrite R3, Hc|].
    destruct (decide (g = pg /\ m = parent)) as [[-> ->]|Hn2]; [by rewrite R4, Hs|].
    rewrite R1, C1, Hr by done. done.
Qed.

End creation.
