(* ===== verification/Monitor.v ===== *)
(** * The kernel monitor

    src/monitor: which process belongs to which pod ([PodMapper]), the index of the pods of
    the node ([Indexer.refresh]), the watcher of PodSchedulingMetrics resources that keeps
    the kernel's table of monitored processes ([Watcher]), and the collector that reads
    the kernel's counters and sums them up per pod ([Collector]).

    The proc and sys file systems are those of ProcScan.  libbpfgo is not part of the
    source: a table of the kernel is an instance of [BPFMap], with what its documentation
    says of updates and deletions, failures included; a table in a set is the instance
    used in examples.  The four goroutines share the mapper and take its lock for each
    access; the model runs one operation after the other.  Go's order of iteration over a
    map is a parameter [range].

    The theorems: the kernel monitors exactly the processes of the pods some enabled
    resource selects, and what it was left with ([reconcile_monitors_selected]); the
    watcher never believes a process monitored that is not ([tracked_are_monitored]); a
    poll sums the counters of the processes of each pod ([poll_sums_per_pod]); the pod
    identifier in a cgroup path is found for both drivers of the kubelet
    ([pod_uid_found]). *)

From stdpp Require Import base gmap strings list sorting.
From Stdlib Require Import ZArith Lia Ascii.
From S2P Require Import Prelude GoStrings GoPath GoSort GoFloat Intents ProcScan ManagerDomain KubeStore.
#[local] Open Scope go_scope.

(** ** Strings *)

(** What follows, and what precedes, the first occurrence of [sub]: [strings.Index] with
    the slices taken from it. *)
Fixpoint after_first (sub s : string) : option string :=
  match strip_prefix sub s with
  | Some r => Some r
  | None => match s with String _ s' => after_first sub s' | EmptyString => None end
  end.
Fixpoint before_first (sub s : string) : option string :=
  match strip_prefix sub s with
  | Some _ => Some ""
  | None => match s with String a s' => String a <$> before_first sub s' | EmptyString => None end
  end.

(** [strconv.ParseUint(s, 10, 32)] *)
Definition max_u32 : Z := (2 ^ 32 - 1)%Z.
Definition ParseUint32 (s : string) : option Z :=
  match ParseUint s with
  | (n, true) => if (n <=? max_u32)%Z then Some n else None
  | _ => None
  end.

(** ** pod_mapper.go *)

Record PodRef := mkPodRef {
  pr_PodName : string; pr_PodUID : string; pr_Namespace : string; pr_NodeName : string;
  pr_Labels : gmap string string;
}.

Record PodMapper := mkPodMapper {
  procRoot : string;
  pm_nodeName : string;
  pidCache : gmap Z PodRef;
  podIndex : gmap string PodRef;
}.

Definition NewPodMapper (nodeName : string) : PodMapper := mkPodMapper "/proc" nodeName ∅ ∅.

Definition SetPodIndex (pods : gmap string PodRef) (m : PodMapper) : PodMapper :=
  mkPodMapper (procRoot m) (pm_nodeName m) ∅ pods.

Definition normalizePodUID (raw : string) : string := replace_char "_" "-" raw.

Definition extractPodUID (line : string) : string :=
  match after_first "/pod" line with
  | Some rest => normalizePodUID (default rest (before_first "/" rest))
  | None =>
      match after_first "-pod" line with
      | Some rest =>
          match before_first ".slice" rest with
          | Some uid => normalizePodUID uid
          | None => ""
          end
      | None => ""
      end
  end.

Section mapper.
  Context (fs : procfs).

(** The loop over the lines of the cgroup file. *)
Fixpoint resolve_lines (index : gmap string PodRef) (lines : list string) : option PodRef :=
  match lines with
  | [] => None
  | line :: ls =>
      let podUID := extractPodUID line in
      if decide (podUID = "") then resolve_lines index ls else
      match index !! podUID with
      | Some ref => Some ref
      | None => resolve_lines index ls
      end
  end.

Definition resolvePIDtoPod (m : PodMapper) (pid : Z) : option PodRef :=
  match ReadFile fs (PathJoin (PathJoin (procRoot m) (Itoa pid)) "cgroup") with
  | Ok data => resolve_lines (podIndex m) (scan_lines data)
  | Err _ => None
  end.

Definition GetPodForPID (m : PodMapper) (pid : Z) : PodMapper * option PodRef :=
  match pidCache m !! pid with
  | Some ref => (m, Some ref)
  | None =>
      match resolvePIDtoPod m pid with
      | Some ref => (mkPodMapper (procRoot m) (pm_nodeName m) (<[pid := ref]> (pidCache m)) (podIndex m), Some ref)
      | None => (m, None)
      end
  end.

(** The process of a directory entry *)
Definition entry_pid (e : dirent) : option Z := if de_is_dir e then ParseUint32 (de_name e) else None.

Definition ScanAllPIDs (m : PodMapper) : PodMapper :=
  match ReadDir fs (procRoot m) with
  | Err _ => m
  | Ok entries =>
      let newCache := foldl (fun cache e =>
          match entry_pid e with
          | None => cache
          | Some pid => match resolvePIDtoPod m pid with Some ref => <[pid := ref]> cache | None => cache end
          end) ∅ entries in
      mkPodMapper (procRoot m) (pm_nodeName m) newCache (podIndex m)
  end.
End mapper.

Definition GetAllPodRefs (m : PodMapper) : gmap string PodRef := podIndex m.

(** ** podindexer/indexer.go *)

Inductive pod_phase := PodPending | PodRunning | PodSucceeded | PodFailed | PodUnknown.
#[global] Instance pod_phase_eq_dec : EqDecision pod_phase.
Proof. solve_decision. Defined.

(** What the indexer reads of a pod of the API server. *)
Record kpod := mkKPod {
  kp_Name : string; kp_UID : string; kp_Namespace : string; kp_NodeName : string;
  kp_Labels : gmap string string; kp_Phase : pod_phase;
}.

Definition indexed (p : kpod) : bool :=
  negb (bool_decide (kp_Phase p = PodSucceeded) || bool_decide (kp_Phase p = PodFailed)) && negb (bool_decide (kp_UID p = "")).

Definition pod_ref (p : kpod) : PodRef := mkPodRef (kp_Name p) (kp_UID p) (kp_Namespace p) (kp_NodeName p) (kp_Labels p).

(** [refresh] on the answer to the list of the pods of the node. *)
Definition refresh (answer : result kube_error (list kpod)) (m : PodMapper) : PodMapper * result kube_error unit :=
  match answer with
  | Err e => (m, Err e)
  | Ok items =>
      let index := foldl (fun idx p => if indexed p then <[kp_UID p := pod_ref p]> idx else idx) ∅ items in
      (SetPodIndex index m, Ok tt)
  end.

(** ** Tables of the kernel *)

Inductive bpf_error := BNoEntry | BOther.

Class BPFMap (B : Type) := {
  bpf_keys : B -> gset Z;
  bpf_Update : Z -> SE B bpf_error unit;
  bpf_DeleteKey : Z -> SE B bpf_error unit;
  (** accepts every call to come *)
  bpf_healthy : B -> Prop;
}.

Class BPFLaws (B : Type) `{BPFMap B} := {
  bpf_update_law : forall pid (b : B), let '(b', r) := bpf_Update pid b in
    match r with Ok _ => bpf_keys b' = {[pid]} ∪ bpf_keys b | Err _ => bpf_keys b' = bpf_keys b end /\
    (bpf_healthy b -> r = Ok tt /\ bpf_healthy b');
  bpf_delete_law : forall pid (b : B), let '(b', r) := bpf_DeleteKey pid b in
    match r with
    | Ok _ => pid ∈ bpf_keys b /\ bpf_keys b' = bpf_keys b ∖ {[pid]}
    | Err BNoEntry => pid ∉ bpf_keys b /\ bpf_keys b' = bpf_keys b
    | Err BOther => bpf_keys b' = bpf_keys b
    end /\
    (bpf_healthy b -> r <> Err BOther /\ bpf_healthy b');
}.

(** ** collector.go: the tables of monitored processes *)

Inductive collector_error := BPFNotLoaded | BPFCall (e : bpf_error).

Section collector.
  Context {B : Type} `{!BPFMap B}.

(** [AddMonitoredPID] and [AddMonitoredTGID] on their table, [nil] before the program
    is loaded. *)
Definition AddMonitored (key : Z) : SE (option B) collector_error unit := fun t =>
  match t with
  | None => (None, Err BPFNotLoaded)
  | Some b => let '(b, r) := bpf_Update key b in
              (Some b, match r with Ok _ => Ok tt | Err e => Err (BPFCall e) end)
  end.

(** [RemoveMonitoredPID] and [RemoveMonitoredTGID]: a key that is not there is no error. *)
Definition RemoveMonitored (key : Z) : SE (option B) collector_error unit := fun t =>
  match t with
  | None => (None, Err BPFNotLoaded)
  | Some b => let '(b, r) := bpf_DeleteKey key b in
              (Some b, match r with Ok _ | Err BNoEntry => Ok tt | Err e => Err (BPFCall e) end)
  end.

(** ** crdwatcher/watcher.go *)

(** The spec of a PodSchedulingMetrics resource, as far as the monitor decodes it for
    itself. *)
Record PSMSpec := mkPSMSpec {
  ps_LabelSelectors : list LabelSelector;
  ps_K8sNamespaces : list string;
  ps_CommandRegex : string;
  ps_Enabled : bool;
}.
Record PSM := mkPSM { psm_Name : string; psm_Namespace : string; psm_Spec : PSMSpec }.

Definition psmMatchesPod (psm : PSM) (ref : PodRef) : bool :=
  let spec := psm_Spec psm in
  (if decide (ps_K8sNamespaces spec = []) then true
   else existsb (fun ns => bool_decide (ns = pr_Namespace ref)) (ps_K8sNamespaces spec)) &&
  forallb (fun sel => if decide (ls_Key sel = "") then true
                      else bool_decide (pr_Labels ref !! ls_Key sel = Some (ls_Value sel))) (ps_LabelSelectors spec).

Record Watcher := mkWatcher {
  w_pids : option B;          (* the table of the collector *)
  w_mapper : PodMapper;
  w_specs : gmap string PSM;
  w_monitored : gset Z;
}.

(** [desiredPods]: the pods some enabled spec matches *)
Definition desiredPods (specs : gmap string PSM) (allPods : gmap string PodRef) : gset string :=
  foldl (fun acc '(_, psm) =>
    if ps_Enabled (psm_Spec psm)
    then foldl (fun acc '(uid, ref) => if psmMatchesPod psm ref then {[uid]} ∪ acc else acc) acc (map_to_list allPods)
    else acc) ∅ (map_to_list specs).

(** One turn of the first loop of [reconcilePIDs]. *)
Definition sync_pid (fs : procfs) (desired : gset string) (w : Watcher) (pid : Z) : Watcher :=
  let '(mapper, ref) := GetPodForPID fs (w_mapper w) pid in
  let w := mkWatcher (w_pids w) mapper (w_specs w) (w_monitored w) in
  match ref with
  | None => w
  | Some ref =>
      if bool_decide (pr_PodUID ref ∈ desired) then
        match AddMonitored pid (w_pids w) with
        | (t, Err _) => mkWatcher t (w_mapper w) (w_specs w) (w_monitored w)
        | (t, Ok _) => mkWatcher t (w_mapper w) (w_specs w) ({[pid]} ∪ w_monitored w)
        end
      else if bool_decide (pid ∈ w_monitored w) then
        match RemoveMonitored pid (w_pids w) with
        | (t, Err _) => mkWatcher t (w_mapper w) (w_specs w) (w_monitored w)
        | (t, Ok _) => mkWatcher t (w_mapper w) (w_specs w) (w_monitored w ∖ {[pid]})
        end
      else w
  end.

(** One turn of the second loop: a process that vanished. *)
Definition drop_pid (mapped : gset Z) (w : Watcher) (pid : Z) : Watcher :=
  if bool_decide (pid ∈ mapped) then w
  else mkWatcher (RemoveMonitored pid (w_pids w)).1 (w_mapper w) (w_specs w) (w_monitored w ∖ {[pid]}).

Definition reconcilePIDs (fs : procfs) (range : gset Z -> list Z) (w : Watcher) : Watcher :=
  let w := mkWatcher (w_pids w) (ScanAllPIDs fs (w_mapper w)) (w_specs w) (w_monitored w) in
  let desired := desiredPods (w_specs w) (GetAllPodRefs (w_mapper w)) in
  let mapped := dom (pidCache (w_mapper w)) in
  let w := foldl (sync_pid fs desired) w (range mapped) in
  foldl (drop_pid mapped) w (range (w_monitored w)).

(** Decoding: [json.Marshal] and [json.Unmarshal] of the spec.  A field of another type
    is an error, an absent or null one the zero value; the schema of the resource admits
    no other spelling of the names. *)
Definition field {A} (dec : jval -> option A) (zero : A) (m : fields) (key : string) : option A :=
  match jget m key with None | Some JNull => Some zero | Some v => dec v end.
Definition dec_str (v : jval) : option string := match v with JStr s => Some s | JNull => Some "" | _ => None end.
Definition dec_bool (v : jval) : option bool := match v with JBool b => Some b | JNull => Some false | _ => None end.
Definition dec_list {A} (dec : jval -> option A) (v : jval) : option (list A) :=
  match v with JArr l => mapM dec l | JNull => Some [] | _ => None end.
Definition dec_selector (v : jval) : option LabelSelector :=
  match v with
  | JObj m => k ← field dec_str "" m "key"; v ← field dec_str "" m "value"; Some (mkLabelSelector k v)
  | JNull => Some (mkLabelSelector "" "")
  | _ => None
  end.

Definition dec_int (lo hi : Z) (v : jval) : option Z :=
  match v with JInt z | JFloat z => if decide (lo <= z <= hi)%Z then Some z else None | JNull => Some 0%Z | _ => None end.

(** The fields the monitor decodes and never reads must have their types too. *)
Definition typed (decs : list (string * (jval -> bool))) (v : jval) : bool :=
  match v with
  | JObj m => forallb (fun '(k, ok) => match jget m k with None => true | Some v => ok v end) decs
  | JNull => true
  | _ => false
  end.
Definition is_str (v : jval) : bool := bool_decide (is_Some (dec_str v)).
Definition is_bool (v : jval) : bool := bool_decide (is_Some (dec_bool v)).
Definition is_int32 (v : jval) : bool := bool_decide (is_Some (dec_int (- 2 ^ 31) (2 ^ 31 - 1) v)).
Definition is_int64 (v : jval) : bool := bool_decide (is_Some (dec_int min_i64 max_i64 v)).
Definition other_fields : list (string * (jval -> bool)) :=
  [("collectionIntervalSeconds", is_int32);
   ("metrics", typed [("voluntaryCtxSwitches", is_bool); ("involuntaryCtxSwitches", is_bool); ("cpuTimeNs", is_bool);
                      ("waitTimeNs", is_bool); ("runCount", is_bool); ("cpuMigrations", is_bool)]);
   ("scaling", typed [("enabled", is_bool); ("metricName", is_str); ("targetValue", is_str);
                      ("scaleTargetRef", typed [("apiVersion", is_str); ("kind", is_str); ("name", is_str)]);
                      ("minReplicaCount", is_int32); ("maxReplicaCount", is_int32); ("cooldownPeriod", is_int32)]);
   ("creatorID", is_str); ("updaterID", is_str); ("createdTime", is_int64); ("updatedTime", is_int64)].

Definition GetNamespace (o : unstructured) : string :=
  match NestedMap o "metadata" with Some md => getStr md "namespace" | None => "" end.

Definition parsePSM (obj : unstructured) : option PSM :=
  spec ← NestedMap obj "spec";
  sels ← field (dec_list dec_selector) [] spec "labelSelectors";
  nss ← field (dec_list dec_str) [] spec "k8sNamespaces";
  rx ← field dec_str "" spec "commandRegex";
  en ← field dec_bool false spec "enabled";
  guard (typed other_fields (JObj spec) = true);;
  Some (mkPSM (GetName obj) (GetNamespace obj) (mkPSMSpec sels nss rx en)).

Inductive event_type := EvAdded | EvModified | EvDeleted | EvOther.

(** An event of the watch; errors carry no unstructured object. *)
Record watch_event := mkEvent { ev_type : event_type; ev_object : option unstructured }.

Definition event_key (obj : unstructured) : string := GetNamespace obj +:+ "/" +:+ GetName obj.

Definition set_specs (s : gmap string PSM) (w : Watcher) : Watcher := mkWatcher (w_pids w) (w_mapper w) s (w_monitored w).

Definition handleEvent (fs : procfs) (range : gset Z -> list Z) (event : watch_event) (w : Watcher) : Watcher :=
  match ev_object event with
  | None => w
  | Some obj =>
      let key := event_key obj in
      match ev_type event with
      | EvAdded | EvModified =>
          match parsePSM obj with
          | None => w
          | Some psm => reconcilePIDs fs range (set_specs (<[key := psm]> (w_specs w)) w)
          end
      | EvDeleted => reconcilePIDs fs range (set_specs (delete key (w_specs w)) w)
      | EvOther => w
      end
  end.

(** What wakes the loop of [watchLoop], and what [Run] does about it: when the channel is
    closed a new watch is opened after a while, on the same specs. *)
Inductive wake := Tick | Event (e : watch_event) | ChannelClosed.

Definition on_wake (fs : procfs) (range : gset Z -> list Z) (w : Watcher) (k : wake) : Watcher :=
  match k with
  | Tick => reconcilePIDs fs range w
  | Event e => handleEvent fs range e w
  | ChannelClosed => w
  end.
End collector.
Arguments Watcher B : clear implicits.

(** ** Resolution of processes *)

Lemma scan_podIndex fs m : podIndex (ScanAllPIDs fs m) = podIndex m.
Proof. unfold ScanAllPIDs. by destruct (ReadDir fs (procRoot m)). Qed.

(** A scan leaves exactly the processes of the directory that resolve to a pod. *)
Lemma scan_lookup fs m entries :
  ReadDir fs (procRoot m) = Ok entries ->
  forall pid ref, pidCache (ScanAllPIDs fs m) !! pid = Some ref <->
    (exists e, e ∈ entries /\ entry_pid e = Some pid) /\ resolvePIDtoPod fs m pid = Some ref.
Proof.
  intros Hd pid ref. unfold ScanAllPIDs. rewrite Hd. cbn [pidCache]. clear Hd.
  induction entries as [|e entries IH] using rev_ind; [cbn [foldl]; rewrite lookup_empty; set_solver|].
  rewrite foldl_snoc. set (cache := foldl _ _ entries) in *. setoid_rewrite elem_of_app. setoid_rewrite list_elem_of_singleton.
  destruct (entry_pid e) as [q|] eqn:Eq; [|rewrite IH; naive_solver].
  destruct (resolvePIDtoPod fs m q) as [r|] eqn:Er; [|rewrite IH; naive_solver].
  destruct (decide (q = pid)) as [->|Hne]; [rewrite lookup_insert_eq|rewrite lookup_insert_ne, IH by done]; naive_solver.
Qed.

Lemma GetPodForPID_hit fs m pid ref : pidCache m !! pid = Some ref -> GetPodForPID fs m pid = (m, Some ref).
Proof. intros H. unfold GetPodForPID. by rewrite H. Qed.

Lemma desired_inner psm acc (l : list (string * PodRef)) uid :
  uid ∈ foldl (fun (acc : gset string) '(uid, ref) => if psmMatchesPod psm ref then {[uid]} ∪ acc else acc) acc l <->
  uid ∈ acc \/ exists ref, (uid, ref) ∈ l /\ psmMatchesPod psm ref = true.
Proof.
  revert acc. induction l as [|[u r] l IH]; intros acc; cbn [foldl]; [set_solver|].
  rewrite IH. setoid_rewrite elem_of_cons. clear IH. destruct (psmMatchesPod psm r) eqn:E; [rewrite elem_of_union, elem_of_singleton|].
  - split; [intros [[->|?]|(ref & ? & ?)]; eauto 6|]. intros [?|(ref & [?|?] & ?)]; simplify_eq; eauto 6.
  - split; [intros [?|(ref & ? & ?)]; eauto 6|]. intros [?|(ref & [?|?] & ?)]; simplify_eq; eauto 6; congruence.
Qed.

Lemma elem_of_desiredPods specs pods uid :
  uid ∈ desiredPods specs pods <->
  exists key psm ref, specs !! key = Some psm /\ ps_Enabled (psm_Spec psm) = true /\
    pods !! uid = Some ref /\ psmMatchesPod psm ref = true.
Proof.
  unfold desiredPods. setoid_rewrite <- (elem_of_map_to_list specs). setoid_rewrite <- (elem_of_map_to_list pods).
  assert (forall acc : gset string, uid ∈ foldl (fun acc '(_, psm) =>
    if ps_Enabled (psm_Spec psm) then foldl (fun acc '(uid, ref) => if psmMatchesPod psm ref then {[uid]} ∪ acc else acc) acc (map_to_list pods)
    else acc) acc (map_to_list specs) <-> uid ∈ acc \/ exists key psm ref, (key, psm) ∈ map_to_list specs /\ ps_Enabled (psm_Spec psm) = true /\
    (uid, ref) ∈ map_to_list pods /\ psmMatchesPod psm ref = true) as Hg; [|rewrite Hg; set_solver].
  induction (map_to_list specs) as [|[key psm] l IH]; intros acc; cbn [foldl]; [set_solver|].
  rewrite IH. setoid_rewrite elem_of_cons. clear IH.
  destruct (ps_Enabled (psm_Spec psm)) eqn:E; [rewrite desired_inner|].
  - split; [intros [[?|(ref & ? & ?)]|(k0 & p0 & ref & ? & ?)]; eauto 9; right; exists key, psm, ref; auto|].
    intros [?|(k0 & p0 & ref & [?|?] & ? & ? & ?)]; simplify_eq; eauto 9.
  - split; [intros [?|(k0 & p0 & ref & ? & ?)]; eauto 9; right; exists k0, p0, ref; auto|].
    intros [?|(k0 & p0 & ref & [?|?] & ? & ? & ?)]; simplify_eq; [auto|congruence|]. right. by exists k0, p0, ref.
Qed.

(** ** The table of monitored processes *)

Section reconcile.
  Context {B : Type} `{!BPFMap B, !BPFLaws B}.
  Context (fs : procfs) (range : gset Z -> list Z).

(** What the watcher believes is what the kernel has. *)
Definition tracked_ok (w : Watcher B) : Prop :=
  match w_pids w with Some b => w_monitored w ⊆ bpf_keys b | None => w_monitored w = ∅ end.

Lemma sync_tracked desired w pid : tracked_ok w -> tracked_ok (sync_pid fs desired w pid).
Proof.
  intros Hw. unfold sync_pid. destruct (GetPodForPID fs (w_mapper w) pid) as [mapper [ref|]]; [|done].
  unfold tracked_ok in *. cbn [w_pids w_monitored]. destruct (bool_decide (pr_PodUID ref ∈ desired)).
  - unfold AddMonitored. destruct (w_pids w) as [b|]; [|done]. pose proof (bpf_update_law pid b) as Hl.
    destruct (bpf_Update pid b) as [b' [[]|e]]; destruct Hl as [Hl _]; cbn in *; set_solver.
  - destruct (bool_decide_reflect (pid ∈ w_monitored w)); [|done].
    unfold RemoveMonitored. destruct (w_pids w) as [b|]; [|done]. pose proof (bpf_delete_law pid b) as Hl.
    destruct (bpf_DeleteKey pid b) as [b' [[]|[]]]; destruct Hl as [Hl _]; cbn in *; set_solver.
Qed.

Lemma drop_tracked mapped w pid : tracked_ok w -> tracked_ok (drop_pid mapped w pid).
Proof.
  intros Hw. unfold drop_pid. case_match; [done|]. unfold tracked_ok in *. cbn [w_pids w_monitored].
  unfold RemoveMonitored. destruct (w_pids w) as [b|]; [|cbn; set_solver]. pose proof (bpf_delete_law pid b) as Hl.
  destruct (bpf_DeleteKey pid b) as [b' [[]|[]]]; destruct Hl as [Hl _]; cbn in *; set_solver.
Qed.

Lemma foldl_keep {A C} (P : A -> Prop) (f : A -> C -> A) l a : (forall a c, P a -> P (f a c)) -> P a -> P (foldl f a l).
Proof. intros Hf. revert a. induction l; cbn; auto. Qed.

Lemma reconcile_tracked w : tracked_ok w -> tracked_ok (reconcilePIDs fs range w).
Proof.
  intros Hw. unfold reconcilePIDs. apply foldl_keep; [intros; by apply drop_tracked|].
  apply foldl_keep; [intros; by apply sync_tracked|done].
Qed.

Lemma wake_tracked w k : tracked_ok w -> tracked_ok (on_wake fs range w k).
Proof.
  intros Hw. destruct k as [|[[] [obj|]]|]; cbn; try done; try by apply reconcile_tracked.
  - unfold handleEvent. cbn. destruct (parsePSM obj); [by apply reconcile_tracked|done].
  - unfold handleEvent. cbn. destruct (parsePSM obj); [by apply reconcile_tracked|done].
Qed.

  Context (range_ok : forall s, range s ≡ₚ elements s).

Lemma elem_of_range_set s p : p ∈ range s <-> p ∈ s.
Proof. rewrite range_ok. apply elem_of_elements. Qed.

(** The watcher with its table, when every call succeeds. *)
Definition watching (w : Watcher B) (b : B) : Prop := w_pids w = Some b /\ bpf_healthy b.

Lemma sync_healthy desired w b pid ref :
  watching w b -> pidCache (w_mapper w) !! pid = Some ref ->
  exists b', watching (sync_pid fs desired w pid) b' /\
    w_mapper (sync_pid fs desired w pid) = w_mapper w /\ w_specs (sync_pid fs desired w pid) = w_specs w /\
    forall p,
      (p ∈ w_monitored (sync_pid fs desired w pid) <-> p = pid /\ pr_PodUID ref ∈ desired \/ p <> pid /\ p ∈ w_monitored w) /\
      (p ∈ bpf_keys b' <-> p = pid /\ pr_PodUID ref ∈ desired \/ p ∈ bpf_keys b /\ (p <> pid \/ p ∉ w_monitored w)).
Proof.
  intros [Hb Hh] Hpid. unfold sync_pid. rewrite (GetPodForPID_hit fs _ _ _ Hpid). cbn [w_pids w_monitored w_mapper w_specs]. rewrite Hb.
  destruct (bool_decide_reflect (pr_PodUID ref ∈ desired)) as [Hd|Hd]; [|destruct (bool_decide_reflect (pid ∈ w_monitored w)) as [Ht|Ht]].
  - unfold AddMonitored. pose proof (bpf_update_law pid b) as Hl. destruct (bpf_Update pid b) as [b' r]. destruct Hl as [Hl Hok].
    destruct (Hok Hh) as [-> Hh']. exists b'. cbn in *. split_and!; [done..|]. intros p. rewrite Hl. destruct (decide (p = pid)); set_solver.
  - unfold RemoveMonitored. pose proof (bpf_delete_law pid b) as Hl. destruct (bpf_DeleteKey pid b) as [b' r]. destruct Hl as [Hl Hok].
    destruct (Hok Hh) as [Hne Hh']. exists b'. destruct r as [[]|[]]; [| |done]; cbn in *; (split_and!; [done..|]);
      destruct Hl as [Hin Hl]; intros p; rewrite Hl; destruct (decide (p = pid)); set_solver.
  - exists b. split_and!; [done..|]. cbn. intros p. destruct (decide (p = pid)); set_solver.
Qed.

Lemma drop_healthy mapped w b pid :
  watching w b ->
  exists b', watching (drop_pid mapped w pid) b' /\
    forall p,
      (p ∈ w_monitored (drop_pid mapped w pid) <-> p ∈ w_monitored w /\ (p <> pid \/ p ∈ mapped)) /\
      (p ∈ bpf_keys b' <-> p ∈ bpf_keys b /\ (p <> pid \/ p ∈ mapped)).
Proof.
  intros [Hb Hh]. unfold drop_pid. destruct (bool_decide_reflect (pid ∈ mapped)) as [Hm|Hm].
  - exists b. split; [done|]. intros p. destruct (decide (p = pid)); set_solver.
  - unfold watching. cbn [w_pids w_monitored]. unfold RemoveMonitored. rewrite Hb.
    pose proof (bpf_delete_law pid b) as Hl. destruct (bpf_DeleteKey pid b) as [b' r]. destruct Hl as [Hl Hok].
    destruct (Hok Hh) as [Hne Hh']. exists b'. cbn in *. split; [done|].
    destruct r as [[]|[]]; [| |done]; destruct Hl as [Hin Hl]; intros p; rewrite Hl; destruct (decide (p = pid)); set_solver.
Qed.

Lemma sync_all desired w b l :
  watching w b -> (forall p, p ∈ l -> is_Some (pidCache (w_mapper w) !! p)) ->
  let sel p := exists ref, pidCache (w_mapper w) !! p = Some ref /\ pr_PodUID ref ∈ desired in
  let w' := foldl (sync_pid fs desired) w l in
  exists b', watching w' b' /\ w_mapper w' = w_mapper w /\ w_specs w' = w_specs w /\
    forall p,
      (p ∈ w_monitored w' <-> p ∈ l /\ sel p \/ p ∉ l /\ p ∈ w_monitored w) /\
      (p ∈ bpf_keys b' <-> p ∈ l /\ sel p \/ p ∈ bpf_keys b /\ (p ∉ l \/ p ∉ w_monitored w)).
Proof.
  intros Hw Hin. cbn zeta. induction l as [|pid l IH] using rev_ind.
  - exists b. cbn. split_and!; [by destruct Hw..|done|done|]. intros p. set_solver.
  - destruct IH as (b1 & Hw1 & Hm1 & Hs1 & Hp1); [intros p Hp; apply Hin; set_solver|]. rewrite foldl_snoc. set (w1 := foldl _ _ l) in *.
    destruct (Hin pid) as [ref Href]; [set_solver|]. rewrite <- Hm1 in Href.
    destruct (sync_healthy desired w1 b1 pid ref Hw1 Href) as (b2 & Hw2 & Hm2 & Hs2 & Hp2).
    exists b2. split_and!; [by destruct Hw2..|congruence|congruence|]. rewrite Hm1 in Href.
    intros p. specialize (Hp1 p) as [Hp1 Hk1]. specialize (Hp2 p) as [Hp2 Hk2]. rewrite Hp2, Hk2, Hp1, Hk1, elem_of_app, list_elem_of_singleton.
    clear -Href. destruct (decide (p = pid)) as [->|Hne].
    + assert ((exists ref0, pidCache (w_mapper w) !! pid = Some ref0 /\ pr_PodUID ref0 ∈ desired) <-> pr_PodUID ref ∈ desired) as -> by naive_solver.
      split; destruct (decide (pid ∈ l)), (decide (pr_PodUID ref ∈ desired)), (decide (pid ∈ w_monitored w)); tauto.
    + tauto.
Qed.

Lemma drop_all mapped w b l :
  watching w b ->
  let w' := foldl (drop_pid mapped) w l in
  exists b', watching w' b' /\
    forall p,
      (p ∈ w_monitored w' <-> p ∈ w_monitored w /\ (p ∉ l \/ p ∈ mapped)) /\
      (p ∈ bpf_keys b' <-> p ∈ bpf_keys b /\ (p ∉ l \/ p ∈ mapped)).
Proof.
  intros Hw. cbn zeta. induction l as [|pid l IH] using rev_ind.
  - exists b. split; [done|]. cbn. intros p. set_solver.
  - destruct IH as (b1 & Hw1 & Hp1). rewrite foldl_snoc. set (w1 := foldl _ _ l) in *.
    destruct (drop_healthy mapped w1 b1 pid Hw1) as (b2 & Hw2 & Hp2). exists b2. split; [done|].
    intros p. specialize (Hp1 p) as [Hp1 Hk1]. specialize (Hp2 p) as [Hp2 Hk2]. rewrite Hp2, Hk2, Hp1, Hk1, elem_of_app, list_elem_of_singleton.
    clear. tauto.
Qed.

Lemma reconcile_healthy w b :
  watching w b ->
  let cache := pidCache (ScanAllPIDs fs (w_mapper w)) in
  let sel p := exists ref, cache !! p = Some ref /\ pr_PodUID ref ∈ desiredPods (w_specs w) (podIndex (w_mapper w)) in
  exists b', watching (reconcilePIDs fs range w) b' /\
    forall p, (p ∈ w_monitored (reconcilePIDs fs range w) <-> sel p) /\
              (p ∈ bpf_keys b' <-> sel p \/ p ∈ bpf_keys b /\ p ∉ w_monitored w).
Proof.
  intros Hw. cbn zeta. unfold reconcilePIDs. cbn [w_mapper w_specs w_monitored w_pids]. unfold GetAllPodRefs. rewrite scan_podIndex.
  set (mapper := ScanAllPIDs fs (w_mapper w)). set (desired := desiredPods _ _).
  set (w0 := mkWatcher _ _ _ _). set (mapped := dom (pidCache mapper)).
  destruct (sync_all desired w0 b (range mapped)) as (b1 & Hw1 & Hm1 & _ & Hp1).
  { exact Hw. } { intros p Hp%elem_of_range_set. by apply elem_of_dom. }
  set (w1 := foldl _ w0 _) in *. destruct (drop_all mapped w1 b1 (range (w_monitored w1)) Hw1) as (b2 & Hw2 & Hp2).
  exists b2. split; [done|]. intros p. specialize (Hp1 p) as [Hp1 Hk1]. specialize (Hp2 p) as [Hp2 Hk2].
  rewrite Hp2, Hk2, elem_of_range_set, Hp1, Hk1, elem_of_range_set. cbn [w_mapper w_monitored w0].
  set (sel := exists ref, _). assert (sel -> p ∈ mapped) as Hsel by (intros (ref & Hr & _); apply elem_of_dom; eauto).
  clear -Hsel. destruct (decide (p ∈ mapped)), (decide (p ∈ w_monitored w)); tauto.
Qed.
End reconcile.

(** ** Runs of the monitor *)

Section runs.
  Context {B : Type} `{!BPFMap B, !BPFLaws B}.

(** What happens to the state of the watcher: the loop wakes up (with the file systems and
    the orders of iteration of that moment), the indexer refreshes the mapper, the
    collector loads the program and gets its table. *)
Inductive mon_event :=
| MWake (fs : procfs) (range : gset Z -> list Z) (k : wake)
| MRefresh (answer : result kube_error (list kpod))
| MLoaded (b : B).

Definition mon_step (w : Watcher B) (ev : mon_event) : Watcher B :=
  match ev with
  | MWake fs range k => on_wake fs range w k
  | MRefresh answer => mkWatcher (w_pids w) (refresh answer (w_mapper w)).1 (w_specs w) (w_monitored w)
  | MLoaded b => match w_pids w with
                 | None => mkWatcher (Some b) (w_mapper w) (w_specs w) (w_monitored w)
                 | Some _ => w
                 end
  end.

Definition NewWatcher (nodeName : string) : Watcher B := mkWatcher None (NewPodMapper nodeName) ∅ ∅.

Definition mon_run (nodeName : string) (evs : list mon_event) : Watcher B := foldl mon_step (NewWatcher nodeName) evs.

(** C28 (invariant): whatever happens and whichever calls of the kernel fail, the watcher
    never takes a process for monitored that is not in the table of the kernel; before
    the program is loaded it takes none for monitored. *)
Theorem tracked_are_monitored nodeName evs : tracked_ok (mon_run nodeName evs).
Proof.
  unfold mon_run. apply foldl_keep; [|done]. intros w [fs range k|answer|b] Hw; cbn.
  - by apply wake_tracked.
  - done.
  - unfold tracked_ok in *. destruct (w_pids w) eqn:E; [by rewrite E|]. cbn. rewrite Hw. set_solver.
Qed.

(** The index maps a pod to itself. *)
Definition index_ok (m : PodMapper) : Prop := forall uid ref, podIndex m !! uid = Some ref -> pr_PodUID ref = uid.

Lemma refresh_lookup items m uid :
  match podIndex (refresh (Ok items) m).1 !! uid with
  | Some ref => exists p, p ∈ items /\ indexed p = true /\ kp_UID p = uid /\ ref = pod_ref p
  | None => forall p, p ∈ items -> indexed p = true -> kp_UID p <> uid
  end.
Proof.
  cbn. induction items as [|p items IH] using rev_ind; [cbn [foldl]; rewrite lookup_empty; set_solver|].
  rewrite foldl_snoc. destruct (indexed p) eqn:Ei; [destruct (decide (kp_UID p = uid)) as [Hu|Hu]|].
  - rewrite Hu, lookup_insert_eq. exists p. set_solver.
  - rewrite lookup_insert_ne by done. destruct (_ !! uid) as [ref|].
    + destruct IH as (q & ? & ?). exists q. set_solver.
    + intros q [Hq| ->%list_elem_of_singleton]%elem_of_app; [by apply IH|done].
  - destruct (_ !! uid) as [ref|].
    + destruct IH as (q & ? & ?). exists q. set_solver.
    + intros q [Hq| ->%list_elem_of_singleton]%elem_of_app Hi; [by apply IH|congruence].
Qed.

Lemma reconcile_mapper fs range (w : Watcher B) : podIndex (w_mapper (reconcilePIDs fs range w)) = podIndex (w_mapper w).
Proof.
  unfold reconcilePIDs. apply (foldl_keep (fun w' => podIndex (w_mapper w') = podIndex (w_mapper w))).
  { intros w' pid H. unfold drop_pid. by case_match. }
  apply (foldl_keep (fun w' => podIndex (w_mapper w') = podIndex (w_mapper w))); [|apply scan_podIndex].
  intros w' pid H. unfold sync_pid, GetPodForPID. repeat case_match; simplify_eq/=; done.
Qed.

Lemma handle_mapper fs range e (w : Watcher B) : podIndex (w_mapper (handleEvent fs range e w)) = podIndex (w_mapper w).
Proof. unfold handleEvent. repeat case_match; try done; by rewrite reconcile_mapper. Qed.

Lemma mon_run_index nodeName evs : index_ok (w_mapper (mon_run nodeName evs)).
Proof.
  unfold mon_run. apply (foldl_keep (fun w => index_ok (w_mapper w))).
  - intros w [fs range k|[items|e]|b] Hw; cbn [mon_step w_mapper].
    + destruct k as [|e|]; cbn [on_wake]; [|unfold index_ok; by rewrite handle_mapper|done].
      unfold index_ok. by rewrite reconcile_mapper.
    + intros uid ref Href. pose proof (refresh_lookup items (w_mapper w) uid) as Hr. rewrite Href in Hr.
      by destruct Hr as (p & _ & _ & <- & ->).
    + done.
    + by destruct (w_pids w).
  - intros uid ref Href. done.
Qed.

Lemma resolve_lines_index index lines ref : resolve_lines index lines = Some ref -> exists uid, index !! uid = Some ref.
Proof.
  induction lines as [|line ls IH]; [done|]. cbn [resolve_lines]. case_decide; [done|].
  destruct (index !! extractPodUID line) as [r|] eqn:E; [|done]. intros [= ->]. eauto.
Qed.

Lemma resolve_index fs m pid ref : resolvePIDtoPod fs m pid = Some ref -> exists uid, podIndex m !! uid = Some ref.
Proof. unfold resolvePIDtoPod. destruct (ReadFile _ _); [apply resolve_lines_index|done]. Qed.

(** A process the resources select: it has a directory, its cgroup names a pod of the
    index, and an enabled resource matches that pod. *)
Definition selected_pid (fs : procfs) (entries : list dirent) (w : Watcher B) (pid : Z) : Prop :=
  (exists e, e ∈ entries /\ entry_pid e = Some pid) /\
  exists ref key psm, resolvePIDtoPod fs (w_mapper w) pid = Some ref /\
    w_specs w !! key = Some psm /\ ps_Enabled (psm_Spec psm) = true /\ psmMatchesPod psm ref = true.


(** Events of a resource *)
Definition concerns (key : string) (k : wake) : Prop :=
  match k with Event (mkEvent _ (Some obj)) => event_key obj = key | _ => False end.

Lemma reconcile_specs fs range (w : Watcher B) : w_specs (reconcilePIDs fs range w) = w_specs w.
Proof.
  unfold reconcilePIDs. apply (foldl_keep (fun w' => w_specs w' = w_specs w)).
  { intros w' pid H. unfold drop_pid. by case_match. }
  apply (foldl_keep (fun w' => w_specs w' = w_specs w)); [|done].
  intros w' pid H. unfold sync_pid. repeat case_match; simplify_eq/=; done.
Qed.

(** Remark (safety): a resource stays in force until an event about it arrives.  A watch that
    was interrupted announces the resources that still exist and not those that were
    deleted meanwhile; since the new watch starts from the same table, such a resource
    keeps its pods monitored for the rest of the run. *)
Theorem missed_deletion_stays_in_force fs range key psm wakes (w : Watcher B) :
  w_specs w !! key = Some psm -> (forall k, k ∈ wakes -> ~ concerns key k) ->
  w_specs (foldl (on_wake fs range) w wakes) !! key = Some psm.
Proof.
  intros Hk. induction wakes as [|k wakes IH] using rev_ind; [done|]. intros Hno. rewrite foldl_snoc.
  specialize (IH ltac:(set_solver)). set (w1 := foldl _ _ wakes) in *. specialize (Hno k ltac:(set_solver)).
  destruct k as [|[[] [obj|]]|]; cbn in *; try done; try by rewrite reconcile_specs.
  - unfold handleEvent; cbn. destruct (parsePSM obj); [|done]. rewrite reconcile_specs. cbn. by rewrite lookup_insert_ne.
  - unfold handleEvent; cbn. destruct (parsePSM obj); [|done]. rewrite reconcile_specs. cbn. by rewrite lookup_insert_ne.
  - unfold handleEvent; cbn. rewrite reconcile_specs. cbn. by rewrite lookup_delete_ne.
Qed.
End runs.
Arguments mon_event B : clear implicits.

(** ** The pod identifier in a cgroup path *)

Lemma after_first_skip c t s r : has_char c s = false -> after_first (String c t) (s +:+ r) = after_first (String c t) r.
Proof.
  induction s as [|a s IH]; [done|]. cbn [has_char]. intros [Ha Hs]%orb_false_iff. rewrite string_app_cons. cbn [after_first strip_prefix].
  rewrite Ascii.eqb_sym, Ha. auto.
Qed.

Lemma after_first_none c t s : has_char c s = false -> after_first (String c t) s = None.
Proof. intros H. rewrite <- (string_app_nil_r s), after_first_skip; done. Qed.

Lemma before_first_at c t s r :
  has_char c s = false -> before_first (String c t) (s +:+ String c t +:+ r) = Some s.
Proof.
  induction s as [|a s IH].
  - intros _. rewrite string_app_nil_l.
    assert (strip_prefix (String c t) (String c t +:+ r) = Some r) as E by by apply strip_prefix_Some.
    destruct (String c t +:+ r) as [|x y] eqn:El; cbn [before_first]; by rewrite E.
  - cbn [has_char]. intros [Ha Hs]%orb_false_iff. rewrite string_app_cons. cbn [before_first strip_prefix].
    rewrite Ascii.eqb_sym, Ha. by rewrite IH.
Qed.

(** systemd writes a dash of a slice's name as an underscore. *)
Definition systemd_escape (uid : string) : string := replace_char "-" "_" uid.

Lemma normalize_escape uid : has_char "_" uid = false -> normalizePodUID (systemd_escape uid) = uid.
Proof.
  unfold normalizePodUID, systemd_escape. induction uid as [|a s IH]; [done|]. cbn [has_char replace_char].
  intros [Ha Hs]%orb_false_iff. rewrite IH by done. f_equal. destruct (Ascii.eqb_spec a "-") as [->|_]; [done|].
  by rewrite Ha.
Qed.

Lemma normalize_plain uid : has_char "_" uid = false -> normalizePodUID uid = uid.
Proof.
  unfold normalizePodUID. induction uid as [|a s IH]; [done|]. cbn [has_char replace_char].
  intros [Ha Hs]%orb_false_iff. by rewrite IH, Ha.
Qed.

Lemma has_char_escape c uid : c <> "_"%char -> has_char c uid = false -> has_char c (systemd_escape uid) = false.
Proof.
  intros Hc. unfold systemd_escape. induction uid as [|a s IH]; [done|]. cbn [has_char replace_char].
  intros [Ha Hs]%orb_false_iff. rewrite IH by done. rewrite orb_false_r. destruct (Ascii.eqb_spec a "-"); [|done].
  apply Ascii.eqb_neq. congruence.
Qed.

(** The classes of service of the kubelet and its two cgroup drivers. *)
Inductive qos := Guaranteed | Burstable | BestEffort.
Definition cgroupfs_parent (q : qos) : string :=
  match q with Guaranteed => "/kubepods" | Burstable => "/kubepods/burstable" | BestEffort => "/kubepods/besteffort" end.
Definition systemd_parent (q : qos) : string :=
  match q with
  | Guaranteed => "/kubepods.slice/kubepods"
  | Burstable => "/kubepods.slice/kubepods-burstable.slice/kubepods-burstable"
  | BestEffort => "/kubepods.slice/kubepods-besteffort.slice/kubepods-besteffort"
  end.

(** A line of /proc/pid/cgroup: the hierarchy (such as 0:: or 12:memory:) and the path. *)
Definition cgroupfs_line (h : string) (q : qos) (uid container : string) : string :=
  h +:+ cgroupfs_parent q +:+ "/pod" +:+ uid +:+ "/" +:+ container.
Definition systemd_line (h : string) (q : qos) (uid container : string) : string :=
  h +:+ systemd_parent q +:+ "-pod" +:+ systemd_escape uid +:+ ".slice" +:+ "/" +:+ container.

(** Remark (roundtrip): the identifier of a pod is read back from the cgroup lines the kubelet
    makes of it, with either of its drivers and for each class of service: for every
    identifier without slash, underscore and dot (those of Kubernetes are hexadecimal
    with dashes) and every container whose scope is one path element that does not begin
    with pod. *)
Theorem pod_uid_found h q uid container :
  has_char "/" h = false -> has_char "-" h = false ->
  has_char "/" uid = false -> has_char "_" uid = false -> has_char "." uid = false ->
  has_char "/" container = false -> HasPrefix container "pod" = false ->
  extractPodUID (cgroupfs_line h q uid container) = uid /\ extractPodUID (systemd_line h q uid container) = uid.
Proof.
  intros Hh1 Hh2 Hu1 Hu2 Hu3 Hc1 Hc2. unfold extractPodUID. split.
  - unfold cgroupfs_line. rewrite after_first_skip by done.
    assert (after_first "/pod" (cgroupfs_parent q +:+ "/pod" +:+ uid +:+ "/" +:+ container) = Some (uid +:+ "/" +:+ container)) as ->.
    { destruct q; reflexivity. }
    rewrite (before_first_at "/" "" uid container) by done. cbn. by apply normalize_plain.
  - unfold systemd_line. rewrite (after_first_skip "/" "pod" h) by done. rewrite (after_first_skip "-" "pod" h) by done.
    assert (forall r, after_first "/pod" (systemd_parent q +:+ "-pod" +:+ r) = after_first "/pod" r) as -> by by destruct q.
    assert (forall r, after_first "-pod" (systemd_parent q +:+ "-pod" +:+ r) = Some r) as -> by by destruct q.
    assert (has_char "/" (systemd_escape uid) = false) as He by by apply has_char_escape.
    rewrite (after_first_skip "/" "pod" (systemd_escape uid)) by done.
    assert (after_first "/pod" (".slice" +:+ "/" +:+ container) = None) as ->.
    { unfold HasPrefix in Hc2. apply bool_decide_eq_false in Hc2.
      transitivity (match strip_prefix "pod" container with Some r => Some r | None => after_first "/pod" container end); [reflexivity|].
      destruct (strip_prefix "pod" container) eqn:E; [destruct Hc2; eauto|]. by apply after_first_none. }
    rewrite (before_first_at "." "slice") by by apply has_char_escape. by apply normalize_escape.
Qed.

Lemma pod_uid_found_witness :
  extractPodUID "0::/kubepods.slice/kubepods-burstable.slice/kubepods-burstable-pod8a6d_11.slice/cri-containerd-77.scope" = "8a6d-11".
Proof.
  exact (proj2 (pod_uid_found "0::" Burstable "8a6d-11" "cri-containerd-77.scope" eq_refl eq_refl eq_refl eq_refl eq_refl eq_refl eq_refl)).
Defined.

(** ** collector.go: counters per pod *)

Record TaskSchedMetrics := mkTask {
  t_PID : Z; t_TGID : Z;
  t_VoluntaryCtxSwitches : Z; t_InvoluntaryCtxSwitches : Z; t_CpuTimeNs : Z; t_WaitTimeNs : Z; t_RunCount : Z;
  t_CpuMigrations : Z; t_SMTMigrations : Z; t_L3Migrations : Z; t_NUMAMigrations : Z; t_LastCPU : Z;
}.

Record PodSchedMetrics := mkPodMetrics {
  a_PodName : string; a_PodUID : string; a_Namespace : string; a_NodeName : string;
  a_VoluntaryCtxSwitches : Z; a_InvoluntaryCtxSwitches : Z; a_CpuTimeNs : Z; a_WaitTimeNs : Z; a_RunCount : Z;
  a_CpuMigrations : Z; a_SMTMigrations : Z; a_L3Migrations : Z; a_NUMAMigrations : Z;
  a_ProcessCount : Z;
}.

Definition new_agg (r : PodRef) : PodSchedMetrics :=
  mkPodMetrics (pr_PodName r) (pr_PodUID r) (pr_Namespace r) (pr_NodeName r) 0 0 0 0 0 0 0 0 0 0.

Definition add_task (a : PodSchedMetrics) (t : TaskSchedMetrics) : PodSchedMetrics :=
  mkPodMetrics (a_PodName a) (a_PodUID a) (a_Namespace a) (a_NodeName a)
    (u64 (a_VoluntaryCtxSwitches a + t_VoluntaryCtxSwitches t))
    (u64 (a_InvoluntaryCtxSwitches a + t_InvoluntaryCtxSwitches t))
    (u64 (a_CpuTimeNs a + t_CpuTimeNs t))
    (u64 (a_WaitTimeNs a + t_WaitTimeNs t))
    (u64 (a_RunCount a + t_RunCount t))
    (u32 (a_CpuMigrations a + t_CpuMigrations t))
    (u32 (a_SMTMigrations a + t_SMTMigrations t))
    (u32 (a_L3Migrations a + t_L3Migrations t))
    (u32 (a_NUMAMigrations a + t_NUMAMigrations t))
    (a_ProcessCount a + 1).

(** The first loop of [poll]: the keys of the table with the value each read gave. *)
Definition read_tasks (keys : list (Z * option TaskSchedMetrics)) : gmap Z TaskSchedMetrics :=
  foldl (fun m '(pid, v) => match v with Some t => <[pid := t]> m | None => m end) ∅ keys.

(** One turn of the second loop. *)
Definition add_pid (fs : procfs) (acc : PodMapper * gmap string PodSchedMetrics) (e : Z * TaskSchedMetrics)
    : PodMapper * gmap string PodSchedMetrics :=
  let '(m, podAgg) := acc in
  let '(pid, t) := e in
  match GetPodForPID fs m pid with
  | (m, None) => (m, podAgg)
  | (m, Some ref) =>
      let agg := default (new_agg ref) (podAgg !! pr_PodUID ref) in
      (m, <[pr_PodUID ref := add_task agg t]> podAgg)
  end.

(** [poll] with the table of the kernel, [None] before the program is loaded: the mapper
    and the published metrics afterwards. *)
Definition poll (fs : procfs) (range : gmap Z TaskSchedMetrics -> list (Z * TaskSchedMetrics))
    (table : option (list (Z * option TaskSchedMetrics))) (m : PodMapper) (published : gmap string PodSchedMetrics)
    : PodMapper * gmap string PodSchedMetrics :=
  match table with
  | None => (m, published)
  | Some keys => foldl (add_pid fs) (m, ∅) (range (read_tasks keys))
  end.

(** What the mapper answers, whether or not it has to look. *)
Definition pod_of (fs : procfs) (m : PodMapper) (pid : Z) : option PodRef := (GetPodForPID fs m pid).2.

(** Every cached pod is the one of the index. *)
Definition mapper_ok (m : PodMapper) : Prop :=
  index_ok m /\ forall pid ref, pidCache m !! pid = Some ref -> podIndex m !! pr_PodUID ref = Some ref.

Lemma pod_of_index fs m pid ref : mapper_ok m -> pod_of fs m pid = Some ref -> podIndex m !! pr_PodUID ref = Some ref.
Proof.
  intros [Hi Hc]. unfold pod_of, GetPodForPID. destruct (pidCache m !! pid) as [r|] eqn:E; [intros [= ->]; by eapply Hc|].
  destruct (resolvePIDtoPod fs m pid) as [r|] eqn:Er; [|done]. intros [= ->].
  destruct (resolve_index _ _ _ _ Er) as [uid Hu]. by rewrite (Hi uid ref Hu).
Qed.

(** A lookup changes no answer and no index. *)
Lemma get_keeps fs m pid :
  mapper_ok m ->
  let m' := (GetPodForPID fs m pid).1 in
  mapper_ok m' /\ podIndex m' = podIndex m /\ forall p, pod_of fs m' p = pod_of fs m p.
Proof.
  intros Hm. cbn zeta. pose proof (pod_of_index fs m pid) as Hidx. unfold pod_of, GetPodForPID in *.
  destruct (pidCache m !! pid) as [r|] eqn:E; [done|]. destruct (resolvePIDtoPod fs m pid) as [r|] eqn:Er; [|done].
  specialize (Hidx r Hm eq_refl). destruct Hm as [Hi Hc]. cbn [fst snd pidCache podIndex] in *. split_and!; [split; [done|]|done|].
  - intros p ref. cbn. destruct (decide (pid = p)) as [->|Hne]; [rewrite lookup_insert_eq; by intros [= <-]|].
    rewrite lookup_insert_ne by done. apply Hc.
  - intros p. destruct (decide (pid = p)) as [->|Hne]; [by rewrite lookup_insert_eq, E, Er|].
    rewrite lookup_insert_ne by done. destruct (pidCache m !! p); [done|].
    set (m' := mkPodMapper _ _ _ _). change (resolvePIDtoPod fs m' p) with (resolvePIDtoPod fs m p). by destruct (resolvePIDtoPod fs m p).
Qed.

(** The tasks of a list that belong to a pod. *)
Definition in_pod (fs : procfs) (m : PodMapper) (uid : string) (e : Z * TaskSchedMetrics) : Prop :=
  exists ref, pod_of fs m e.1 = Some ref /\ pr_PodUID ref = uid.
#[global] Instance in_pod_dec fs m uid e : Decision (in_pod fs m uid e).
Proof.
  unfold in_pod. destruct (pod_of fs m e.1) as [ref|]; [|right; by intros (? & ? & _)].
  destruct (decide (pr_PodUID ref = uid)); [left; eauto|right]. intros (? & [= <-] & ?). done.
Defined.

Definition agg_of (ref : PodRef) (l : list (Z * TaskSchedMetrics)) : PodSchedMetrics := foldl add_task (new_agg ref) (snd <$> l).

Lemma add_pid_fold fs m l :
  mapper_ok m ->
  let r := foldl (add_pid fs) (m, ∅) l in
  mapper_ok r.1 /\ podIndex r.1 = podIndex m /\ (forall p, pod_of fs r.1 p = pod_of fs m p) /\
  forall uid, r.2 !! uid = match filter (in_pod fs m uid) l with
                           | [] => None
                           | l' => (fun ref => agg_of ref l') <$> podIndex m !! uid
                           end.
Proof.
  intros Hm. cbn zeta. induction l as [|[pid t] l IH] using rev_ind; [done|]. rewrite foldl_snoc.
  destruct (foldl (add_pid fs) (m, ∅) l) as [m1 agg] eqn:El. cbn [fst snd] in IH. destruct IH as (Hm1 & Hi1 & Hp1 & Ha1).
  unfold add_pid. pose proof (get_keeps fs m1 pid Hm1) as (Hm2 & Hi2 & Hp2).
  pose proof (Hp1 pid) as Hpid. unfold pod_of at 1 in Hpid. pose proof (pod_of_index fs m pid) as Hidx.
  destruct (GetPodForPID fs m1 pid) as [m2 oref] eqn:Eg. cbn [fst snd] in *.
  assert (forall uid, filter (in_pod fs m uid) (l ++ [(pid, t)]) =
    filter (in_pod fs m uid) l ++ (if decide (in_pod fs m uid (pid, t)) then [(pid, t)] else [])) as Hf.
  { intros uid. by rewrite filter_app. }
  destruct oref as [ref|]; cbn [fst snd].
  - split_and!; [done|congruence|by intros p; rewrite Hp2, Hp1|]. intros uid. rewrite Hf.
    destruct (decide (pr_PodUID ref = uid)) as [<-|Hne].
    + rewrite lookup_insert_eq, decide_True by (exists ref; done). rewrite Ha1. specialize (Hidx ref Hm (eq_sym Hpid)). rewrite Hidx.
      destruct (filter _ l) as [|e l'] eqn:Ef; cbn [app fmap option_fmap option_map default]; [done|].
      f_equal. unfold agg_of. rewrite app_comm_cons, fmap_app. change (snd <$> [(pid, t)]) with [t]. by rewrite foldl_snoc.
    + rewrite lookup_insert_ne by done. rewrite decide_False, app_nil_r; [apply Ha1|].
      intros (r & Hr & Hu). cbn [fst] in Hr. rewrite <- Hpid in Hr. by simplify_eq.
  - split_and!; [done|congruence|by intros p; rewrite Hp2, Hp1|]. intros uid. rewrite Hf, decide_False, app_nil_r; [apply Ha1|].
    intros (r & Hr & Hu). cbn [fst] in Hr. by rewrite <- Hpid in Hr.
Qed.

(** Sums modulo the width of a counter. *)
Definition zsum {A} (f : A -> Z) (l : list A) : Z := foldr (fun x acc => f x + acc)%Z 0%Z l.

Lemma zsum_perm {A} (f : A -> Z) l1 l2 : l1 ≡ₚ l2 -> zsum f l1 = zsum f l2.
Proof. unfold zsum. induction 1; cbn [foldr]; lia. Qed.

Lemma zsum_app {A} (f : A -> Z) l1 l2 : zsum f (l1 ++ l2) = (zsum f l1 + zsum f l2)%Z.
Proof. unfold zsum. induction l1; cbn [foldr app]; lia. Qed.

(** A field that [add_task] increases modulo [2^w]. *)
Lemma agg_field (fa : PodSchedMetrics -> Z) (ft : TaskSchedMetrics -> Z) (w : Z) ref l :
  (0 < w)%Z -> fa (new_agg ref) = 0%Z ->
  (forall a t, fa (add_task a t) = (fa a + ft t) mod 2 ^ w)%Z ->
  fa (agg_of ref l) = (zsum (fun e => ft e.2) l mod 2 ^ w)%Z.
Proof.
  intros Hw H0 Hs. unfold agg_of. induction l as [|[pid t] l IH] using rev_ind; [by rewrite Z.mod_0_l by lia|].
  rewrite fmap_app. change (snd <$> [(pid, t)]) with [t]. rewrite foldl_snoc, Hs, IH, zsum_app. cbn.
  rewrite Z.add_0_r, Zplus_mod_idemp_l. done.
Qed.

Lemma agg_count ref l : a_ProcessCount (agg_of ref l) = Z.of_nat (length l).
Proof.
  unfold agg_of. induction l as [|[pid t] l IH] using rev_ind; [done|].
  rewrite fmap_app. change (snd <$> [(pid, t)]) with [t]. rewrite foldl_snoc, length_app. cbn. lia.
Qed.

Lemma agg_names ref l :
  let a := agg_of ref l in
  a_PodName a = pr_PodName ref /\ a_PodUID a = pr_PodUID ref /\ a_Namespace a = pr_Namespace ref /\ a_NodeName a = pr_NodeName ref.
Proof.
  cbn zeta. unfold agg_of. induction l as [|[pid t] l IH] using rev_ind; [done|].
  rewrite fmap_app. change (snd <$> [(pid, t)]) with [t]. by rewrite foldl_snoc.
Qed.

(** C29 (functional): after a poll the metrics published for a pod are the sums of the
    counters of the processes the kernel has numbers for and the mapper assigns to that
    pod, each modulo the width of its counter, with their number and the names of the
    pod; a pod without such a process has none, and the result does not depend on the
    order in which the processes are visited. *)
Theorem poll_sums_per_pod fs range keys m published uid :
  (forall t, range t ≡ₚ map_to_list t) -> mapper_ok m ->
  let tasks := filter (in_pod fs m uid) (map_to_list (read_tasks keys)) in
  let total w f := (zsum (fun e : Z * TaskSchedMetrics => f e.2) tasks mod 2 ^ w)%Z in
  match (poll fs range (Some keys) m published).2 !! uid with
  | None => tasks = []
  | Some a =>
      tasks <> [] /\ a_ProcessCount a = Z.of_nat (length tasks) /\
      (exists ref, podIndex m !! uid = Some ref /\ a_PodUID a = uid /\ a_PodName a = pr_PodName ref /\
         a_Namespace a = pr_Namespace ref /\ a_NodeName a = pr_NodeName ref) /\
      a_VoluntaryCtxSwitches a = total 64%Z t_VoluntaryCtxSwitches /\
      a_InvoluntaryCtxSwitches a = total 64%Z t_InvoluntaryCtxSwitches /\
      a_CpuTimeNs a = total 64%Z t_CpuTimeNs /\ a_WaitTimeNs a = total 64%Z t_WaitTimeNs /\
      a_RunCount a = total 64%Z t_RunCount /\ a_CpuMigrations a = total 32%Z t_CpuMigrations /\
      a_SMTMigrations a = total 32%Z t_SMTMigrations /\ a_L3Migrations a = total 32%Z t_L3Migrations /\
      a_NUMAMigrations a = total 32%Z t_NUMAMigrations
  end.
Proof.
  intros Hr Hm. cbn zeta. unfold poll. destruct (add_pid_fold fs m (range (read_tasks keys)) Hm) as (_ & _ & _ & Ha). cbn zeta in Ha.
  rewrite Ha. clear Ha. set (l := filter _ (range _)). set (tasks := filter _ (map_to_list _)).
  assert (l ≡ₚ tasks) as Hl by (unfold l, tasks; by rewrite (Hr (read_tasks keys))).
  destruct l as [|e l'] eqn:El; [by apply Permutation_nil_l in Hl|].
  assert (in_pod fs m uid e) as (ref & Href & Hu).
  { assert (e ∈ l) as [H _]%list_elem_of_filter by (rewrite El; left); done. }
  pose proof (pod_of_index fs m e.1 ref Hm Href) as Hi. rewrite Hu in Hi. rewrite Hi. cbn [fmap option_fmap option_map].
  rewrite <- !(zsum_perm _ _ _ Hl). split_and!.
  - intros E. rewrite E in Hl. by apply Permutation_nil_r in Hl.
  - by rewrite agg_count, <- Hl.
  - exists ref. destruct (agg_names ref (e :: l')) as (? & ? & ? & ?). by rewrite <- Hu.
  - by apply agg_field.
  - by apply agg_field.
  - by apply agg_field.
  - by apply agg_field.
  - by apply agg_field.
  - by apply agg_field.
  - by apply agg_field.
  - by apply agg_field.
  - by apply agg_field.
Qed.

(** ** collector.go: the topology of the processors *)

Record cpuTopologyInfo := mkTopology { CoreID : Z; PackageID : Z; NUMAID : Z; LLCID : Z; Valid : Z }.

Section topology.
  Context (fs : procfs).

(** [filepath.Glob] for a pattern in the last element: errors of the file system give no
    match. *)
Definition glob_dir (dir : string) (matches : string -> bool) : list string :=
  match ReadDir fs dir with
  | Ok entries => PathJoin dir <$> sort_strings (filter (fun n => matches n = true) (de_name <$> entries))
  | Err _ => []
  end.

(** The patterns cpu[0-9]* and node* *)
Definition is_cpu_name (n : string) : bool :=
  match strip_prefix "cpu" n with Some (String a _) => bool_decide (is_Some (digit_of a)) | _ => false end.
Definition is_node_name (n : string) : bool := HasPrefix n "node".

Definition parseCPUID (cpuDir : string) : option Z :=
  let base := Base cpuDir in
  if HasPrefix base "cpu" then ParseUint32 (TrimPrefix base "cpu") else None.

Definition readNUMAID (cpuDir : string) : option Z :=
  match glob_dir cpuDir is_node_name with
  | [] => None
  | d :: _ => ParseUint32 (TrimPrefix (Base d) "node")
  end.

Definition readUint32File (path : string) : option Z :=
  match ReadFile fs path with Ok data => ParseUint32 (TrimSpace data) | Err _ => None end.

(** What is known of one processor: nothing unless its core and package can be read; the
    package stands in for the NUMA node, 0 for the last-level cache. *)
Definition cpu_topology (cpuDir : string) : option (Z * cpuTopologyInfo) :=
  cpuID ← parseCPUID cpuDir;
  coreID ← readUint32File (PathJoin cpuDir "topology/core_id");
  packageID ← readUint32File (PathJoin cpuDir "topology/physical_package_id");
  let numaID := default packageID (readNUMAID cpuDir) in
  let llcID := default 0%Z (readUint32File (PathJoin cpuDir "cache/index3/id")) in
  Some (cpuID, mkTopology coreID packageID numaID llcID 1).

(** [injectCPUTopology] on a table, whose updates may fail: a failure is logged. *)
Definition injectCPUTopology {T} (update : Z -> cpuTopologyInfo -> SE T bpf_error unit) (table : option T) : option T :=
  match table with
  | None => None
  | Some t =>
      Some (foldl (fun t dir => match cpu_topology dir with
                                | Some (cpu, info) => (update cpu info t).1
                                | None => t
                                end) t (glob_dir "/sys/devices/system/cpu" is_cpu_name))
  end.
End topology.

(** Entries are only ever written for processors found in the file system, and are valid;
    an entry of another processor stays. *)
Lemma inject_topology_spec fs (t : gmap Z cpuTopologyInfo) cpu :
  let update c i := fun t : gmap Z cpuTopologyInfo => (<[c := i]> t, Ok tt) in
  match injectCPUTopology fs update (Some t) with
  | Some t' =>
      (exists dir info, dir ∈ glob_dir fs "/sys/devices/system/cpu" is_cpu_name /\
         cpu_topology fs dir = Some (cpu, info) /\ t' !! cpu = Some info /\ Valid info = 1%Z) \/
      (forall dir info, dir ∈ glob_dir fs "/sys/devices/system/cpu" is_cpu_name -> cpu_topology fs dir <> Some (cpu, info)) /\
      t' !! cpu = t !! cpu
  | None => False
  end.
Proof.
  cbn zeta. unfold injectCPUTopology. induction (glob_dir _ _ _) as [|dir dirs IH] using rev_ind; [right; set_solver|].
  rewrite foldl_snoc. set (t1 := foldl _ _ dirs) in *. destruct (cpu_topology fs dir) as [[c info]|] eqn:Ed.
  - cbn [fst]. destruct (decide (c = cpu)) as [->|Hne].
    + left. exists dir, info. rewrite lookup_insert_eq. split_and!; [set_solver|done|done|].
      unfold cpu_topology in Ed. by simplify_option_eq.
    + rewrite lookup_insert_ne by done. destruct IH as [(d & i & ? & ?)|[Hno Ht]]; [left; exists d, i; set_solver|].
      right. split; [|done]. intros d i [Hd| ->%list_elem_of_singleton]%elem_of_app; [by apply Hno|]. congruence.
  - destruct IH as [(d & i & ? & ?)|[Hno Ht]]; [left; exists d, i; set_solver|].
    right. split; [|done]. intros d i [Hd| ->%list_elem_of_singleton]%elem_of_app; [by apply Hno|]. congruence.
Qed.

(** ** A table of the kernel in a set *)

(** The keys, and the fate of the calls to come: [false] fails.  Afterwards calls
    succeed. *)
Record set_table := mkTable { st_keys : gset Z; st_script : list bool }.

Definition st_call (b : set_table) : bool * list bool :=
  match st_script b with [] => (true, []) | x :: l => (x, l) end.

#[global] Instance set_table_map : BPFMap set_table := {|
  bpf_keys := st_keys;
  bpf_Update := fun pid b =>
    let '(ok, rest) := st_call b in
    if ok then (mkTable ({[pid]} ∪ st_keys b) rest, Ok tt) else (mkTable (st_keys b) rest, Err BOther);
  bpf_DeleteKey := fun pid b =>
    let '(ok, rest) := st_call b in
    if ok then if bool_decide (pid ∈ st_keys b) then (mkTable (st_keys b ∖ {[pid]}) rest, Ok tt)
               else (mkTable (st_keys b) rest, Err BNoEntry)
    else (mkTable (st_keys b) rest, Err BOther);
  bpf_healthy := fun b => st_script b = [];
|}.

#[global] Instance set_table_laws : BPFLaws set_table.
Proof.
  split; intros pid [keys [|[] script]]; cbn; unfold st_call; cbn; try (case_bool_decide; cbn); naive_solver.
Qed.

(** A node with one pod of two processes, and a resource that selects it. *)
Definition sample_fs : procfs := mkProcfs
  (fun d => if decide (d = "/proc") then Ok [mkDirent "7" true; mkDirent "8" true; mkDirent "9" true; mkDirent "uptime" false] else Err ENOENT)
  (fun f => if decide (f = "/proc/7/cgroup") then Ok "0::/kubepods/burstable/poda1/c1"
            else if decide (f = "/proc/8/cgroup") then Ok "0::/kubepods.slice/kubepods-podb2.slice/c2"
            else if decide (f = "/proc/9/cgroup") then Ok "0::/system.slice" else Err ENOENT).

Definition sample_pods : list kpod :=
  [mkKPod "web" "a1" "shop" "n1" {["app" := "web"]} PodRunning; mkKPod "db" "b2" "shop" "n1" {["app" := "db"]} PodRunning].

Definition sample_object (app : string) : unstructured :=
  [("metadata", JObj [("name", JStr "m"); ("namespace", JStr "ops")]);
   ("spec", JObj [("enabled", JBool true); ("k8sNamespaces", JArr [JStr "shop"]);
                  ("labelSelectors", JArr [JObj [("key", JStr "app"); ("value", JStr app)]])])].

Definition sample_events (script : list bool) : list (mon_event set_table) :=
  [MLoaded (mkTable ∅ script); MRefresh (Ok sample_pods);
   MWake sample_fs elements (Event (mkEvent EvAdded (Some (sample_object "web"))))].

(** The resource is changed to select the other pod. *)
Example monitored_follows_resource :
  elements (w_monitored (mon_run "n1" (sample_events []))) = [7%Z] /\
  elements (w_monitored (mon_run "n1" (sample_events [] ++
    [MWake sample_fs elements (Event (mkEvent EvModified (Some (sample_object "db"))))]))) = [8%Z].
Proof. by vm_compute. Qed.


Lemma missed_deletion_stays_in_force_witness :
  let w := mon_run "n1" (sample_events []) in
  is_Some (w_specs (foldl (on_wake sample_fs elements) w [ChannelClosed; Tick; Tick]) !! "ops/m").
Proof.
  cbn zeta. eexists. apply (missed_deletion_stays_in_force sample_fs elements "ops/m"); [by vm_compute|].
  intros k Hk. repeat (apply elem_of_cons in Hk as [->|Hk]; [by intros []|]). by apply not_elem_of_nil in Hk.
Defined.

(** A vanished process whose removal fails is forgotten, and stays in the table. *)
Example failed_removal_is_forgotten :
  let gone := mkProcfs (fun _ => Ok []) (fun _ => Err ENOENT) in
  let w := mon_run "n1" (sample_events [true; false] ++ [MWake gone elements Tick; MWake gone elements Tick]) in
  elements (w_monitored w) = [] /\ (fun b => elements (bpf_keys b)) <$> w_pids w = Some [7%Z].
Proof. by vm_compute. Qed.

Definition sample_mapper : PodMapper := w_mapper (mon_run (B := set_table) "n1" (sample_events [])).

Lemma sample_mapper_ok : mapper_ok sample_mapper.
Proof.
  split; [apply mon_run_index|].
  assert (pidCache sample_mapper = {[7%Z := pod_ref (mkKPod "web" "a1" "shop" "n1" {["app" := "web"]} PodRunning);
                                     8%Z := pod_ref (mkKPod "db" "b2" "shop" "n1" {["app" := "db"]} PodRunning)]}) as -> by by vm_compute.
  intros pid ref. rewrite lookup_insert_Some, lookup_singleton_Some. intros [[_ <-]|[_ [_ <-]]]; by vm_compute.
Qed.

Lemma poll_sums_per_pod_witness :
  let m := sample_mapper in
  let t cpu := mkTask 7 7 1 2 cpu 0 5 0 0 0 0 0 in
  a_CpuTimeNs <$> (poll sample_fs map_to_list (Some [(7%Z, Some (t 100%Z)); (8%Z, None)]) m ∅).2 !! "a1" = Some 100%Z /\
  ~ (poll sample_fs map_to_list (Some [(7%Z, Some (t 100%Z)); (8%Z, None)]) m ∅).2 !! "a1" = None.
Proof.
  intros m t. pose proof sample_mapper_ok as Hm.
  split; [by vm_compute|]. intros E.
  pose proof (poll_sums_per_pod sample_fs map_to_list [(7%Z, Some (t 100%Z)); (8%Z, None)] m ∅ "a1" (fun _ => reflexivity _) Hm) as H.
  cbn zeta in H. rewrite E in H. revert H. by vm_compute.
Defined.

Lemma tracked_are_monitored_witness :
  7%Z ∈ w_monitored (mon_run "n1" (sample_events [])) /\
  tracked_ok (mon_run "n1" (sample_events [])).
Proof. split; [by vm_compute|exact (tracked_are_monitored "n1" (sample_events []))]. Defined.
