(* ===== verification/CRRepo.v ===== *)
(** * The repository of strategies and intents: api/manager/repository/cr_strategy_repo.go

    The conversions between the domain types and custom resources, field by field,
    and the repository's operations on the store of KubeStore.v. *)

From stdpp Require Import base gmap strings list.
From Stdlib Require Import ZArith Lia.
From S2P Require Import Prelude GoStrings Intents ManagerDomain KubeStore.
#[local] Open Scope go_scope.

Section conversions.
  Variable ObjectIDFromHex : string -> option ObjectID.
  Variable crNamespace : string.

Definition strategy_spec (s : ScheduleStrategy) : fields := [
      ("strategyNamespace", JStr (ss_StrategyNamespace s));
      ("labelSelectors", JArr (selector_fields <$> ss_LabelSelectors s));
      ("k8sNamespaces", JArr (JStr <$> ss_K8sNamespace s));
      ("commandRegex", JStr (ss_CommandRegex s));
      ("priority", JInt (ss_Priority s));
      ("executionTime", JInt (ss_ExecutionTime s));
      ("creatorID", JStr (ss_CreatorID s));
      ("updaterID", JStr (be_UpdaterID (ss_Base s)));
      ("createdTime", JInt (be_CreatedTime (ss_Base s)));
      ("updatedTime", JInt (be_UpdatedTime (ss_Base s)))].

Definition domainStrategyToUnstructured (s : ScheduleStrategy) : unstructured :=
  [("apiVersion", JStr "gthulhu.io/v1alpha1");
   ("kind", JStr "SchedulingStrategy");
   ("metadata", JObj [("name", JStr (ss_ID s)); ("namespace", JStr crNamespace);
      ("labels", JObj [(labelCreatorID, JStr (ss_CreatorID s))])]);
   ("spec", JObj (strategy_spec s))].

Definition unstructuredToDomainStrategy (obj : unstructured) : result repo_error ScheduleStrategy :=
  match NestedMap obj "spec" with
  | None => Err RNoSpec
  | Some spec =>
      match ObjectIDFromHex (GetName obj) with
      | None => Err RBadName
      | Some id =>
          let* creatorID := parseObjectIDField ObjectIDFromHex spec "creatorID" in
          let* updaterID := parseObjectIDField ObjectIDFromHex spec "updaterID" in
          Ok (mkStrategy (mkBase id (getInt64 spec "createdTime") (getInt64 spec "updatedTime") 0 creatorID updaterID)
                (getStr spec "strategyNamespace")
                match jget spec "labelSelectors" with Some (JArr l) => omap decode_selector l | _ => [] end
                match jget spec "k8sNamespaces" with Some (JArr l) => omap decode_string l | _ => [] end
                (getStr spec "commandRegex") (getInt64 spec "priority") (getInt64 spec "executionTime"))
      end
  end.

Definition intent_spec (i : ScheduleIntent) : fields := [
      ("strategyID", JStr (sc_StrategyID i));
      ("podID", JStr (sc_PodID i));
      ("podName", JStr (sc_PodName i));
      ("nodeID", JStr (sc_NodeID i));
      ("k8sNamespace", JStr (sc_K8sNamespace i));
      ("commandRegex", JStr (sc_CommandRegex i));
      ("priority", JInt (sc_Priority i));
      ("executionTime", JInt (sc_ExecutionTime i));
      ("podLabels", JObj (string_fields (sc_PodLabels i)));
      ("state", JInt (sc_State i));
      ("creatorID", JStr (sc_CreatorID i));
      ("updaterID", JStr (be_UpdaterID (sc_Base i)));
      ("createdTime", JInt (be_CreatedTime (sc_Base i)));
      ("updatedTime", JInt (be_UpdatedTime (sc_Base i)))].

Definition domainIntentToUnstructured (i : ScheduleIntent) : unstructured :=
  [("apiVersion", JStr "gthulhu.io/v1alpha1");
   ("kind", JStr "SchedulingIntent");
   ("metadata", JObj [("name", JStr (sc_ID i)); ("namespace", JStr crNamespace);
      ("labels", JObj [(labelCreatorID, JStr (sc_CreatorID i)); (labelStrategyID, JStr (sc_StrategyID i));
                       (labelState, JStr (Itoa (sc_State i)))])]);
   ("spec", JObj (intent_spec i))].

Definition unstructuredToDomainIntent (obj : unstructured) : result repo_error ScheduleIntent :=
  match NestedMap obj "spec" with
  | None => Err RNoSpec
  | Some spec =>
      match ObjectIDFromHex (GetName obj) with
      | None => Err RBadName
      | Some id =>
          let* creatorID := parseObjectIDField ObjectIDFromHex spec "creatorID" in
          let* updaterID := parseObjectIDField ObjectIDFromHex spec "updaterID" in
          let* strategyID := parseObjectIDField ObjectIDFromHex spec "strategyID" in
          Ok (mkScheduleIntent
                (mkBase id (getInt64 spec "createdTime") (getInt64 spec "updatedTime") 0 creatorID updaterID)
                strategyID (getStr spec "podID") (getStr spec "podName") (getStr spec "nodeID")
                (getStr spec "k8sNamespace") (getStr spec "commandRegex") (getInt64 spec "priority")
                (getInt64 spec "executionTime")
                match jget spec "podLabels" with Some (JObj m) => decode_labels m | _ => ∅ end
                (i8 (getInt64 spec "state")))
      end
  end.

Definition matchesStrategyFilter (s : ScheduleStrategy) (opt : QueryStrategyOptions) : bool :=
  passes (qs_CreatorIDs opt) (containsOID (qs_CreatorIDs opt) (ss_CreatorID s)) &&
  passes (qs_K8SNamespaces opt) (sliceOverlap (qs_K8SNamespaces opt) (ss_K8sNamespace s)).

Definition matchesIntentFilter (i : ScheduleIntent) (opt : QueryIntentOptions) : bool :=
  passes (qi_CreatorIDs opt) (containsOID (qi_CreatorIDs opt) (sc_CreatorID i)) &&
  passes (qi_StrategyIDs opt) (containsOID (qi_StrategyIDs opt) (sc_StrategyID i)) &&
  passes (qi_K8SNamespaces opt) (containsStr (qi_K8SNamespaces opt) (sc_K8sNamespace i)) &&
  passes (qi_States opt) (containsState (qi_States opt) (sc_State i)) &&
  passes (qi_PodIDs opt) (containsStr (qi_PodIDs opt) (sc_PodID i)).

End conversions.

(** ** Operations *)

Section operations.
  Context {K : Type} `{KubeAPI K}.
  Variable ObjectIDFromHex : string -> option ObjectID.
  Variable crNamespace : string.
  (** [bson.NewObjectID]. *)
  Variable NewObjectID : nat -> ObjectID.

Notation toIntent := (domainIntentToUnstructured crNamespace).
Notation toStrategy := (domainStrategyToUnstructured crNamespace).
Notation fromIntent := (unstructuredToDomainIntent ObjectIDFromHex).
Notation fromStrategy := (unstructuredToDomainStrategy ObjectIDFromHex).
Notation M := (SE (repo K) repo_error).

Definition set_intent_base (b : BaseEntity) (strategyID : ObjectID) (i : ScheduleIntent) : ScheduleIntent :=
  mkScheduleIntent b strategyID (sc_PodID i) (sc_PodName i) (sc_NodeID i) (sc_K8sNamespace i) (sc_CommandRegex i)
    (sc_Priority i) (sc_ExecutionTime i) (sc_PodLabels i) (sc_State i).

Definition set_strategy_base (b : BaseEntity) (s : ScheduleStrategy) : ScheduleStrategy :=
  mkStrategy b (ss_StrategyNamespace s) (ss_LabelSelectors s) (ss_K8sNamespace s) (ss_CommandRegex s) (ss_Priority s)
    (ss_ExecutionTime s).

(** The fields an insertion fills in. *)
Definition stamp_intent (now : Z) (id strategyID : ObjectID) (i : ScheduleIntent) : ScheduleIntent :=
  let b := sc_Base i in
  set_intent_base (mkBase id (or_now now (be_CreatedTime b)) (or_now now (be_UpdatedTime b)) (be_DeletedTime b)
    (be_CreatorID b) (be_UpdaterID b)) strategyID i.

Definition stamp_strategy (now : Z) (id : ObjectID) (s : ScheduleStrategy) : ScheduleStrategy :=
  let b := ss_Base s in
  set_strategy_base (mkBase id (or_now now (be_CreatedTime b)) now (be_DeletedTime b) (be_CreatorID b) (be_UpdaterID b)) s.

Definition rename_strategy (id : ObjectID) (s : ScheduleStrategy) : ScheduleStrategy :=
  let b := ss_Base s in
  set_strategy_base (mkBase id (be_CreatedTime b) (be_UpdatedTime b) (be_DeletedTime b) (be_CreatorID b) (be_UpdaterID b)) s.

Definition insert_intents (now : Z) (strategyID : ObjectID) (intents : list ScheduleIntent) : M (list ScheduleIntent) :=
  create_all NewObjectID intentGVR strategyGVR sc_ID (fun id => stamp_intent now id strategyID) toIntent strategyID [] intents.

Definition InsertStrategyAndIntents (now : Z) (strategy : option ScheduleStrategy) (intents : option (list ScheduleIntent))
    : M (ScheduleStrategy * list ScheduleIntent) :=
  match strategy, intents with
  | None, _ | _, None => sfail RNil
  | Some strategy, Some intents =>
      let! id := ensure_id NewObjectID (ss_ID strategy) in
      let strategy := stamp_strategy now id strategy in
      let! created := swrap RKube (kube (kube_Create strategyGVR (toStrategy strategy))) in
      let strategy := match ObjectIDFromHex (GetName created) with
                      | Some id => rename_strategy id strategy
                      | None => strategy
                      end in
      let! intents := insert_intents now (ss_ID strategy) intents in
      sret (strategy, intents)
  end.

Fixpoint InsertIntents (now : Z) (intents : list ScheduleIntent) : M (list ScheduleIntent) :=
  match intents with
  | [] => sret []
  | i :: rest =>
      let! id := ensure_id NewObjectID (sc_ID i) in
      let i := stamp_intent now id (sc_StrategyID i) i in
      let! _ := swrap RKube (kube (kube_Create intentGVR (toIntent i))) in
      let! rest := InsertIntents now rest in
      sret (i :: rest)
  end.

Definition BatchUpdateIntentsState (now : Z) (intentIDs : list ObjectID) (newState : Z) : M unit :=
  sfor (update_object_state intentGVR now newState) intentIDs.

Definition QueryStrategies (opt : option QueryStrategyOptions) : M (list ScheduleStrategy) :=
  match opt with
  | None => sfail RNil
  | Some opt =>
      query_objects strategyGVR fromStrategy (fun s => matchesStrategyFilter s opt) (qs_IDs opt)
        (buildLabelSelector (qs_CreatorIDs opt) labelCreatorID)
  end.

Definition QueryIntents (opt : option QueryIntentOptions) : M (list ScheduleIntent) :=
  match opt with
  | None => sfail RNil
  | Some opt =>
      query_objects intentGVR fromIntent (fun i => matchesIntentFilter i opt) (qi_IDs opt)
        (buildLabelSelector (qi_CreatorIDs opt) labelCreatorID ++
         buildLabelSelector (qi_StrategyIDs opt) labelStrategyID ++
         buildStateLabelSelector (qi_States opt))
  end.

(** [SetResourceVersion] concerns only the server's concurrency check. *)
Definition UpdateStrategy (strategy : option ScheduleStrategy) : M unit :=
  match strategy with
  | None => sfail RNil
  | Some strategy =>
      let! _ := swrap RKube (kube (kube_Get strategyGVR (ss_ID strategy))) in
      let! _ := swrap RKube (kube (kube_Update strategyGVR (toStrategy strategy))) in
      sret tt
  end.

Definition DeleteStrategy (strategyID : ObjectID) : M unit := delete_object strategyGVR strategyID.

Definition DeleteIntents (intentIDs : list ObjectID) : M unit := sfor (delete_object intentGVR) intentIDs.

Definition DeleteIntentsByStrategyID (strategyID : ObjectID) : M unit :=
  delete_selected intentGVR (mkReq labelStrategyID [strategyID]).

End operations.

(** ** The conversions lose nothing *)

Section round_trip.
  Variable ObjectIDFromHex : string -> option ObjectID.
  Variable crNamespace : string.

Notation valid_id := (valid_id ObjectIDFromHex).
Notation valid_base := (valid_base ObjectIDFromHex).

Definition valid_intent (i : ScheduleIntent) : Prop :=
  valid_base (sc_Base i) /\ valid_id (sc_StrategyID i) /\ (-128 <= sc_State i < 128)%Z.

Definition valid_strategy (s : ScheduleStrategy) : Prop := valid_base (ss_Base s).

(** Only the name and the spec are read. *)
Lemma intent_decodes o i :
  valid_intent i -> GetName o = sc_ID i -> NestedMap o "spec" = Some (intent_spec i) ->
  unstructuredToDomainIntent ObjectIDFromHex o = Ok i.
Proof.
  intros ((Hid & Hd & Hc & Hu) & Hs & Hst) Hn Hsp. unfold unstructuredToDomainIntent.
  assert (ObjectIDFromHex (sc_ID i) = Some (sc_ID i)) as Hid' by apply Hid. rewrite Hsp, Hn, Hid'.
  rewrite (parse_valid _ _ _ (sc_CreatorID i)), (parse_valid _ _ _ (be_UpdaterID (sc_Base i))),
    (parse_valid _ _ _ (sc_StrategyID i)) by (reflexivity || assumption).
  change (jget (intent_spec i) "podLabels") with (Some (JObj (string_fields (sc_PodLabels i)))).
  change (getInt64 (intent_spec i) "state") with (sc_State i).
  cbn [rbind]. rewrite decode_labels_fields, i8_id by done.
  destruct i as [[id ct ut dt cr up] sid pid pn nid ns re pr ex pl st]. cbn in Hd. subst dt. reflexivity.
Qed.

Lemma strategy_decodes o s :
  valid_strategy s -> GetName o = ss_ID s -> NestedMap o "spec" = Some (strategy_spec s) ->
  unstructuredToDomainStrategy ObjectIDFromHex o = Ok s.
Proof.
  intros (Hid & Hd & Hc & Hu) Hn Hsp. unfold unstructuredToDomainStrategy.
  assert (ObjectIDFromHex (ss_ID s) = Some (ss_ID s)) as Hid' by apply Hid. rewrite Hsp, Hn, Hid'.
  rewrite (parse_valid _ _ _ (ss_CreatorID s)), (parse_valid _ _ _ (be_UpdaterID (ss_Base s))) by (reflexivity || assumption).
  change (jget (strategy_spec s) "labelSelectors") with (Some (JArr (selector_fields <$> ss_LabelSelectors s))).
  change (jget (strategy_spec s) "k8sNamespaces") with (Some (JArr (JStr <$> ss_K8sNamespace s))).
  cbn [rbind].
  rewrite decode_selectors, decode_strings.
  destruct s as [[id ct ut dt cr up] sn ls ns re pr ex]. cbn in Hd. subst dt. reflexivity.
Qed.

End round_trip.

(** ** Intents and strategies as resources *)

Section resources.
  Variable ObjectIDFromHex : string -> option ObjectID.
  Variable crNamespace : string.

Notation toIntent := (domainIntentToUnstructured crNamespace).
Notation toStrategy := (domainStrategyToUnstructured crNamespace).

Lemma intent_dec_enc i o :
  valid_intent ObjectIDFromHex i -> GetName o = sc_ID i -> content_of o = content_of (toIntent i) ->
  unstructuredToDomainIntent ObjectIDFromHex o = Ok i.
Proof. intros Hv Hn Hc. apply intent_decodes; [done..|]. apply (f_equal ct_spec) in Hc. exact Hc. Qed.

Lemma strategy_dec_enc s o :
  valid_strategy ObjectIDFromHex s -> GetName o = ss_ID s -> content_of o = content_of (toStrategy s) ->
  unstructuredToDomainStrategy ObjectIDFromHex o = Ok s.
Proof. intros Hv Hn Hc. apply strategy_decodes; [done..|]. apply (f_equal ct_spec) in Hc. exact Hc. Qed.

Definition intent_resource : Resource ScheduleIntent := {|
  res_gvr := intentGVR; res_name := sc_ID; res_enc := toIntent;
  res_dec := unstructuredToDomainIntent ObjectIDFromHex; res_valid := valid_intent ObjectIDFromHex;
  res_enc_name := fun _ => eq_refl; res_dec_enc := intent_dec_enc
|}.

Definition strategy_resource : Resource ScheduleStrategy := {|
  res_gvr := strategyGVR; res_name := ss_ID; res_enc := toStrategy;
  res_dec := unstructuredToDomainStrategy ObjectIDFromHex; res_valid := valid_strategy ObjectIDFromHex;
  res_enc_name := fun _ => eq_refl; res_dec_enc := strategy_dec_enc
|}.

Lemma intent_labels_enc i :
  GetLabels (toIntent i) =
  <[labelCreatorID := sc_CreatorID i]> (<[labelStrategyID := sc_StrategyID i]> (<[labelState := Itoa (sc_State i)]> ∅)).
Proof. reflexivity. Qed.

(** The labels are written so that the server's selection never hides a match. *)
Lemma intent_selector_complete i opt :
  matchesIntentFilter i opt = true ->
  forallb (satisfies (GetLabels (toIntent i)))
    (buildLabelSelector (qi_CreatorIDs opt) labelCreatorID ++ buildLabelSelector (qi_StrategyIDs opt) labelStrategyID ++
     buildStateLabelSelector (qi_States opt)) = true.
Proof.
  unfold matchesIntentFilter. rewrite !andb_true_iff. intros ((((Hc & Hs) & _) & Hst) & _).
  rewrite intent_labels_enc, !forallb_app, !andb_true_iff. split_and!.
  - by eapply passes_selector; [apply lookup_insert_eq|].
  - eapply passes_selector; [|done]. by rewrite lookup_insert_ne, lookup_insert_eq.
  - eapply passes_state_selector; [|done]. by rewrite lookup_insert_ne, lookup_insert_ne, lookup_insert_eq.
Qed.

Lemma strategy_selector_complete s opt :
  matchesStrategyFilter s opt = true ->
  forallb (satisfies (GetLabels (toStrategy s))) (buildLabelSelector (qs_CreatorIDs opt) labelCreatorID) = true.
Proof.
  unfold matchesStrategyFilter. rewrite !andb_true_iff. intros [Hc _].
  eapply passes_selector; [|exact Hc]. change (GetLabels (toStrategy s)) with (<[labelCreatorID := ss_CreatorID s]> (∅ : gmap string string)).
  apply lookup_insert_eq.
Qed.

End resources.

(** ** What the operations do *)

Section repository.
  Context {K : Type} {KA : KubeAPI K} {KL : KubeLaws K}.
  Variable ObjectIDFromHex : string -> option ObjectID.
  Variable crNamespace : string.
  Variable NewObjectID : nat -> ObjectID.

#[local] Existing Instance intent_resource.
#[local] Existing Instance strategy_resource.

(** The store holds an intent, or a strategy. *)
Definition holds_intent (k : K) (i : ScheduleIntent) : Prop :=
  holds (RA := intent_resource ObjectIDFromHex crNamespace) k i.
Definition holds_strategy (k : K) (s : ScheduleStrategy) : Prop :=
  holds (RA := strategy_resource ObjectIDFromHex crNamespace) k s.

(** Every object of the two kinds was written by this repository. *)
Definition repo_wf (k : K) : Prop :=
  all_held (RA := intent_resource ObjectIDFromHex crNamespace) k /\
  all_held (RA := strategy_resource ObjectIDFromHex crNamespace) k.

Lemma query_intents_spec opt (r : repo K) :
  repo_wf (r_kube r) ->
  let '(r', res) := QueryIntents ObjectIDFromHex (Some opt) r in
  unchanged (r_kube r) (r_kube r') /\
  match res with
  | Ok l => forall i, i ∈ l <-> holds_intent (r_kube r) i /\ named (qi_IDs opt) (sc_ID i) /\ matchesIntentFilter i opt = true
  | Err e => exists ke, e = RKube ke
  end.
Proof. intros [Hw _]. apply (query_spec _ _ _ r Hw (fun i => intent_selector_complete crNamespace i opt)). Qed.

Lemma query_strategies_spec opt (r : repo K) :
  repo_wf (r_kube r) ->
  let '(r', res) := QueryStrategies ObjectIDFromHex (Some opt) r in
  unchanged (r_kube r) (r_kube r') /\
  match res with
  | Ok l => forall s, s ∈ l <-> holds_strategy (r_kube r) s /\ named (qs_IDs opt) (ss_ID s) /\ matchesStrategyFilter s opt = true
  | Err e => exists ke, e = RKube ke
  end.
Proof. intros [_ Hw]. apply (query_spec _ _ _ r Hw (fun s => strategy_selector_complete crNamespace s opt)). Qed.

(** *** Deleting the intents of a strategy *)

Lemma wf_subset (k k' : K) :
  (forall g m, kube_objects k' g !! m = None \/ kube_objects k' g !! m = kube_objects k g !! m) -> repo_wf k -> repo_wf k'.
Proof. intros Hs [Hi Hst]. split; (eapply all_held_subset; [intros m; apply Hs|done]). Qed.

Lemma strategy_requirement i sid :
  satisfies (GetLabels (domainIntentToUnstructured crNamespace i)) (mkReq labelStrategyID [sid]) =
  bool_decide (sc_StrategyID i = sid).
Proof.
  rewrite intent_labels_enc. unfold satisfies. cbn [rq_label rq_values].
  rewrite lookup_insert_ne, lookup_insert_eq by done. apply bool_decide_ext. set_solver.
Qed.

Lemma delete_by_strategy_spec sid (r : repo K) :
  repo_wf (r_kube r) ->
  let '(r', res) := DeleteIntentsByStrategyID sid r in
  (forall g, g <> intentGVR -> forall m, kube_objects (r_kube r') g !! m = kube_objects (r_kube r) g !! m) /\
  repo_wf (r_kube r') /\
  (forall i, holds_intent (r_kube r') i -> holds_intent (r_kube r) i) /\
  (forall i, holds_intent (r_kube r) i -> sc_StrategyID i <> sid -> holds_intent (r_kube r') i) /\
  match res with
  | Ok _ => forall i, holds_intent (r_kube r') i -> sc_StrategyID i <> sid
  | Err e => exists ke, e = RKube ke
  end.
Proof.
  intros [Hi Hs]. pose proof (delete_selected_spec (mkReq labelStrategyID [sid]) r Hi) as D.
  change (delete_selected res_gvr _ r) with (DeleteIntentsByStrategyID sid r) in D.
  destruct (DeleteIntentsByStrategyID sid r) as [r' res]. destruct D as (D1 & D2 & D3 & D4 & D5).
  cbn [res_enc intent_resource] in D4, D5. setoid_rewrite strategy_requirement in D4.
  split_and!; [exact D1| |exact D3| |].
  - split; [exact D2|]. eapply all_held_same; [|exact Hs]. apply map_eq. intros m. by apply D1.
  - intros i Hh Hne. apply D4; [exact Hh|]. by apply bool_decide_eq_false.
  - destruct res as [[]|e]; [|exact D5]. setoid_rewrite strategy_requirement in D5. intros i Hh.
    specialize (D5 i Hh). by apply bool_decide_eq_false in D5.
Qed.

(** *** Inserting a strategy with its intents *)


Notation at_ r g m := (kube_objects (r_kube r) g !! m).

Lemma insert_strategy_spec now strategy intents (r : repo K) :
  (forall n, valid_id ObjectIDFromHex (NewObjectID n)) ->
  ss_ID strategy = NilObjectID \/ valid_id ObjectIDFromHex (ss_ID strategy) ->
  let '(r', res) := InsertStrategyAndIntents ObjectIDFromHex crNamespace NewObjectID now (Some strategy) (Some intents) r in
  match res with
  | Ok (s, l) =>
      (exists id, valid_id ObjectIDFromHex id /\ s = stamp_strategy now id strategy) /\
      Forall2 (fun i i' => exists id, i' = stamp_intent now id (ss_ID s) i) intents l /\
      at_ r' strategyGVR (ss_ID s) = Some (content_of (domainStrategyToUnstructured crNamespace s)) /\
      (forall i, i ∈ l -> at_ r' intentGVR (sc_ID i) = Some (content_of (domainIntentToUnstructured crNamespace i))) /\
      (forall g m, (g, m) <> (strategyGVR, ss_ID s) -> g <> intentGVR \/ m ∉ sc_ID <$> l -> at_ r' g m = at_ r g m)
  | Err (RCreateIntent _ errs) =>
      errs = [] -> exists failed, forall g m, (g, m) <> (intentGVR, failed) -> at_ r' g m = at_ r g m
  | Err _ => exists failed, forall g m, (g, m) <> (strategyGVR, failed) -> at_ r' g m = at_ r g m
  end.
Proof.
  intros Hnew Hid. unfold InsertStrategyAndIntents, sbind.
  destruct (ensure_id_kube NewObjectID (ss_ID strategy) r) as (id & r1 & -> & Hk1 & Hi1 & Hi2).
  assert (valid_id ObjectIDFromHex id) as Hvid.
  { destruct (decide (ss_ID strategy = NilObjectID)) as [Hz|Hz]; [destruct Hi2 as [Hz2|[n ->]]; [done|apply Hnew]|].
    destruct Hi1 as [Hz'| ->]; [done|]. by destruct Hid. }
  pose proof (proj2 Hvid) as Hv.
  set (s := stamp_strategy now id strategy). unfold swrap.
  pose proof (create_spec strategyGVR (domainStrategyToUnstructured crNamespace s) r1) as C.
  destruct (kube _ r1) as [r2 [o|e]]; destruct C as [C1 C2]; rewrite Hk1 in C1;
    change (GetName (domainStrategyToUnstructured crNamespace s)) with id in *; [|eauto].
  destruct C2 as (-> & C2 & C3). rewrite Hk1 in C2. rewrite Hv.
  change (rename_strategy id s) with s. change (ss_ID s) with id.
  unfold insert_intents.
  pose proof (create_all_spec NewObjectID intentGVR strategyGVR sc_ID (fun id' => stamp_intent now id' id)
    (domainIntentToUnstructured crNamespace) id [] intents r2 r ltac:(done) (fun _ => eq_refl)
    ltac:(set_solver) C2 ltac:(intros g m _ Hn; apply C1; by intros [= -> ->]; apply Hn)) as I'.
  destruct (create_all _ _ _ _ _ _ id [] intents r2) as [r' res].
  destruct res as [l|e]; cbn; [|by destruct e]. destruct I' as (I1 & I2 & I3 & I4). split_and!; try done.
  - by exists id.
  - by apply I3.
  - intros g m Hne Hm. rewrite I4 by done. by apply C1.
Qed.

End repository.

(** ** Properties *)

(** Remark (nothing is lost in a custom resource).  An intent or a strategy written as
    a custom resource reads back as the same value. *)
Theorem cr_round_trip (ObjectIDFromHex : string -> option ObjectID) (crNamespace : string) i s :
  valid_intent ObjectIDFromHex i -> valid_strategy ObjectIDFromHex s ->
  unstructuredToDomainIntent ObjectIDFromHex (domainIntentToUnstructured crNamespace i) = Ok i /\
  unstructuredToDomainStrategy ObjectIDFromHex (domainStrategyToUnstructured crNamespace s) = Ok s.
Proof. intros Hi Hs. split; [by apply (intent_dec_enc _ crNamespace)|by apply (strategy_dec_enc _ crNamespace)]. Qed.

(** C9 (all or nothing).  Creating a strategy with its intents either stores the
    strategy and every intent and nothing else, or fails; when an intent could not
    be created and the rollback met no error, everything but at most the one object
    whose creation failed is as it was before. *)
Theorem insert_strategy_all_or_nothing {K} `{KubeLaws K} ObjectIDFromHex crNamespace NewObjectID now strategy intents (r : repo K) :
  (forall n, valid_id ObjectIDFromHex (NewObjectID n)) -> ss_ID strategy = NilObjectID ->
  let '(r', res) := InsertStrategyAndIntents ObjectIDFromHex crNamespace NewObjectID now (Some strategy) (Some intents) r in
  match res with
  | Ok (s, l) =>
      (exists id, valid_id ObjectIDFromHex id /\ s = stamp_strategy now id strategy) /\
      Forall2 (fun i i' => exists id, i' = stamp_intent now id (ss_ID s) i) intents l /\
      kube_objects (r_kube r') strategyGVR !! ss_ID s = Some (content_of (domainStrategyToUnstructured crNamespace s)) /\
      (forall i, i ∈ l ->
         kube_objects (r_kube r') intentGVR !! sc_ID i = Some (content_of (domainIntentToUnstructured crNamespace i))) /\
      (forall g m, (g, m) <> (strategyGVR, ss_ID s) -> g <> intentGVR \/ m ∉ sc_ID <$> l ->
         kube_objects (r_kube r') g !! m = kube_objects (r_kube r) g !! m)
  | Err (RCreateIntent _ errs) => errs = [] -> exists failed, forall g m, (g, m) <> (intentGVR, failed) ->
      kube_objects (r_kube r') g !! m = kube_objects (r_kube r) g !! m
  | Err _ => exists failed, forall g m, (g, m) <> (strategyGVR, failed) ->
      kube_objects (r_kube r') g !! m = kube_objects (r_kube r) g !! m
  end.
Proof. intros Hn Hz. by apply insert_strategy_spec; [|left]. Qed.

(** C10 (queries are exact).  On a store that only this repository writes, a query
    changes nothing and fails only when the API server does; otherwise it returns
    exactly the stored intents that match every given criterion, although part of
    the selection is done by the server on labels. *)
Theorem query_intents_exact {K} `{KubeLaws K} ObjectIDFromHex crNamespace opt (r : repo K) :
  repo_wf ObjectIDFromHex crNamespace (r_kube r) ->
  let '(r', res) := QueryIntents ObjectIDFromHex (Some opt) r in
  unchanged (r_kube r) (r_kube r') /\
  match res with
  | Ok l => forall i, i ∈ l <-> holds_intent ObjectIDFromHex crNamespace (r_kube r) i /\
      named (qi_IDs opt) (sc_ID i) /\ matchesIntentFilter i opt = true
  | Err e => exists ke, e = RKube ke
  end.
Proof. apply query_intents_spec. Qed.

(** ** Concrete inputs *)

(** Identifiers of 24 hexadecimal digits. *)
Definition sample_parse (s : string) : option ObjectID :=
  if (String.length s =? 24)%nat && forallb (fun a => Contains "0123456789abcdef" (String a "")) (String.list_ascii_of_string s)
  then Some s else None.

Definition sample_new_id (n : nat) : ObjectID :=
  "6500000000000000000000a" +:+ default "0" (["0"; "1"; "2"; "3"; "4"; "5"; "6"; "7"; "8"; "9"] !! (n `mod` 10)).

Definition sample_user : ObjectID := "64b000000000000000000001".

Definition sample_strategy : ScheduleStrategy :=
  mkStrategy (NewBaseEntity 7 sample_user sample_user) "team" [mkLabelSelector "app" "web"] ["default"] "nginx" 3 20000.

Definition sample_pod (uid node : string) : Pod := mkPod "web" "default" {["app" := "web"]} uid node.

Definition sample_repo (script : list kube_fate) : repo map_kube := mkRepo (mkMapKube (fun _ => ∅) script) 0.

Lemma sample_new_id_valid n : valid_id sample_parse (sample_new_id n).
Proof.
  unfold sample_new_id. pose proof (Nat.mod_upper_bound n 10 ltac:(lia)) as Hn. revert Hn. generalize (n `mod` 10). intros m Hm.
  do 10 (destruct m as [|m]; [split; [done|vm_compute; reflexivity]|]). lia.
Qed.

Lemma sample_user_valid : valid_id sample_parse sample_user.
Proof. split; [done|vm_compute; reflexivity]. Qed.

Lemma cr_round_trip_witness :
  unstructuredToDomainIntent sample_parse (domainIntentToUnstructured "gthulhu"
    (stamp_intent 9 (sample_new_id 1) (sample_new_id 0) (NewScheduleIntent 7 sample_strategy (sample_pod "p1" "n1")))) =
  Ok (stamp_intent 9 (sample_new_id 1) (sample_new_id 0) (NewScheduleIntent 7 sample_strategy (sample_pod "p1" "n1"))).
Proof.
  refine (proj1 (cr_round_trip sample_parse "gthulhu" _ (stamp_strategy 9 (sample_new_id 0) sample_strategy) _ _)).
  - repeat split; try done; try lia; vm_compute; reflexivity.
  - repeat split; try done; vm_compute; reflexivity.
Defined.

(** The second creation of an intent fails. *)
Lemma insert_strategy_all_or_nothing_witness :
  let intents := (fun p => NewScheduleIntent 7 sample_strategy p) <$> [sample_pod "p1" "n1"; sample_pod "p2" "n2"] in
  let r := sample_repo [FateOk; FateOk; FateFails] in
  exists r' e, InsertStrategyAndIntents sample_parse "gthulhu" sample_new_id 9 (Some sample_strategy) (Some intents) r =
    (r', Err (RCreateIntent e [])) /\
  exists failed, forall g m, (g, m) <> (intentGVR, failed) ->
    kube_objects (r_kube r') g !! m = kube_objects (r_kube r) g !! m.
Proof.
  cbv zeta. set (intents := _ <$> _). set (r := sample_repo _).
  pose proof (insert_strategy_all_or_nothing sample_parse "gthulhu" sample_new_id 9 sample_strategy intents r
    sample_new_id_valid eq_refl) as P.
  assert (exists r', InsertStrategyAndIntents sample_parse "gthulhu" sample_new_id 9 (Some sample_strategy) (Some intents) r =
    (r', Err (RCreateIntent KOther []))) as [r' E] by (eexists; vm_compute; reflexivity).
  rewrite E in P. exists r', KOther. split; [exact E|]. by apply P.
Defined.

(** An intent of each of two strategies; the query asks for one strategy. *)
Definition sample_intent_of (n : nat) (pod node : string) : ScheduleIntent :=
  stamp_intent 9 (sample_new_id (5 + n)) (sample_new_id n) (NewScheduleIntent 7 sample_strategy (sample_pod pod node)).

Definition sample_store : map_kube :=
  mkMapKube (fun g => match g with
    | intentGVR => list_to_map ((fun i => (sc_ID i, domainIntentToUnstructured "gthulhu" i)) <$>
                     [sample_intent_of 0 "p1" "n1"; sample_intent_of 1 "p2" "n2"])
    | _ => ∅
    end) [].

Lemma sample_intent_valid n pod node : valid_intent sample_parse (sample_intent_of n pod node).
Proof.
  assert (forall m, valid_id sample_parse (sample_new_id m)) as Hid by apply sample_new_id_valid.
  repeat split; try apply Hid; try apply sample_user_valid; vm_compute; congruence.
Qed.

Lemma sample_store_wf : repo_wf sample_parse "gthulhu" sample_store.
Proof.
  split; intros n c Hc; [|by vm_compute in Hc].
  change ((content_of <$> mk_objects sample_store intentGVR) !! n = Some c) in Hc.
  rewrite lookup_fmap_Some in Hc. destruct Hc as (o & <- & Ho). apply elem_of_list_to_map_2 in Ho.
  apply list_elem_of_fmap in Ho as (i & [= -> ->] & Hi). exists i. split; [|done].
  assert (valid_intent sample_parse i) as Hv by (apply elem_of_cons in Hi as [->|Hi]; [|apply list_elem_of_singleton in Hi as ->]; apply sample_intent_valid).
  split; [exact Hv|]. apply elem_of_cons in Hi as [->|Hi]; [|apply list_elem_of_singleton in Hi as ->]; vm_compute; reflexivity.
Qed.

Lemma query_intents_exact_witness :
  let opt := mkQueryIntent [] [] [sample_new_id 1] [] [] [] in
  exists r', QueryIntents sample_parse (Some opt) (mkRepo sample_store 0) = (r', Ok [sample_intent_of 1 "p2" "n2"]) /\
  forall i, i ∈ [sample_intent_of 1 "p2" "n2"] <->
    holds_intent sample_parse "gthulhu" sample_store i /\ named [] (sc_ID i) /\ matchesIntentFilter i opt = true.
Proof.
  cbv zeta. pose proof (query_intents_exact sample_parse "gthulhu" (mkQueryIntent [] [] [sample_new_id 1] [] [] [])
    (mkRepo sample_store 0) sample_store_wf) as P.
  assert (exists r', QueryIntents sample_parse (Some (mkQueryIntent [] [] [sample_new_id 1] [] [] [])) (mkRepo sample_store 0) =
    (r', Ok [sample_intent_of 1 "p2" "n2"])) as [r' E] by (eexists; vm_compute; reflexivity).
  rewrite E in P. exists r'. split; [exact E|]. exact (proj2 P).
Defined.
