(* ===== verification/CRNodeRepo.v ===== *)
(** * The repository of node policies: api/manager/repository/cr_node_policy_repo.go

    The counterpart of CRRepo.v for node scheduling policies and the intents
    derived from them, on the same store. *)

From stdpp Require Import base gmap strings list.
From Stdlib Require Import ZArith Lia.
From S2P Require Import Prelude GoStrings Intents ManagerDomain KubeStore.
#[local] Open Scope go_scope.

Definition labelNodePolicyID : string := "gthulhu.io/node-policy-id".

(** ** Conversions *)

Section conversions.
  Variable ObjectIDFromHex : string -> option ObjectID.
  Variable crNamespace : string.

Definition dra_fields (d : DRASelector) : jval :=
  JObj [("deviceClass", JStr (dra_DeviceClass d)); ("attributes", JArr (selector_fields <$> dra_Attributes d))].

Definition node_policy_spec (p : NodeSchedulingPolicy) : fields := [
  ("nodeSelectors", JArr (selector_fields <$> nsp_NodeSelectors p));
  ("nodeNames", JArr (JStr <$> nsp_NodeNames p));
  ("draSelectors", JArr (dra_fields <$> nsp_DRASelectors p));
  ("commandRegex", JStr (nsp_CommandRegex p));
  ("priority", JInt (nsp_Priority p));
  ("executionTime", JInt (nsp_ExecutionTime p));
  ("creatorID", JStr (nsp_CreatorID p));
  ("updaterID", JStr (be_UpdaterID (nsp_Base p)));
  ("createdTime", JInt (be_CreatedTime (nsp_Base p)));
  ("updatedTime", JInt (be_UpdatedTime (nsp_Base p)))].

Definition domainNodePolicyToUnstructured (p : NodeSchedulingPolicy) : unstructured :=
  [("apiVersion", JStr "gthulhu.io/v1alpha1");
   ("kind", JStr "NodeSchedulingPolicy");
   ("metadata", JObj [("name", JStr (nsp_ID p)); ("namespace", JStr crNamespace);
      ("labels", JObj [(labelCreatorID, JStr (nsp_CreatorID p))])]);
   ("spec", JObj (node_policy_spec p))].

Definition decode_dra (item : jval) : option DRASelector :=
  match item with
  | JObj m => Some (mkDRA (getStr m "deviceClass")
                      match jget m "attributes" with Some (JArr l) => omap decode_selector l | _ => [] end)
  | _ => None
  end.

Definition unstructuredToDomainNodePolicy (obj : unstructured) : result repo_error NodeSchedulingPolicy :=
  match NestedMap obj "spec" with
  | None => Err RNoSpec
  | Some spec =>
      match ObjectIDFromHex (GetName obj) with
      | None => Err RBadName
      | Some id =>
          let* creatorID := parseObjectIDField ObjectIDFromHex spec "creatorID" in
          let* updaterID := parseObjectIDField ObjectIDFromHex spec "updaterID" in
          Ok (mkNodeSchedulingPolicy
                (mkBase id (getInt64 spec "createdTime") (getInt64 spec "updatedTime") 0 creatorID updaterID)
                match jget spec "nodeSelectors" with Some (JArr l) => omap decode_selector l | _ => [] end
                match jget spec "nodeNames" with Some (JArr l) => omap decode_string l | _ => [] end
                match jget spec "draSelectors" with Some (JArr l) => omap decode_dra l | _ => [] end
                (getStr spec "commandRegex") (getInt64 spec "priority") (getInt64 spec "executionTime"))
      end
  end.

Definition node_intent_spec (i : NodeSchedulingIntent) : fields := [
  ("policyID", JStr (ni_PolicyID i));
  ("nodeID", JStr (ni_NodeID i));
  ("commandRegex", JStr (ni_CommandRegex i));
  ("priority", JInt (ni_Priority i));
  ("executionTime", JInt (ni_ExecutionTime i));
  ("state", JInt (ni_State i));
  ("creatorID", JStr (ni_CreatorID i));
  ("updaterID", JStr (be_UpdaterID (ni_Base i)));
  ("createdTime", JInt (be_CreatedTime (ni_Base i)));
  ("updatedTime", JInt (be_UpdatedTime (ni_Base i)))].

Definition domainNodeIntentToUnstructured (i : NodeSchedulingIntent) : unstructured :=
  [("apiVersion", JStr "gthulhu.io/v1alpha1");
   ("kind", JStr "NodeSchedulingIntent");
   ("metadata", JObj [("name", JStr (ni_ID i)); ("namespace", JStr crNamespace);
      ("labels", JObj [(labelCreatorID, JStr (ni_CreatorID i)); (labelNodePolicyID, JStr (ni_PolicyID i));
                       (labelState, JStr (Itoa (ni_State i)))])]);
   ("spec", JObj (node_intent_spec i))].

Definition unstructuredToDomainNodeIntent (obj : unstructured) : result repo_error NodeSchedulingIntent :=
  match NestedMap obj "spec" with
  | None => Err RNoSpec
  | Some spec =>
      match ObjectIDFromHex (GetName obj) with
      | None => Err RBadName
      | Some id =>
          let* creatorID := parseObjectIDField ObjectIDFromHex spec "creatorID" in
          let* updaterID := parseObjectIDField ObjectIDFromHex spec "updaterID" in
          let* policyID := parseObjectIDField ObjectIDFromHex spec "policyID" in
          Ok (mkNodeIntent
                (mkBase id (getInt64 spec "createdTime") (getInt64 spec "updatedTime") 0 creatorID updaterID)
                policyID (getStr spec "nodeID") (getStr spec "commandRegex") (getInt64 spec "priority")
                (getInt64 spec "executionTime") (i8 (getInt64 spec "state")))
      end
  end.

Definition matchesNodePolicyFilter (p : NodeSchedulingPolicy) (opt : QueryNodePolicyOptions) : bool :=
  passes (qp_CreatorIDs opt) (containsOID (qp_CreatorIDs opt) (nsp_CreatorID p)).

Definition matchesNodeIntentFilter (i : NodeSchedulingIntent) (opt : QueryNodeIntentOptions) : bool :=
  passes (qn_CreatorIDs opt) (containsOID (qn_CreatorIDs opt) (ni_CreatorID i)) &&
  passes (qn_PolicyIDs opt) (containsOID (qn_PolicyIDs opt) (ni_PolicyID i)) &&
  passes (qn_NodeIDs opt) (containsStr (qn_NodeIDs opt) (ni_NodeID i)) &&
  passes (qn_States opt) (containsState (qn_States opt) (ni_State i)).

End conversions.

(** ** Operations *)

Section operations.
  Context {K : Type} `{KubeAPI K}.
  Variable ObjectIDFromHex : string -> option ObjectID.
  Variable crNamespace : string.
  Variable NewObjectID : nat -> ObjectID.

Notation toNodeIntent := (domainNodeIntentToUnstructured crNamespace).
Notation toNodePolicy := (domainNodePolicyToUnstructured crNamespace).
Notation fromNodeIntent := (unstructuredToDomainNodeIntent ObjectIDFromHex).
Notation fromNodePolicy := (unstructuredToDomainNodePolicy ObjectIDFromHex).
Notation M := (SE (repo K) repo_error).

Definition set_node_intent_base (b : BaseEntity) (policyID : ObjectID) (i : NodeSchedulingIntent) : NodeSchedulingIntent :=
  mkNodeIntent b policyID (ni_NodeID i) (ni_CommandRegex i) (ni_Priority i) (ni_ExecutionTime i) (ni_State i).

Definition set_node_policy_base (b : BaseEntity) (p : NodeSchedulingPolicy) : NodeSchedulingPolicy :=
  mkNodeSchedulingPolicy b (nsp_NodeSelectors p) (nsp_NodeNames p) (nsp_DRASelectors p) (nsp_CommandRegex p) (nsp_Priority p)
    (nsp_ExecutionTime p).

(** The fields an insertion fills in. *)
Definition stamp_node_intent (now : Z) (id policyID : ObjectID) (i : NodeSchedulingIntent) : NodeSchedulingIntent :=
  let b := ni_Base i in
  set_node_intent_base (mkBase id (or_now now (be_CreatedTime b)) (or_now now (be_UpdatedTime b)) (be_DeletedTime b)
    (be_CreatorID b) (be_UpdaterID b)) policyID i.

Definition stamp_node_policy (now : Z) (id : ObjectID) (p : NodeSchedulingPolicy) : NodeSchedulingPolicy :=
  let b := nsp_Base p in
  set_node_policy_base (mkBase id (or_now now (be_CreatedTime b)) now (be_DeletedTime b) (be_CreatorID b) (be_UpdaterID b)) p.

Definition rename_node_policy (id : ObjectID) (p : NodeSchedulingPolicy) : NodeSchedulingPolicy :=
  let b := nsp_Base p in
  set_node_policy_base (mkBase id (be_CreatedTime b) (be_UpdatedTime b) (be_DeletedTime b) (be_CreatorID b) (be_UpdaterID b)) p.

Definition InsertNodePolicyAndIntents (now : Z) (policy : option NodeSchedulingPolicy)
    (intents : option (list NodeSchedulingIntent)) : M (NodeSchedulingPolicy * list NodeSchedulingIntent) :=
  match policy, intents with
  | None, _ | _, None => sfail RNil
  | Some policy, Some intents =>
      let! id := ensure_id NewObjectID (nsp_ID policy) in
      let policy := stamp_node_policy now id policy in
      let! created := swrap RKube (kube (kube_Create nodePolicyGVR (toNodePolicy policy))) in
      let policy := match ObjectIDFromHex (GetName created) with
                    | Some id => rename_node_policy id policy
                    | None => policy
                    end in
      let! intents := create_all NewObjectID nodeIntentGVR nodePolicyGVR ni_ID
                        (fun id => stamp_node_intent now id (nsp_ID policy)) toNodeIntent (nsp_ID policy) [] intents in
      sret (policy, intents)
  end.

Fixpoint InsertNodeIntents (now : Z) (intents : list NodeSchedulingIntent) : M (list NodeSchedulingIntent) :=
  match intents with
  | [] => sret []
  | i :: rest =>
      let! id := ensure_id NewObjectID (ni_ID i) in
      let i := stamp_node_intent now id (ni_PolicyID i) i in
      let! _ := swrap RKube (kube (kube_Create nodeIntentGVR (toNodeIntent i))) in
      let! rest := InsertNodeIntents now rest in
      sret (i :: rest)
  end.

Definition BatchUpdateNodeIntentsState (now : Z) (intentIDs : list ObjectID) (newState : Z) : M unit :=
  sfor (update_object_state nodeIntentGVR now newState) intentIDs.

Definition QueryNodePolicies (opt : option QueryNodePolicyOptions) : M (list NodeSchedulingPolicy) :=
  match opt with
  | None => sfail RNil
  | Some opt =>
      query_objects nodePolicyGVR fromNodePolicy (fun p => matchesNodePolicyFilter p opt) (qp_IDs opt)
        (buildLabelSelector (qp_CreatorIDs opt) labelCreatorID)
  end.

Definition QueryNodeIntents (opt : option QueryNodeIntentOptions) : M (list NodeSchedulingIntent) :=
  match opt with
  | None => sfail RNil
  | Some opt =>
      query_objects nodeIntentGVR fromNodeIntent (fun i => matchesNodeIntentFilter i opt) (qn_IDs opt)
        (buildLabelSelector (qn_CreatorIDs opt) labelCreatorID ++
         buildLabelSelector (qn_PolicyIDs opt) labelNodePolicyID ++
         buildStateLabelSelector (qn_States opt))
  end.

Definition UpdateNodePolicy (policy : option NodeSchedulingPolicy) : M unit :=
  match policy with
  | None => sfail RNil
  | Some policy =>
      let! _ := swrap RKube (kube (kube_Get nodePolicyGVR (nsp_ID policy))) in
      let! _ := swrap RKube (kube (kube_Update nodePolicyGVR (toNodePolicy policy))) in
      sret tt
  end.

Definition DeleteNodePolicy (policyID : ObjectID) : M unit := delete_object nodePolicyGVR policyID.

Definition DeleteNodeIntents (intentIDs : list ObjectID) : M unit := sfor (delete_object nodeIntentGVR) intentIDs.

Definition DeleteNodeIntentsByPolicyID (policyID : ObjectID) : M unit :=
  delete_selected nodeIntentGVR (mkReq labelNodePolicyID [policyID]).

End operations.

(** ** Node policies and intents as resources *)

Section resources.
  Variable ObjectIDFromHex : string -> option ObjectID.
  Variable crNamespace : string.

Definition valid_node_intent (i : NodeSchedulingIntent) : Prop :=
  valid_base ObjectIDFromHex (ni_Base i) /\ valid_id ObjectIDFromHex (ni_PolicyID i) /\ (-128 <= ni_State i < 128)%Z.

Definition valid_node_policy (p : NodeSchedulingPolicy) : Prop := valid_base ObjectIDFromHex (nsp_Base p).

Lemma node_intent_dec_enc i o :
  valid_node_intent i -> GetName o = ni_ID i -> content_of o = content_of (domainNodeIntentToUnstructured crNamespace i) ->
  unstructuredToDomainNodeIntent ObjectIDFromHex o = Ok i.
Proof.
  intros ((Hid & Hd & Hc & Hu) & Hs & Hst) Hn Hsp. apply (f_equal ct_spec) in Hsp. unfold unstructuredToDomainNodeIntent.
  change (NestedMap o "spec" = Some (node_intent_spec i)) in Hsp.
  assert (ObjectIDFromHex (ni_ID i) = Some (ni_ID i)) as Hid' by apply Hid. rewrite Hsp, Hn, Hid'.
  rewrite (parse_valid _ _ _ (ni_CreatorID i)), (parse_valid _ _ _ (be_UpdaterID (ni_Base i))),
    (parse_valid _ _ _ (ni_PolicyID i)) by (reflexivity || assumption).
  change (getInt64 (node_intent_spec i) "state") with (ni_State i). cbn [rbind]. rewrite i8_id by done.
  destruct i as [[id ct ut dt cr up] pid nid re pr ex st]. cbn in Hd. subst dt. reflexivity.
Qed.

Lemma decode_dras (l : list DRASelector) : omap decode_dra (dra_fields <$> l) = l.
Proof.
  induction l as [|[c a] ls IH]; [done|]. cbn [fmap list_fmap omap list_omap decode_dra dra_fields].
  change (jget _ "attributes") with (Some (JArr (selector_fields <$> a))). cbn [dra_Attributes].
  rewrite decode_selectors. cbn in *. by rewrite IH.
Qed.

Lemma node_policy_dec_enc p o :
  valid_node_policy p -> GetName o = nsp_ID p -> content_of o = content_of (domainNodePolicyToUnstructured crNamespace p) ->
  unstructuredToDomainNodePolicy ObjectIDFromHex o = Ok p.
Proof.
  intros (Hid & Hd & Hc & Hu) Hn Hsp. apply (f_equal ct_spec) in Hsp. unfold unstructuredToDomainNodePolicy.
  change (NestedMap o "spec" = Some (node_policy_spec p)) in Hsp.
  assert (ObjectIDFromHex (nsp_ID p) = Some (nsp_ID p)) as Hid' by apply Hid. rewrite Hsp, Hn, Hid'.
  rewrite (parse_valid _ _ _ (nsp_CreatorID p)), (parse_valid _ _ _ (be_UpdaterID (nsp_Base p))) by (reflexivity || assumption).
  change (jget (node_policy_spec p) "nodeSelectors") with (Some (JArr (selector_fields <$> nsp_NodeSelectors p))).
  change (jget (node_policy_spec p) "nodeNames") with (Some (JArr (JStr <$> nsp_NodeNames p))).
  change (jget (node_policy_spec p) "draSelectors") with (Some (JArr (dra_fields <$> nsp_DRASelectors p))).
  cbn [rbind]. rewrite decode_selectors, decode_dras.
  rewrite decode_strings.
  destruct p as [[id ct ut dt cr up] ls nn ds re pr ex]. cbn in Hd. subst dt. reflexivity.
Qed.

Definition node_intent_resource : Resource NodeSchedulingIntent := {|
  res_gvr := nodeIntentGVR; res_name := ni_ID; res_enc := domainNodeIntentToUnstructured crNamespace;
  res_dec := unstructuredToDomainNodeIntent ObjectIDFromHex; res_valid := valid_node_intent;
  res_enc_name := fun _ => eq_refl; res_dec_enc := node_intent_dec_enc
|}.

Definition node_policy_resource : Resource NodeSchedulingPolicy := {|
  res_gvr := nodePolicyGVR; res_name := nsp_ID; res_enc := domainNodePolicyToUnstructured crNamespace;
  res_dec := unstructuredToDomainNodePolicy ObjectIDFromHex; res_valid := valid_node_policy;
  res_enc_name := fun _ => eq_refl; res_dec_enc := node_policy_dec_enc
|}.

Lemma node_intent_selector_complete i opt :
  matchesNodeIntentFilter i opt = true ->
  forallb (satisfies (GetLabels (domainNodeIntentToUnstructured crNamespace i)))
    (buildLabelSelector (qn_CreatorIDs opt) labelCreatorID ++ buildLabelSelector (qn_PolicyIDs opt) labelNodePolicyID ++
     buildStateLabelSelector (qn_States opt)) = true.
Proof.
  unfold matchesNodeIntentFilter. rewrite !andb_true_iff. intros (((Hc & Hp) & _) & Hst).
  change (GetLabels _) with (<[labelCreatorID := ni_CreatorID i]> (<[labelNodePolicyID := ni_PolicyID i]>
    (<[labelState := Itoa (ni_State i)]> (∅ : gmap string string)))).
  rewrite !forallb_app, !andb_true_iff. split_and!.
  - by eapply passes_selector; [apply lookup_insert_eq|].
  - eapply passes_selector; [|done]. by rewrite lookup_insert_ne, lookup_insert_eq.
  - eapply passes_state_selector; [|done]. by rewrite lookup_insert_ne, lookup_insert_ne, lookup_insert_eq.
Qed.

(** Only this repository writes node intents. *)
Definition node_repo_wf {K} `{KubeAPI K} (k : K) : Prop := all_held (RA := node_intent_resource) k.

Definition holds_node_intent {K} `{KubeAPI K} (k : K) (i : NodeSchedulingIntent) : Prop :=
  holds (RA := node_intent_resource) k i.

(** A query returns exactly the stored node intents that match. *)
Lemma query_node_intents_spec {K} `{KubeLaws K} opt (r : repo K) :
  node_repo_wf (r_kube r) ->
  let '(r', res) := QueryNodeIntents ObjectIDFromHex (Some opt) r in
  unchanged (r_kube r) (r_kube r') /\
  match res with
  | Ok l => forall i, i ∈ l <-> holds_node_intent (r_kube r) i /\ named (qn_IDs opt) (ni_ID i) /\ matchesNodeIntentFilter i opt = true
  | Err e => exists ke, e = RKube ke
  end.
Proof.
  intros Hw. apply (query_spec (RA := node_intent_resource) _ _ _ r Hw (fun i => node_intent_selector_complete i opt)).
Qed.

End resources.
