(* ===== verification/Manager.v ===== *)
(** * The manager and its fleet: client/deicison_maker.go and the reconciliation of service/cron_svc.go

    The manager keeps the desired intents in its repository, pushes them to the
    decision maker of each node and compares Merkle roots to find out which
    decision makers need them again.  The decision makers are the services of
    DecisionMaker.v; a call to one may succeed, fail before it is executed, or be
    executed and its answer lost. *)

From stdpp Require Import base gmap strings list sorting.
From Stdlib Require Import ZArith Lia Ascii.
From S2P Require Import Prelude GoStrings GoSort Sha256 Merkle Intents ProcScan PodMetrics DecisionMaker.
From S2P Require Import ManagerDomain KubeStore CRRepo CRNodeRepo.
#[local] Open Scope go_scope.

(** ** Canonical form *)

Definition normalizeScheduleIntents (intents : list (option ScheduleIntent)) : list ScheduleIntent := non_nil intents.

Definition scheduleIntentSortKey (i : ScheduleIntent) : string :=
  Join [sc_PodName i; sc_PodID i; sc_NodeID i; sc_K8sNamespace i; sc_CommandRegex i;
        Itoa (sc_Priority i); Itoa (sc_ExecutionTime i); Join (label_strings (sc_PodLabels i)) ","] "|".

Definition sortScheduleIntentsByKey (intents : list (option ScheduleIntent)) : list ScheduleIntent :=
  sort_by scheduleIntentSortKey String.le (normalizeScheduleIntents intents).

Definition serializeScheduleIntent (i : ScheduleIntent) : string :=
  Join ["podName=" +:+ sc_PodName i; "podID=" +:+ sc_PodID i; "nodeID=" +:+ sc_NodeID i;
        "k8sNamespace=" +:+ sc_K8sNamespace i; "commandRegex=" +:+ sc_CommandRegex i;
        "priority=" +:+ Itoa (sc_Priority i); "executionTime=" +:+ Itoa (sc_ExecutionTime i);
        "podLabels=" +:+ Join (label_strings (sc_PodLabels i)) ","] "|".

Definition hashScheduleIntent (i : ScheduleIntent) : string := HashStringSHA256Hex (serializeScheduleIntent i).

Definition buildScheduleIntentMerkleRoot (intents : list (option ScheduleIntent)) : string :=
  node_hash (BuildMerkleTree (hashScheduleIntent <$> sortScheduleIntentsByKey intents)).

Definition buildExpectedIntentRootsByNode (intents : list (option ScheduleIntent)) : gmap string string :=
  (fun l => buildScheduleIntentMerkleRoot (Some <$> l)) <$> group_by sc_NodeID (normalizeScheduleIntents intents).

Definition nodeIntentSortKey (i : NodeSchedulingIntent) : string :=
  Join [ni_NodeID i; ni_PolicyID i; ni_CommandRegex i; Itoa (ni_Priority i); Itoa (ni_ExecutionTime i)] "|".

Definition sortNodeIntentsByKey (intents : list (option NodeSchedulingIntent)) : list NodeSchedulingIntent :=
  sort_by nodeIntentSortKey String.le (non_nil intents).

Definition serializeNodeIntent (i : NodeSchedulingIntent) : string :=
  Join ["nodeID=" +:+ ni_NodeID i; "policyID=" +:+ ni_PolicyID i; "commandRegex=" +:+ ni_CommandRegex i;
        "priority=" +:+ Itoa (ni_Priority i); "executionTime=" +:+ Itoa (ni_ExecutionTime i)] "|".

Definition hashNodeSchedulingIntent (i : NodeSchedulingIntent) : string := HashStringSHA256Hex (serializeNodeIntent i).

Definition buildNodeSchedulingIntentMerkleRoot (intents : list (option NodeSchedulingIntent)) : string :=
  node_hash (BuildMerkleTree (hashNodeSchedulingIntent <$> sortNodeIntentsByKey intents)).

Definition buildExpectedNodeIntentRootsByNode (intents : list (option NodeSchedulingIntent)) : gmap string string :=
  (fun l => buildNodeSchedulingIntentMerkleRoot (Some <$> l)) <$> group_by ni_NodeID (non_nil intents).

(** ** The fleet and the client *)

(** The payload of [SendSchedulingIntent] and what the decision maker's handler
    makes of it. *)
Definition payload (i : ScheduleIntent) : Intent :=
  mkIntent "" (sc_PodName i) (sc_PodID i) (sc_NodeID i) (sc_K8sNamespace i) (sc_CommandRegex i) (sc_Priority i)
    (sc_ExecutionTime i) (sc_PodLabels i).

Definition policy_payload (i : NodeSchedulingIntent) : NodePolicy :=
  mkNodePolicy (ni_PolicyID i) (ni_NodeID i) (ni_CommandRegex i) (ni_Priority i) (ni_ExecutionTime i).

(** [domain.PodPIDMappingResponse]: the processes of the pods of a node. *)
Record PodPIDMapping := mkMapping { pm_Pods : list PodInfo; pm_Timestamp : string; pm_NodeName : string; pm_NodeID : string }.

(** What becomes of a call. *)
Inductive call_fate := CallOk | CallLost | CallFails.

Inductive dm_fault := Unreachable | NonOK (code : Z) | NoData.

(** The decision makers by address with the environment each runs in, the fates of
    the calls to come (success once the list is used up), and the requests served
    so far. *)
Record fleet := mkFleet {
  fl_env : string -> dm_env;
  fl_dms : gmap string Service;
  fl_fates : list call_fate;
  fl_log : list (string * dm_request)
}.

(** A request to a decision maker; the token it needs first is part of the call. *)
Definition call (dm : DecisionMakerPod) (rq : dm_request) : SE fleet dm_fault dm_response :=
  fun f =>
    let addr := dm_addr dm in
    let fate := default CallOk (head (fl_fates f)) in
    match fate, fl_dms f !! addr with
    | CallFails, _ | _, None => (mkFleet (fl_env f) (fl_dms f) (tail (fl_fates f)) (fl_log f), Err Unreachable)
    | _, Some s =>
        let '(s', resp) := serve (fl_env f addr) rq s in
        (mkFleet (fl_env f) (<[addr := s']> (fl_dms f)) (tail (fl_fates f)) (fl_log f ++ [(addr, rq)]),
         match fate, resp with
         | CallOk, RespError code => Err (NonOK code)
         | CallOk, _ => Ok resp
         | _, _ => Err Unreachable
         end)
    end.

Definition SendSchedulingIntent (dm : DecisionMakerPod) (intents : list ScheduleIntent) : SE fleet dm_fault unit :=
  let! _ := call dm (RqIntents (Some (payload <$> intents))) in sret tt.

(** The hash in the data of the answer. *)
Definition root_of (resp : dm_response) : SE fleet dm_fault string :=
  match resp with RespRoot h => sret h | _ => sfail NoData end.

Definition GetIntentMerkleRoot (dm : DecisionMakerPod) : SE fleet dm_fault string :=
  let! resp := call dm RqRoot in root_of resp.

Record DeleteIntentsRequest := mkDeleteIntents { di_PodIDs : list string; di_All : bool }.

Definition DeleteSchedulingIntents (dm : DecisionMakerPod) (req : DeleteIntentsRequest) : SE fleet dm_fault unit :=
  if di_All req then let! _ := call dm (RqDelete (Some (mkDelete "" None true))) in sret tt
  else sfor (fun podID => let! _ := call dm (RqDelete (Some (mkDelete podID None false))) in sret tt) (di_PodIDs req).

Definition SendNodeSchedulingPolicies (dm : DecisionMakerPod) (intents : list NodeSchedulingIntent) : SE fleet dm_fault unit :=
  let! _ := call dm (RqNodePolicies (Some (policy_payload <$> intents))) in sret tt.

Definition GetNodePolicyMerkleRoot (dm : DecisionMakerPod) : SE fleet dm_fault string :=
  let! resp := call dm RqNodeRoot in root_of resp.

Record DeleteNodeIntentsRequest := mkDeleteNodeIntents { dn_PolicyID : string; dn_All : bool }.

Definition DeleteNodeSchedulingIntents (dm : DecisionMakerPod) (req : DeleteNodeIntentsRequest) : SE fleet dm_fault unit :=
  let! _ := call dm (RqDeleteNode (Some (mkDeleteNP (dn_PolicyID req) (dn_All req)))) in sret tt.

(** ** The service *)

(** What the manager asks of the cluster, [None] for an error. *)
Record K8SAdapter := mkK8S {
  QueryPods : list string -> list LabelSelector -> option (list Pod);
  QueryDecisionMakerPods : list string -> option (list DecisionMakerPod);
  QueryNodesBySelectors : list LabelSelector -> list string -> option (list Node);
  QueryNodesByDRA : list DRASelector -> option (list Node)
}.

Inductive mgr_error :=
| MK8S
| MRepo (e : repo_error)
| MDM (e : dm_fault)
| MStatus (code : Z)
| MInvalidID.

Record world K := mkWorld { w_fleet : fleet; w_repo : repo K }.
Arguments mkWorld {K} w_fleet w_repo.
Arguments w_fleet {K} w.
Arguments w_repo {K} w.

Definition emptyRootHash : string := node_hash (BuildMerkleTree []).

(** [roots[node]], with the empty root for a node without intents. *)
Definition expected_root (roots : gmap string string) (node : string) : string :=
  let expectedRoot := default "" (roots !! node) in
  if decide (expectedRoot = "") then emptyRootHash else expectedRoot.

Section service.
  Context {K : Type} `{KubeAPI K}.
  Variable ObjectIDFromHex : string -> option ObjectID.
  Variable crNamespace : string.
  Variable NewObjectID : nat -> ObjectID.
  Variable k8s : K8SAdapter.
  Variable now : Z.

Notation M := (SE (world K) mgr_error).

Definition on_repo {A} (m : SE (repo K) repo_error A) : M A :=
  fun w => match m (w_repo w) with
           | (r, Ok a) => (mkWorld (w_fleet w) r, Ok a)
           | (r, Err e) => (mkWorld (w_fleet w) r, Err (MRepo e))
           end.

Definition on_fleet {A} (m : SE fleet dm_fault A) : M A :=
  fun w => match m (w_fleet w) with
           | (f, Ok a) => (mkWorld f (w_repo w), Ok a)
           | (f, Err e) => (mkWorld f (w_repo w), Err (MDM e))
           end.

Definition on_k8s {A} (o : option A) : M A := fun w => (w, match o with Some a => Ok a | None => Err MK8S end).

(** An error that is only logged. *)
Definition logged {A} (m : M A) : M unit := fun w => ((m w).1, Ok tt).

(** *** Pod intents *)

(** One turn of the loop of [resyncIntentsToDMs]. *)
Definition resync_dm (intents : list ScheduleIntent) (dm : DecisionMakerPod) : M unit :=
  if decide (dm_State dm <> NodeStateOnline) then sret tt else
  let! r := stry (on_fleet (GetIntentMerkleRoot dm)) in
  match r with
  | Err _ => sret tt
  | Ok rootHash =>
      if decide (rootHash = expected_root (buildExpectedIntentRootsByNode (Some <$> intents)) (dm_NodeID dm)) then sret tt else
      match default [] (group_by sc_NodeID intents !! dm_NodeID dm) with
      | [] => logged (on_fleet (DeleteSchedulingIntents dm (mkDeleteIntents [] true)))
      | nodeIntents =>
          let! r := stry (on_fleet (SendSchedulingIntent dm nodeIntents)) in
          match r with
          | Err _ => sret tt
          | Ok _ => logged (on_repo (BatchUpdateIntentsState now (sc_ID <$> nodeIntents) IntentStateSent))
          end
      end
  end.

Definition resyncIntentsToDMs : M unit :=
  let! dms := on_k8s (QueryDecisionMakerPods k8s []) in
  match dms with
  | [] => sret tt
  | _ =>
      let! intents := on_repo (QueryIntents ObjectIDFromHex (Some (mkQueryIntent [] [] [] [] [] []))) in
      sfor (resync_dm intents) dms
  end.

Definition notifyDMsDeleteIntents (nodeIDs : list string) (podIDs : list string) : M unit :=
  match nodeIDs, podIDs with
  | [], _ | _, [] => sret tt
  | _, _ =>
      match QueryDecisionMakerPods k8s nodeIDs with
      | None => sret tt
      | Some dmPods =>
          sfor (fun dm => if decide (dm_State dm <> NodeStateOnline) then sret tt
                          else logged (on_fleet (DeleteSchedulingIntents dm (mkDeleteIntents podIDs false)))) dmPods
      end
  end.

(** One strategy in [refreshStaleIntents]: the intents of pods that are gone are
    deleted, pods without an intent get one. *)
Definition refresh_strategy (strategy : ScheduleStrategy) : M unit :=
  match QueryPods k8s (ss_K8sNamespace strategy) (ss_LabelSelectors strategy) with
  | None => sret tt
  | Some currentPods =>
      let! r := stry (on_repo (QueryIntents ObjectIDFromHex (Some (mkQueryIntent [] [] [ss_ID strategy] [] [] [])))) in
      match r with
      | Err _ => sret tt
      | Ok intents =>
          let stale := filter (fun i => sc_PodID i ∉ pod_PodID <$> currentPods) intents in
          let! _ := match stale with
                    | [] => sret tt
                    | _ =>
                        let! _ := logged (on_repo (DeleteIntents (sc_ID <$> stale))) in
                        notifyDMsDeleteIntents (remove_dups (sc_NodeID <$> stale)) (sc_PodID <$> stale)
                    end in
          let newPods := filter (fun p => pod_PodID p ∉ sc_PodID <$> intents) currentPods in
          match newPods with
          | [] => sret tt
          | _ => logged (on_repo (InsertIntents crNamespace NewObjectID now (NewScheduleIntent now strategy <$> newPods)))
          end
      end
  end.

Definition refreshStaleIntents : M unit :=
  let! strategies := on_repo (QueryStrategies ObjectIDFromHex (Some (mkQueryStrategy [] [] []))) in
  sfor refresh_strategy strategies.

(** *** Node intents *)

Definition resync_node_dm (intents : list NodeSchedulingIntent) (dm : DecisionMakerPod) : M unit :=
  if decide (dm_State dm <> NodeStateOnline) then sret tt else
  let! r := stry (on_fleet (GetNodePolicyMerkleRoot dm)) in
  match r with
  | Err _ => sret tt
  | Ok rootHash =>
      if decide (rootHash = expected_root (buildExpectedNodeIntentRootsByNode (Some <$> intents)) (dm_NodeID dm)) then sret tt else
      match default [] (group_by ni_NodeID intents !! dm_NodeID dm) with
      | [] => logged (on_fleet (DeleteNodeSchedulingIntents dm (mkDeleteNodeIntents "" true)))
      | nodeIntents =>
          let! r := stry (on_fleet (SendNodeSchedulingPolicies dm nodeIntents)) in
          match r with
          | Err _ => sret tt
          | Ok _ => logged (on_repo (BatchUpdateNodeIntentsState now (ni_ID <$> nodeIntents) IntentStateSent))
          end
      end
  end.

Definition resyncNodeIntentsToDMs : M unit :=
  let! intents := on_repo (QueryNodeIntents ObjectIDFromHex (Some (mkQueryNodeIntent [] [] [] [] []))) in
  match intents with
  | [] => sret tt
  | _ =>
      let! dms := on_k8s (QueryDecisionMakerPods k8s []) in
      match dms with
      | [] => sret tt
      | _ => sfor (resync_node_dm intents) dms
      end
  end.

End service.

(** ** Both sides compute the same root *)

Lemma sorted_payloads l :
  SortedBy intentSortKey String.le (payload <$> l) (payload <$> sortScheduleIntentsByKey (Some <$> l)).
Proof.
  unfold sortScheduleIntentsByKey, normalizeScheduleIntents. rewrite non_nil_fmap_Some.
  destruct (sort_by_spec scheduleIntentSortKey String.le l) as [Hp Hs]. split; [by rewrite Hp|].
  apply (StronglySorted_fmap _ (key_le scheduleIntentSortKey String.le)); [|done]. done.
Qed.

(** The manager's root of some intents is the root of their payloads, in any order. *)
Lemma manager_root l pushed :
  Forall clean_intent (payload <$> l) -> pushed ≡ₚ payload <$> l ->
  buildScheduleIntentMerkleRoot (Some <$> l) = node_hash (intentTree pushed).
Proof.
  intros Hc Hp. unfold buildScheduleIntentMerkleRoot.
  rewrite <- (intentTree_sorted (payload <$> l) pushed (payload <$> sortScheduleIntentsByKey (Some <$> l)));
    [|done|by rewrite Hp|apply sorted_payloads].
  by rewrite <- list_fmap_compose.
Qed.

Lemma root_not_empty {A} (hash : A -> string) l :
  (forall a, is_digest (hash a)) -> node_hash (BuildMerkleTree (hash <$> l)) <> "".
Proof.
  intros Hd. rewrite BuildMerkleTree_root. apply digest_not_empty, merkle_root_digest.
  apply Forall_fmap, Forall_true. exact Hd.
Qed.

Lemma filter_payload node (l : list ScheduleIntent) :
  payload <$> filter (fun i => sc_NodeID i = node) l = filter (fun i => NodeID i = node) (payload <$> l).
Proof.
  induction l as [|i l IH]; [done|]. cbn [fmap list_fmap]. destruct (decide (sc_NodeID i = node)).
  - rewrite (filter_cons_True _ i), (filter_cons_True _ (payload i)) by done. cbn [fmap list_fmap]. by rewrite <- IH.
  - rewrite (filter_cons_False _ i), (filter_cons_False _ (payload i)) by done. exact IH.
Qed.

(** What the manager expects of a node: the root of the payloads for it. *)
Lemma expected_root_spec l pushed node :
  Forall clean_intent (payload <$> l) -> pushed ≡ₚ payload <$> filter (fun i => sc_NodeID i = node) l ->
  expected_root (buildExpectedIntentRootsByNode (Some <$> l)) node = node_hash (intentTree pushed).
Proof.
  intros Hc Hp. unfold expected_root, buildExpectedIntentRootsByNode, normalizeScheduleIntents.
  rewrite non_nil_fmap_Some, lookup_fmap. destruct (group_by_lookup sc_NodeID l node) as [Hg Hn].
  destruct (group_by sc_NodeID l !! node) as [li|]; cbn [fmap option_fmap option_map default from_option id] in *.
  - rewrite decide_False by (apply root_not_empty; intros; apply HashSHA256Hex_digest). subst li. apply manager_root; [|done].
    rewrite filter_payload. by apply Forall_filter_keep.
  - rewrite decide_True by done. rewrite (proj1 Hn eq_refl) in Hp. apply Permutation_nil_r in Hp as ->.
    unfold emptyRootHash, intentTree, intentLeaves. reflexivity.
Qed.

Lemma expected_root_perm (l l' : list ScheduleIntent) node :
  Forall clean_intent (payload <$> l) -> payload <$> l' ≡ₚ payload <$> l ->
  expected_root (buildExpectedIntentRootsByNode (Some <$> l')) node = expected_root (buildExpectedIntentRootsByNode (Some <$> l)) node.
Proof.
  intros Hc Hp. rewrite (expected_root_spec l (payload <$> filter (fun i => sc_NodeID i = node) l')); [|done|].
  - apply expected_root_spec; [by rewrite Hp|done].
  - by rewrite !filter_payload, Hp.
Qed.

#[local] Opaque emptyRootHash BuildMerkleTree.

(** ** A round of calls that all succeed *)

Definition root_at (f : fleet) (dm : DecisionMakerPod) : option string :=
  (fun s => node_hash (intentTree (non_nil (intentCache s)))) <$> fl_dms f !! dm_addr dm.

(** The decision maker is up, in a reachable state, and can read /proc. *)
Definition dm_ready (f : fleet) (dm : DecisionMakerPod) : Prop :=
  dm_State dm = NodeStateOnline ->
  exists s infos, fl_dms f !! dm_addr dm = Some s /\ service_wf s /\
    GetAllPodInfos (env_fs (fl_env f (dm_addr dm))) = Ok infos.

(** Calls left to succeed, the same machines, and new requests in the log. *)
Definition fleet_step (f f' : fleet) (addr : string) (s' : Service) (log : list (string * dm_request)) : Prop :=
  fl_env f' = fl_env f /\ fl_fates f' = [] /\ fl_dms f' = <[addr := s']> (fl_dms f) /\ fl_log f' = fl_log f ++ log.

Lemma call_ok dm rq f s :
  fl_fates f = [] -> fl_dms f !! dm_addr dm = Some s ->
  let '(s', resp) := serve (fl_env f (dm_addr dm)) rq s in
  exists f', call dm rq f = (f', match resp with RespError c => Err (NonOK c) | _ => Ok resp end) /\
    fleet_step f f' (dm_addr dm) s' [(dm_addr dm, rq)].
Proof.
  intros Hf Hs. destruct (serve _ rq s) as [s' resp] eqn:E. unfold call. rewrite Hf, Hs, E. cbn.
  eexists. split; [reflexivity|]. done.
Qed.

Lemma serve_root env s :
  service_wf s -> exists s', serve env RqRoot s = (s', RespRoot (node_hash (intentTree (non_nil (intentCache s))))) /\
    service_wf s' /\ intentCache s' = intentCache s /\ nodePolicyCache s' = nodePolicyCache s.
Proof.
  intros Hw. pose proof (serve_wf env RqRoot s Hw) as Hw'. destruct (intent_root_answer s Hw) as (H1 & H2 & H3).
  cbn in *. destruct (DecisionMaker.GetIntentMerkleRoot s) as [s' r]. cbn in *. subst r. eauto 6.
Qed.

Lemma serve_intents env l s infos :
  service_wf s -> GetAllPodInfos (env_fs env) = Ok infos ->
  exists s', serve env (RqIntents (Some l)) s = (s', RespEmpty) /\ service_wf s' /\ intentCache s' = Some <$> l.
Proof.
  intros Hw Hp. pose proof (serve_wf env (RqIntents (Some l)) s Hw) as Hw'. cbn in *. unfold HandleIntents, ProcessIntents in *.
  rewrite Hp in *. unfold normalizeIntentInputs in *. rewrite non_nil_fmap_Some in *. unfold resolveSchedulingIntents in *.
  destruct (foldl _ _ l) as [m all]. cbn in *. eexists. split; [reflexivity|]. done.
Qed.

Lemma serve_delete_all env s :
  service_wf s -> exists s', serve env (RqDelete (Some (mkDelete "" None true))) s = (s', RespEmpty) /\
    service_wf s' /\ intentCache s' = [].
Proof.
  intros Hw. pose proof (serve_wf env (RqDelete (Some (mkDelete "" None true))) s Hw) as Hw'. cbn in *. eauto.
Qed.

Section rounds.
  Context {K : Type} `{KubeAPI K}.
  Variable now : Z.

(** The repository does not touch the fleet. *)
Lemma logged_repo {A} (m : SE (repo K) repo_error A) (w : world K) :
  exists w', logged (on_repo m) w = (w', Ok tt) /\ w_fleet w' = w_fleet w.
Proof. unfold logged, on_repo. destruct (m (w_repo w)) as [r []]; cbn; eauto. Qed.

(** One turn for a decision maker that answers: afterwards its root is the
    expected one, and nothing was pushed if it already was. *)
Lemma resync_dm_ok intents dm (w : world K) s infos :
  Forall clean_intent (payload <$> intents) -> dm_State dm = NodeStateOnline ->
  fl_fates (w_fleet w) = [] -> fl_dms (w_fleet w) !! dm_addr dm = Some s -> service_wf s ->
  GetAllPodInfos (env_fs (fl_env (w_fleet w) (dm_addr dm))) = Ok infos ->
  let expected := expected_root (buildExpectedIntentRootsByNode (Some <$> intents)) (dm_NodeID dm) in
  exists w' s' log, resync_dm now intents dm w = (w', Ok tt) /\ service_wf s' /\
    fleet_step (w_fleet w) (w_fleet w') (dm_addr dm) s' log /\
    node_hash (intentTree (non_nil (intentCache s'))) = expected /\
    (node_hash (intentTree (non_nil (intentCache s))) = expected -> log = [(dm_addr dm, RqRoot)]).
Proof.
  intros Hc Hon Hf Hs Hw Hp expected. unfold resync_dm. rewrite decide_False by (by intros ?).
  unfold sbind at 1, stry at 1, on_fleet at 1, GetIntentMerkleRoot at 1, sbind at 1.
  destruct (serve_root (fl_env (w_fleet w) (dm_addr dm)) s Hw) as (s1 & E1 & Hw1 & Hc1 & _).
  pose proof (call_ok dm RqRoot (w_fleet w) s Hf Hs) as C. rewrite E1 in C. destruct C as (f1 & -> & (Fe & Ff & Fd & Fl)). cbn.
  fold expected. case_decide as Heq.
  { exists (mkWorld f1 (w_repo w)), s1, [(dm_addr dm, RqRoot)]. rewrite Hc1. done. }
  assert (fl_dms f1 !! dm_addr dm = Some s1) as Hs1 by (by rewrite Fd, lookup_insert_eq).
  destruct (group_by_lookup sc_NodeID intents (dm_NodeID dm)) as [Hg _].
  pose proof (expected_root_spec intents (payload <$> default [] (group_by sc_NodeID intents !! dm_NodeID dm)) (dm_NodeID dm)
    Hc ltac:(by rewrite Hg)) as Hexp. fold expected in Hexp.
  destruct (default [] (group_by sc_NodeID intents !! dm_NodeID dm)) as [|i l].
  - destruct (serve_delete_all (fl_env f1 (dm_addr dm)) s1 Hw1) as (s2 & E2 & Hw2 & Hc2).
    pose proof (call_ok dm (RqDelete (Some (mkDelete "" None true))) f1 s1 Ff Hs1) as C. rewrite E2 in C. destruct C as (f2 & C & (Ge & Gf & Gd & Gl)).
    unfold logged, on_fleet, DeleteSchedulingIntents, sbind. cbn. rewrite C. cbn.
    eexists _, s2, _. split; [reflexivity|]. cbn. rewrite Hc2. split; [done|].
    split; [split_and!; [congruence|done|by rewrite Gd, Fd, insert_insert_eq|rewrite Gl, Fl, <- (assoc_L (++)); reflexivity]|].
    split; [by rewrite Hexp|done].
  - rewrite <- Fe in Hp. destruct (serve_intents _ (payload <$> i :: l) s1 infos Hw1 Hp) as (s2 & E2 & Hw2 & Hc2).
    pose proof (call_ok dm (RqIntents (Some (payload <$> i :: l))) f1 s1 Ff Hs1) as C. rewrite E2 in C. destruct C as (f2 & C & (Ge & Gf & Gd & Gl)).
    unfold sbind at 1, stry, on_fleet, SendSchedulingIntent, sbind. cbn [w_fleet]. rewrite C. cbv beta iota.
    cbn [w_fleet w_repo sret].
    match goal with |- context [logged (on_repo ?m) ?v] => destruct (logged_repo m v) as (w' & -> & Hw') end.
    exists w', s2. cbn [w_fleet] in Hw'.
    rewrite Hw', Hc2, non_nil_fmap_Some. eexists. split; [reflexivity|]. split; [done|].
    split; [split_and!; [congruence|done|by rewrite Gd, Fd, insert_insert_eq|rewrite Gl, Fl, <- (assoc_L (++)); reflexivity]|].
    split; [by rewrite Hexp|done].
Qed.

(** What a whole round achieves. *)
Definition settled (intents : list ScheduleIntent) (dms : list DecisionMakerPod) (f : fleet) : Prop :=
  forall dm, dm ∈ dms -> dm_State dm = NodeStateOnline ->
    root_at f dm = Some (expected_root (buildExpectedIntentRootsByNode (Some <$> intents)) (dm_NodeID dm)).

Lemma resync_loop_ok intents dms (w : world K) :
  Forall clean_intent (payload <$> intents) -> NoDup (dm_addr <$> dms) ->
  fl_fates (w_fleet w) = [] -> (forall dm, dm ∈ dms -> dm_ready (w_fleet w) dm) ->
  exists w' log, sfor (resync_dm now intents) dms w = (w', Ok tt) /\
    fl_env (w_fleet w') = fl_env (w_fleet w) /\ fl_fates (w_fleet w') = [] /\
    fl_log (w_fleet w') = fl_log (w_fleet w) ++ log /\
    (forall a, a ∉ dm_addr <$> dms -> fl_dms (w_fleet w') !! a = fl_dms (w_fleet w) !! a) /\
    (forall dm, dm ∈ dms -> dm_ready (w_fleet w') dm) /\
    settled intents dms (w_fleet w') /\
    (settled intents dms (w_fleet w) -> Forall (fun e => e.2 = RqRoot) log).
Proof.
  intros Hc. revert w. induction dms as [|dm dms IH]; intros w Hnd Hf Hr.
  { exists w, []. rewrite app_nil_r. split_and!; try done; unfold settled; set_solver. }
  apply NoDup_cons in Hnd as [Hdm Hnd]. cbn [sfor]. unfold sbind.
  assert (exists w1 log1, resync_dm now intents dm w = (w1, Ok tt) /\
    fl_env (w_fleet w1) = fl_env (w_fleet w) /\ fl_fates (w_fleet w1) = [] /\
    fl_log (w_fleet w1) = fl_log (w_fleet w) ++ log1 /\
    (forall a, a <> dm_addr dm -> fl_dms (w_fleet w1) !! a = fl_dms (w_fleet w) !! a) /\
    dm_ready (w_fleet w1) dm /\ settled intents [dm] (w_fleet w1) /\
    (settled intents [dm] (w_fleet w) -> Forall (fun e => e.2 = RqRoot) log1)) as
    (w1 & log1 & -> & He1 & Hf1 & Hl1 & Ho1 & Hr1 & Hs1 & Hq1).
  { destruct (decide (dm_State dm = NodeStateOnline)) as [Hon|Hoff].
    - destruct (Hr dm ltac:(set_solver) Hon) as (s & infos & Hs & Hw & Hp).
      destruct (resync_dm_ok intents dm w s infos Hc Hon Hf Hs Hw Hp) as (w1 & s1 & log1 & E & Hw1 & (He & Hf' & Hd & Hl) & Hroot & Hq).
      exists w1, log1. split_and!; try done.
      + intros a Ha. by rewrite Hd, lookup_insert_ne.
      + intros _. exists s1, infos. by rewrite Hd, lookup_insert_eq, He.
      + intros d ->%list_elem_of_singleton _. unfold root_at. rewrite Hd, lookup_insert_eq. cbn. by rewrite Hroot.
      + intros Hset. specialize (Hset dm ltac:(set_solver) Hon). unfold root_at in Hset. rewrite Hs in Hset.
        apply (inj Some) in Hset. rewrite (Hq Hset). by repeat constructor.
    - exists w, []. unfold resync_dm. rewrite decide_True, app_nil_r by done. split_and!; try done.
      + by intros ?.
      + by intros d ->%list_elem_of_singleton ?. }
  destruct (IH w1 Hnd Hf1) as (w' & log & E & He & Hf' & Hl & Ho & Hr' & Hset & Hq).
  { intros d Hd Hon. destruct (Hr d ltac:(set_solver) Hon) as (s & infos & Hs & Hw & Hp). exists s, infos.
    rewrite He1, Ho1; [done|]. intros Heq. apply Hdm. rewrite <- Heq. by apply list_elem_of_fmap_2. }
  assert (fl_dms (w_fleet w') !! dm_addr dm = fl_dms (w_fleet w1) !! dm_addr dm) as Hkeep by (by apply Ho).
  exists w', (log1 ++ log). split_and!; try done.
  - congruence.
  - by rewrite Hl, Hl1, (assoc_L (++)).
  - intros a Ha. cbn in Ha. rewrite Ho, Ho1 by set_solver. done.
  - intros d [->|Hd]%elem_of_cons; [|by apply Hr']. intros Hon. destruct (Hr1 Hon) as (s & infos & ?). exists s, infos.
    by rewrite Hkeep, He.
  - intros d [->|Hd]%elem_of_cons Hon; [|by apply Hset]. unfold root_at. rewrite Hkeep. by apply Hs1; [set_solver|].
  - intros Hall. apply Forall_app. split; [apply Hq1|apply Hq]; intros d Hd Hon.
    + apply Hall; [set_solver|done].
    + unfold root_at. rewrite Ho1; [apply Hall; [set_solver|done]|]. intros Heq. apply Hdm. rewrite <- Heq. by apply list_elem_of_fmap_2.
Qed.

End rounds.

(** ** Node policies are hashed differently on the two sides *)

(** Both kinds of element, to compare what is hashed for them. *)
Definition serialize_either (x : NodeSchedulingIntent + NodePolicy) : string :=
  match x with inl i => serializeNodeIntent i | inr p => serializeNodePolicy p end.

Lemma serialisations_differ i p : serializeNodeIntent i <> serializeNodePolicy p.
Proof. by unfold serializeNodeIntent, serializeNodePolicy. Qed.

Lemma root_inputs_either {A} (ser : A -> string) (inj : A -> NodeSchedulingIntent + NodePolicy) (s : list A) :
  (forall a, serialize_either (inj a) = ser a) -> root_inputs serialize_either (inj <$> s) = root_inputs ser s.
Proof.
  intros Hs. unfold root_inputs. rewrite <- !list_fmap_compose.
  assert (forall {B} (g : string -> B), g ∘ serialize_either ∘ inj <$> s = (fun x => g (ser x)) <$> s) as E.
  { intros B g. apply list_fmap_ext. intros _ x _. cbn. by rewrite Hs. }
  f_equal; [apply (E _ bytes_of_string)|]. pose proof (E _ HashStringSHA256Hex) as E'. unfold compose in *. by rewrite E'.
Qed.

Lemma leaves_either {A} (ser : A -> string) (inj : A -> NodeSchedulingIntent + NodePolicy) (s : list A) :
  (forall a, serialize_either (inj a) = ser a) ->
  (fun x => HashStringSHA256Hex (serialize_either x)) <$> (inj <$> s) = (fun x => HashStringSHA256Hex (ser x)) <$> s.
Proof. intros Hs. rewrite <- list_fmap_compose. apply list_fmap_ext. intros _ x _. cbn. by rewrite Hs. Qed.

(** Unless SHA-256 collides, no policies the decision maker may hold have the root
    the manager computes for as many node intents. *)
Lemma node_roots_differ l pushed :
  l <> [] -> length pushed = length l ->
  collision_free (root_inputs serializeNodeIntent (sortNodeIntentsByKey (Some <$> l)) ++
                  root_inputs serializeNodePolicy (sortNodePoliciesByKey pushed)) ->
  buildNodeSchedulingIntentMerkleRoot (Some <$> l) <> node_hash (nodePolicyTree pushed).
Proof.
  intros Hne Hlen Hcf Heq. unfold buildNodeSchedulingIntentMerkleRoot, nodePolicyTree, nodePolicyLeaves in Heq.
  rewrite !BuildMerkleTree_root in Heq. set (s1 := sortNodeIntentsByKey (Some <$> l)) in *.
  set (s2 := sortNodePoliciesByKey pushed) in *.
  assert (length s1 = length l) as L1 by (unfold s1, sortNodeIntentsByKey; by rewrite (length_sort_by nodeIntentSortKey String.le), non_nil_fmap_Some).
  assert (length s2 = length pushed) as L2 by (unfold s2, sortNodePoliciesByKey; by rewrite (length_sort_by nodePolicySortKey String.le)).
  rewrite <- (root_inputs_either serializeNodeIntent inl s1), <- (root_inputs_either serializeNodePolicy inr s2) in Hcf by done.
  apply canonical_root in Hcf; [|rewrite !length_fmap; lia|].
  - destruct s1 as [|i s1]; [destruct l; cbn in L1; [done|lia]|]. destruct s2 as [|p s2]; [cbn in L1, L2; lia|].
    cbn [fmap list_fmap serialize_either] in Hcf. apply cons_inj in Hcf as [Hip _]. by apply serialisations_differ in Hip.
  - rewrite (leaves_either serializeNodeIntent inl s1), (leaves_either serializeNodePolicy inr s2) by done. exact Heq.
Qed.

Lemma serve_node_root env s :
  service_wf s -> nodePolicyCache s <> [] ->
  serve env RqNodeRoot s = (s, RespRoot (node_hash (nodePolicyTree (non_nil (nodePolicyCache s))))).
Proof.
  intros [_ (_ & Hh & [[_ Hc]|Hr])] Hne; [done|]. cbn. unfold DecisionMaker.GetNodePolicyMerkleRoot, GetNodePolicyMerkleRootHash.
  rewrite Hh, Hr. by destruct (nodePolicyTree _).
Qed.

(** ** Properties *)

(** C4 (both sides compute the same root).  The root the manager expects of a node
    is the root the decision maker computes from the intents pushed to it, in
    whatever order they arrived. *)
Theorem manager_dm_roots_agree (intents : list ScheduleIntent) (node : string) (pushed : list Intent) :
  Forall clean_intent (payload <$> intents) ->
  pushed ≡ₚ payload <$> filter (fun i => sc_NodeID i = node) intents ->
  expected_root (buildExpectedIntentRootsByNode (Some <$> intents)) node = node_hash (intentTree pushed).
Proof. apply expected_root_spec. Qed.


(** Remark (node policies never settle).  Unless SHA-256 collides, an online decision
    maker that holds exactly the node policies the manager wants on its node is
    still found to differ, and all of them are pushed to it again. *)
Theorem node_policies_never_settle {K} `{KubeAPI K} (now : Z) (intents : list NodeSchedulingIntent) (dm : DecisionMakerPod)
    (w : world K) (s : Service) :
  let mine := filter (fun i => ni_NodeID i = dm_NodeID dm) intents in
  dm_State dm = NodeStateOnline -> fl_fates (w_fleet w) = [] -> fl_dms (w_fleet w) !! dm_addr dm = Some s -> service_wf s ->
  mine <> [] -> non_nil (nodePolicyCache s) ≡ₚ policy_payload <$> mine ->
  collision_free (root_inputs serializeNodeIntent (sortNodeIntentsByKey (Some <$> mine)) ++
                  root_inputs serializeNodePolicy (sortNodePoliciesByKey (non_nil (nodePolicyCache s)))) ->
  exists w', resync_node_dm now intents dm w = (w', Ok tt) /\
    fl_log (w_fleet w') = fl_log (w_fleet w) ++
      [(dm_addr dm, RqNodeRoot); (dm_addr dm, RqNodePolicies (Some (policy_payload <$> mine)))].
Proof.
  intros mine Hon Hf Hs Hw Hne Hp Hcf. unfold resync_node_dm. rewrite decide_False by (by intros ?).
  assert (nodePolicyCache s <> []) as Hcache.
  { intros E. rewrite E in Hp. apply Permutation_nil_l in Hp. by destruct mine. }
  unfold sbind at 1, stry at 1, on_fleet at 1, GetNodePolicyMerkleRoot, sbind at 1.
  pose proof (call_ok dm RqNodeRoot (w_fleet w) s Hf Hs) as C. rewrite serve_node_root in C by done.
  destruct C as (f1 & -> & (Fe & Ff & Fd & Fl)). cbn [root_of sret].
  destruct (group_by_lookup ni_NodeID intents (dm_NodeID dm)) as [Hg Hn]. fold mine in Hg, Hn.
  assert (expected_root (buildExpectedNodeIntentRootsByNode (Some <$> intents)) (dm_NodeID dm) =
    buildNodeSchedulingIntentMerkleRoot (Some <$> mine)) as Hexp.
  { unfold expected_root, buildExpectedNodeIntentRootsByNode. rewrite non_nil_fmap_Some, lookup_fmap.
    destruct (group_by ni_NodeID intents !! dm_NodeID dm) as [li|]; [|by destruct Hne; apply Hn].
    cbn [default from_option fmap option_fmap option_map id] in *. subst li.
    apply decide_False, root_not_empty. intros. apply HashSHA256Hex_digest. }
  rewrite Hexp, decide_False.
  2: { intros E. symmetry in E. revert E. apply node_roots_differ; [done| |done]. rewrite Hp. by rewrite length_fmap. }
  rewrite Hg. clearbody mine. destruct mine as [|i l]; [done|].
  assert (fl_dms f1 !! dm_addr dm = Some s) as Hs1 by (by rewrite Fd, lookup_insert_eq).
  pose proof (call_ok dm (RqNodePolicies (Some (policy_payload <$> i :: l))) f1 s Ff Hs1) as C. cbn [serve HandleNodePolicies] in C.
  destruct C as (f2 & C & (Ge & Gf & Gd & Gl)).
  unfold sbind at 1, stry, on_fleet, SendNodeSchedulingPolicies, sbind. cbn [w_fleet]. rewrite C. cbv beta iota. cbn [w_fleet w_repo sret].
  match goal with |- context [logged (on_repo ?m) ?v] => destruct (logged_repo m v) as (w' & -> & Hw') end.
  exists w'. split; [done|]. cbn [w_fleet] in Hw'. rewrite Hw', Gl, Fl. by rewrite <- (assoc_L (++)).
Qed.

(** Remark (node policies are not withdrawn).  When the last node intent is gone from
    the repository, reconciliation makes no call at all: a decision maker that
    missed the deletion keeps applying its policies. *)
Theorem stale_node_policies_stay {K} `{KubeAPI K} ObjectIDFromHex k8s (now : Z) (w : world K) r :
  QueryNodeIntents ObjectIDFromHex (Some (mkQueryNodeIntent [] [] [] [] [])) (w_repo w) = (r, Ok []) ->
  resyncNodeIntentsToDMs ObjectIDFromHex k8s now w = (mkWorld (w_fleet w) r, Ok tt).
Proof. intros Hq. unfold resyncNodeIntentsToDMs, sbind, on_repo. by rewrite Hq. Qed.

(** ** Concrete inputs *)

Definition sample_dm (node host : string) : DecisionMakerPod := mkDMPod node 8080 host NodeStateOnline.

Definition sample_fleet (dms : gmap string Service) : fleet := mkFleet (fun _ => substring_env sample_procfs) dms [] [].

(** Two intents, one for each node. *)
Definition sample_intents : list ScheduleIntent := [sample_intent_of 0 "p1" "n1"; sample_intent_of 1 "p2" "n2"].

Lemma sample_intents_clean : Forall clean_intent (payload <$> sample_intents).
Proof. apply (bool_decide_eq_true_1 _). vm_compute. reflexivity. Qed.

Lemma sample_procfs_readable : exists infos, GetAllPodInfos sample_procfs = Ok infos.
Proof. eexists. vm_compute. reflexivity. Qed.

Lemma manager_dm_roots_agree_witness :
  expected_root (buildExpectedIntentRootsByNode (Some <$> sample_intents)) "n2" =
  node_hash (intentTree [payload (sample_intent_of 1 "p2" "n2")]).
Proof.
  apply manager_dm_roots_agree; [apply (bool_decide_eq_true_1 _); vm_compute; reflexivity|].
  assert (payload <$> filter (fun i => sc_NodeID i = "n2") sample_intents = [payload (sample_intent_of 1 "p2" "n2")]) as ->
    by (vm_compute; reflexivity).
  reflexivity.
Defined.


Definition sample_node_intent : NodeSchedulingIntent :=
  mkNodeIntent (NewBaseEntity 7 sample_user sample_user) (sample_new_id 3) "n1" "kubelet" 2 15000 IntentStateSent.

Lemma node_policies_never_settle_witness :
  let s := ProcessNodePolicies [Some (policy_payload sample_node_intent)] NewService in
  let w := mkWorld (sample_fleet {[dm_addr (sample_dm "n1" "10.0.0.1") := s]}) (mkRepo sample_store 0) in
  exists w', resync_node_dm 9 [sample_node_intent] (sample_dm "n1" "10.0.0.1") w = (w', Ok tt) /\
    fl_log (w_fleet w') = [] ++ [(dm_addr (sample_dm "n1" "10.0.0.1"), RqNodeRoot);
      (dm_addr (sample_dm "n1" "10.0.0.1"), RqNodePolicies (Some (policy_payload <$> [sample_node_intent])))].
Proof.
  cbv zeta. set (s := ProcessNodePolicies _ _).
  assert (service_wf s) as Hw by (apply (serve_wf (substring_env sample_procfs) (RqNodePolicies (Some [policy_payload sample_node_intent]))), NewService_wf).
  refine (node_policies_never_settle 9 [sample_node_intent] (sample_dm "n1" "10.0.0.1")
    (mkWorld (sample_fleet {[dm_addr (sample_dm "n1" "10.0.0.1") := s]}) (mkRepo sample_store 0)) s eq_refl eq_refl _ Hw _ _ _).
  - apply lookup_insert_eq.
  - discriminate.
  - reflexivity.
  - apply collision_freeb_sound. vm_compute. reflexivity.
Defined.

Lemma stale_node_policies_stay_witness :
  let s := ProcessNodePolicies [Some (policy_payload sample_node_intent)] NewService in
  let w := mkWorld (sample_fleet {[dm_addr (sample_dm "n1" "10.0.0.1") := s]}) (mkRepo sample_store 0) in
  let k8s := mkK8S (fun _ _ => Some []) (fun _ => Some [sample_dm "n1" "10.0.0.1"]) (fun _ _ => Some []) (fun _ => Some []) in
  w_fleet (resyncNodeIntentsToDMs sample_parse k8s 9 w).1 = w_fleet w.
Proof.
  cbv zeta. set (s := ProcessNodePolicies _ _). clearbody s.
  assert (exists r, QueryNodeIntents sample_parse (Some (mkQueryNodeIntent [] [] [] [] [])) (mkRepo sample_store 0) = (r, Ok [])) as [r E]
    by (eexists; vm_compute; reflexivity).
  match goal with |- context [resyncNodeIntentsToDMs _ ?k _ ?w] => rewrite (stale_node_policies_stay sample_parse k 9 w r E) end.
  reflexivity.
Defined.
