(* ===== verification/SchedLoop.v ===== *)
(** * The scheduler's loops: internal/scheduler/dispatch_loop.go, the kernel-mode loop of scheduler.go, and util/util.go

    The user-space loop takes queued tasks one at a time, gives each a virtual time,
    a time slice and a CPU, and dispatches it; in kernel mode the loop keeps the
    table of prioritised tasks in the kernel in step with the strategies.  The
    BPF module and the plugin live in other repositories: they are an interface
    here, with the fields and methods the loops use. *)

From stdpp Require Import base gmap strings list.
From Stdlib Require Import ZArith Lia.
From S2P Require Import Prelude.
#[local] Open Scope go_scope.

(** ** Helpers on unsigned 64-bit numbers *)

Definition CalcAvg (oldVal newVal : Z) : Z :=
  u64 (u64 (oldVal - Z.shiftr oldVal 2) + Z.shiftr newVal 2).

Definition SaturatingSub (a b : Z) : Z := if (a >? b)%Z then (a - b)%Z else 0%Z.

(** ** The user-space loop *)

(** A task as it is handed to [DispatchTask]: what [NewDispatchedTask] made of the
    queued task, with the fields the loop sets. *)
Record dispatch DT := mkDispatch { d_base : DT; d_Vtime : Z; d_SliceNs : Z; d_Cpu : Z }.
Arguments mkDispatch {DT} d_base d_Vtime d_SliceNs d_Cpu.
Arguments d_base {DT} d.
Arguments d_Vtime {DT} d.
Arguments d_SliceNs {DT} d.
Arguments d_Cpu {DT} d.

(** The module the loop drives, with errors [E]; [ctx_done] polls the context. *)
Class SchedCore (B QT DT E : Type) := {
  Vtime : QT -> Z;
  SumExecRuntime : QT -> Z;
  StartTs : QT -> Z;
  StopTs : QT -> Z;
  Weight : QT -> Z;
  NewDispatchedTask : QT -> DT;
  ctx_done : B -> B * bool;
  DrainQueuedTask : B -> B * Z;
  DecNrQueued : Z -> SE B E unit;
  SelectQueuedTask : B -> B * option QT;
  BlockTilReadyForDequeue : B -> B;
  DetermineTimeSlice : QT -> B -> B * Z;
  SelectCPU : QT -> SE B E Z;
  DispatchTask : dispatch DT -> SE B E unit;
  GetPoolCount : B -> B * Z;
  NotifyComplete : Z -> SE B E unit
}.

(** What the loop does, for stating what it guarantees. *)
Inductive event (QT DT : Type) :=
| EvSelected (t : QT)
| EvBlocked
| EvDispatched (d : dispatch DT)
| EvNotified.
Arguments EvSelected {QT DT} t.
Arguments EvBlocked {QT DT}.
Arguments EvDispatched {QT DT} d.
Arguments EvNotified {QT DT}.

(** Why the loop returns: the context is done, or a call failed. *)
Inductive loop_exit (E : Type) := ExitDone | ExitError (e : E).
Arguments ExitDone {E}.
Arguments ExitError {E} e.

Section loop.
  Context {B QT DT E : Type} {SC : SchedCore B QT DT E}.
  Variables sliceNsDefault sliceNsMin : Z.

(** The virtual time and the slice of a task, in 64-bit arithmetic. *)
Definition task_vtime (t : QT) : Z :=
  if decide (Vtime t = 0%Z) then Vtime t
  else u64 (Vtime t + Z.min (SumExecRuntime t) (u64 (sliceNsDefault * 100))).

Definition task_slice (t : QT) (customTime : Z) : Z :=
  if (0 <? customTime)%Z then Z.min customTime (u64 (u64 (StopTs t - StartTs t) * 11) / 10)
  else (u64 (sliceNsMin * Weight t) / 100)%Z.

Notation state := (B * list (event QT DT))%type.
Notation M := (SE state (loop_exit E)).

Definition call_err {A} (m : SE B E A) : M A :=
  fun '(b, tr) => match m b with
                  | (b, Ok a) => ((b, tr), Ok a)
                  | (b, Err e) => ((b, tr), Err (ExitError e))
                  end.

Definition call_val {A} (m : B -> B * A) : M A := fun '(b, tr) => let '(b, a) := m b in ((b, tr), Ok a).

Definition emit (e : event QT DT) : M unit := fun '(b, tr) => ((b, tr ++ [e]), Ok tt).

(** The branch for a selected task. *)
Definition dispatch_one (t : QT) : M unit :=
  let! customTime := call_val (DetermineTimeSlice t) in
  let! cpu := call_err (SelectCPU t) in
  let task := mkDispatch (NewDispatchedTask t) (task_vtime t) (task_slice t customTime) cpu in
  let! _ := call_err (DispatchTask task) in
  let! _ := emit (EvDispatched task) in
  let! n := call_val GetPoolCount in
  if decide (n = 0%Z) then
    let! _ := call_err (NotifyComplete 0) in
    emit EvNotified
  else sret tt.

(** One turn of the loop. *)
Definition loop_turn : M unit :=
  let! stop := call_val ctx_done in
  if stop : bool then sfail ExitDone else
  let! cnt := call_val DrainQueuedTask in
  let! _ := if (0 <? cnt)%Z then call_err (DecNrQueued cnt) else sret tt in
  let! t := call_val SelectQueuedTask in
  match t with
  | None =>
      let! _ := call_val (fun b => (BlockTilReadyForDequeue b, tt)) in
      emit EvBlocked
  | Some t =>
      let! _ := emit (EvSelected t) in
      dispatch_one t
  end.

(** The loop, for at most [fuel] turns: [None] while it is still running. *)
Fixpoint runSchedulerLoop (fuel : nat) (s : state) : state * option (loop_exit E) :=
  match fuel with
  | O => (s, None)
  | S fuel => match loop_turn s with
              | (s, Ok _) => runSchedulerLoop fuel s
              | (s, Err x) => (s, Some x)
              end
  end.

(** ** What the loop guarantees *)

Definition selections (tr : list (event QT DT)) : list QT :=
  omap (fun e => match e with EvSelected t => Some t | _ => None end) tr.

Definition dispatches (tr : list (event QT DT)) : list (dispatch DT) :=
  omap (fun e => match e with EvDispatched d => Some d | _ => None end) tr.

(** The dispatch a task calls for. *)
Definition dispatched_for (t : QT) (d : dispatch DT) : Prop :=
  d_base d = NewDispatchedTask t /\ d_Vtime d = task_vtime t /\ exists customTime, d_SliceNs d = task_slice t customTime.

(** Every task selected so far was dispatched, in order; [open] are those in the making. *)
Definition served (tr : list (event QT DT)) (open : list QT) : Prop :=
  exists done, selections tr = done ++ open /\ Forall2 dispatched_for done (dispatches tr).

Lemma served_emit tr open e :
  served tr open -> (forall t, e <> EvSelected t) -> (forall d, e <> EvDispatched d) -> served (tr ++ [e]) open.
Proof.
  intros (l & Hs & Hf) H1 H2. exists l. unfold selections, dispatches in *. rewrite !omap_app.
  destruct e; simpl; rewrite ?app_nil_r; naive_solver.
Qed.

Lemma served_select tr t : served tr [] -> served (tr ++ [EvSelected t]) [t].
Proof.
  intros (l & Hs & Hf). exists l. unfold selections, dispatches in *. rewrite !omap_app. simpl.
  rewrite Hs, !app_nil_r. done.
Qed.

Lemma served_dispatch tr t d : served tr [t] -> dispatched_for t d -> served (tr ++ [EvDispatched d]) [].
Proof.
  intros (l & Hs & Hf) Hd. exists (l ++ [t]). unfold selections, dispatches in *. rewrite !omap_app. simpl.
  rewrite Hs, !app_nil_r. split; [done|]. apply Forall2_app; [done|]. constructor; [done|constructor].
Qed.

(** How a state relates to its outcome: nothing is open unless a call failed. *)
Definition turn_ok (s : state) (x : option (loop_exit E)) : Prop :=
  exists open, served s.2 open /\ length open <= 1 /\ (open <> [] -> exists e, x = Some (ExitError e)).

Lemma turn_closed s x : served s.2 [] -> turn_ok s x.
Proof. exists []. simpl. split_and!; [done|lia|done]. Qed.

Lemma turn_failed s t e : served s.2 [t] -> turn_ok s (Some (ExitError e)).
Proof. exists [t]. simpl. split_and!; [done|lia|eauto]. Qed.

Lemma dispatch_one_ok t b tr :
  served tr [t] ->
  let '(s, r) := dispatch_one t (b, tr) in
  match r with Ok _ => served s.2 [] | Err x => turn_ok s (Some x) end.
Proof.
  intros Hs. unfold dispatch_one, sbind, call_val, call_err, emit.
  destruct (DetermineTimeSlice t b) as [b1 customTime]. destruct (SelectCPU t b1) as [b2 [cpu|e]]; [|by eapply turn_failed].
  set (d := mkDispatch _ _ _ _). assert (served (tr ++ [EvDispatched d]) []) as Hd.
  { apply (served_dispatch _ t); [done|]. unfold dispatched_for. simpl. eauto. }
  destruct (DispatchTask d b2) as [b3 [[]|e]]; [|by eapply turn_failed].
  destruct (GetPoolCount b3) as [b4 n]. case_decide; [|done].
  destruct (NotifyComplete 0 b4) as [b5 [[]|e]]; [|by apply turn_closed]. by apply served_emit.
Qed.

Lemma loop_turn_ok b tr :
  served tr [] ->
  let '(s, r) := loop_turn (b, tr) in
  match r with Ok _ => served s.2 [] | Err x => turn_ok s (Some x) end.
Proof.
  intros Hs. unfold loop_turn, sbind at 1, call_val at 1. destruct (ctx_done b) as [b1 []]; [by apply turn_closed|].
  unfold sbind at 1, call_val at 1. destruct (DrainQueuedTask b1) as [b2 cnt]. unfold sbind at 1.
  set (dec := if (0 <? cnt)%Z then _ else _). assert (exists b3 r, dec (b2, tr) = ((b3, tr), r) /\ r <> Err ExitDone) as (b3 & r & Hdec & Hr).
  { subst dec. destruct (0 <? cnt)%Z; [|eexists _, _; split; [reflexivity|done]].
    unfold call_err. destruct (DecNrQueued cnt b2) as [b3 []]; eexists _, _; (split; [reflexivity|done]). }
  rewrite Hdec. destruct r as [[]|x]; [|by apply turn_closed].
  unfold sbind at 1, call_val at 1. destruct (SelectQueuedTask b3) as [b4 [t|]].
  - unfold sbind at 1, emit. apply dispatch_one_ok. by apply served_select.
  - unfold sbind, call_val, emit. by apply served_emit.
Qed.

Lemma loop_ok fuel b tr :
  served tr [] -> let '(s, x) := runSchedulerLoop fuel (b, tr) in turn_ok s x.
Proof.
  revert b tr. induction fuel as [|fuel IH]; intros b tr Hs; simpl; [by apply turn_closed|].
  pose proof (loop_turn_ok b tr Hs) as T. destruct (loop_turn (b, tr)) as [[b' tr'] [[]|x]]; [by apply IH|done].
Qed.

(** The module after some turns, for saying when the loop stops. *)
Fixpoint turns (n : nat) (s : state) : option state :=
  match n with
  | O => Some s
  | S n => match loop_turn s with (s, Ok _) => turns n s | _ => None end
  end.

Lemma run_stops n k s s' x s'' :
  turns n s = Some s' -> loop_turn s' = (s'', Err x) -> runSchedulerLoop (n + S k) s = (s'', Some x).
Proof.
  revert s. induction n as [|n IH]; intros s Hn Hx; simpl in *; [simplify_eq; by rewrite Hx|].
  destruct (loop_turn s) as [s1 [[]|]]; [|done]. by apply IH.
Qed.

End loop.

(** ** The kernel-mode loop *)

(** A strategy as the plugin reports it. *)
Class Strategy (S : Type) := { st_PID : S -> Z; st_ExecutionTime : S -> Z; st_Priority : S -> Z }.

(** The module's table of prioritised tasks, its two operations, and what they do:
    an operation that fails leaves the table alone, and a task is found absent
    only if it is. *)
Class PriorityTable (B E : Type) := {
  entries : B -> gmap Z (Z * Z);
  UpdatePriorityTaskWithPrio : Z -> Z -> Z -> SE B E unit;
  RemovePriorityTask : Z -> SE B E unit
}.

Class PriorityLaws (B E : Type) `{PriorityTable B E} := {
  update_prio_law : forall pid exec prio b, let '(b', r) := UpdatePriorityTaskWithPrio pid exec prio b in
    entries b' = match r with Ok _ => <[pid := (exec, prio)]> (entries b) | Err _ => entries b end;
  remove_prio_law : forall pid b, let '(b', r) := RemovePriorityTask pid b in
    entries b' = match r with Ok _ => delete pid (entries b) | Err _ => entries b end
}.

Section kernel_mode.
  Context {B E S : Type} {PT : PriorityTable B E} {PL : PriorityLaws B E} {ST : Strategy S}.

(** Errors are logged. *)
Definition quietly {A} (m : SE B E A) (b : B) : B := (m b).1.

Definition update_strategy (b : B) (s : S) : B :=
  if (st_Priority s <=? 0)%Z then quietly (RemovePriorityTask (u32 (st_PID s))) b
  else quietly (UpdatePriorityTaskWithPrio (u32 (st_PID s)) (st_ExecutionTime s) (u32 (st_Priority s))) b.

Definition remove_strategy (b : B) (s : S) : B := quietly (RemovePriorityTask (u32 (st_PID s))) b.

(** One turn: what changed since the last one. *)
Definition apply_strategies (changed removed : list S) (b : B) : B :=
  foldl remove_strategy (foldl update_strategy b changed) removed.

(** Every entry boosts its task. *)
Definition table_ok (b : B) : Prop := map_Forall (fun _ e => 0 < e.2)%Z (entries b).

Lemma quiet_remove pid b : entries (quietly (RemovePriorityTask pid) b) = entries b \/
  entries (quietly (RemovePriorityTask pid) b) = delete pid (entries b).
Proof. unfold quietly. pose proof (remove_prio_law pid b) as L. destruct (RemovePriorityTask pid b) as [b' []]; simpl; auto. Qed.

Lemma quiet_remove_ok pid b : table_ok b -> table_ok (quietly (RemovePriorityTask pid) b).
Proof. unfold table_ok. destruct (quiet_remove pid b) as [-> | ->]; [done|]. by apply map_Forall_delete. Qed.

Lemma update_strategy_ok b s : (st_Priority s < 2 ^ 32)%Z -> table_ok b -> table_ok (update_strategy b s).
Proof.
  intros Hp Hb. unfold update_strategy. destruct (Z.leb_spec (st_Priority s) 0); [by apply quiet_remove_ok|].
  unfold table_ok, quietly. pose proof (update_prio_law (u32 (st_PID s)) (st_ExecutionTime s) (u32 (st_Priority s)) b) as L.
  destruct (UpdatePriorityTaskWithPrio _ _ _ b) as [b' []]; simpl; rewrite L; [|done].
  apply map_Forall_insert_2; [|done]. unfold u32. simpl. rewrite Z.mod_small; lia.
Qed.

Lemma apply_strategies_ok changed removed b :
  Forall (fun s => st_Priority s < 2 ^ 32)%Z changed -> table_ok b -> table_ok (apply_strategies changed removed b).
Proof.
  intros Hc Hb. unfold apply_strategies. assert (table_ok (foldl update_strategy b changed)) as Hu.
  { revert b Hb. induction Hc as [|s l Hs _ IH]; intros b Hb; [done|]. apply IH. by apply update_strategy_ok. }
  revert Hu. generalize (foldl update_strategy b changed). clear -PL. induction removed as [|s l IH]; intros b Hb; [done|].
  apply IH. by apply quiet_remove_ok.
Qed.

(** *** Calls that are carried out *)

(** An update succeeds; a removal fails only for a task without an entry. *)
Definition carried_out : Prop :=
  (forall pid exec prio b, (UpdatePriorityTaskWithPrio pid exec prio b).2 = Ok tt) /\
  (forall pid b, (RemovePriorityTask pid b).2 = Ok tt \/ entries b !! pid = None).

(** The entry a strategy asks for. *)
Definition wanted_entry (s : S) : option (Z * Z) :=
  if (st_Priority s <=? 0)%Z then None else Some (st_ExecutionTime s, u32 (st_Priority s)).

Definition pid_is (k : Z) (s : S) : Prop := u32 (st_PID s) = k.
#[export] Instance pid_is_dec k s : Decision (pid_is k s) := decide_rel (=) (u32 (st_PID s)) k.

Lemma removed_entry pid b k :
  carried_out -> entries (quietly (RemovePriorityTask pid) b) !! k = if decide (pid = k) then None else entries b !! k.
Proof.
  intros [_ Hr]. unfold quietly. pose proof (remove_prio_law pid b) as L. specialize (Hr pid b).
  destruct (RemovePriorityTask pid b) as [b' []]; simpl in *; rewrite L.
  - case_decide; subst; [by rewrite lookup_delete_eq|by rewrite lookup_delete_ne].
  - case_decide; subst; [|done]. by destruct Hr.
Qed.

Lemma updated_entry s b k :
  carried_out -> entries (update_strategy b s) !! k = if decide (pid_is k s) then wanted_entry s else entries b !! k.
Proof.
  intros Hc. unfold update_strategy, wanted_entry, pid_is. destruct (st_Priority s <=? 0)%Z; [by rewrite removed_entry|].
  destruct Hc as [Hu _]. specialize (Hu (u32 (st_PID s)) (st_ExecutionTime s) (u32 (st_Priority s)) b). unfold quietly.
  pose proof (update_prio_law (u32 (st_PID s)) (st_ExecutionTime s) (u32 (st_Priority s)) b) as L.
  destruct (UpdatePriorityTaskWithPrio _ _ _ b) as [b' r]. simpl in *. subst r. rewrite L.
  case_decide; subst; [by rewrite lookup_insert_eq|by rewrite lookup_insert_ne].
Qed.

Lemma updates_entry changed b k :
  carried_out ->
  entries (foldl update_strategy b changed) !! k =
  match last (filter (pid_is k) changed) with Some s => wanted_entry s | None => entries b !! k end.
Proof.
  intros Hc. induction changed as [|s l IH] using rev_ind; [done|]. rewrite foldl_snoc, updated_entry, filter_app by done.
  destruct (decide (pid_is k s)) as [Hs|Hs].
  - by rewrite filter_cons_True, filter_nil, last_snoc.
  - by rewrite filter_cons_False, filter_nil, app_nil_r.
Qed.

Lemma removes_entry removed b k :
  carried_out ->
  entries (foldl remove_strategy b removed) !! k =
  if decide (Exists (pid_is k) removed) then None else entries b !! k.
Proof.
  intros Hc. induction removed as [|s l IH] using rev_ind.
  - rewrite decide_False; [done|]. intros Hx. inversion Hx.
  - rewrite foldl_snoc. unfold remove_strategy at 1. rewrite removed_entry, IH by done.
    assert (Exists (pid_is k) (l ++ [s]) <-> Exists (pid_is k) l \/ pid_is k s) as Hx
      by (rewrite Exists_app, Exists_cons, Exists_nil; tauto).
    unfold pid_is at 2 in Hx. destruct (decide (Exists (pid_is k) (l ++ [s]))), (decide (Exists (pid_is k) l)),
      (decide (u32 (st_PID s) = k)); tauto.
Qed.

End kernel_mode.

(** ** Arithmetic *)

Lemma avg_monotone a b c d :
  (0 <= a <= b)%Z -> (0 <= c <= d)%Z -> (a - a / 4 + c / 4 <= b - b / 4 + d / 4)%Z.
Proof. intros. divlia. Qed.

Lemma avg_same a : (a - a / 4 + a / 4 = a)%Z.
Proof. lia. Qed.

Lemma eleven_tenths_zero d : (0 <= d)%Z -> (d * 11 / 10 = 0 <-> d = 0)%Z.
Proof. intros. divlia. Qed.

Lemma custom_slice_bounds c start stop :
  (0 < c -> start <= stop ->
   let slice := Z.min c ((stop - start) * 11 / 10) in
   0 <= slice <= c /\ slice * 10 <= (stop - start) * 11 /\ (slice = 0 <-> stop = start))%Z.
Proof.
  intros Hc Hle. simpl. pose proof (eleven_tenths_zero (stop - start) ltac:(lia)) as H0.
  pose proof (Z.mul_div_le ((stop - start) * 11) 10 ltac:(lia)) as H1.
  pose proof (Z.div_pos ((stop - start) * 11) 10 ltac:(lia) ltac:(lia)) as H2.
  revert H0 H1 H2. generalize ((stop - start) * 11 / 10)%Z. lia.
Qed.

(** ** Properties *)


(** C39 (the loop returns).  When the context is cancelled, the loop returns at
    the start of its next turn, whatever number of turns it is allowed beyond
    that, and every task it has taken is dispatched. *)
Theorem loop_returns_when_cancelled {B QT DT E} `{SchedCore B QT DT E} (sliceNsDefault sliceNsMin : Z) (n k : nat) (b b' b'' : B)
    (tr : list (event QT DT)) :
  turns sliceNsDefault sliceNsMin n (b, []) = Some (b', tr) -> ctx_done b' = (b'', true) ->
  runSchedulerLoop sliceNsDefault sliceNsMin (n + S k) (b, []) = ((b'', tr), Some ExitDone) /\
  Forall2 (dispatched_for sliceNsDefault sliceNsMin) (selections tr) (dispatches tr).
Proof.
  intros Hn Hd. assert (runSchedulerLoop sliceNsDefault sliceNsMin (n + S k) (b, []) = ((b'', tr), Some ExitDone)) as Hr.
  { eapply run_stops; [done|]. unfold loop_turn, sbind at 1, call_val at 1. by rewrite Hd. }
  split; [done|]. assert (served sliceNsDefault sliceNsMin ([] : list (event QT DT)) []) as H0 by (exists []; split; [done|constructor]).
  pose proof (loop_ok sliceNsDefault sliceNsMin (n + S k) b [] H0) as L. rewrite Hr in L.
  destruct L as (open & (l & Hs & Hf) & _ & He). destruct open as [|t open]; [|by destruct He].
  cbn [snd] in *. rewrite Hs, app_nil_r. done.
Qed.

(** C40 (virtual times and slices stay in range).  For tasks whose fields are
    64-bit numbers: a task without virtual time keeps none; one with it advances
    by at most a hundred default slices; a slice chosen by the plugin is never
    exceeded and never more than 1.1 times what the task last ran, so a task that
    did not run gets none; otherwise the slice is the minimum scaled by the
    weight.  The conditions are those under which no 64-bit operation wraps. *)
Theorem dispatch_bounds {B QT DT E} `{SchedCore B QT DT E} (sliceNsDefault sliceNsMin customTime : Z) (t : QT) :
  is_u64 sliceNsDefault -> is_u64 sliceNsMin -> is_u64 customTime -> is_u64 (Vtime t) -> is_u64 (SumExecRuntime t) ->
  is_u64 (StartTs t) -> is_u64 (StopTs t) -> is_u64 (Weight t) ->
  (Vtime t = 0 -> task_vtime sliceNsDefault t = 0)%Z /\
  (Vtime t <> 0 -> Vtime t + sliceNsDefault * 100 < 2 ^ 64 ->
     Vtime t <= task_vtime sliceNsDefault t <= Vtime t + sliceNsDefault * 100)%Z /\
  (0 < customTime -> StartTs t <= StopTs t -> (StopTs t - StartTs t) * 11 < 2 ^ 64 ->
     let slice := task_slice sliceNsMin t customTime in
     0 <= slice <= customTime /\ slice * 10 <= (StopTs t - StartTs t) * 11 /\ (slice = 0 <-> StopTs t = StartTs t))%Z /\
  (customTime = 0 -> sliceNsMin * Weight t < 2 ^ 64 ->
     task_slice sliceNsMin t customTime = sliceNsMin * Weight t / 100)%Z.
Proof.
  unfold is_u64. intros Hd Hm Hc Hv Hs Hb He Hw. unfold task_vtime, task_slice. split_and!.
  - intros ->. by rewrite decide_True.
  - intros Hne Hlt. rewrite decide_False, (u64_id (sliceNsDefault * 100)), u64_id by (unfold is_u64; lia). lia.
  - intros Hpos Hle Hlt. rewrite (proj2 (Z.ltb_lt 0 customTime)) by lia.
    rewrite (u64_id (StopTs t - StartTs t)), u64_id by (unfold is_u64; lia). simpl.
    apply custom_slice_bounds; lia.
  - intros -> Hlt. simpl. rewrite u64_id; [done|]. unfold is_u64. lia.
Qed.

(** Remark (the average stays between its arguments).  [CalcAvg] never wraps and
    never leaves the interval of the two values. *)
Theorem calc_avg_between (oldVal newVal : Z) :
  is_u64 oldVal -> is_u64 newVal -> (Z.min oldVal newVal <= CalcAvg oldVal newVal <= Z.max oldVal newVal)%Z.
Proof.
  unfold is_u64, CalcAvg. intros Ho Hn. rewrite !Z.shiftr_div_pow2 by lia. change (2 ^ 2)%Z with 4%Z.
  pose proof (avg_monotone (Z.min oldVal newVal) oldVal (Z.min oldVal newVal) newVal) as Hlo.
  pose proof (avg_monotone oldVal (Z.max oldVal newVal) newVal (Z.max oldVal newVal)) as Hhi.
  rewrite avg_same in Hlo, Hhi. pose proof (Z.div_pos oldVal 4). pose proof (Z.div_le_upper_bound oldVal 4 oldVal).
  rewrite (u64_id (oldVal - _)) by (unfold is_u64; lia). rewrite u64_id by (unfold is_u64; lia). lia.
Qed.

(** Remark (only boosting entries in kernel mode).  Whatever calls fail, in whatever
    rounds, the kernel's table never holds an entry of priority zero, which the
    kernel would take for the highest: a strategy that does not boost its task
    never enters the table.  Priorities are taken to fit 32 bits. *)
Theorem kernel_table_boosts {B E S} `{PriorityLaws B E, Strategy S} (rounds : list (list S * list S)) (b : B) :
  Forall (fun r => Forall (fun s => st_Priority s < 2 ^ 32)%Z r.1) rounds -> table_ok b ->
  table_ok (foldl (fun b r => apply_strategies r.1 r.2 b) b rounds).
Proof.
  intros Hr. revert b. induction Hr as [|r l Hr _ IH]; intros b Hb; [done|]. apply IH. by apply apply_strategies_ok.
Qed.

(** Remark (the kernel's table follows the strategies).  When the calls of a turn are
    carried out, a process has afterwards no entry if its strategy was removed,
    else the entry of the last strategy that changed for it (none if that one does
    not boost), else the entry it had. *)
Theorem kernel_table_follows {B E S} `{PriorityLaws B E, Strategy S} (changed removed : list S) (b : B) (k : Z) :
  carried_out ->
  entries (apply_strategies changed removed b) !! k =
  if decide (Exists (pid_is k) removed) then None else
  match last (filter (pid_is k) changed) with Some s => wanted_entry s | None => entries b !! k end.
Proof. intros Hc. unfold apply_strategies. rewrite removes_entry, updates_entry by done. done. Qed.

(** ** Concrete inputs *)

(** A module with a queue in memory, whose context is cancelled after a number of
    polls and whose plugin picks slices by task. *)
Record qtask := mkQTask { q_pid : Z; q_vtime : Z; q_sum : Z; q_start : Z; q_stop : Z; q_weight : Z; q_custom : Z }.

Record toy := mkToy { toy_queue : list qtask; toy_polls : nat; toy_table : gmap Z (Z * Z) }.

#[export] Instance toy_core : SchedCore toy qtask Z unit := {|
  Vtime := q_vtime; SumExecRuntime := q_sum; StartTs := q_start; StopTs := q_stop; Weight := q_weight;
  NewDispatchedTask := q_pid;
  ctx_done := fun b => (mkToy (toy_queue b) (pred (toy_polls b)) (toy_table b), Nat.eqb (toy_polls b) 0);
  DrainQueuedTask := fun b => (b, Z.of_nat (length (toy_queue b)));
  DecNrQueued := fun _ b => (b, Ok tt);
  SelectQueuedTask := fun b => (mkToy (tail (toy_queue b)) (toy_polls b) (toy_table b), head (toy_queue b));
  BlockTilReadyForDequeue := fun b => b;
  DetermineTimeSlice := fun t b => (b, q_custom t);
  SelectCPU := fun t b => (b, if (q_pid t <? 0)%Z then Err tt else Ok 0%Z);
  DispatchTask := fun _ b => (b, Ok tt);
  GetPoolCount := fun b => (b, Z.of_nat (length (toy_queue b)));
  NotifyComplete := fun _ b => (b, Ok tt)
|}.

#[export] Instance toy_priority : PriorityTable toy unit := {|
  entries := toy_table;
  UpdatePriorityTaskWithPrio := fun pid exec prio b => (mkToy (toy_queue b) (toy_polls b) (<[pid := (exec, prio)]> (toy_table b)), Ok tt);
  RemovePriorityTask := fun pid b =>
    match toy_table b !! pid with
    | Some _ => (mkToy (toy_queue b) (toy_polls b) (delete pid (toy_table b)), Ok tt)
    | None => (b, Err tt)
    end
|}.

#[export] Instance toy_priority_laws : PriorityLaws toy unit.
Proof. split; [done|]. intros pid b. simpl. by destruct (toy_table b !! pid). Qed.

#[export] Instance triple_strategy : Strategy (Z * Z * Z) := {|
  st_PID := fun s => s.1.1; st_ExecutionTime := fun s => s.1.2; st_Priority := fun s => s.2
|}.

Definition toy_task : qtask := mkQTask 41 1000 500 100 300 200 0.
Definition toy_task2 : qtask := mkQTask 42 0 500 100 300 100 150.

Lemma loop_returns_when_cancelled_witness :
  exists b'' (tr : list (event qtask Z)), runSchedulerLoop (E := unit) 20000000 1000000 (3 + 1) (mkToy [toy_task; toy_task2] 3 ∅, []) = ((b'', tr), Some ExitDone) /\
    dispatches tr = [mkDispatch 41 1500 2000000 0; mkDispatch 42 0 150 0]%Z /\
    Forall2 (dispatched_for 20000000 1000000) (selections tr) (dispatches tr).
Proof.
  assert (exists b' (tr : list (event qtask Z)), turns (E := unit) 20000000 1000000 3 (mkToy [toy_task; toy_task2] 3 ∅, []) = Some (b', tr) /\
    dispatches tr = [mkDispatch 41 1500 2000000 0; mkDispatch 42 0 150 0]%Z /\ toy_polls b' = 0) as (b' & tr & Ht & Hd & Hp)
    by (eexists _, _; split; [vm_compute; reflexivity|]; split; reflexivity).
  exists (mkToy (toy_queue b') 0 (toy_table b')), tr.
  destruct (loop_returns_when_cancelled (E := unit) 20000000 1000000 3 0 (mkToy [toy_task; toy_task2] 3 ∅) b' (mkToy (toy_queue b') 0 (toy_table b')) tr Ht) as [Hr Hf].
  { simpl. by rewrite Hp. }
  done.
Defined.

Lemma dispatch_bounds_witness : (task_slice 1000000 toy_task2 150 <= 150 /\ 1000 <= task_vtime 20000000 toy_task)%Z.
Proof.
  destruct (dispatch_bounds 20000000 1000000 150 toy_task2) as (_ & _ & Hs & _); try (unfold is_u64; simpl; lia).
  destruct (dispatch_bounds 20000000 1000000 150 toy_task) as (_ & Hv & _ & _); try (unfold is_u64; simpl; lia).
  specialize (Hs ltac:(lia) ltac:(simpl; lia) ltac:(simpl; lia)). specialize (Hv ltac:(simpl; lia) ltac:(simpl; lia)).
  split; [apply Hs|apply Hv].
Defined.

Lemma calc_avg_between_witness : (Z.min 8 (2 ^ 64 - 1) <= CalcAvg 8 (2 ^ 64 - 1) <= Z.max 8 (2 ^ 64 - 1))%Z.
Proof. apply calc_avg_between; unfold is_u64; lia. Defined.

Lemma kernel_table_boosts_witness :
  table_ok (foldl (fun b r => apply_strategies r.1 r.2 b) (mkToy [] 0 ∅) [([(41, 20000, 3); (42, 10000, 0)], []); ([(41, 0, -1)], [(43, 0, 0)])]%Z).
Proof.
  apply kernel_table_boosts; [|exact (map_Forall_empty _)]. repeat constructor; simpl; lia.
Defined.

(** Raised, then lowered in the same turn. *)
Lemma kernel_table_follows_witness :
  entries (apply_strategies [(41, 20000, 3); (42, 10000, 2); (41, 0, 0)] [] (mkToy [] 0 ∅))%Z !! 41%Z = None.
Proof.
  rewrite kernel_table_follows.
  - vm_compute. reflexivity.
  - split; [done|]. intros pid b. simpl. destruct (toy_table b !! pid); auto.
Defined.
