(* ===== verification/SchedRun.v ===== *)
(** * Starting the scheduler: main.go, internal/app, internal/scheduler (Run, policy, config_builder)

    From the command line to the loops of SchedLoop.v: the mode of the binary, its
    flags as Go's [flag] package reads them, the decision between scheduling and
    monitoring only, and the settings made on the BPF module before it is
    attached.  Composed with DaemonConfig.v it says what becomes of a command the
    daemon resolved. *)

From stdpp Require Import base gmap strings list.
From Stdlib Require Import ZArith Lia Ascii.
From S2P Require Import Prelude GoStrings Config DaemonConfig.
#[local] Open Scope go_scope.

(** ** Flags *)

(** What [FlagSet.Parse] may report. *)
Inductive flag_error := FlagSyntax | FlagUndefined | FlagHelp | FlagBadBool | FlagNoValue.

Inductive flag_kind := StringFlag | BoolFlag.

(** [strconv.ParseBool]. *)
Definition ParseBool (s : string) : option bool :=
  if decide (s ∈ ["1"; "t"; "T"; "TRUE"; "true"; "True"]) then Some true
  else if decide (s ∈ ["0"; "f"; "F"; "FALSE"; "false"; "False"]) then Some false
  else None.

(** What an argument is: none of the flag set's business, the end marker, or a
    name with perhaps a value. *)
Inductive flag_arg := ArgStop | ArgEnd | ArgBad | ArgFlag (name : string) (value : option string).

(** The name and the value of [name=value]; the first byte belongs to the name. *)
Definition split_flag (name : string) : flag_arg :=
  match name with
  | EmptyString => ArgBad
  | String "-" _ => ArgBad
  | String "=" _ => ArgBad
  | String c rest => let '(before, value) := SplitN2 rest "=" in ArgFlag (String c before) value
  end.

Definition classify_arg (s : string) : flag_arg :=
  match s with
  | String "-" (String "-" EmptyString) => ArgEnd
  | String "-" (String "-" name) => split_flag name
  | String "-" (String c rest) => split_flag (String c rest)
  | _ => ArgStop
  end.

Section flags.
  Variable formal : string -> option flag_kind.
  Context {F : Type}.
  (** Setting a flag; [None] for a value that does not parse. *)
  Variable set_flag : string -> string -> F -> option F.

(** [FlagSet.Parse] with [ContinueOnError]: the arguments up to the first that is
    not a flag. *)
Fixpoint parse_flags (args : list string) (f : F) : result flag_error F :=
  match args with
  | [] => Ok f
  | s :: rest =>
      match classify_arg s with
      | ArgStop | ArgEnd => Ok f
      | ArgBad => Err FlagSyntax
      | ArgFlag name value =>
          match formal name with
          | None => if decide (name = "help" \/ name = "h") then Err FlagHelp else Err FlagUndefined
          | Some BoolFlag =>
              match set_flag name (default "true" value) f with
              | None => Err FlagBadBool
              | Some f => parse_flags rest f
              end
          | Some StringFlag =>
              match value, rest with
              | Some v, _ => match set_flag name v f with None => Err FlagBadBool | Some f => parse_flags rest f end
              | None, v :: rest => match set_flag name v f with None => Err FlagBadBool | Some f => parse_flags rest f end
              | None, [] => Err FlagNoValue
              end
          end
      end
  end.

End flags.

(** The scheduler's flags. *)
Record sched_flags := mkSchedFlags { sf_config : string; sf_help : bool; sf_explain : bool }.

Definition sched_formal (name : string) : option flag_kind :=
  if decide (name = "config") then Some StringFlag
  else if decide (name = "help" \/ name = "explain") then Some BoolFlag
  else None.

Definition set_sched_flag (name value : string) (f : sched_flags) : option sched_flags :=
  if decide (name = "config") then Some (mkSchedFlags value (sf_help f) (sf_explain f))
  else if decide (name = "help") then (fun b => mkSchedFlags (sf_config f) b (sf_explain f)) <$> ParseBool value
  else if decide (name = "explain") then (fun b => mkSchedFlags (sf_config f) (sf_help f) b) <$> ParseBool value
  else None.

Definition parse_sched_flags (args : list string) : result flag_error sched_flags :=
  parse_flags sched_formal set_sched_flag args (mkSchedFlags "" false false).

(** ** Policy and configuration of the parts *)

Definition NormalizeAPIInterval (interval : Z) (enabled : bool) : Z :=
  if ((interval <=? 0)%Z || negb enabled) then 5%Z else interval.

Definition ShouldRunMonitorOnly (cfg : Config) (schedExtErr : option unsupported_error) : bool * option unsupported_error :=
  if negb (IsSchedulerEnabled cfg) then (true, None) else
  match schedExtErr with
  | None => (false, None)
  | Some e => if IsMonitorEnabled cfg then (true, None) else (false, Some e)
  end.

(** monitor/monitor.go [Config]. *)
Record monitor_Config := mkMonCfg {
  mon_BPFObjectPath : string;
  mon_CollectionIntervalSec : Z;
  mon_MonitorAll : bool;
  mon_StreamEvents : bool;
  mon_PrometheusPort : Z;
  mon_NodeName : string;
  mon_EnableCRDWatcher : bool;
  mon_KubeConfigPath : string
}.

Definition buildMonitorConfig (nodeName : string) (cfg : Config) : monitor_Config :=
  let m := Monitor cfg in
  mkMonCfg (BPFObjectPath m) (CollectionIntervalSec m) (MonitorAll m) (StreamEvents m) (PrometheusPort m) nodeName
    (EnableCRDWatcher m) (KubeConfigPath m).

(** The plugin's configuration, as far as it is filled in here. *)
Record plugin_SchedConfig := mkPluginCfg {
  pl_Mode : string;
  pl_SliceNsDefault : Z;
  pl_SliceNsMin : Z;
  pl_BaseURL : string;
  pl_Interval : Z;
  pl_PublicKeyPath : string;
  pl_Enabled : bool;
  pl_AuthEnabled : bool;
  pl_MTLS : MTLSConfig
}.

Definition buildPluginConfig (cfg : Config) : plugin_SchedConfig :=
  let a := Api cfg in
  let mode := Mode (GetSchedulerConfig cfg) in
  mkPluginCfg (if decide (mode = "") then "gthulhu" else mode)
    (SliceNsDefault (Scheduler cfg)) (SliceNsMin (Scheduler cfg))
    (Url a) (Interval a) (PublicKeyPath a) (ApiEnabled a) (AuthEnabled a) (MTLS a).

(** ** Run *)

(** Calls on the BPF module, in order. *)
Inductive bpf_call :=
| LoadSched (object : string)
| SetPlugin
| SetDebug
| SetBuiltinIdle
| EnableKernelMode
| DisableMaxTimeWatchdog
| SetEarlyProcessing
| AssignUserSchedPid
| Start
| InitCacheDomains
| Attach.

#[global] Instance bpf_call_eq_dec : EqDecision bpf_call.
Proof. solve_decision. Defined.

Inductive run_error :=
| RunFlags (e : flag_error)
| RunLoad (e : config_error)
| RunSchedExt (e : unsupported_error)
| RunPlugin
| RunTopology
| RunCacheDomains
| RunAttach.

(** Where a run without error ends up: the usage or the explanation was printed,
    the process waits for a signal, or one of the loops was entered (the interval
    is that of the metrics ticker). *)
Inductive run_outcome :=
| PrintedUsage
| PrintedExplanation
| MonitorOnly
| KernelLoop (interval : Z)
| UserLoop (interval sliceNsDefault sliceNsMin : Z).

(** What the machine and the parts outside this repository answer. *)
Record machine := mkMachine {
  mc_open : string -> open_result;
  mc_node : string;
  mc_support : option unsupported_error;
  mc_plugin : plugin_SchedConfig -> bool;
  mc_topology : bool;
  mc_cache : bool;
  mc_attach : bool
}.

Record run_trace := mkTrace { tr_monitor : option monitor_Config; tr_calls : list bpf_call; tr_result : result run_error run_outcome }.

Definition when (b : bool) (c : bpf_call) : list bpf_call := if b then [c] else [].

(** The settings made on the module before it is started. *)
Definition module_settings (cfg : Config) : list bpf_call :=
  [LoadSched "main.bpf.o"; SetPlugin] ++ when (IsDebugEnabled cfg) SetDebug ++ when (IsBuiltinIdleEnabled cfg) SetBuiltinIdle ++
  when (KernelMode (Scheduler cfg)) EnableKernelMode ++ when (negb (MaxTimeWatchdog (Scheduler cfg))) DisableMaxTimeWatchdog ++
  when (EarlyProcessing cfg) SetEarlyProcessing ++ [AssignUserSchedPid; Start].

Section run.
  Context `{Y : YAML}.

(** From the decision to schedule to the loops. *)
Definition start_module (mc : machine) (mon : option monitor_Config) (cfg : Config) : run_trace :=
  if negb (mc_plugin mc (buildPluginConfig cfg)) then mkTrace mon [] (Err RunPlugin) else
  let calls := module_settings cfg in
  if negb (mc_topology mc) then mkTrace mon calls (Err RunTopology) else
  let calls := calls ++ [InitCacheDomains] in
  if negb (mc_cache mc) then mkTrace mon calls (Err RunCacheDomains) else
  let calls := calls ++ [Attach] in
  if negb (mc_attach mc) then mkTrace mon calls (Err RunAttach) else
  let interval := NormalizeAPIInterval (Interval (Api cfg)) (ApiEnabled (Api cfg)) in
  mkTrace mon calls
    (Ok (if KernelMode (Scheduler cfg) then KernelLoop interval
         else UserLoop interval (SliceNsDefault (Scheduler cfg)) (SliceNsMin (Scheduler cfg)))).

Definition scheduler_Run (mc : machine) (args : list string) : run_trace :=
  let stop r := mkTrace None [] r in
  match parse_sched_flags args with
  | Err e => stop (Err (RunFlags e))
  | Ok fl =>
      if sf_help fl then stop (Ok PrintedUsage) else
      if sf_explain fl then stop (Ok PrintedExplanation) else
      match LoadConfig (mc_open mc) (sf_config fl) with
      | Err e => stop (Err (RunLoad e))
      | Ok cfg =>
          let mon := if IsMonitorEnabled cfg then Some (buildMonitorConfig (mc_node mc) cfg) else None in
          if negb (IsSchedulerEnabled cfg) then mkTrace mon [] (Ok MonitorOnly) else
          match ShouldRunMonitorOnly cfg (mc_support mc) with
          | (_, Some e) => mkTrace mon [] (Err (RunSchedExt e))
          | (true, None) => mkTrace mon [] (Ok MonitorOnly)
          | (false, None) => start_module mc mon cfg
          end
      end
  end.

End run.

(** ** The binary *)

Inductive app_action := AppUsage | AppDaemon (args : list string) | AppScheduler (args : list string).

Definition isGlobalHelpRequest (args : list string) : bool :=
  match args with
  | [] => false
  | first :: _ => bool_decide (first = "help" \/ first = "-h" \/ first = "--help")
  end.

Definition resolveModeAndArgs (args : list string) : string * list string :=
  match args with
  | [] => ("scheduler", args)
  | a :: rest => if decide (a = "scheduler" \/ a = "daemon") then (a, rest) else ("scheduler", args)
  end.

Definition app_Run (args : list string) : app_action :=
  if isGlobalHelpRequest args then AppUsage else
  let '(mode, modeArgs) := resolveModeAndArgs args in
  if decide (mode = "daemon") then AppDaemon modeArgs else AppScheduler modeArgs.

(** [ExitCode] on the errors of the scheduler; [RunSchedExt] wraps [ErrUnsupported]. *)
Definition ExitCode (err : option run_error) : Z :=
  match err with
  | None => 0
  | Some (RunSchedExt _) => UnsupportedExitCode
  | Some _ => 1
  end.

(** The error of a run and the status the process exits with. *)
Definition error_of {E A} (r : result E A) : option E := match r with Ok _ => None | Err e => Some e end.
Definition exit_status (t : run_trace) : Z := ExitCode (error_of (tr_result t)).

(** ** Lemmas *)

Lemma child_args_parse path : parse_sched_flags ["-config"; path] = Ok (mkSchedFlags path false false).
Proof. reflexivity. Qed.

(** What follows from a configuration that loads. *)
Lemma run_with_config `{Y : YAML} mc path cfg :
  LoadConfig (mc_open mc) path = Ok cfg ->
  let t := scheduler_Run mc ["-config"; path] in
  let mon := if IsMonitorEnabled cfg then Some (buildMonitorConfig (mc_node mc) cfg) else None in
  t = if negb (IsSchedulerEnabled cfg) then mkTrace mon [] (Ok MonitorOnly) else
      match mc_support mc with
      | None => start_module mc mon cfg
      | Some e => if IsMonitorEnabled cfg then mkTrace mon [] (Ok MonitorOnly) else mkTrace mon [] (Err (RunSchedExt e))
      end.
Proof.
  intros Hl. unfold scheduler_Run. rewrite child_args_parse. cbn [sf_help sf_explain sf_config]. rewrite Hl. cbv zeta.
  unfold ShouldRunMonitorOnly. destruct (IsSchedulerEnabled cfg); [|done]. cbn [negb].
  destruct (mc_support mc); [|done]. by destruct (IsMonitorEnabled cfg).
Qed.

Lemma start_module_calls mc mon cfg :
  let t := start_module mc mon cfg in
  tr_monitor t = mon /\
  match tr_result t with
  | Ok o => tr_calls t = module_settings cfg ++ [InitCacheDomains; Attach] /\ mc_attach mc = true /\
      o = (let i := NormalizeAPIInterval (Interval (Api cfg)) (ApiEnabled (Api cfg)) in
           if KernelMode (Scheduler cfg) then KernelLoop i
           else UserLoop i (SliceNsDefault (Scheduler cfg)) (SliceNsMin (Scheduler cfg)))
  | Err RunPlugin => tr_calls t = []
  | Err RunTopology => tr_calls t = module_settings cfg
  | Err RunCacheDomains => tr_calls t = module_settings cfg ++ [InitCacheDomains]
  | Err RunAttach => tr_calls t = module_settings cfg ++ [InitCacheDomains; Attach] /\ mc_attach mc = false
  | Err _ => False
  end.
Proof.
  unfold start_module. destruct (mc_plugin mc _), (mc_topology mc), (mc_cache mc), (mc_attach mc); simpl; split_and!; try done;
    by rewrite <- (assoc_L (++)).
Qed.

Lemma elem_of_when b c x : x ∈ when b c <-> b = true /\ x = c.
Proof. unfold when. destruct b; set_solver. Qed.

Lemma settings_spec cfg x :
  x ∈ module_settings cfg <->
  match x with
  | LoadSched o => o = "main.bpf.o"
  | SetPlugin | AssignUserSchedPid | Start => True
  | SetDebug => IsDebugEnabled cfg = true
  | SetBuiltinIdle => IsBuiltinIdleEnabled cfg = true
  | EnableKernelMode => KernelMode (Scheduler cfg) = true
  | DisableMaxTimeWatchdog => MaxTimeWatchdog (Scheduler cfg) = false
  | SetEarlyProcessing => EarlyProcessing cfg = true
  | InitCacheDomains | Attach => False
  end.
Proof.
  unfold module_settings. rewrite !elem_of_app, !elem_of_when, !elem_of_cons, elem_of_nil, negb_true_iff.
  destruct x; naive_solver.
Qed.

(** ** Properties *)

(** Remark (the module is set up before it is attached).  Whenever a run attaches the
    BPF module, a configuration was loaded, scheduling is enabled in it and the
    kernel supports it; attaching is the last call, made once, after the module got
    the plugin and exactly the settings the configuration asks for; and if it
    succeeds the loop entered is the one for the configured mode, with the
    configured slices. *)
Theorem attach_after_setup `{Y : YAML} (mc : machine) (args : list string) :
  let t := scheduler_Run mc args in
  Attach ∈ tr_calls t ->
  exists fl cfg, parse_sched_flags args = Ok fl /\ LoadConfig (mc_open mc) (sf_config fl) = Ok cfg /\
    IsSchedulerEnabled cfg = true /\ mc_support mc = None /\
    tr_calls t = module_settings cfg ++ [InitCacheDomains; Attach] /\ Attach ∉ module_settings cfg /\
    SetPlugin ∈ module_settings cfg /\
    (DisableMaxTimeWatchdog ∈ module_settings cfg <-> MaxTimeWatchdog (Scheduler cfg) = false) /\
    (EnableKernelMode ∈ module_settings cfg <-> KernelMode (Scheduler cfg) = true) /\
    (mc_attach mc = true -> exists i, tr_result t =
       Ok (if KernelMode (Scheduler cfg) then KernelLoop i
           else UserLoop i (SliceNsDefault (Scheduler cfg)) (SliceNsMin (Scheduler cfg)))).
Proof.
  unfold scheduler_Run. destruct (parse_sched_flags args) as [fl|e]; [|cbn; set_solver].
  destruct (sf_help fl); [cbn; set_solver|]. destruct (sf_explain fl); [cbn; set_solver|].
  destruct (LoadConfig _ _) as [cfg|e] eqn:Hl; [|cbn; set_solver]. cbv zeta. set (mon := if IsMonitorEnabled cfg then _ else _).
  unfold ShouldRunMonitorOnly. destruct (IsSchedulerEnabled cfg) eqn:He; [|cbn; set_solver]. cbn [negb].
  destruct (mc_support mc) as [u|] eqn:Hs; [destruct (IsMonitorEnabled cfg); cbn; set_solver|].
  pose proof (start_module_calls mc mon cfg) as (_ & L). intros Ha. exists fl, cfg.
  assert (Attach ∉ module_settings cfg) as Hna by (rewrite settings_spec; tauto).
  assert (tr_calls (start_module mc mon cfg) = module_settings cfg ++ [InitCacheDomains; Attach]) as Hc.
  { destruct (tr_result _) as [o|[]]; try done; try tauto; rewrite L in Ha; set_solver. }
  rewrite !settings_spec. split_and!; try done; try tauto.
  intros Hat. destruct (tr_result _) as [o|[]]; try done; [destruct L as (_ & _ & ->); eauto|..];
    try (rewrite L in Hc; apply (f_equal length) in Hc; rewrite ?length_app in Hc; cbn in Hc; lia).
  destruct L as [_ L]. congruence.
Qed.

(** Remark (the child does what the daemon resolved).  The command the daemon resolves
    for the Gthulhu binary makes the binary run in scheduler mode on the very
    configuration file the daemon read; on the same machine it then never exits as
    unsupported, so the daemon never mistakes its own decision for a failure; it
    only monitors when the mode is [none] or empty or sched_ext is missing, and
    otherwise goes on to start the module. *)
Theorem resolved_child_runs `{Y : YAML} bad stat (mc : machine) path bin disk args :
  mc_open mc = open_disk bad disk ->
  schedulerCommandFromConfig bad stat (mc_support mc) path bin disk = Ok (bin, args, true) -> args <> [] ->
  app_Run args = AppScheduler ["-config"; path] /\
  exists cfg, LoadConfig (open_disk bad disk) path = Ok cfg /\
    let t := scheduler_Run mc ["-config"; path] in
    exit_status t <> UnsupportedExitCode /\
    (Mode (Scheduler cfg) = "none" \/ Mode (Scheduler cfg) = "" \/ is_Some (mc_support mc) -> tr_result t = Ok MonitorOnly) /\
    (Mode (Scheduler cfg) <> "none" -> Mode (Scheduler cfg) <> "" -> mc_support mc = None ->
       t = start_module mc (if IsMonitorEnabled cfg then Some (buildMonitorConfig (mc_node mc) cfg) else None) cfg).
Proof.
  intros Ho Hr Hne. unfold schedulerCommandFromConfig in Hr. rewrite <- Ho in Hr |- *.
  destruct (LoadConfig _ path) as [cfg|e] eqn:Hl; [|done]. cbv zeta in Hr.
  pose proof (run_with_config mc path cfg Hl) as Hrun. cbv zeta in Hrun.
  set (mode := if decide (TrimSpace (Mode (Scheduler cfg)) = "") then _ else _) in Hr.
  assert (args = ["scheduler"; "-config"; path] /\
    (IsSchedulerEnabled cfg = true -> is_Some (mc_support mc) -> IsMonitorEnabled cfg = true)) as [-> Hm].
  { clearbody mode. case_decide; [destruct (IsMonitorEnabled cfg); by simplify_eq|].
    destruct (validateScheduler _ _); [done|]. destruct (mc_support mc) as [u|]; [destruct (IsMonitorEnabled cfg); by simplify_eq|].
    case_decide; [simplify_eq; split; [done|by intros _ [? ?]]|]. case_decide; [|done].
    destruct (ensureExecutableInDir _ _ _); by simplify_eq/=. }
  split; [done|]. exists cfg. split; [done|]. cbv zeta. rewrite Hrun. clear Hrun Hr.
  assert (IsSchedulerEnabled cfg = true <-> Mode (Scheduler cfg) <> "" /\ Mode (Scheduler cfg) <> "none") as He
    by (unfold IsSchedulerEnabled; rewrite andb_true_iff, !bool_decide_eq_true; done).
  destruct (IsSchedulerEnabled cfg); cbn [negb].
  - destruct (mc_support mc) as [u|].
    + rewrite Hm by eauto. split_and!; [done|done|by intros _ _ ?].
    + split_and!; [|naive_solver|done].
      pose proof (start_module_calls mc (if IsMonitorEnabled cfg then Some (buildMonitorConfig (mc_node mc) cfg) else None) cfg) as [_ L].
      unfold exit_status. destruct (tr_result _) as [o|[]]; done.
  - split_and!; [done|done|naive_solver].
Qed.

(** Remark (an empty mode does not schedule).  The daemon reads an empty mode as
    [gthulhu]: it checks sched_ext and starts the binary, but the binary reads it
    as no scheduling and only waits for a signal, even with the monitor off. *)
Theorem empty_mode_child_idles `{Y : YAML} bad stat (mc : machine) path bin disk cfg :
  mc_open mc = open_disk bad disk -> LoadConfig (open_disk bad disk) path = Ok cfg ->
  Mode (Scheduler cfg) = "" -> mc_support mc = None ->
  schedulerCommandFromConfig bad stat (mc_support mc) path bin disk = Ok (bin, ["scheduler"; "-config"; path], true) /\
  let t := scheduler_Run mc ["-config"; path] in tr_result t = Ok MonitorOnly /\ tr_calls t = [].
Proof.
  intros Ho Hl Hm Hs. split.
  - unfold schedulerCommandFromConfig. rewrite Hl. cbv zeta. rewrite Hm, Hs.
    change (TrimSpace "") with "". rewrite (decide_True (P := "" = "")) by done.
    rewrite (decide_False (P := "gthulhu" = "none")) by done.
    change (validateScheduler "gthulhu" (SchedulerName (Scheduler cfg))) with (None : option daemon_error).
    cbv iota. by rewrite decide_True by auto.
  - cbv zeta. rewrite <- Ho in Hl. rewrite (run_with_config mc path cfg Hl). unfold IsSchedulerEnabled. rewrite Hm. done.
Qed.

(** ** Concrete inputs *)

(** A machine with one configuration file, supporting sched_ext. *)
Definition sample_machine `{Y : YAML} (cfg : Config) : machine :=
  mkMachine (open_disk ∅ (written cfg)) "n1" None (fun _ => true) true true true.

#[local] Existing Instance counting_yaml.

Lemma sample_run : scheduler_Run (sample_machine sample_config) ["-config"; "run.yaml"] =
  start_module (sample_machine sample_config) (Some (buildMonitorConfig "n1" (reloaded sample_config))) (reloaded sample_config).
Proof. exact (run_with_config (sample_machine sample_config) "run.yaml" _ (load_one_file sample_config)). Qed.

Lemma attach_after_setup_witness :
  exists cfg, tr_calls (scheduler_Run (sample_machine sample_config) ["-config"; "run.yaml"]) =
    module_settings cfg ++ [InitCacheDomains; Attach] /\ EnableKernelMode ∈ module_settings cfg.
Proof.
  destruct (attach_after_setup (sample_machine sample_config) ["-config"; "run.yaml"])
    as (fl & cfg & Hf & Hl & _ & _ & Hc & _ & _ & _ & Hk & _).
  { rewrite sample_run. change (Attach ∈ (module_settings (reloaded sample_config) ++ [InitCacheDomains]) ++ [Attach]). set_solver. }
  exists cfg. split; [exact Hc|]. apply Hk. injection Hf as <-.
  pose proof (eq_trans (eq_sym Hl) (load_one_file sample_config)) as E. injection E as ->. reflexivity.
Defined.

Lemma resolved_child_runs_witness :
  app_Run ["scheduler"; "-config"; "run.yaml"] = AppScheduler ["-config"; "run.yaml"] /\
  exit_status (scheduler_Run (sample_machine sample_config) ["-config"; "run.yaml"]) <> UnsupportedExitCode.
Proof.
  destruct (resolved_child_runs ∅ no_binaries (sample_machine sample_config) "run.yaml" "/opt/g/gthulhu" (written sample_config)
    ["scheduler"; "-config"; "run.yaml"]) as (Ha & cfg & _ & He & _).
  - reflexivity.
  - unfold schedulerCommandFromConfig. rewrite load_one_file. reflexivity.
  - discriminate.
  - split; [exact Ha|exact He].
Defined.

Lemma empty_mode_child_idles_witness :
  let cfg := mkConfig (mkSchedulerConfig 5000000 500000 "" "" false true) (mkSimpleSchedulerConfig false)
    (mkMonitorConfig false "m.o" 3 true false 9100 false "") false false false (Api sample_config) in
  tr_result (scheduler_Run (sample_machine cfg) ["-config"; "run.yaml"]) = Ok MonitorOnly.
Proof.
  cbv zeta. set (cfg := mkConfig _ _ _ _ _ _ _).
  exact (proj1 (proj2 (empty_mode_child_idles ∅ no_binaries (sample_machine cfg) "run.yaml" "/opt/g/gthulhu" (written cfg) (reloaded cfg)
    eq_refl (load_one_file cfg) eq_refl eq_refl))).
Defined.
