(* ===== verification/StrategySvc.v ===== *)
(** * Strategies: api/manager/service/strategy_svc.go

    What users of the manager do with strategies: create, change and delete them,
    and delete single intents.  Each operation checks who asks, changes the
    repository and tells the decision makers.  The order in which Go ranges over a
    map is a parameter. *)

From stdpp Require Import base gmap strings list sorting.
From Stdlib Require Import ZArith Lia.
From S2P Require Import Prelude GoStrings Sha256 Merkle Intents ProcScan PodMetrics DecisionMaker ManagerDomain KubeStore CRRepo Manager.
#[local] Open Scope go_scope.

(** The first occurrence of each, in order. *)
Fixpoint distinct_from (seen l : list string) : list string :=
  match l with
  | [] => []
  | x :: l => if decide (x ∈ seen) then distinct_from seen l else x :: distinct_from (x :: seen) l
  end.
Definition distinct (l : list string) : list string := distinct_from [] l.

Lemma elem_of_distinct l x : x ∈ distinct l <-> x ∈ l.
Proof.
  unfold distinct. assert (forall seen, x ∈ distinct_from seen l <-> x ∈ l /\ x ∉ seen) as H.
  { induction l as [|y l IH]; intros seen; cbn; [set_solver|]. case_decide.
    - rewrite IH. set_solver.
    - rewrite !elem_of_cons, IH. destruct (decide (x = y)) as [->|]; set_solver. }
  rewrite H. set_solver.
Qed.

Section push.
  Context {K : Type} `{KubeAPI K} {I : Type}.
  Variable node_of : I -> string.
  Variable id_of : I -> ObjectID.
  Variable send : DecisionMakerPod -> list I -> SE fleet dm_fault unit.
  Variable mark : list ObjectID -> SE (repo K) repo_error unit.
  Variable range : list string -> list string.

(** The intents for each host, with the pod that listens there. *)
Definition dm_groups (dms : list DecisionMakerPod) (intents : list I) : gmap string (list (DecisionMakerPod * I)) :=
  group_by (fun p => dm_Host p.1)
    (concat ((fun dm => (fun i => (dm, i)) <$> filter (fun i => node_of i = dm_NodeID dm) intents) <$> dms)).

(** One host: the pod found last listens there. *)
Definition push_host (groups : gmap string (list (DecisionMakerPod * I))) (host : string) : SE (world K) mgr_error unit :=
  match groups !! host with
  | None => sret tt
  | Some ps =>
      match last ps with
      | None => sret tt
      | Some (dmPod, _) =>
          let! _ := on_fleet (send dmPod ps.*2) in
          on_repo (mark (id_of <$> ps.*2))
      end
  end.

Definition push_to_dms (dms : list DecisionMakerPod) (intents : list I) : SE (world K) mgr_error unit :=
  let groups := dm_groups dms intents in
  sfor (push_host groups) (range (map_to_list groups).*1).

End push.

Section service.
  Context {K : Type} `{KubeAPI K}.
  Variable ObjectIDFromHex : string -> option ObjectID.
  Variable crNamespace : string.
  Variable NewObjectID : nat -> ObjectID.
  Variable k8s : K8SAdapter.
  Variable range : list string -> list string.
  Variable now : Z.

Notation M := (SE (world K) mgr_error).

(** [GetBsonObjectUID] and [bson.ObjectIDFromHex] with their error. *)
Definition parse_id (s : string) : M ObjectID :=
  match ObjectIDFromHex s with None => sfail MInvalidID | Some id => sret id end.
Definition GetBsonObjectUID (c : Claims) : M ObjectID := parse_id (cl_UID c).

Definition not_found {A} : M A := sfail (MStatus 404).

(** The end of creation and update: find the decision makers of the nodes and send
    them the intents. *)
Definition send_intents (nodeIDs : list string) (intents : list ScheduleIntent) : M unit :=
  let! dms := on_k8s (QueryDecisionMakerPods k8s nodeIDs) in
  match dms with
  | [] => sret tt
  | _ => push_to_dms sc_NodeID sc_ID SendSchedulingIntent (fun ids => BatchUpdateIntentsState now ids IntentStateSent) range dms intents
  end.

Definition CreateScheduleStrategy (operator : Claims) (strategy : ScheduleStrategy) : M unit :=
  let! operatorID := GetBsonObjectUID operator in
  let! pods := on_k8s (QueryPods k8s (ss_K8sNamespace strategy) (ss_LabelSelectors strategy)) in
  match pods with
  | [] => not_found
  | _ =>
      let strategy := set_strategy_base (NewBaseEntity now operatorID operatorID) strategy in
      let intents := NewScheduleIntent now strategy <$> pods in
      let! r := on_repo (InsertStrategyAndIntents ObjectIDFromHex crNamespace NewObjectID now (Some strategy) (Some intents)) in
      let '(_, intents) := r in
      send_intents (distinct (pod_NodeID <$> pods)) intents
  end.

Definition ListScheduleStrategies (filterOpts : option QueryStrategyOptions) : M (list ScheduleStrategy) :=
  on_repo (QueryStrategies ObjectIDFromHex filterOpts).

Definition ListScheduleIntents (filterOpts : option QueryIntentOptions) : M (list ScheduleIntent) :=
  on_repo (QueryIntents ObjectIDFromHex filterOpts).

(** Every decision maker found for the nodes, whatever its state, is told to drop
    the pods; failures are logged. *)
Definition notify_deleted (nodeIDs podIDs : list string) : M unit :=
  match QueryDecisionMakerPods k8s nodeIDs with
  | None => sret tt
  | Some dmPods => sfor (fun dm => logged (on_fleet (DeleteSchedulingIntents dm (mkDeleteIntents podIDs false)))) dmPods
  end.

Definition UpdateScheduleStrategy (operator : Claims) (strategyID : string) (strategy : ScheduleStrategy) : M unit :=
  let! strategyObjID := parse_id strategyID in
  let! operatorID := GetBsonObjectUID operator in
  let! found := on_repo (QueryStrategies ObjectIDFromHex (Some (mkQueryStrategy [strategyObjID] [] [operatorID]))) in
  match found with
  | [] => not_found
  | currentStrategy :: _ =>
      let! pods := on_k8s (QueryPods k8s (ss_K8sNamespace strategy) (ss_LabelSelectors strategy)) in
      match pods with
      | [] => not_found
      | _ =>
          let! oldIntents := on_repo (QueryIntents ObjectIDFromHex (Some (mkQueryIntent [] [] [strategyObjID] [] [] []))) in
          let strategy := set_strategy_base
            (mkBase strategyObjID (be_CreatedTime (ss_Base currentStrategy)) now (be_DeletedTime (ss_Base strategy))
               (ss_CreatorID currentStrategy) operatorID) strategy in
          let! _ := on_repo (UpdateStrategy crNamespace (Some strategy)) in
          let! _ := on_repo (DeleteIntentsByStrategyID strategyObjID) in
          let! intents := on_repo (InsertIntents crNamespace NewObjectID now (NewScheduleIntent now strategy <$> pods)) in
          let! _ := match oldIntents with
                    | [] => sret tt
                    | _ => notify_deleted (range (distinct (sc_NodeID <$> oldIntents))) (range (distinct (sc_PodID <$> oldIntents)))
                    end in
          send_intents (distinct (pod_NodeID <$> pods)) intents
      end
  end.

Definition DeleteScheduleStrategy (operator : Claims) (strategyID : string) : M unit :=
  let! strategyObjID := parse_id strategyID in
  let! operatorID := GetBsonObjectUID operator in
  let! found := on_repo (QueryStrategies ObjectIDFromHex (Some (mkQueryStrategy [strategyObjID] [] [operatorID]))) in
  match found with
  | [] => not_found
  | _ =>
      let! intents := on_repo (QueryIntents ObjectIDFromHex (Some (mkQueryIntent [] [] [strategyObjID] [] [] []))) in
      let! _ := on_repo (DeleteIntentsByStrategyID strategyObjID) in
      let! _ := on_repo (DeleteStrategy strategyObjID) in
      match intents with
      | [] => sret tt
      | _ => notify_deleted (range (distinct (sc_NodeID <$> intents))) (range (distinct (sc_PodID <$> intents)))
      end
  end.

(** The identifiers of a request, up to the first that does not parse. *)
Fixpoint parse_ids (ids : list string) : M (list ObjectID) :=
  match ids with
  | [] => sret []
  | id :: rest =>
      let! objID := parse_id id in
      let! rest := parse_ids rest in
      sret (objID :: rest)
  end.

Definition DeleteScheduleIntents (operator : Claims) (intentIDs : list string) : M unit :=
  match intentIDs with
  | [] => sret tt
  | _ =>
      let! operatorID := GetBsonObjectUID operator in
      let! intentObjIDs := parse_ids intentIDs in
      let! found := on_repo (QueryIntents ObjectIDFromHex (Some (mkQueryIntent intentObjIDs [] [] [] [] [operatorID]))) in
      match found with
      | [] => not_found
      | _ =>
          if decide (Exists (fun i => sc_CreatorID i <> operatorID) found) then not_found else
          let matchedCount := length (filter (fun i => sc_ID i ∈ intentObjIDs) found) in
          if decide (matchedCount <> length intentObjIDs) then not_found else
          let! _ := on_repo (DeleteIntents intentObjIDs) in
          notify_deleted (range (distinct (sc_NodeID <$> found))) (range (distinct (sc_PodID <$> found)))
      end
  end.

End service.

(** ** Lemmas *)

(** Nothing was changed and nobody was called. *)
Definition untouched {K} `{KubeAPI K} (w w' : world K) : Prop :=
  w_fleet w' = w_fleet w /\ unchanged (r_kube (w_repo w)) (r_kube (w_repo w')).

Lemma untouched_refl {K} `{KubeAPI K} (w : world K) : untouched w w.
Proof. by split. Qed.

Lemma untouched_trans {K} `{KubeAPI K} (w1 w2 w3 : world K) : untouched w1 w2 -> untouched w2 w3 -> untouched w1 w3.
Proof. intros [H1 H2] [H3 H4]. split; [congruence|]. by eapply unchanged_trans. Qed.

Lemma on_repo_run {K A} (m : SE (repo K) repo_error A) (w : world K) :
  on_repo m w = let '(r, res) := m (w_repo w) in (mkWorld (w_fleet w) r, match res with Ok a => Ok a | Err e => Err (MRepo e) end).
Proof. unfold on_repo. by destruct (m (w_repo w)) as [r []]. Qed.

Section owners.
  Context {K : Type} {KA : KubeAPI K} {KL : KubeLaws K}.
  Variable ObjectIDFromHex : string -> option ObjectID.
  Variable crNamespace : string.

Notation wf w := (repo_wf ObjectIDFromHex crNamespace (r_kube (w_repo w))).

(** Parsing touches nothing. *)
Lemma parse_id_run s (w : world K) :
  parse_id ObjectIDFromHex s w = match ObjectIDFromHex s with Some id => (w, Ok id) | None => (w, Err MInvalidID) end.
Proof. unfold parse_id. by destruct (ObjectIDFromHex s). Qed.

Lemma parse_ids_run ids (w : world K) :
  exists r, parse_ids ObjectIDFromHex ids w = (w, r) /\
    match r with
    | Ok objs => Forall2 (fun id o => ObjectIDFromHex id = Some o) ids objs
    | Err _ => exists id, id ∈ ids /\ ObjectIDFromHex id = None
    end.
Proof.
  induction ids as [|id ids IH]; cbn [parse_ids]; [eexists; split; [reflexivity|constructor]|].
  unfold sbind. rewrite parse_id_run. destruct (ObjectIDFromHex id) as [o|] eqn:E.
  - destruct IH as (r & -> & Hr). destruct r as [objs|e]; (eexists; split; [reflexivity|]); [by constructor|set_solver].
  - eexists. split; [reflexivity|]. exists id. set_solver.
Qed.

Lemma owner_filter s sid uid : matchesStrategyFilter s (mkQueryStrategy [sid] [] [uid]) = true <-> ss_CreatorID s = uid.
Proof.
  unfold matchesStrategyFilter. cbn. rewrite !andb_true_r, orb_false_r. apply String.eqb_eq.
Qed.

(** The strategies found for an operator are its own. *)
Lemma query_owned sid uid (w : world K) :
  wf w ->
  let '(w', res) := on_repo (QueryStrategies ObjectIDFromHex (Some (mkQueryStrategy [sid] [] [uid]))) w in
  untouched w w' /\
  match res with
  | Ok l => forall s, s ∈ l <-> holds_strategy ObjectIDFromHex crNamespace (r_kube (w_repo w)) s /\ ss_ID s = sid /\ ss_CreatorID s = uid
  | Err _ => True
  end.
Proof.
  intros Hw. rewrite on_repo_run. pose proof (query_strategies_spec ObjectIDFromHex crNamespace (mkQueryStrategy [sid] [] [uid]) (w_repo w) Hw) as Q.
  destruct (QueryStrategies _ _ _) as [r [l|e]]; destruct Q as [Hu Q]; (split; [by split|]); [|done].
  intros s. rewrite Q, owner_filter. unfold named. cbn [qs_IDs]. rewrite list_elem_of_singleton. naive_solver.
Qed.

Lemma intent_owner_filter i ids uid : matchesIntentFilter i (mkQueryIntent ids [] [] [] [] [uid]) = true <-> sc_CreatorID i = uid.
Proof. unfold matchesIntentFilter. cbn. rewrite !andb_true_r, orb_false_r. apply String.eqb_eq. Qed.

(** The check of [DeleteScheduleIntents]: it passes only if every intent asked for
    is there and was created by the operator. *)
Lemma intents_check objs uid (r r' : repo K) found :
  repo_wf ObjectIDFromHex crNamespace (r_kube r) -> objs <> [] ->
  QueryIntents ObjectIDFromHex (Some (mkQueryIntent objs [] [] [] [] [uid])) r = (r', Ok found) ->
  length (filter (fun i => sc_ID i ∈ objs) found) = length objs ->
  forall o, o ∈ objs -> exists i, holds_intent ObjectIDFromHex crNamespace (r_kube r) i /\ sc_ID i = o /\ sc_CreatorID i = uid.
Proof.
  intros [Hi _] Hne Hq Hl. unfold QueryIntents, query_objects in Hq. cbn [qi_IDs] in Hq. destruct objs as [|o0 objs]; [done|].
  destruct (fetches_exact (RA := intent_resource ObjectIDFromHex crNamespace) _ _ r r' found Hi Hq) as (ll & Hf & ->).
  destruct (fetched_all _ _ _ _ Hf) as [H1 H2].
  pose proof (length_filter (fun i => sc_ID i ∈ o0 :: objs) (concat ll)) as H3.
  intros o Ho. destruct (H2 ltac:(lia) o Ho) as (i & Hh & Hn & Hk). exists i. split; [exact Hh|]. split; [exact Hn|].
  by apply intent_owner_filter in Hk.
Qed.

End owners.

(** *** Telling the decision makers does not touch the repository *)

Lemma on_fleet_repo {K A} (m : SE fleet dm_fault A) (w : world K) : w_repo (on_fleet m w).1 = w_repo w.
Proof. unfold on_fleet. by destruct (m (w_fleet w)) as [f []]. Qed.

(** The decision makers are told without touching the repository. *)
Lemma logged_fleet_repo {K A} (m : SE fleet dm_fault A) (w : world K) :
  exists f, logged (on_fleet m) w = (mkWorld f (w_repo w), Ok tt).
Proof. unfold logged. pose proof (on_fleet_repo m w) as Hr. destruct (on_fleet m w) as [[f r] res]. cbn in *. subst r. by exists f. Qed.

Lemma sfor_fleet_only {K A} (g : A -> SE (world K) mgr_error unit) l :
  (forall x w, exists f, g x w = (mkWorld f (w_repo w), Ok tt)) -> forall w, exists f, sfor g l w = (mkWorld f (w_repo w), Ok tt).
Proof.
  intros Hg. induction l as [|x l IH]; intros w; [by exists (w_fleet w); destruct w|]. cbn [sfor]. unfold sbind.
  destruct (Hg x w) as [f1 ->]. destruct (IH (mkWorld f1 (w_repo w))) as [f ->]. by exists f.
Qed.

Lemma notify_deleted_repo {K} (k8s : K8SAdapter) nodeIDs podIDs (w : world K) :
  exists f, notify_deleted k8s nodeIDs podIDs w = (mkWorld f (w_repo w), Ok tt).
Proof.
  unfold notify_deleted. destruct (QueryDecisionMakerPods k8s nodeIDs) as [dms|]; [|by exists (w_fleet w); destruct w].
  apply sfor_fleet_only. intros dm w1. apply logged_fleet_repo.
Qed.

Lemma notify_stale_repo {K} (k8s : K8SAdapter) nodeIDs podIDs (w : world K) :
  exists f, notifyDMsDeleteIntents k8s nodeIDs podIDs w = (mkWorld f (w_repo w), Ok tt).
Proof.
  unfold notifyDMsDeleteIntents. destruct nodeIDs as [|n ns]; [by exists (w_fleet w); destruct w|].
  destruct podIDs as [|p ps]; [by exists (w_fleet w); destruct w|].
  destruct (QueryDecisionMakerPods k8s _) as [dms|]; [|by exists (w_fleet w); destruct w].
  apply sfor_fleet_only. intros dm w1. case_decide; [by exists (w_fleet w1); destruct w1|]. apply logged_fleet_repo.
Qed.

(** *** What a push does to the decision makers *)

(** Sending intents to a decision maker leaves its cache alone or replaces it, and
    concerns no other. *)
Lemma send_effect dm l (f f' : fleet) res a s' :
  SendSchedulingIntent dm l f = (f', res) -> fl_dms f' !! a = Some s' ->
  fl_dms f !! a = Some s' \/ intentCache s' = Some <$> (payload <$> l).
Proof.
  unfold SendSchedulingIntent, sbind, call. destruct (default CallOk (head (fl_fates f))) eqn:Hfate.
  3: { intros [= <- <-]. by left. }
  all: destruct (fl_dms f !! dm_addr dm) as [s|] eqn:Hs; [|intros [= <- <-]; by left].
  all: cbn [serve]; unfold HandleIntents, ProcessIntents; destruct (GetAllPodInfos _) as [infos|e].
  all: try (intros [= <- <-]; cbn; intros [[<- <-]|[_ ?]]%lookup_insert_Some; by auto).
  all: unfold normalizeIntentInputs; rewrite non_nil_fmap_Some; unfold resolveSchedulingIntents;
    destruct (foldl _ _ (payload <$> l)) as [m all]; intros [= <- <-]; cbn;
    intros [[<- <-]|[_ ?]]%lookup_insert_Some; by auto.
Qed.

Section pushes.
  Context {K : Type} `{KubeAPI K}.
  Variable range : list string -> list string.
  Variable now : Z.

Notation push := (push_to_dms sc_NodeID sc_ID SendSchedulingIntent (fun ids => BatchUpdateIntentsState now ids IntentStateSent) range).

Lemma groups_members dms (intents : list ScheduleIntent) host ps :
  dm_groups sc_NodeID dms intents !! host = Some ps -> Forall (fun i => i ∈ intents) ps.*2.
Proof.
  intros Hg. destruct (group_by_lookup (fun p : DecisionMakerPod * ScheduleIntent => dm_Host p.1)
    (concat ((fun dm => (fun i => (dm, i)) <$> filter (fun i => sc_NodeID i = dm_NodeID dm) intents) <$> dms)) host) as [Hl _].
  unfold dm_groups in Hg. rewrite Hg in Hl. cbn in Hl. subst ps. apply Forall_fmap, Forall_filter_keep, Forall_forall.
  intros p Hp. apply elem_of_concat in Hp as (l & Hl & Hp). apply list_elem_of_fmap in Hl as (dm & -> & _).
  apply list_elem_of_fmap in Hp as (i & -> & Hi). cbn. by apply list_elem_of_filter in Hi as [_ ?].
Qed.

(** Afterwards a decision maker is as it was or holds intents of this push only. *)
Lemma push_effect dms intents (w w' : world K) res a s' :
  push dms intents w = (w', res) -> fl_dms (w_fleet w') !! a = Some s' ->
  fl_dms (w_fleet w) !! a = Some s' \/
  exists l, Forall (fun i => i ∈ intents) l /\ intentCache s' = Some <$> (payload <$> l).
Proof.
  unfold push_to_dms. set (hosts := range _). clearbody hosts. revert w.
  induction hosts as [|host hosts IH]; intros w; cbn [sfor]; [intros [= <- <-]; by left|]. unfold sbind.
  destruct (push_host _ _ _ _ host w) as [w1 r1] eqn:E1. intros E2 Hs.
  assert (forall s1, fl_dms (w_fleet w1) !! a = Some s1 -> fl_dms (w_fleet w) !! a = Some s1 \/
    exists l, Forall (fun i => i ∈ intents) l /\ intentCache s1 = Some <$> (payload <$> l)) as H1.
  { unfold push_host in E1. destruct (dm_groups _ _ _ !! host) as [ps|] eqn:Hg; [|injection E1 as <- <-; by left].
    destruct (last ps) as [[dm i]|]; [|injection E1 as <- <-; by left]. unfold sbind in E1.
    destruct (SendSchedulingIntent dm ps.*2 (w_fleet w)) as [f1 r] eqn:Es.
    assert (w_fleet w1 = f1) as ->.
    { unfold on_fleet in E1. rewrite Es in E1. destruct r; [|by injection E1 as <- <-].
      rewrite on_repo_run in E1. destruct (BatchUpdateIntentsState _ _ _ _) as [? []]; by injection E1 as <- <-. }
    intros s1 Hs1. destruct (send_effect _ _ _ _ _ _ _ Es Hs1) as [?|Hc]; [by left|right].
    exists ps.*2. split; [by eapply groups_members|done]. }
  destruct r1 as [[]|e]; [|injection E2 as <- <-; by apply H1].
  destruct (IH w1 E2 Hs) as [Ha|?]; [by apply H1|by right].
Qed.

End pushes.

(** ** Properties *)

(** C22 (only the creator changes a strategy).  When no stored strategy with the
    given identifier was created by the operator, updating and deleting fail, the
    store is as it was and no decision maker is called. *)
Theorem strategies_owner_only {K} `{KubeLaws K} ObjectIDFromHex crNamespace NewObjectID k8s range now
    (operator : Claims) (strategyID : string) (strategy : ScheduleStrategy) (w : world K) :
  repo_wf ObjectIDFromHex crNamespace (r_kube (w_repo w)) ->
  (forall s, holds_strategy ObjectIDFromHex crNamespace (r_kube (w_repo w)) s ->
     ObjectIDFromHex strategyID = Some (ss_ID s) -> ObjectIDFromHex (cl_UID operator) <> Some (ss_CreatorID s)) ->
  (let '(w', res) := UpdateScheduleStrategy ObjectIDFromHex crNamespace NewObjectID k8s range now operator strategyID strategy w in
   untouched w w' /\ is_ok res = false) /\
  (let '(w', res) := DeleteScheduleStrategy ObjectIDFromHex k8s range operator strategyID w in
   untouched w w' /\ is_ok res = false).
Proof.
  intros Hw Hno. unfold UpdateScheduleStrategy, DeleteScheduleStrategy, GetBsonObjectUID, sbind. rewrite !parse_id_run.
  destruct (ObjectIDFromHex strategyID) as [sid|]; [|split; by (split; [apply untouched_refl|])].
  rewrite !parse_id_run.
  destruct (ObjectIDFromHex (cl_UID operator)) as [uid|]; [|split; by (split; [apply untouched_refl|])].
  pose proof (query_owned ObjectIDFromHex crNamespace sid uid w Hw) as Q.
  destruct (on_repo _ w) as [w1 [l|e]]; destruct Q as [Hu Q]; [|by split].
  destruct l as [|s l]; [by split|]. destruct (proj1 (Q s) ltac:(set_solver)) as (Hs & Hid & Hc). subst sid uid.
  by destruct (Hno s Hs eq_refl).
Qed.

(** C23 (deleting a strategy).  A deletion that succeeds was asked by the creator
    and removes the strategy and exactly the intents derived from it: every other
    intent, strategy and object is as before. *)
Theorem delete_strategy_exact {K} `{KubeLaws K} ObjectIDFromHex crNamespace k8s range
    (operator : Claims) (strategyID : string) (w w' : world K) :
  repo_wf ObjectIDFromHex crNamespace (r_kube (w_repo w)) ->
  DeleteScheduleStrategy ObjectIDFromHex k8s range operator strategyID w = (w', Ok tt) ->
  exists s, holds_strategy ObjectIDFromHex crNamespace (r_kube (w_repo w)) s /\
    ObjectIDFromHex strategyID = Some (ss_ID s) /\ ObjectIDFromHex (cl_UID operator) = Some (ss_CreatorID s) /\
    kube_objects (r_kube (w_repo w')) strategyGVR = delete (ss_ID s) (kube_objects (r_kube (w_repo w)) strategyGVR) /\
    (forall i, holds_intent ObjectIDFromHex crNamespace (r_kube (w_repo w')) i <->
       holds_intent ObjectIDFromHex crNamespace (r_kube (w_repo w)) i /\ sc_StrategyID i <> ss_ID s) /\
    (forall g, g <> strategyGVR -> g <> intentGVR -> kube_objects (r_kube (w_repo w')) g = kube_objects (r_kube (w_repo w)) g).
Proof.
  intros Hw. unfold DeleteScheduleStrategy, GetBsonObjectUID, sbind. rewrite !parse_id_run.
  destruct (ObjectIDFromHex strategyID) as [sid|]; [|done]. rewrite !parse_id_run.
  destruct (ObjectIDFromHex (cl_UID operator)) as [uid|]; [|done].
  pose proof (query_owned ObjectIDFromHex crNamespace sid uid w Hw) as Q.
  destruct (on_repo _ w) as [w1 [l|e]]; destruct Q as [[_ Hu1] Q]; [|done].
  destruct l as [|s l]; [done|]. destruct (proj1 (Q s) ltac:(set_solver)) as (Hs & <- & <-). clear Q l.
  assert (repo_wf ObjectIDFromHex crNamespace (r_kube (w_repo w1))) as Hw1
    by (eapply wf_subset; [intros g m; right; by rewrite Hu1|done]).
  rewrite on_repo_run. pose proof (query_intents_spec ObjectIDFromHex crNamespace (mkQueryIntent [] [] [ss_ID s] [] [] []) (w_repo w1) Hw1) as Q.
  destruct (QueryIntents _ _ _) as [r2 [intents|e]]; destruct Q as [Hu2 _]; [|done].
  rewrite on_repo_run. cbn [w_repo w_fleet].
  assert (repo_wf ObjectIDFromHex crNamespace (r_kube r2)) as Hw2
    by (eapply wf_subset; [intros g m; right; by rewrite Hu2|done]).
  pose proof (delete_by_strategy_spec ObjectIDFromHex crNamespace (ss_ID s) r2 Hw2) as D.
  destruct (DeleteIntentsByStrategyID _ r2) as [r3 [[]|e]]; [|done]. destruct D as (D1 & _ & D2 & D3 & D4).
  rewrite on_repo_run. cbn [w_repo w_fleet]. pose proof (delete_object_spec strategyGVR (ss_ID s) r3) as E.
  unfold DeleteStrategy. destruct (delete_object _ _ r3) as [r4 [[]|e]]; [|done]. destruct E as [E1 E2].
  assert (forall f, mkWorld f r4 = w' -> w_repo w' = r4) as Hrepo by (by intros f <-).
  intros Hend. assert (w_repo w' = r4) as ->.
  { destruct intents as [|i is_]; [by injection Hend as <-|].
    match type of Hend with notify_deleted ?k ?a ?b ?v = _ => destruct (notify_deleted_repo k a b v) as [f Hf] end.
    rewrite Hf in Hend. by injection Hend as <-. }
  assert (forall g m, kube_objects (r_kube r2) g !! m = kube_objects (r_kube (w_repo w)) g !! m) as Hr2 by (intros; by rewrite Hu2, Hu1).
  exists s. split_and!; [done..| | |].
  - apply map_eq. intros m. destruct (decide (m = ss_ID s)) as [->|Hm]; [by rewrite E2, lookup_delete_eq|].
    rewrite lookup_delete_ne, E1, D1, Hr2 by congruence. done.
  - assert (forall i, holds_intent ObjectIDFromHex crNamespace (r_kube r4) i <-> holds_intent ObjectIDFromHex crNamespace (r_kube r3) i) as H43
      by (intros i; unfold holds_intent, holds; cbn [res_gvr intent_resource]; rewrite E1 by done; done).
    assert (forall i, holds_intent ObjectIDFromHex crNamespace (r_kube r2) i <-> holds_intent ObjectIDFromHex crNamespace (r_kube (w_repo w)) i) as H20
      by (intros i; unfold holds_intent, holds; cbn [res_gvr intent_resource]; rewrite Hr2; done).
    intros i. rewrite H43, <- H20. split; [auto|]. intros [Hi Hn]. by apply D3.
  - intros g H1 H2. apply map_eq. intros m. rewrite E1, D1, Hr2 by congruence. done.
Qed.

(** Remark (only the creator deletes intents).  Deleting intents by identifier touches
    nothing unless every one of them is a stored intent that the operator created;
    even then nothing but those intents can disappear, and when it succeeds they
    all have. *)
Theorem intents_owner_only {K} `{KubeLaws K} ObjectIDFromHex crNamespace k8s range
    (operator : Claims) (intentIDs : list string) (w : world K) :
  repo_wf ObjectIDFromHex crNamespace (r_kube (w_repo w)) ->
  let '(w', res) := DeleteScheduleIntents ObjectIDFromHex k8s range operator intentIDs w in
  untouched w w' /\ (intentIDs <> [] -> is_ok res = false) \/
  exists uid objs, ObjectIDFromHex (cl_UID operator) = Some uid /\
    Forall2 (fun id o => ObjectIDFromHex id = Some o) intentIDs objs /\
    (forall o, o ∈ objs -> exists i, holds_intent ObjectIDFromHex crNamespace (r_kube (w_repo w)) i /\ sc_ID i = o /\ sc_CreatorID i = uid) /\
    (forall g m, g <> intentGVR \/ m ∉ objs ->
       kube_objects (r_kube (w_repo w')) g !! m = kube_objects (r_kube (w_repo w)) g !! m) /\
    (is_ok res = true -> forall o, o ∈ objs -> kube_objects (r_kube (w_repo w')) intentGVR !! o = None).
Proof.
  intros Hw. unfold DeleteScheduleIntents. destruct intentIDs as [|id0 ids]; [left; split; [apply untouched_refl|done]|].
  set (intentIDs := id0 :: ids). unfold sbind, GetBsonObjectUID. rewrite parse_id_run.
  destruct (ObjectIDFromHex (cl_UID operator)) as [uid|]; [|left; split; [apply untouched_refl|done]].
  destruct (parse_ids_run ObjectIDFromHex intentIDs w) as (rp & -> & Hp).
  destruct rp as [objs|e]; [|left; split; [apply untouched_refl|done]].
  assert (objs <> []) as Hne by (subst intentIDs; by inversion Hp).
  rewrite on_repo_run.
  pose proof (query_intents_spec ObjectIDFromHex crNamespace (mkQueryIntent objs [] [] [] [] [uid]) (w_repo w) Hw) as Q.
  destruct (QueryIntents _ _ _) as [r1 [found|e]] eqn:Eq; destruct Q as [Hu _]; [|left; by repeat split].
  assert (untouched w (mkWorld (w_fleet w) r1)) as Hun by (by split).
  destruct found as [|i0 rest] eqn:Ef; [by left|]. rewrite <- Ef in *. clear Ef i0 rest.
  case_decide; [by left|]. case_decide as Hm; [by left|].
  pose proof (intents_check ObjectIDFromHex crNamespace objs uid (w_repo w) r1 found Hw Hne Eq Hm) as Hown.
  rewrite on_repo_run. cbn [w_repo w_fleet]. unfold DeleteIntents.
  pose proof (delete_names_spec intentGVR objs r1) as D. destruct (sfor _ objs r1) as [r2 [[]|e]]; destruct D as [D1 D3].
  - match goal with |- context [notify_deleted ?k ?a ?b ?v] => destruct (notify_deleted_repo k a b v) as [f ->] end. cbn [w_repo].
    right. exists uid, objs. split_and!; [done..| |done]. intros g m Hm'. rewrite D1 by done. by rewrite Hu.
  - right. exists uid, objs. cbn [w_repo]. split_and!; [done..| |done]. intros g m Hm'. rewrite D1 by done. by rewrite Hu.
Qed.

(** Remark (a new strategy displaces the others).  Whatever happens during the creation
    of a strategy, a decision maker is afterwards either as it was before or holds
    intents of the new strategy only: those of other strategies for pods on its
    node are gone from it until the next reconciliation. *)
Theorem new_strategy_displaces {K} `{KubeLaws K} ObjectIDFromHex crNamespace NewObjectID k8s range now
    (operator : Claims) (strategy : ScheduleStrategy) (w w' : world K) res addr s' :
  (forall n, valid_id ObjectIDFromHex (NewObjectID n)) ->
  CreateScheduleStrategy ObjectIDFromHex crNamespace NewObjectID k8s range now operator strategy w = (w', res) ->
  fl_dms (w_fleet w') !! addr = Some s' ->
  fl_dms (w_fleet w) !! addr = Some s' \/
  exists pods, QueryPods k8s (ss_K8sNamespace strategy) (ss_LabelSelectors strategy) = Some pods /\
    Forall (fun o => exists i pod, o = Some i /\ pod ∈ pods /\ PodID i = pod_PodID pod /\ NodeID i = pod_NodeID pod /\
      CommandRegex i = ss_CommandRegex strategy /\ Priority i = ss_Priority strategy) (intentCache s').
Proof.
  intros Hids. unfold CreateScheduleStrategy, GetBsonObjectUID, sbind. rewrite parse_id_run.
  destruct (ObjectIDFromHex (cl_UID operator)) as [uid|]; [|intros [= <- <-]; by left]. unfold on_k8s.
  destruct (QueryPods _ _ _) as [pods|] eqn:Hp; [|intros [= <- <-]; by left].
  destruct pods as [|p0 pods0] eqn:Ep; [intros [= <- <-]; by left|]. rewrite <- Ep in *. clear Ep p0 pods0.
  rewrite on_repo_run. set (st := set_strategy_base _ strategy). set (new := NewScheduleIntent now st <$> pods).
  pose proof (insert_strategy_spec ObjectIDFromHex crNamespace NewObjectID now st new (w_repo w) Hids (or_introl eq_refl)) as I.
  destruct (InsertStrategyAndIntents _ _ _ _ _ _ _) as [r1 [[st' intents]|e]]; [|intros [= <- <-]; by left].
  destruct I as (_ & Hf & _). unfold send_intents, sbind, on_k8s.
  destruct (QueryDecisionMakerPods _ _) as [dms|]; [|intros [= <- <-]; by left].
  destruct dms as [|d0 dms0] eqn:Ed; [intros [= <- <-]; by left|]. rewrite <- Ed in *. clear Ed d0 dms0.
  intros Hpush Hs. destruct (push_effect range now dms intents _ _ _ _ _ Hpush Hs) as [?|(l & Hl & Hc)]; [by left|right].
  exists pods. split; [done|]. rewrite Hc. apply Forall_fmap, Forall_fmap. eapply Forall_impl; [exact Hl|]. cbn. intros i Hi.
  apply list_elem_of_lookup in Hi as [n Hi]. destruct (Forall2_lookup_r _ _ _ _ _ Hf Hi) as (i0 & Hi0 & id & ->).
  apply list_elem_of_lookup_2 in Hi0. apply list_elem_of_fmap in Hi0 as (pod & -> & Hpod). by exists (payload (stamp_intent now id (ss_ID st') (NewScheduleIntent now st pod))), pod.
Qed.

(** ** Concrete inputs *)

Lemma list_store_held {A} (RA : Resource A) (k : map_kube) (l : list A) :
  mk_objects k res_gvr = list_to_map ((fun a => (res_name a, res_enc a)) <$> l) -> NoDup (res_name <$> l) ->
  Forall res_valid l -> all_held (RA := RA) k /\ Forall (holds (RA := RA) k) l.
Proof.
  intros Hk Hnd Hv. assert (forall a, a ∈ l -> holds (RA := RA) k a) as Hh.
  { intros a Ha. split; [by eapply Forall_forall in Hv|]. change ((content_of <$> mk_objects k res_gvr) !! res_name a = Some (content_of (res_enc a))).
    rewrite lookup_fmap, Hk, (elem_of_list_to_map_1 _ _ (res_enc a)); [done| |].
    - by rewrite <- list_fmap_compose.
    - apply list_elem_of_fmap. by exists a. }
  split; [|by apply Forall_forall].
  intros n c Hc. change ((content_of <$> mk_objects k res_gvr) !! n = Some c) in Hc. rewrite lookup_fmap_Some, Hk in Hc.
  destruct Hc as (o & <- & Ho). apply elem_of_list_to_map_2 in Ho. apply list_elem_of_fmap in Ho as (a & [= -> ->] & Ha).
  exists a. auto.
Qed.

(** A store with two strategies of one user and an intent of each. *)
Definition stored_strategy (n : nat) : ScheduleStrategy := stamp_strategy 9 (sample_new_id n) sample_strategy.
Definition stored_intents : list ScheduleIntent := [sample_intent_of 0 "p1" "n1"; sample_intent_of 1 "p2" "n1"].

Definition svc_store : map_kube :=
  mkMapKube (fun g => match g with
    | intentGVR => list_to_map ((fun i => (sc_ID i, domainIntentToUnstructured "gthulhu" i)) <$> stored_intents)
    | strategyGVR => list_to_map ((fun s => (ss_ID s, domainStrategyToUnstructured "gthulhu" s)) <$> [stored_strategy 0; stored_strategy 1])
    | _ => ∅
    end) [].

Lemma svc_store_wf : repo_wf sample_parse "gthulhu" svc_store /\ holds_strategy sample_parse "gthulhu" svc_store (stored_strategy 0) /\
  holds_intent sample_parse "gthulhu" svc_store (sample_intent_of 0 "p1" "n1").
Proof.
  destruct (list_store_held (intent_resource sample_parse "gthulhu") svc_store stored_intents) as [H1 H2].
  { reflexivity. }
  { apply (bool_decide_eq_true_1 _). vm_compute. reflexivity. }
  { repeat constructor; apply sample_intent_valid. }
  destruct (list_store_held (strategy_resource sample_parse "gthulhu") svc_store [stored_strategy 0; stored_strategy 1]) as [H3 H4].
  { reflexivity. }
  { apply (bool_decide_eq_true_1 _). vm_compute. reflexivity. }
  { repeat constructor; apply sample_new_id_valid || apply sample_user_valid. }
  split; [by split|]. split; [by inversion H4|by inversion H2].
Qed.

Definition other_user : ObjectID := "64b000000000000000000002".

(** Decision makers that hold an intent of the second strategy. *)
Definition svc_world : world map_kube :=
  mkWorld (sample_fleet {[dm_addr (sample_dm "n1" "10.0.0.1") :=
      (ProcessIntents (substring_env sample_procfs) [Some (payload (sample_intent_of 1 "p2" "n1"))] NewService).1]})
    (mkRepo svc_store 2).

(** One pod to match, one decision maker. *)
Definition sample_k8s : K8SAdapter :=
  mkK8S (fun _ _ => Some [sample_pod "p1" "n1"]) (fun _ => Some [sample_dm "n1" "10.0.0.1"]) (fun _ _ => Some []) (fun _ => Some []).

Lemma strategies_owner_only_witness :
  untouched svc_world (DeleteScheduleStrategy sample_parse sample_k8s id (mkClaims other_user) (sample_new_id 0) svc_world).1.
Proof.
  destruct svc_store_wf as (Hw & Hs & _).
  pose proof (strategies_owner_only sample_parse "gthulhu" sample_new_id sample_k8s id 9 (mkClaims other_user) (sample_new_id 0)
    sample_strategy svc_world Hw) as P.
  destruct P as [_ P].
  - intros s Hh Hid. assert (s = stored_strategy 0) as ->.
    { apply (holds_inj (RA := strategy_resource sample_parse "gthulhu") svc_store); [exact Hh|exact Hs|].
      vm_compute in Hid. injection Hid as Hid. symmetry. exact Hid. }
    intros E. vm_compute in E. discriminate.
  - destruct (DeleteScheduleStrategy _ _ _ _ _ svc_world) as [w' r]. exact (proj1 P).
Defined.

Lemma delete_strategy_exact_witness :
  exists w', DeleteScheduleStrategy sample_parse sample_k8s id (mkClaims sample_user) (sample_new_id 0) svc_world = (w', Ok tt) /\
    ~ holds_intent sample_parse "gthulhu" (r_kube (w_repo w')) (sample_intent_of 0 "p1" "n1").
Proof.
  destruct svc_store_wf as (Hw & Hs & _).
  destruct (DeleteScheduleStrategy sample_parse sample_k8s id (mkClaims sample_user) (sample_new_id 0) svc_world) as [w' r] eqn:E.
  assert (r = Ok tt) as -> by (change r with (w', r).2; rewrite <- E; vm_compute; reflexivity).
  exists w'. split; [reflexivity|].
  destruct (delete_strategy_exact sample_parse "gthulhu" sample_k8s id (mkClaims sample_user) (sample_new_id 0) svc_world w' Hw E)
    as (s & _ & Hid & _ & _ & Hi & _).
  rewrite Hi. intros [_ Hne]. apply Hne. vm_compute in Hid. injection Hid as Hid. exact Hid.
Defined.

Lemma intents_owner_only_witness :
  untouched svc_world (DeleteScheduleIntents sample_parse sample_k8s id (mkClaims other_user) [sample_new_id 5] svc_world).1.
Proof.
  destruct svc_store_wf as (Hw & _ & Hi).
  pose proof (intents_owner_only sample_parse "gthulhu" sample_k8s id (mkClaims other_user) [sample_new_id 5] svc_world Hw) as P.
  destruct (DeleteScheduleIntents _ _ _ _ _ svc_world) as [w' r]. destruct P as [[P _]|(uid & objs & Hu & Hf & Ho & _)]; [exact P|].
  exfalso. inversion Hf as [|? o ? ? Hid Hnil]; subst. inversion Hnil; subst. destruct (Ho o ltac:(set_solver)) as (i & Hh & Hn & Hc).
  assert (i = sample_intent_of 0 "p1" "n1") as ->.
  { apply (holds_inj (RA := intent_resource sample_parse "gthulhu") svc_store); [exact Hh|exact Hi|].
    vm_compute in Hid. injection Hid as <-. exact Hn. }
  subst uid. vm_compute in Hu. discriminate.
Defined.

(** The decision maker of [n1] held an intent for [p2]; now it only has that of the
    new strategy for [p1]. *)
Lemma new_strategy_displaces_witness :
  exists s', fl_dms (w_fleet (CreateScheduleStrategy sample_parse "gthulhu" sample_new_id sample_k8s id 9 (mkClaims sample_user) sample_strategy svc_world).1)
      !! dm_addr (sample_dm "n1" "10.0.0.1") = Some s' /\
    Forall (fun o => exists i pod, o = Some i /\ pod ∈ [sample_pod "p1" "n1"] /\ PodID i = pod_PodID pod /\ NodeID i = pod_NodeID pod /\
      CommandRegex i = "nginx" /\ Priority i = 3%Z) (intentCache s').
Proof.
  destruct (CreateScheduleStrategy _ _ _ _ _ _ _ _ svc_world) as [w' r] eqn:E.
  assert (exists s', fl_dms (w_fleet w') !! dm_addr (sample_dm "n1" "10.0.0.1") = Some s' /\
    fl_dms (w_fleet svc_world) !! dm_addr (sample_dm "n1" "10.0.0.1") <> Some s') as (s' & Hs & Hne).
  { change w' with (w', r).1. rewrite <- E. eexists. split; [vm_compute; reflexivity|]. vm_compute. discriminate. }
  exists s'. split; [exact Hs|].
  destruct (new_strategy_displaces sample_parse "gthulhu" sample_new_id sample_k8s id 9 (mkClaims sample_user) sample_strategy svc_world w' r
    _ s' sample_new_id_valid E Hs) as [Hold|(pods & Hp & Hf)]; [by destruct Hne|].
  injection Hp as <-. exact Hf.
Defined.
