(* ===== verification/NodePolicySvc.v ===== *)
(** * Node policies: api/manager/service/node_policy_svc.go, and the node part of cron_svc.go

    A node policy applies to the nodes its selectors match; one intent per node is
    stored and pushed to the decision maker there.  The operations of users and the
    periodic refresh are modelled over the repository of CRNodeRepo.v and the fleet
    of Manager.v; the order in which Go ranges over a map is a parameter. *)

From stdpp Require Import base gmap strings list sorting.
From Stdlib Require Import ZArith Lia.
From S2P Require Import Prelude GoStrings Sha256 Merkle Intents ProcScan PodMetrics DecisionMaker ManagerDomain KubeStore CRRepo.
From S2P Require Import CRNodeRepo Manager StrategySvc.
#[local] Open Scope go_scope.

(** ** Matching nodes *)

(** [len(l) == 0] *)
Definition is_nil {A} (l : list A) : bool := match l with [] => true | _ => false end.

Lemma is_nil_spec {A} (l : list A) : is_nil l = true <-> l = [].
Proof. by destruct l. Qed.

Definition by_name (nodes : list Node) : gmap string Node := index_by node_Name nodes.

Definition intersectNodes (candidates : gmap string Node) (nodes : list Node) (haveCandidates : bool) : gmap string Node :=
  let byName := by_name nodes in
  if negb haveCandidates then byName
  else filter (fun p => is_Some (byName !! p.1)) candidates.

Section service.
  Context {K : Type} `{KubeAPI K}.
  Variable ObjectIDFromHex : string -> option ObjectID.
  Variable crNamespace : string.
  Variable NewObjectID : nat -> ObjectID.
  Variable k8s : K8SAdapter.
  Variable range : list string -> list string.
  Variable now : Z.

Notation M := (SE (world K) mgr_error).

(** [None] for a query that fails. *)
Definition resolveNodesForPolicy (policy : NodeSchedulingPolicy) : option (list Node) :=
  let sel := nsp_NodeSelectors policy in
  let names := nsp_NodeNames policy in
  let dra := nsp_DRASelectors policy in
  if is_nil sel && is_nil names && is_nil dra then Some [] else
  let haveCandidates := negb (is_nil sel) || negb (is_nil names) in
  candidates ← (if haveCandidates then
                  nodes ← QueryNodesBySelectors k8s sel names;
                  Some (intersectNodes ∅ nodes false)
                else Some ∅);
  candidates ← (if negb (is_nil dra) then
                  nodes ← QueryNodesByDRA k8s dra;
                  Some (intersectNodes candidates nodes haveCandidates)
                else Some candidates);
  Some (omap (fun name => candidates !! name) (range (map_to_list candidates).*1)).

(** ** Telling the decision makers *)

Definition sendNodeIntentsToDMs (intents : list NodeSchedulingIntent) : M unit :=
  match intents with
  | [] => sret tt
  | _ =>
      let! dms := on_k8s (QueryDecisionMakerPods k8s (distinct (ni_NodeID <$> intents))) in
      match dms with
      | [] => sret tt
      | _ => push_to_dms ni_NodeID ni_ID SendNodeSchedulingPolicies
               (fun ids => BatchUpdateNodeIntentsState now ids IntentStateSent) range dms intents
      end
  end.

Definition notifyDMsDeleteNodeIntents (intents : list NodeSchedulingIntent) : M unit :=
  match intents with
  | [] => sret tt
  | _ =>
      match QueryDecisionMakerPods k8s (distinct (ni_NodeID <$> intents)) with
      | None => sret tt
      | Some dmPods =>
          sfor (fun dm =>
            if decide (dm_State dm <> NodeStateOnline) then sret tt else
            let policyIDs := distinct (ni_PolicyID <$> filter (fun i => ni_NodeID i = dm_NodeID dm) intents) in
            sfor (fun policyID => logged (on_fleet (DeleteNodeSchedulingIntents dm (mkDeleteNodeIntents policyID false))))
              (range policyIDs)) dmPods
      end
  end.

(** ** Operations *)

Definition CreateNodeSchedulingPolicy (operator : Claims) (policy : NodeSchedulingPolicy) : M unit :=
  let! operatorID := GetBsonObjectUID ObjectIDFromHex operator in
  let! nodes := on_k8s (resolveNodesForPolicy policy) in
  match nodes with
  | [] => not_found
  | _ =>
      let policy := set_node_policy_base (NewBaseEntity now operatorID operatorID) policy in
      let! r := on_repo (InsertNodePolicyAndIntents ObjectIDFromHex crNamespace NewObjectID now (Some policy)
                  (Some (NewNodeSchedulingIntent now policy <$> nodes))) in
      let '(_, intents) := r in
      sendNodeIntentsToDMs intents
  end.

Definition UpdateNodeSchedulingPolicy (operator : Claims) (policyID : string) (policy : NodeSchedulingPolicy) : M unit :=
  let! policyObjID := parse_id ObjectIDFromHex policyID in
  let! operatorID := GetBsonObjectUID ObjectIDFromHex operator in
  let! found := on_repo (QueryNodePolicies ObjectIDFromHex (Some (mkQueryNodePolicy [policyObjID] [operatorID]))) in
  match found with
  | [] => not_found
  | currentPolicy :: _ =>
      let! nodes := on_k8s (resolveNodesForPolicy policy) in
      match nodes with
      | [] => not_found
      | _ =>
          let! oldIntents := on_repo (QueryNodeIntents ObjectIDFromHex (Some (mkQueryNodeIntent [] [policyObjID] [] [] []))) in
          let policy := set_node_policy_base
            (mkBase policyObjID (be_CreatedTime (nsp_Base currentPolicy)) (be_UpdatedTime (nsp_Base policy))
               (be_DeletedTime (nsp_Base policy)) (nsp_CreatorID currentPolicy) operatorID) policy in
          let! _ := on_repo (UpdateNodePolicy crNamespace (Some policy)) in
          let! _ := on_repo (DeleteNodeIntentsByPolicyID policyObjID) in
          let! intents := on_repo (InsertNodeIntents crNamespace NewObjectID now (NewNodeSchedulingIntent now policy <$> nodes)) in
          let! _ := notifyDMsDeleteNodeIntents oldIntents in
          sendNodeIntentsToDMs intents
      end
  end.

Definition DeleteNodeSchedulingPolicy (operator : Claims) (policyID : string) : M unit :=
  let! policyObjID := parse_id ObjectIDFromHex policyID in
  let! operatorID := GetBsonObjectUID ObjectIDFromHex operator in
  let! found := on_repo (QueryNodePolicies ObjectIDFromHex (Some (mkQueryNodePolicy [policyObjID] [operatorID]))) in
  match found with
  | [] => not_found
  | _ =>
      let! intents := on_repo (QueryNodeIntents ObjectIDFromHex (Some (mkQueryNodeIntent [] [policyObjID] [] [] []))) in
      let! _ := on_repo (DeleteNodeIntentsByPolicyID policyObjID) in
      let! _ := on_repo (DeleteNodePolicy policyObjID) in
      notifyDMsDeleteNodeIntents intents
  end.

Definition DeleteNodeSchedulingIntents (operator : Claims) (intentIDs : list string) : M unit :=
  match intentIDs with
  | [] => sret tt
  | _ =>
      let! operatorID := GetBsonObjectUID ObjectIDFromHex operator in
      let! intentObjIDs := parse_ids ObjectIDFromHex intentIDs in
      let! found := on_repo (QueryNodeIntents ObjectIDFromHex (Some (mkQueryNodeIntent intentObjIDs [] [] [] [operatorID]))) in
      match found with
      | [] => not_found
      | _ =>
          let! _ := on_repo (DeleteNodeIntents intentObjIDs) in
          notifyDMsDeleteNodeIntents found
      end
  end.

Definition ListNodeSchedulingPolicies (filterOpts : option QueryNodePolicyOptions) : M (list NodeSchedulingPolicy) :=
  on_repo (QueryNodePolicies ObjectIDFromHex filterOpts).

Definition ListNodeSchedulingIntents (filterOpts : option QueryNodeIntentOptions) : M (list NodeSchedulingIntent) :=
  on_repo (QueryNodeIntents ObjectIDFromHex filterOpts).

(** ** The periodic refresh *)

(** One policy in [refreshStaleNodeIntents]. *)
Definition refresh_node_policy (policy : NodeSchedulingPolicy) : M unit :=
  match resolveNodesForPolicy policy with
  | None => sret tt
  | Some currentNodes =>
      let! r := stry (on_repo (QueryNodeIntents ObjectIDFromHex (Some (mkQueryNodeIntent [] [nsp_ID policy] [] [] [])))) in
      match r with
      | Err _ => sret tt
      | Ok intents =>
          let stale := filter (fun i => ni_NodeID i ∉ node_Name <$> currentNodes) intents in
          let! _ := match stale with
                    | [] => sret tt
                    | _ =>
                        let! _ := logged (on_repo (DeleteNodeIntents (ni_ID <$> stale))) in
                        notifyDMsDeleteNodeIntents stale
                    end in
          let newNodes := filter (fun n => node_Name n ∉ ni_NodeID <$> intents) currentNodes in
          match newNodes with
          | [] => sret tt
          | _ =>
              let! r := stry (on_repo (InsertNodeIntents crNamespace NewObjectID now (NewNodeSchedulingIntent now policy <$> newNodes))) in
              match r with
              | Err _ => sret tt
              | Ok newIntents => logged (sendNodeIntentsToDMs newIntents)
              end
          end
      end
  end.

Definition refreshStaleNodeIntents : M unit :=
  let! policies := on_repo (QueryNodePolicies ObjectIDFromHex (Some (mkQueryNodePolicy [] []))) in
  sfor refresh_node_policy policies.

End service.

(** ** Lemmas *)

Lemma by_name_spec nodes name :
  match by_name nodes !! name with
  | Some n => n ∈ nodes /\ node_Name n = name
  | None => forall n, n ∈ nodes -> node_Name n <> name
  end.
Proof. apply (index_by_lookup node_Name). Qed.

Lemma intersect_lookup candidates nodes name :
  is_Some (intersectNodes candidates nodes true !! name) <->
  is_Some (candidates !! name) /\ exists n, n ∈ nodes /\ node_Name n = name.
Proof.
  unfold intersectNodes. cbn [negb]. pose proof (by_name_spec nodes name) as B. split.
  - intros [x (Hx & Hb)%map_lookup_filter_Some]. cbn in Hb. split; [by exists x|]. destruct Hb as [n Hn]. rewrite Hn in B. eauto.
  - intros [[x Hx] (n & Hn & Hname)]. exists x. apply map_lookup_filter_Some. split; [done|]. cbn.
    destruct (by_name nodes !! name); [eauto|]. by destruct (B n Hn).
Qed.

Lemma by_name_is_Some nodes name : is_Some (by_name nodes !! name) <-> exists n, n ∈ nodes /\ node_Name n = name.
Proof.
  pose proof (by_name_spec nodes name) as B. destruct (by_name nodes !! name) as [n|]; split.
  - eauto.
  - eauto.
  - by intros [? ?].
  - intros (n & Hn & Hname). by destruct (B n Hn).
Qed.

Lemma Forall2_functional {A B} (R : A -> B -> Prop) l (k1 k2 : list B) :
  (forall a b1 b2, R a b1 -> R a b2 -> b1 = b2) -> Forall2 R l k1 -> Forall2 R l k2 -> k1 = k2.
Proof.
  intros HR H1. revert k2. induction H1 as [|a b l k1 Hab _ IH]; intros k2 H2; inversion H2; subst; [done|].
  f_equal; [by eapply HR|by apply IH].
Qed.

(** The candidates, listed in any order. *)
Lemma listed_candidates (range : list string -> list string) (c : gmap string Node) :
  (forall l, range l ≡ₚ l) -> (forall name n, c !! name = Some n -> node_Name n = name) ->
  let nodes := omap (fun name => c !! name) (range (map_to_list c).*1) in
  NoDup (node_Name <$> nodes) /\ forall name, name ∈ node_Name <$> nodes <-> is_Some (c !! name).
Proof.
  intros Hrange Hc nodes. assert (node_Name <$> nodes = range (map_to_list c).*1) as ->.
  { assert (forall l, Forall (fun x => is_Some (c !! x)) l -> node_Name <$> omap (fun name => c !! name) l = l) as Hl.
    { induction 1 as [|x l [n Hn] _ IH]; [done|]. cbn. rewrite Hn. cbn. f_equal; [by apply Hc|exact IH]. }
    apply Hl. rewrite Hrange. apply Forall_fmap, Forall_forall. intros [x n] Hx%elem_of_map_to_list. cbn. eauto. }
  split; [rewrite Hrange; apply NoDup_fst_map_to_list|]. intros name. rewrite Hrange, list_elem_of_fmap. split.
  - intros ([x n] & -> & Hx%elem_of_map_to_list). eauto.
  - intros [n Hn]. exists (name, n). by rewrite elem_of_map_to_list.
Qed.

Section refresh.
  Context {K : Type} {KA : KubeAPI K} {KL : KubeLaws K}.
  Variable ObjectIDFromHex : string -> option ObjectID.
  Variable crNamespace : string.

Lemma query_policies_spec opt (r : repo K) :
  all_held (RA := node_policy_resource ObjectIDFromHex crNamespace) (r_kube r) ->
  let '(r', res) := QueryNodePolicies ObjectIDFromHex (Some opt) r in
  unchanged (r_kube r) (r_kube r') /\
  match res with
  | Ok l => forall p, p ∈ l <-> holds (RA := node_policy_resource ObjectIDFromHex crNamespace) (r_kube r) p /\
      named (qp_IDs opt) (nsp_ID p) /\ matchesNodePolicyFilter p opt = true
  | Err e => exists ke, e = RKube ke
  end.
Proof.
  intros Hw. refine (query_spec (RA := node_policy_resource ObjectIDFromHex crNamespace) _ _ _ r Hw _).
  unfold matchesNodePolicyFilter. intros p Hp. eapply passes_selector; [|exact Hp].
  change (GetLabels _) with (<[labelCreatorID := nsp_CreatorID p]> (∅ : gmap string string)). apply lookup_insert_eq.
Qed.

End refresh.

Lemma notify_node_repo {K} k8s range intents (w : world K) :
  exists f, notifyDMsDeleteNodeIntents k8s range intents w = (mkWorld f (w_repo w), Ok tt).
Proof.
  unfold notifyDMsDeleteNodeIntents. destruct intents as [|i l]; [by exists (w_fleet w); destruct w|].
  destruct (QueryDecisionMakerPods _ _) as [dms|]; [|by exists (w_fleet w); destruct w].
  apply sfor_fleet_only. intros dm w1. case_decide; [by exists (w_fleet w1); destruct w1|].
  apply sfor_fleet_only. intros p w2. apply logged_fleet_repo.
Qed.

(** ** Properties *)

(** Remark (which nodes a policy applies to).  The resolution fails exactly when one of
    the queries it needs fails; otherwise it returns, each once, the nodes whose
    names every kind of selector that is set has found, and none for a policy
    without selectors. *)
Theorem resolve_nodes_spec (k8s : K8SAdapter) (range : list string -> list string) (policy : NodeSchedulingPolicy) :
  (forall l, range l ≡ₚ l) ->
  let sel := nsp_NodeSelectors policy in let names := nsp_NodeNames policy in let dra := nsp_DRASelectors policy in
  let qsel := QueryNodesBySelectors k8s sel names in let qdra := QueryNodesByDRA k8s dra in
  match resolveNodesForPolicy k8s range policy with
  | None => (~ (sel = [] /\ names = []) /\ qsel = None) \/ (dra <> [] /\ qdra = None)
  | Some nodes => NoDup (node_Name <$> nodes) /\
      forall name, name ∈ node_Name <$> nodes <->
        ~ (sel = [] /\ names = [] /\ dra = []) /\
        ((sel = [] /\ names = []) \/ exists l n, qsel = Some l /\ n ∈ l /\ node_Name n = name) /\
        (dra = [] \/ exists l n, qdra = Some l /\ n ∈ l /\ node_Name n = name)
  end.
Proof.
  intros Hrange sel names dra qsel qdra. unfold resolveNodesForPolicy. fold sel names dra qsel qdra. cbv zeta.
  assert (forall l name n, by_name l !! name = Some n -> node_Name n = name) as Hbn.
  { intros l name n Hn. pose proof (by_name_spec l name) as B. rewrite Hn in B. apply B. }
  assert (forall c l name n, (forall name n, c !! name = Some n -> node_Name n = name) ->
    intersectNodes c l true !! name = Some n -> node_Name n = name) as Hint.
  { intros c l name n Hc [Hn _]%map_lookup_filter_Some. by apply Hc. }
  pose proof (is_nil_spec sel) as N1. pose proof (is_nil_spec names) as N2. pose proof (is_nil_spec dra) as N3.
  assert (forall l, intersectNodes ∅ l false = by_name l) as Hseed by done.
  assert (is_nil sel && is_nil names = true <-> sel = [] /\ names = []) as N12 by (by rewrite andb_true_iff, N1, N2).
  rewrite <- negb_andb. clear N1 N2. generalize dependent (is_nil sel && is_nil names). intros b N12.
  destruct b, (is_nil dra); cbn [andb negb mbind option_bind].
  - split; [constructor|]. intros name. split; [set_solver|naive_solver].
  - destruct qdra as [l2|]; cbn [mbind option_bind]; [|right; naive_solver]. rewrite Hseed.
    destruct (listed_candidates range (by_name l2) Hrange (Hbn l2)) as [H1 H2]. split; [done|]. intros name. rewrite H2, by_name_is_Some. naive_solver.
  - destruct qsel as [l1|]; cbn [mbind option_bind]; [|left; naive_solver]. rewrite Hseed.
    destruct (listed_candidates range (by_name l1) Hrange (Hbn l1)) as [H1 H2]. split; [done|]. intros name. rewrite H2, by_name_is_Some. naive_solver.
  - destruct qsel as [l1|]; cbn [mbind option_bind]; [|left; naive_solver]. rewrite Hseed.
    destruct qdra as [l2|]; cbn [mbind option_bind]; [|right; naive_solver].
    destruct (listed_candidates range (intersectNodes (by_name l1) l2 true) Hrange) as [H1 H2]; [intros ??; apply Hint, Hbn|].
    split; [done|]. intros name. rewrite H2, intersect_lookup, by_name_is_Some. naive_solver.
Qed.

(** Remark (only the creator changes a node policy).  When no stored policy with the
    given identifier was created by the operator, updating and deleting fail, the
    store is as it was and no decision maker is called. *)
Theorem node_policies_owner_only {K} `{KubeLaws K} ObjectIDFromHex crNamespace NewObjectID k8s range now
    (operator : Claims) (policyID : string) (policy : NodeSchedulingPolicy) (w : world K) :
  all_held (RA := node_policy_resource ObjectIDFromHex crNamespace) (r_kube (w_repo w)) ->
  (forall p, holds (RA := node_policy_resource ObjectIDFromHex crNamespace) (r_kube (w_repo w)) p ->
     ObjectIDFromHex policyID = Some (nsp_ID p) -> ObjectIDFromHex (cl_UID operator) <> Some (nsp_CreatorID p)) ->
  (let '(w', res) := UpdateNodeSchedulingPolicy ObjectIDFromHex crNamespace NewObjectID k8s range now operator policyID policy w in
   untouched w w' /\ is_ok res = false) /\
  (let '(w', res) := DeleteNodeSchedulingPolicy ObjectIDFromHex k8s range operator policyID w in
   untouched w w' /\ is_ok res = false).
Proof.
  intros Hw Hno. unfold UpdateNodeSchedulingPolicy, DeleteNodeSchedulingPolicy, GetBsonObjectUID, sbind. rewrite !parse_id_run.
  destruct (ObjectIDFromHex policyID) as [pid|]; [|split; by (split; [apply untouched_refl|])].
  rewrite !parse_id_run.
  destruct (ObjectIDFromHex (cl_UID operator)) as [uid|]; [|split; by (split; [apply untouched_refl|])].
  rewrite on_repo_run. pose proof (query_policies_spec ObjectIDFromHex crNamespace (mkQueryNodePolicy [pid] [uid]) (w_repo w) Hw) as Q.
  destruct (QueryNodePolicies _ _ _) as [r1 [l|e]]; destruct Q as [Hu Q]; [|by repeat split].
  destruct l as [|p l]; [by repeat split|]. destruct (proj1 (Q p) ltac:(set_solver)) as (Hp & [?|Hid] & Hc); [done|].
  cbn [qp_IDs] in Hid. apply list_elem_of_singleton in Hid. unfold matchesNodePolicyFilter in Hc. cbn in Hc.
  rewrite orb_false_r in Hc. apply String.eqb_eq in Hc. subst pid uid. by destruct (Hno p Hp eq_refl).
Qed.

(** Remark (node intents of others are deleted).  Unlike for pod intents, the deletion
    of node intents goes ahead as soon as one of those asked for was created by the
    operator: only a failing store stops it, and when it is done all of them are
    gone, whoever created them. *)
Theorem foreign_node_intents_deleted {K} `{KubeLaws K} ObjectIDFromHex crNamespace k8s range
    (operator : Claims) (intentIDs objs : list string) uid (w : world K) own :
  node_repo_wf ObjectIDFromHex crNamespace (r_kube (w_repo w)) ->
  ObjectIDFromHex (cl_UID operator) = Some uid -> Forall2 (fun id o => ObjectIDFromHex id = Some o) intentIDs objs ->
  holds_node_intent ObjectIDFromHex crNamespace (r_kube (w_repo w)) own -> ni_CreatorID own = uid -> ni_ID own ∈ objs ->
  let '(w', res) := DeleteNodeSchedulingIntents ObjectIDFromHex k8s range operator intentIDs w in
  match res with
  | Ok _ => forall o, o ∈ objs -> kube_objects (r_kube (w_repo w')) nodeIntentGVR !! o = None
  | Err e => exists ke, e = MRepo (RKube ke)
  end.
Proof.
  intros Hw Hu Hf Hown Hc Hin. unfold DeleteNodeSchedulingIntents, GetBsonObjectUID, sbind.
  destruct intentIDs as [|id0 ids]; [inversion Hf; subst; set_solver|]. rewrite parse_id_run, Hu.
  destruct (parse_ids_run ObjectIDFromHex (id0 :: ids) w) as (rp & -> & Hp). destruct rp as [objs'|e].
  2: { destruct Hp as (id & Hid & Hnone). apply list_elem_of_lookup in Hid as [n Hn].
       destruct (Forall2_lookup_l _ _ _ _ _ Hf Hn) as (o & _ & Ho). congruence. }
  assert (objs' = objs) as ->.
  { apply (Forall2_functional (fun id o => ObjectIDFromHex id = Some o) (id0 :: ids)); [|done..]. intros; congruence. }
  rewrite on_repo_run.
  pose proof (query_node_intents_spec ObjectIDFromHex crNamespace (mkQueryNodeIntent objs [] [] [] [uid]) (w_repo w) Hw) as Q.
  destruct (QueryNodeIntents _ _ _) as [r1 [found|e]]; destruct Q as [_ Q]; [|destruct Q as [ke ->]; eauto].
  assert (own ∈ found) as Hfound.
  { apply Q. split; [done|]. split; [by right|]. unfold matchesNodeIntentFilter. cbn. rewrite Hc.
    by rewrite (proj2 (String.eqb_eq uid uid) eq_refl). }
  destruct found as [|i0 rest]; [set_solver|]. rewrite on_repo_run. cbn [w_repo w_fleet]. unfold DeleteNodeIntents.
  pose proof (delete_names_spec nodeIntentGVR objs r1) as D.
  destruct (sfor _ objs r1) as [r2 [[]|e]]; destruct D as [_ D]; [|subst e; eauto].
  match goal with |- context [notifyDMsDeleteNodeIntents ?k ?a ?b ?v] => destruct (notify_node_repo k a b v) as [f ->] end. done.
Qed.

(** ** Concrete inputs *)

Lemma resolve_nodes_spec_witness :
  let k8s := mkK8S (fun _ _ => Some []) (fun _ => Some []) (fun _ _ => Some [mkNode "n1" ∅ "Ready"; mkNode "n2" ∅ "Ready"])
    (fun _ => Some [mkNode "n2" ∅ "Ready"]) in
  let policy := mkNodeSchedulingPolicy (NewBaseEntity 7 sample_user sample_user) [mkLabelSelector "gpu" ""] [] [mkDRA "d" []] "train" 3 20000 in
  exists nodes, resolveNodesForPolicy k8s id policy = Some nodes /\ NoDup (node_Name <$> nodes) /\
    forall name, name ∈ node_Name <$> nodes -> name = "n2".
Proof.
  cbv zeta. set (k8s := mkK8S _ _ _ _). set (policy := mkNodeSchedulingPolicy _ _ _ _ _ _ _).
  pose proof (resolve_nodes_spec k8s id policy (fun l => reflexivity l)) as P. cbv zeta in P.
  destruct (resolveNodesForPolicy k8s id policy) as [nodes|]; [|destruct P as [[_ P]|[_ P]]; discriminate].
  destruct P as [Hnd Hn]. exists nodes. split; [reflexivity|]. split; [exact Hnd|]. intros name Hin.
  apply Hn in Hin as (_ & _ & [Hd|(l & n & Hq & Hn' & <-)]); [discriminate|]. injection Hq as <-.
  apply list_elem_of_singleton in Hn' as ->. reflexivity.
Defined.

Definition node_intent_of (n : nat) (creator : ObjectID) (node : string) : NodeSchedulingIntent :=
  mkNodeIntent (mkBase (sample_new_id n) 7 7 0 creator creator) (sample_new_id 8) node "kubelet" 2 15000 IntentStateSent.

Lemma other_user_valid : valid_id sample_parse other_user.
Proof. split; [done|vm_compute; reflexivity]. Qed.

Lemma node_intent_of_valid n creator node :
  valid_id sample_parse creator -> valid_node_intent sample_parse (node_intent_of n creator node).
Proof.
  intros Hc. assert (forall m, valid_id sample_parse (sample_new_id m)) as Hid by apply sample_new_id_valid.
  repeat split; try apply Hid; try apply Hc; vm_compute; congruence.
Qed.

(** An intent of the user and one of somebody else. *)
Definition node_store : map_kube :=
  mkMapKube (fun g => match g with
    | nodeIntentGVR => list_to_map ((fun i => (ni_ID i, domainNodeIntentToUnstructured "gthulhu" i)) <$>
                         [node_intent_of 0 sample_user "n1"; node_intent_of 1 other_user "n2"])
    | _ => ∅
    end) [].

Lemma node_store_wf : node_repo_wf sample_parse "gthulhu" node_store /\
  holds_node_intent sample_parse "gthulhu" node_store (node_intent_of 0 sample_user "n1").
Proof.
  destruct (list_store_held (node_intent_resource sample_parse "gthulhu") node_store
    [node_intent_of 0 sample_user "n1"; node_intent_of 1 other_user "n2"]) as [H1 H2].
  { reflexivity. }
  { apply (bool_decide_eq_true_1 _). vm_compute. reflexivity. }
  { repeat constructor; apply sample_new_id_valid || apply sample_user_valid || apply other_user_valid || (vm_compute; congruence). }
  split; [exact H1|]. by inversion H2.
Qed.

Lemma node_policies_owner_only_witness :
  untouched (mkWorld (sample_fleet ∅) (mkRepo node_store 0))
    (DeleteNodeSchedulingPolicy sample_parse sample_k8s id (mkClaims sample_user) (sample_new_id 3) (mkWorld (sample_fleet ∅) (mkRepo node_store 0))).1.
Proof.
  destruct (node_policies_owner_only sample_parse "gthulhu" sample_new_id sample_k8s id 9 (mkClaims sample_user) (sample_new_id 3)
    (mkNodeSchedulingPolicy (NewBaseEntity 7 sample_user sample_user) [] [] [] "x" 1 1) (mkWorld (sample_fleet ∅) (mkRepo node_store 0))) as [_ P].
  - intros n c Hc. vm_compute in Hc. discriminate.
  - intros p [_ Hp]. vm_compute in Hp. discriminate.
  - destruct (DeleteNodeSchedulingPolicy _ _ _ _ _ _) as [w' r]. exact (proj1 P).
Defined.

Lemma foreign_node_intents_deleted_witness :
  let w := mkWorld (sample_fleet ∅) (mkRepo node_store 0) in
  exists w', DeleteNodeSchedulingIntents sample_parse sample_k8s id (mkClaims sample_user) [sample_new_id 0; sample_new_id 1] w = (w', Ok tt) /\
    kube_objects (r_kube (w_repo w')) nodeIntentGVR !! ni_ID (node_intent_of 1 other_user "n2") = None.
Proof.
  cbv zeta. set (w := mkWorld _ _). destruct node_store_wf as [Hw Ho].
  pose proof (foreign_node_intents_deleted sample_parse "gthulhu" sample_k8s id (mkClaims sample_user) [sample_new_id 0; sample_new_id 1]
    [sample_new_id 0; sample_new_id 1] sample_user w (node_intent_of 0 sample_user "n1") Hw) as P.
  assert (exists w', DeleteNodeSchedulingIntents sample_parse sample_k8s id (mkClaims sample_user) [sample_new_id 0; sample_new_id 1] w = (w', Ok tt))
    as [w' E] by (eexists; vm_compute; reflexivity).
  rewrite E in P. exists w'. split; [exact E|]. apply P.
  - vm_compute. reflexivity.
  - repeat constructor.
  - exact Ho.
  - reflexivity.
  - apply list_elem_of_here.
  - apply list_elem_of_further, list_elem_of_here.
Defined.
