(* ===== verification/Reconcile.v ===== *)
(** * Following the pods: the refresh of intents in cron_svc.go

    With a store that answers, one run of [refreshStaleIntents] brings the stored
    intents in line with the pods: every strategy has intents for exactly the pods
    it matches now, and nothing else is touched. *)

From stdpp Require Import base gmap strings list sorting.
From Stdlib Require Import ZArith Lia.
From S2P Require Import Prelude GoStrings Sha256 Merkle Intents ProcScan PodMetrics DecisionMaker ManagerDomain KubeStore CRRepo.
From S2P Require Import Manager StrategySvc.
#[local] Open Scope go_scope.

(** ** A store that answers *)

(** Calls are carried out and answered while [up]; only what the store documents
    makes them fail. *)
Class KubeUp (K : Type) `{KubeAPI K} := {
  up : K -> Prop;
  up_create : forall g o (k : K), up k ->
    up (kube_Create g o k).1 /\ (kube_objects k g !! GetName o = None -> is_ok (kube_Create g o k).2 = true);
  up_delete : forall g n (k : K), up k -> up (kube_Delete g n k).1 /\ (kube_Delete g n k).2 <> Err KOther;
  up_list : forall g reqs (k : K), up k -> up (kube_List g reqs k).1 /\ is_ok (kube_List g reqs k).2 = true
}.

#[export] Instance map_kube_up : KubeUp map_kube.
Proof.
  refine {| up := fun k => mk_script k = [] |}; intros g x k Hk; cbn; unfold mk_write, mk_read, mk_fate; rewrite Hk; cbn.
  - destruct (is_there _ _) eqn:Et; cbn; rewrite ?Hk; (split; [done|]); [|done].
    apply is_there_true in Et as [c Hc]. intros Hn. congruence.
  - by destruct (is_there _ _); cbn; rewrite ?Hk.
  - by rewrite ?Hk.
Defined.

Section store.
  Context {K : Type} {KA : KubeAPI K} {KL : KubeLaws K} {KU : KubeUp K}.
  Variable ObjectIDFromHex : string -> option ObjectID.
  Variable crNamespace : string.
  Variable NewObjectID : nat -> ObjectID.
  (** How many identifiers are ever drawn. *)
  Variable supply : nat.

Notation wf r := (repo_wf ObjectIDFromHex crNamespace (r_kube r)).
Notation held r i := (holds_intent ObjectIDFromHex crNamespace (r_kube r) i).
Notation at_ r g m := (kube_objects (r_kube r) g !! m).

(** The identifiers still to be drawn are unused. *)
Definition fresh_ids (r : repo K) : Prop := forall n, r_next r <= n < supply -> at_ r intentGVR (NewObjectID n) = None.

(** No identifier is drawn twice. *)
Definition distinct_ids : Prop := forall n m, n < supply -> m < supply -> NewObjectID n = NewObjectID m -> n = m.

(** A store in working order. *)
Definition working (r : repo K) : Prop := up (r_kube r) /\ wf r /\ fresh_ids r.

(** *** Deleting *)

Lemma delete_up g n (r : repo K) : up (r_kube r) ->
  exists r', delete_object g n r = (r', Ok tt) /\ up (r_kube r') /\ r_next r' = r_next r.
Proof.
  intros Hu. unfold delete_object, sbind, stry, kube. destruct (up_delete g n (r_kube r) Hu) as [H1 H2].
  destruct (kube_Delete g n (r_kube r)) as [k' [[]|[]]]; cbn in *; try done; eexists; (split; [reflexivity|done]).
Qed.

Lemma deletes_up g l (r : repo K) : up (r_kube r) ->
  exists r', sfor (delete_object g) l r = (r', Ok tt) /\ up (r_kube r') /\ r_next r' = r_next r.
Proof.
  revert r. induction l as [|n l IH]; intros r Hu; [by exists r|]. cbn [sfor]. unfold sbind.
  destruct (delete_up g n r Hu) as (r1 & -> & Hu1 & Hn1). destruct (IH r1 Hu1) as (r' & -> & Hu' & Hn').
  exists r'. split_and!; [done|done|congruence].
Qed.

(** Intents are deleted by name; the others stay. *)
Lemma delete_intents_up ids (r : repo K) : working r ->
  exists r', DeleteIntents ids r = (r', Ok tt) /\ working r' /\
    (forall i, held r' i <-> held r i /\ sc_ID i ∉ ids) /\
    (forall g, g <> intentGVR -> kube_objects (r_kube r') g = kube_objects (r_kube r) g) /\ r_next r' = r_next r.
Proof.
  intros (Hu & Hw & Hf). unfold DeleteIntents. destruct (deletes_up intentGVR ids r Hu) as (r' & E & Hu' & Hn').
  pose proof (delete_names_spec intentGVR ids r) as D. rewrite E in D. destruct D as [D1 D2].
  assert (forall g m, at_ r' g m = None \/ at_ r' g m = at_ r g m) as Hsub.
  { intros g m. destruct (decide (g = intentGVR)) as [->|]; [|right; apply D1; by left].
    destruct (decide (m ∈ ids)); [left; by apply D2|right; apply D1; by right]. }
  exists r'. split; [done|]. split; [|split; [|split; [|done]]].
  - split; [done|]. split; [by eapply wf_subset|]. intros n Hn. destruct (Hsub intentGVR (NewObjectID n)) as [?| ->]; [done|].
    apply Hf. lia.
  - intros i. unfold holds_intent, holds. cbn [res_gvr res_name intent_resource]. split.
    + intros [Hv Hi]. destruct (decide (sc_ID i ∈ ids)) as [Hin|Hin]; [by rewrite D2 in Hi|]. rewrite D1 in Hi by auto. done.
    + intros [[Hv Hi] Hin]. split; [done|]. rewrite D1 by auto. done.
  - intros g Hg. apply map_eq. intros m. apply D1. by left.
Qed.

(** *** Inserting *)

(** An intent about to be stored: no identifier yet. *)
Definition new_intent (i : ScheduleIntent) : Prop :=
  sc_ID i = NilObjectID /\ be_DeletedTime (sc_Base i) = 0%Z /\ valid_id ObjectIDFromHex (sc_CreatorID i) /\
  valid_id ObjectIDFromHex (be_UpdaterID (sc_Base i)) /\ valid_id ObjectIDFromHex (sc_StrategyID i) /\ (-128 <= sc_State i < 128)%Z.

Lemma new_intent_valid now n i :
  (forall n, valid_id ObjectIDFromHex (NewObjectID n)) -> new_intent i ->
  valid_intent ObjectIDFromHex (stamp_intent now (NewObjectID n) (sc_StrategyID i) i).
Proof. intros Hids (_ & Hd & Hc & Hu & Hs & Hst). unfold valid_intent, valid_base. cbn. split_and!; auto; lia. Qed.

Lemma create_up g o (r : repo K) : up (r_kube r) -> at_ r g (GetName o) = None ->
  exists r' o', (kube (kube_Create g o) : SE (repo K) kube_error _) r = (r', Ok o') /\ up (r_kube r') /\ r_next r' = r_next r.
Proof.
  intros Hu Hn. unfold kube. destruct (up_create g o (r_kube r) Hu) as [H1 H2]. specialize (H2 Hn).
  destruct (kube_Create g o (r_kube r)) as [k' [o'|]]; cbn in *; [|done]. by eexists _, o'.
Qed.

Lemma insert_intents_up now l (r : repo K) :
  (forall n, valid_id ObjectIDFromHex (NewObjectID n)) -> distinct_ids -> Forall new_intent l -> working r ->
  r_next r + length l <= supply ->
  exists r' l', InsertIntents crNamespace NewObjectID now l r = (r', Ok l') /\ working r' /\
    Forall2 (fun i i' => exists id, i' = stamp_intent now id (sc_StrategyID i) i) l l' /\
    (forall i, held r' i <-> held r i \/ i ∈ l') /\
    (forall g, g <> intentGVR -> kube_objects (r_kube r') g = kube_objects (r_kube r) g) /\ r_next r' = r_next r + length l.
Proof.
  intros Hids Hinj Hl. revert r. induction Hl as [|i l Hi _ IH]; intros r Hr Hn0; cbn [length] in *.
  { exists r, []. cbn. split_and!; [done|done|constructor| |done|lia]. intros i. set_solver. }
  cbn [InsertIntents]. unfold sbind. destruct (Hi) as (Hnil & _). unfold ensure_id. rewrite decide_True by done.
  unfold new_id. cbv beta iota. set (r0 := mkRepo (r_kube r) (S (r_next r))). set (i' := stamp_intent now (NewObjectID (r_next r)) (sc_StrategyID i) i).
  destruct Hr as (Hu & Hw & Hf).
  destruct (create_up intentGVR (domainIntentToUnstructured crNamespace i') r0 Hu) as (r1 & o' & E1 & Hu1 & Hn1).
  { apply (Hf (r_next r)). lia. }
  cbn [r_next r0] in Hn1.
  pose proof (create_spec intentGVR (domainIntentToUnstructured crNamespace i') r0) as C. rewrite E1 in C. destruct C as [C1 (_ & C2 & C3)].
  assert (valid_intent ObjectIDFromHex i') as Hv by (by apply new_intent_valid).
  change (GetName (domainIntentToUnstructured crNamespace i')) with (sc_ID i') in C1, C2, C3.
  assert (forall j, held r1 j <-> held r j \/ j = i') as Hheld.
  { intros j. unfold holds_intent, holds. cbn [res_gvr res_name res_enc res_valid intent_resource]. split.
    - intros [Hvj Hj]. destruct (decide (sc_ID j = sc_ID i')) as [Heq|Hne].
      + right. apply (holds_inj (RA := intent_resource ObjectIDFromHex crNamespace) (r_kube r1)); [done|by split|done].
      + left. rewrite C1 in Hj by congruence. done.
    - intros [[Hvj Hj]| ->]; [|done]. split; [done|]. rewrite C1; [done|]. intros E%(f_equal snd). cbn [snd] in E. rewrite E in Hj.
      change (r_kube r0) with (r_kube r) in C2. congruence. }
  assert (working r1) as Hr1.
  { split; [done|]. split.
    - split; [|eapply all_held_same; [|apply Hw]; apply map_eq; intros m; by apply C1].
      eapply (all_held_insert (RA := intent_resource ObjectIDFromHex crNamespace) (r_kube r)); [exact Hv| |apply Hw].
      apply map_eq. intros m. cbn [res_gvr res_name res_enc intent_resource]. destruct (decide (m = sc_ID i')) as [->|Hne].
      + by rewrite lookup_insert_eq.
      + rewrite lookup_insert_ne by done. apply C1. congruence.
    - intros n Hn. rewrite C1; [apply (Hf n); lia|]. intros [= Heq]. change (sc_ID i') with (NewObjectID (r_next r)) in Heq.
      apply Hinj in Heq; lia. }
  unfold swrap. rewrite E1. destruct (IH r1 Hr1 ltac:(lia)) as (r2 & l2 & -> & Hr2 & Hf2 & Hh2 & Hg2 & Hn2). exists r2, (i' :: l2).
  split; [done|]. split; [done|]. split; [constructor; [by eexists|done]|]. split; [|split; [|lia]].
  - intros j. rewrite Hh2, Hheld, elem_of_cons. tauto.
  - intros g Hg. rewrite Hg2 by done. apply map_eq. intros m. apply C1. congruence.
Qed.

(** *** Reading *)

Lemma converted_length {A} {RA : Resource A} (keep : A -> bool) items (r : repo K) :
  match (scollect (convert res_dec keep) items r).2 with Ok l => length l <= length items | Err _ => True end.
Proof.
  revert r. induction items as [|o items IH]; intros r; [cbn; lia|]. cbn [scollect length]. unfold sbind at 1.
  unfold convert at 1, sbind at 1, lift. destruct (res_dec o) as [a|e]; [|done]. cbv beta iota delta [sret]. unfold sbind.
  specialize (IH r). destruct (scollect (convert res_dec keep) items r) as [r' [l|e]]; [|done]. cbn [snd] in *.
  rewrite length_app. destruct (keep a); cbn [length]; lia.
Qed.

(** A query by selector answers, and changes nothing. *)
Lemma query_up {A} (RA : Resource A) (keep : A -> bool) reqs (r : repo K) :
  up (r_kube r) -> all_held (r_kube r) ->
  (forall a, keep a = true -> forallb (satisfies (GetLabels (res_enc a))) reqs = true) ->
  exists r' l, query_objects res_gvr res_dec keep [] reqs r = (r', Ok l) /\ up (r_kube r') /\
    unchanged (r_kube r) (r_kube r') /\ r_next r' = r_next r /\ (forall a, a ∈ l <-> holds (r_kube r) a /\ keep a = true) /\
    length l <= size (kube_objects (r_kube r) res_gvr).
Proof.
  intros Hu Hall Hsel. pose proof (query_spec keep [] reqs r Hall Hsel) as Q. cbn [query_objects] in *.
  pose proof (list_spec keep reqs r Hall Hsel) as L. destruct (up_list res_gvr reqs (r_kube r) Hu) as [H1 H2].
  pose proof (list_law res_gvr reqs (r_kube r)) as Law.
  unfold sbind, swrap, kube in *. destruct (kube_List res_gvr reqs (r_kube r)) as [k1 [items|e]]; [|done]. cbn in H1. destruct Law as [_ Law].
  pose proof (scollect_inv (fun s : repo K => r_kube s = k1 /\ r_next s = r_next r) (convert res_dec keep) items (mkRepo k1 (r_next r))
    (conj eq_refl eq_refl)) as I.
  pose proof (converted_length keep items (mkRepo k1 (r_next r))) as Len.
  destruct (scollect _ items _) as [r' [l|e]]; [|by destruct L]. destruct I as [I1 I2].
  { intros x s _ Hs. unfold convert, sbind, lift. by destruct (res_dec x). }
  destruct L as [Hun Hl]. exists r', l. cbn in I1, I2. split_and!; [done|congruence|done|done|done|].
  apply Permutation_length in Law. rewrite length_fmap in Law.
  etrans; [exact Len|]. rewrite Law. etrans; [apply length_filter|]. by rewrite length_map_to_list.
Qed.

Lemma working_unchanged (r r' : repo K) :
  working r -> up (r_kube r') -> unchanged (r_kube r) (r_kube r') -> r_next r' = r_next r -> working r'.
Proof.
  intros (_ & Hw & Hf) Hu Hun Hn. split; [done|]. split.
  - eapply wf_subset; [|exact Hw]. intros g m. right. by rewrite Hun.
  - intros n Hn'. rewrite Hun. apply Hf. lia.
Qed.

Lemma query_intents_up opt (r : repo K) : working r -> qi_IDs opt = [] ->
  exists r' l, QueryIntents ObjectIDFromHex (Some opt) r = (r', Ok l) /\ working r' /\ unchanged (r_kube r) (r_kube r') /\
    r_next r' = r_next r /\ (forall i, i ∈ l <-> held r i /\ matchesIntentFilter i opt = true).
Proof.
  intros Hr Hno. destruct (Hr) as (Hu & [Hi _] & _).
  destruct (query_up (intent_resource ObjectIDFromHex crNamespace) (fun i => matchesIntentFilter i opt) _ r Hu Hi
    (fun i => intent_selector_complete crNamespace i opt)) as (r' & l & E & Hu' & Hun & Hn & Hl & _).
  exists r', l. unfold QueryIntents. rewrite Hno. split; [exact E|]. split; [by apply (working_unchanged r)|]. done.
Qed.

Lemma query_strategies_up opt (r : repo K) : working r -> qs_IDs opt = [] ->
  exists r' l, QueryStrategies ObjectIDFromHex (Some opt) r = (r', Ok l) /\ working r' /\ unchanged (r_kube r) (r_kube r') /\
    r_next r' = r_next r /\
    (forall s, s ∈ l <-> holds_strategy ObjectIDFromHex crNamespace (r_kube r) s /\ matchesStrategyFilter s opt = true) /\
    length l <= size (kube_objects (r_kube r) strategyGVR).
Proof.
  intros Hr Hno. destruct (Hr) as (Hu & [_ Hs] & _).
  destruct (query_up (strategy_resource ObjectIDFromHex crNamespace) (fun s => matchesStrategyFilter s opt) _ r Hu Hs
    (fun s => strategy_selector_complete crNamespace s opt)) as (r' & l & E & Hu' & Hun & Hn & Hl & Hlen).
  exists r', l. unfold QueryStrategies. rewrite Hno. split; [exact E|]. split; [by apply (working_unchanged r)|]. done.
Qed.

End store.

(** ** Refreshing *)

Section refresh.
  Context {K : Type} {KA : KubeAPI K} {KL : KubeLaws K} {KU : KubeUp K}.
  Variable ObjectIDFromHex : string -> option ObjectID.
  Variable crNamespace : string.
  Variable NewObjectID : nat -> ObjectID.
  Variable supply : nat.
  Variable k8s : K8SAdapter.
  Variable now : Z.

Hypothesis ids_valid : forall n, valid_id ObjectIDFromHex (NewObjectID n).
Hypothesis ids_distinct : distinct_ids NewObjectID supply.

Notation held w i := (holds_intent ObjectIDFromHex crNamespace (r_kube (w_repo w)) i).
Notation held_strategy w s := (holds_strategy ObjectIDFromHex crNamespace (r_kube (w_repo w)) s).
Notation ok w := (working ObjectIDFromHex crNamespace NewObjectID supply (w_repo w)).
Notation next w := (r_next (w_repo w)).

(** The strategy has intents for exactly these pods. *)
Definition covers (w : world K) (s : ScheduleStrategy) (pods : list Pod) : Prop :=
  forall podID, (exists i, held w i /\ sc_StrategyID i = ss_ID s /\ sc_PodID i = podID) <-> podID ∈ pod_PodID <$> pods.

Lemma strategy_filter i sid : matchesIntentFilter i (mkQueryIntent [] [] [sid] [] [] []) = true <-> sc_StrategyID i = sid.
Proof. unfold matchesIntentFilter. cbn. rewrite !andb_true_r, orb_false_r. apply String.eqb_eq. Qed.

Lemma new_intent_ok s pod : valid_strategy ObjectIDFromHex s -> new_intent ObjectIDFromHex (NewScheduleIntent now s pod).
Proof. intros (Hid & _ & Hc & Hu). unfold new_intent. cbn. split_and!; try done; apply Hid || apply Hc || apply Hu. Qed.

Lemma held_unchanged (r r' : repo K) i : unchanged (r_kube r) (r_kube r') ->
  holds_intent ObjectIDFromHex crNamespace (r_kube r') i <-> holds_intent ObjectIDFromHex crNamespace (r_kube r) i.
Proof. apply (holds_unchanged (RA := intent_resource ObjectIDFromHex crNamespace)). Qed.

(** The deletion of stale intents, with its notification. *)
Lemma drop_stale_ok stale (w : world K) : ok w ->
  exists w', (match stale with
              | [] => sret tt
              | _ => let! _ := logged (on_repo (DeleteIntents (sc_ID <$> stale))) in
                     notifyDMsDeleteIntents k8s (remove_dups (sc_NodeID <$> stale)) (sc_PodID <$> stale)
              end : SE (world K) mgr_error unit) w = (w', Ok tt) /\ ok w' /\
    (forall i, held w' i <-> held w i /\ sc_ID i ∉ sc_ID <$> stale) /\
    (forall g, g <> intentGVR -> kube_objects (r_kube (w_repo w')) g = kube_objects (r_kube (w_repo w)) g) /\ next w' = next w.
Proof.
  intros Hok. destruct stale as [|i0 rest] eqn:Es.
  { exists w. split_and!; [done|done| |done|done]. intros i. cbn. set_solver. }
  rewrite <- Es. clear Es i0 rest. unfold sbind, logged at 1. rewrite on_repo_run.
  destruct (delete_intents_up ObjectIDFromHex crNamespace NewObjectID supply (sc_ID <$> stale) (w_repo w) Hok) as (r' & -> & Hr' & Hh & Hg & Hn).
  cbn [fst]. match goal with |- context [notifyDMsDeleteIntents ?k ?a ?b ?v] => destruct (notify_stale_repo k a b v) as [f ->] end.
  by eexists.
Qed.

(** The insertion of intents for pods that have none. *)
Lemma add_missing_ok s newPods (w : world K) : ok w -> valid_strategy ObjectIDFromHex s -> next w + length newPods <= supply ->
  exists w' (l' : list ScheduleIntent), (match newPods with
                 | [] => sret tt
                 | _ => logged (on_repo (InsertIntents crNamespace NewObjectID now (NewScheduleIntent now s <$> newPods)))
                 end : SE (world K) mgr_error unit) w = (w', Ok tt) /\ ok w' /\
    (forall i, i ∈ l' -> sc_StrategyID i = ss_ID s /\
       exists p, p ∈ newPods /\ sc_PodID i = pod_PodID p /\ payload i = payload (NewScheduleIntent now s p)) /\
    (forall p, p ∈ newPods -> exists i, i ∈ l' /\ sc_StrategyID i = ss_ID s /\ sc_PodID i = pod_PodID p) /\
    (forall i, held w' i <-> held w i \/ i ∈ l') /\
    (forall g, g <> intentGVR -> kube_objects (r_kube (w_repo w')) g = kube_objects (r_kube (w_repo w)) g) /\
    next w' = next w + length newPods.
Proof.
  intros Hok Hs Hroom. destruct newPods as [|p0 ps0] eqn:En.
  { exists w, []. cbn. split_and!; try done; try set_solver; lia. }
  rewrite <- En in Hroom |- *. clear En p0 ps0. unfold logged. rewrite on_repo_run.
  destruct (insert_intents_up ObjectIDFromHex crNamespace NewObjectID supply now (NewScheduleIntent now s <$> newPods) (w_repo w) ids_valid ids_distinct)
    as (r' & l' & -> & Hr' & Hf & Hh & Hg & Hn); [apply Forall_fmap, Forall_true; intros p; by apply new_intent_ok|done|by rewrite length_fmap|].
  rewrite length_fmap in Hn.
  exists (mkWorld (w_fleet w) r'), l'. split_and!; try done.
  - intros i [n Hi']%list_elem_of_lookup. destruct (Forall2_lookup_r _ _ _ _ _ Hf Hi') as (i0 & Hi & id & ->).
    apply list_elem_of_lookup_2, list_elem_of_fmap in Hi as (p & -> & Hp'). eauto.
  - intros p [n Hp]%list_elem_of_lookup. pose proof (list_lookup_fmap (NewScheduleIntent now s) newPods n) as Hi. rewrite Hp in Hi.
    destruct (Forall2_lookup_l _ _ _ _ _ Hf Hi) as (i' & Hi' & id & ->). apply list_elem_of_lookup_2 in Hi'. by eexists.
Qed.

(** One strategy. *)
Lemma refresh_strategy_ok s pods (w : world K) :
  ok w -> valid_strategy ObjectIDFromHex s -> QueryPods k8s (ss_K8sNamespace s) (ss_LabelSelectors s) = Some pods ->
  next w + length pods <= supply ->
  exists w', refresh_strategy ObjectIDFromHex crNamespace NewObjectID k8s now s w = (w', Ok tt) /\ ok w' /\ covers w' s pods /\
    (forall i, sc_StrategyID i <> ss_ID s -> held w' i <-> held w i) /\
    (forall i, held w' i -> held w i \/ exists p, p ∈ pods /\ payload i = payload (NewScheduleIntent now s p)) /\
    (forall g, g <> intentGVR -> kube_objects (r_kube (w_repo w')) g = kube_objects (r_kube (w_repo w)) g) /\
    next w' <= next w + length pods.
Proof.
  intros Hok Hs Hp Hroom. unfold refresh_strategy. rewrite Hp. unfold sbind at 1, stry. rewrite on_repo_run.
  destruct (query_intents_up ObjectIDFromHex crNamespace NewObjectID supply (mkQueryIntent [] [] [ss_ID s] [] [] []) (w_repo w) Hok eq_refl)
    as (r1 & intents & -> & Hr1 & Hun & Hn1 & Hin).
  assert (forall i, i ∈ intents <-> held w i /\ sc_StrategyID i = ss_ID s) as Hin' by (intros i; by rewrite Hin, strategy_filter).
  clear Hin. set (w1 := mkWorld (w_fleet w) r1). set (stale := filter (fun i => sc_PodID i ∉ pod_PodID <$> pods) intents).
  unfold sbind at 1. destruct (drop_stale_ok stale w1 Hr1) as (w2 & -> & Hok2 & Hh2 & Hg2 & Hn2). cbn [w_repo w1] in Hn2.
  assert (forall i, held w2 i <-> held w i /\ ~ (sc_StrategyID i = ss_ID s /\ sc_PodID i ∉ pod_PodID <$> pods)) as Hheld2.
  { intros i. rewrite Hh2. unfold w1. cbn [w_repo]. rewrite (held_unchanged (w_repo w) r1 i Hun). split.
    - intros [Hi Hn]. split; [done|]. intros [Hsid Hpod]. apply Hn. apply list_elem_of_fmap. exists i. split; [done|].
      apply list_elem_of_filter. by rewrite Hin'.
    - intros [Hi Hn]. split; [done|]. intros (j & Hid & [Hj Hjin]%list_elem_of_filter)%list_elem_of_fmap. apply Hin' in Hjin as [Hhj Hsj].
      assert (i = j) as -> by (by apply (holds_inj (RA := intent_resource ObjectIDFromHex crNamespace) (r_kube (w_repo w)))). tauto. }
  set (newPods := filter (fun p => pod_PodID p ∉ sc_PodID <$> intents) pods).
  assert (length newPods <= length pods) as Hlen by apply length_filter.
  destruct (add_missing_ok s newPods w2 Hok2 Hs ltac:(lia)) as (w' & l' & E & Hok' & Hnew & Hall & Hh' & Hg' & Hn').
  exists w'. split; [exact E|]. split; [done|].
  split; [|split; [|split; [|split; [|lia]]]].
  - intros podID. split.
    + intros (i & Hi & Hsid & <-). apply Hh' in Hi as [Hi|Hi].
      * apply Hheld2 in Hi as [Hi Hn]. destruct (decide (sc_PodID i ∈ pod_PodID <$> pods)); [done|tauto].
      * apply Hnew in Hi as (_ & p & Hp' & -> & _). apply list_elem_of_filter in Hp' as [_ Hp']. by apply list_elem_of_fmap_2.
    + intros Hpod. destruct (decide (podID ∈ sc_PodID <$> intents)) as [Hold|Hold].
      * apply list_elem_of_fmap in Hold as (i & -> & Hi). apply Hin' in Hi as [Hi Hsid]. exists i. split; [|done].
        apply Hh'. left. apply Hheld2. tauto.
      * apply list_elem_of_fmap in Hpod as (p & -> & Hp').
        destruct (Hall p ltac:(by apply list_elem_of_filter)) as (i & Hi & Hsid & Hpod). exists i. split; [apply Hh'; by right|done].
  - intros i Hne. rewrite Hh', Hheld2. split; [|tauto]. intros [[? _]|Hi]; [done|]. by apply Hnew in Hi as [? _].
  - intros i Hi. apply Hh' in Hi as [Hi|Hi]; [left; by apply Hheld2 in Hi as [? _]|]. right.
    apply Hnew in Hi as (_ & p & Hp' & _ & Hpay). apply list_elem_of_filter in Hp' as [_ Hp']. eauto.
  - intros g Hg. rewrite Hg', Hg2 by done. unfold w1. cbn [w_repo]. apply Hun.
Qed.

(** All strategies of a list, none of which disturbs another. *)
Lemma refresh_loop_ok (pods_of : ScheduleStrategy -> list Pod) most strategies (w : world K) :
  ok w -> (forall s, s ∈ strategies -> held_strategy w s /\
    QueryPods k8s (ss_K8sNamespace s) (ss_LabelSelectors s) = Some (pods_of s) /\ length (pods_of s) <= most) ->
  next w + length strategies * most <= supply ->
  exists w', sfor (refresh_strategy ObjectIDFromHex crNamespace NewObjectID k8s now) strategies w = (w', Ok tt) /\ ok w' /\
    (forall s, s ∈ strategies -> covers w' s (pods_of s)) /\
    (forall i, sc_StrategyID i ∉ ss_ID <$> strategies -> held w' i <-> held w i) /\
    (forall i, held w' i -> held w i \/ exists s p, s ∈ strategies /\ p ∈ pods_of s /\ payload i = payload (NewScheduleIntent now s p)) /\
    (forall g, g <> intentGVR -> kube_objects (r_kube (w_repo w')) g = kube_objects (r_kube (w_repo w)) g).
Proof.
  revert w. induction strategies as [|s l IH]; intros w Hok Hl Hroom; [exists w; split_and!; set_solver|]. cbn [sfor length] in *. unfold sbind.
  destruct (Hl s ltac:(set_solver)) as (Hs & Hp & Hm).
  destruct (refresh_strategy_ok s (pods_of s) w Hok (proj1 Hs) Hp ltac:(lia)) as (w1 & -> & Hok1 & Hcov1 & Hoth1 & Hor1 & Hg1 & Hn1).
  destruct (IH w1 Hok1) as (w' & E & Hok' & Hcov' & Hoth' & Hor' & Hg').
  { intros s' Hs'. destruct (Hl s' ltac:(set_solver)) as [Hh ?]. split; [|done]. destruct Hh as [Hv Hi]. split; [done|].
    cbn [res_gvr strategy_resource] in *. by rewrite Hg1. }
  { lia. }
  exists w'. split; [done|]. split; [done|]. split; [|split; [|split]].
  - intros s' [->|Hin]%elem_of_cons; [|by apply Hcov'].
    destruct (decide (ss_ID s ∈ ss_ID <$> l)) as [Hin|Hin].
    + apply list_elem_of_fmap in Hin as (s' & Hid & Hin).
      assert (s = s') as -> by (apply (holds_inj (RA := strategy_resource ObjectIDFromHex crNamespace) (r_kube (w_repo w)));
        [done|apply Hl; set_solver|done]). by apply Hcov'.
    + intros podID. rewrite <- (Hcov1 podID). split; intros (i & Hi & Hsid & Hpod); exists i; (split; [|done]);
        (apply Hoth'; [by rewrite Hsid|done]).
  - intros i Hi. cbn in Hi. rewrite Hoth', Hoth1 by set_solver. done.
  - intros i Hi. apply Hor' in Hi as [Hi|(s' & p & Hs' & Hpay)]; [|right; exists s', p; split; [by right|done]].
    apply Hor1 in Hi as [Hi|(p & Hp' & Hpay)]; [by left|right; exists s, p; split; [by left|done]].
  - intros g Hg. by rewrite Hg', Hg1.
Qed.

(** The whole refresh. *)
Lemma refresh_run_ok (pods_of : ScheduleStrategy -> list Pod) most (w : world K) :
  ok w ->
  (forall s, held_strategy w s -> QueryPods k8s (ss_K8sNamespace s) (ss_LabelSelectors s) = Some (pods_of s) /\ length (pods_of s) <= most) ->
  next w + size (kube_objects (r_kube (w_repo w)) strategyGVR) * most <= supply ->
  exists w', refreshStaleIntents ObjectIDFromHex crNamespace NewObjectID k8s now w = (w', Ok tt) /\ ok w' /\
    (forall g, g <> intentGVR -> kube_objects (r_kube (w_repo w')) g = kube_objects (r_kube (w_repo w)) g) /\
    (forall s, held_strategy w' s -> covers w' s (pods_of s)) /\
    (forall i, held w' i -> held w i \/ exists s p, held_strategy w s /\ p ∈ pods_of s /\ payload i = payload (NewScheduleIntent now s p)).
Proof.
  intros Hr Hq Hroom. unfold refreshStaleIntents, sbind. rewrite on_repo_run.
  destruct (query_strategies_up ObjectIDFromHex crNamespace NewObjectID supply (mkQueryStrategy [] [] []) (w_repo w) Hr eq_refl)
    as (r1 & strategies & -> & Hr1 & Hun & Hn1 & Hst & Hlen).
  assert (forall s, holds_strategy ObjectIDFromHex crNamespace (r_kube r1) s <-> s ∈ strategies) as Hst'.
  { intros s. rewrite Hst. rewrite (holds_unchanged (RA := strategy_resource ObjectIDFromHex crNamespace) _ _ s Hun). naive_solver. }
  destruct (refresh_loop_ok pods_of most strategies (mkWorld (w_fleet w) r1) Hr1) as (w' & E & Hok & Hcov & _ & Hor & Hg).
  { intros s Hs. split; [by apply Hst'|]. apply Hq, Hst, Hs. }
  { cbn [w_repo]. nia. }
  exists w'. split; [exact E|]. split; [done|]. split; [|split].
  - intros g Hne. rewrite Hg by done. apply Hun.
  - intros s Hs. apply Hcov, Hst'. destruct Hs as [Hv Hs]. split; [done|]. cbn [res_gvr strategy_resource] in *. by rewrite <- Hg.
  - intros i Hi. apply Hor in Hi as [Hi|(s & p & Hs & Hp & Hpay)].
    + left. by apply (held_unchanged (w_repo w) r1 i Hun).
    + right. exists s, p. split; [apply Hst, Hs|done].
Qed.

End refresh.

(** ** Properties *)

(** C3 (intents follow the pods).  With a store in working order and a cluster
    that answers, one run of [refreshStaleIntents] succeeds and leaves every stored
    strategy with intents for exactly the pods it matches now: those of pods that
    are gone have been deleted, pods that are new have one.  Strategies and node
    policies are not touched, and the store is again in working order.  The
    identifiers drawn ([most] per stored strategy) are taken to be distinct. *)
Theorem refresh_follows_pods {K} `{KubeLaws K} `{!KubeUp K} ObjectIDFromHex crNamespace NewObjectID k8s now
    (supply most : nat) (pods_of : ScheduleStrategy -> list Pod) (w : world K) :
  (forall n, valid_id ObjectIDFromHex (NewObjectID n)) -> distinct_ids NewObjectID supply ->
  working ObjectIDFromHex crNamespace NewObjectID supply (w_repo w) ->
  (forall s, holds_strategy ObjectIDFromHex crNamespace (r_kube (w_repo w)) s ->
     QueryPods k8s (ss_K8sNamespace s) (ss_LabelSelectors s) = Some (pods_of s) /\ length (pods_of s) <= most) ->
  r_next (w_repo w) + size (kube_objects (r_kube (w_repo w)) strategyGVR) * most <= supply ->
  exists w', refreshStaleIntents ObjectIDFromHex crNamespace NewObjectID k8s now w = (w', Ok tt) /\
    working ObjectIDFromHex crNamespace NewObjectID supply (w_repo w') /\
    (forall g, g <> intentGVR -> kube_objects (r_kube (w_repo w')) g = kube_objects (r_kube (w_repo w)) g) /\
    (forall s, holds_strategy ObjectIDFromHex crNamespace (r_kube (w_repo w')) s ->
       covers ObjectIDFromHex crNamespace w' s (pods_of s)).
Proof.
  intros Hids Hinj Hr Hq Hroom.
  destruct (refresh_run_ok ObjectIDFromHex crNamespace NewObjectID supply k8s now Hids Hinj pods_of most w Hr Hq Hroom)
    as (w' & E & Hok & Hg & Hcov & _). by exists w'.
Qed.

(** ** Concrete inputs *)

(** The pod of the first strategy was replaced: [p1] is gone and [p3] is new. *)
Definition replaced_k8s : K8SAdapter :=
  mkK8S (fun _ _ => Some [sample_pod "p2" "n1"; sample_pod "p3" "n1"]) (fun _ => Some [sample_dm "n1" "10.0.0.1"]) (fun _ _ => Some []) (fun _ => Some []).

(** The identifiers with which the stored intents were created are drawn last. *)
Lemma refresh_follows_pods_witness :
  let w := mkWorld (sample_fleet ∅) (mkRepo svc_store 0) in
  exists w', refreshStaleIntents sample_parse "gthulhu" sample_new_id replaced_k8s 9 w = (w', Ok tt) /\
    covers sample_parse "gthulhu" w' (stored_strategy 0) [sample_pod "p2" "n1"; sample_pod "p3" "n1"].
Proof.
  cbv zeta. set (w := mkWorld _ _). destruct svc_store_wf as (Hw & Hs & _).
  destruct (refresh_follows_pods sample_parse "gthulhu" sample_new_id replaced_k8s 9 5 2
    (fun _ => [sample_pod "p2" "n1"; sample_pod "p3" "n1"]) w) as (w' & E & _ & Hg & Hc).
  - exact sample_new_id_valid.
  - intros n m Hn Hm E. do 5 (destruct n as [|n]; [do 5 (destruct m as [|m]; [vm_compute in E; done|]); lia|]). lia.
  - split; [reflexivity|]. split; [exact Hw|]. intros n [_ Hn]. do 5 (destruct n as [|n]; [vm_compute; reflexivity|]). lia.
  - intros s _. split; [reflexivity|]. simpl. lia.
  - vm_compute. lia.
  - exists w'. split; [exact E|]. apply Hc. destruct Hs as [Hv Hk]. split; [exact Hv|].
    cbn [res_gvr strategy_resource] in *. rewrite Hg by discriminate. exact Hk.
Defined.
