(* ===== verification/K8sAdapter.v ===== *)
(** * The cluster as the manager sees it: api/manager/k8s_adapter/adapter.go

    A cache of pods that follows the events of the cluster, and the queries the
    manager makes: pods by namespace and label, decision makers by node, nodes by
    label, name or device.  The Kubernetes client library (label selectors, live
    listing) is a parameter; unstructured objects are those of KubeStore.v. *)

From stdpp Require Import base gmap strings list.
From Stdlib Require Import ZArith Lia Ascii.
From S2P Require Import Prelude GoStrings GoPath Intents ManagerDomain KubeStore NodePolicySvc.
#[local] Open Scope go_scope.

(** ** Objects of the cluster *)

Record ContainerPort := mkPort { cp_Name : string; cp_ContainerPort : Z }.

Record api_Container := mkApiContainer { ac_Name : string; ac_Command : list string; ac_Args : list string; ac_Ports : list ContainerPort }.

Record ContainerStatus := mkContainerStatus { cs_Name : string; cs_ContainerID : string }.

(** The fields of a pod that are read. *)
Record api_Pod := mkApiPod {
  ap_UID : string;
  ap_Name : string;
  ap_Namespace : string;
  ap_Labels : gmap string string;
  ap_NodeName : string;
  ap_Containers : list api_Container;
  ap_ContainerStatuses : list ContainerStatus;
  ap_PodIP : string;
  ap_HostIP : string;
  ap_Phase : string
}.

(** A node's conditions, by type and status. *)
Record api_Node := mkApiNode { an_Name : string; an_Labels : gmap string string; an_Conditions : list (string * string) }.

Record Container := mkContainer { ct_ContainerID : string; ct_Name : string; ct_Command : list string }.

(** ** Conversions *)

(** A nil map and an empty one read the same. *)
Definition copyLabels (labels : gmap string string) : gmap string string := labels.

Definition buildContainers (pod : api_Pod) : list Container :=
  let statusByName := foldl (fun m s => <[cs_Name s := cs_ContainerID s]> m) (∅ : gmap string string) (ap_ContainerStatuses pod) in
  (fun c => mkContainer (default "" (statusByName !! ac_Name c)) (ac_Name c) (ac_Command c ++ ac_Args c)) <$> ap_Containers pod.

Definition decisionMakerPortNames : list string := ["http"; "api"; "sidecar"; "dm"; "decisionmaker"].
Definition excludedPortNames : list string := ["monitor-metrics"; "metrics"; "prometheus"].

Definition preferred_port (p : ContainerPort) : bool := bool_decide (cp_Name p ∈ decisionMakerPortNames).
Definition excluded_port (p : ContainerPort) : bool := bool_decide (cp_Name p ∈ excludedPortNames).

(** The loop over the ports of all containers. *)
Fixpoint scan_ports (fallback nonExcluded : Z) (ports : list ContainerPort) : Z :=
  match ports with
  | [] => if decide (nonExcluded <> 0%Z) then nonExcluded else fallback
  | p :: rest =>
      let fallback := if decide (fallback = 0%Z) then cp_ContainerPort p else fallback in
      if excluded_port p then scan_ports fallback nonExcluded rest
      else if preferred_port p then cp_ContainerPort p
      else scan_ports fallback (if decide (nonExcluded = 0%Z) then cp_ContainerPort p else nonExcluded) rest
  end.

Definition firstContainerPort (pod : api_Pod) : Z := scan_ports 0 0 (concat (ac_Ports <$> ap_Containers pod)).

Definition mapPodState (phase : string) : NodeState :=
  if decide (phase = "Running") then NodeStateOnline
  else if decide (phase = "Pending") then NodeStateUnknown
  else NodeStateOffline.

Definition nodeToDomain (node : api_Node) : Node :=
  let status := match head (filter (fun c => c.1 = "Ready") (an_Conditions node)) with
                | Some (_, s) => if decide (s = "True") then "Ready" else "NotReady"
                | None => "Unknown"
                end in
  mkNode (an_Name node) (copyLabels (an_Labels node)) status.

(** The requirement written for one selector; [None] for an empty key. *)
Definition selector_text (s : LabelSelector) : option string :=
  if decide (ls_Key s = "") then None
  else if decide (ls_Value s = "") then Some (ls_Key s)
  else Some (ls_Key s +:+ "=" +:+ ls_Value s).

Definition build_selector (selectors : list LabelSelector) : string := Join (omap selector_text selectors) ",".

(** What the selector asks of an object's labels. *)
Definition label_matches (l : gmap string string) (s : LabelSelector) : bool :=
  if decide (ls_Key s = "") then true else
  match l !! ls_Key s with
  | None => false
  | Some v => if decide (ls_Value s = "") then true else bool_decide (v = ls_Value s)
  end.

(** ** The client library *)

(** Selectors are parsed from text and matched against labels; a selector that can
    be written is read as it was meant. *)
Class LabelLib := {
  selector : Type;
  labels_Parse : string -> option selector;
  selector_String : selector -> string;
  selector_Matches : selector -> gmap string string -> bool;
  well_formed : LabelSelector -> Prop
}.

Class LabelLaws (L : LabelLib) : Prop := {
  parse_built : forall sels, Forall (fun s => ls_Key s = "" \/ well_formed s) sels -> exists q,
    labels_Parse (build_selector sels) = Some q /\
    (forall l, selector_Matches q l = forallb (label_matches l) sels) /\
    (selector_String q = "" <-> Forall (fun s => ls_Key s = "") sels)
}.

(** ** The adapter *)

(** The clients are present or nil; of the cache, its pods and whether the informer
    has delivered its first listing. *)
Record Adapter := mkAdapter {
  ad_client : bool;
  ad_dynamicClient : bool;
  ad_podCache : gmap string api_Pod;
  ad_cacheHasSynced : bool
}.

(** [NewAdapter] before its informer reports anything. *)
Definition NewAdapter : Adapter := mkAdapter true true ∅ false.

Definition with_cache (m : gmap string api_Pod) (a : Adapter) : Adapter :=
  mkAdapter (ad_client a) (ad_dynamicClient a) m (ad_cacheHasSynced a).

Definition setPodCache (pod : api_Pod) (a : Adapter) : Adapter := with_cache (<[ap_UID pod := pod]> (ad_podCache a)) a.

Definition deletePodCache (uid : string) (a : Adapter) : Adapter := with_cache (delete uid (ad_podCache a)) a.

(** What the informer reports.  A deletion it missed comes with the last state it
    knew, if that was a pod. *)
Inductive pod_event :=
| PodAdded (pod : api_Pod)
| PodUpdated (old new : api_Pod)
| PodDeleted (pod : api_Pod)
| PodDeletedUnknown (last : option api_Pod)
| CacheSynced (ok : bool).

Definition handle_event (a : Adapter) (e : pod_event) : Adapter :=
  match e with
  | PodAdded pod => setPodCache pod a
  | PodUpdated _ pod => setPodCache pod a
  | PodDeleted pod => deletePodCache (ap_UID pod) a
  | PodDeletedUnknown (Some pod) => deletePodCache (ap_UID pod) a
  | PodDeletedUnknown None => a
  | CacheSynced ok => mkAdapter (ad_client a) (ad_dynamicClient a) (ad_podCache a) ok
  end.

Record QueryPodsOptions := mkQueryPods { qpo_K8SNamespace : list string; qpo_LabelSelectors : list LabelSelector }.

Record QueryDecisionMakerPodsOptions := mkQueryDMPods {
  qdo_K8SNamespace : list string;
  qdo_NodeIDs : list string;
  qdo_DecisionMakerLabel : LabelSelector
}.

Record QueryNodesOptions := mkQueryNodes { qno_NodeSelectors : list LabelSelector; qno_NodeNames : list string }.

Inductive k8s_error := ErrNilQueryInput | ErrNoClient | ErrParse | ErrListPods (ns : string) | ErrListNodes | ErrListSlices.

Section queries.
  Context {L : LabelLib}.
  (** Go's order over a map, the live listing of pods, of nodes and of slices. *)
  Variable range : list string -> list string.
  Variable live_pods : string -> string -> option (list api_Pod).
  Variable live_nodes : string -> option (list api_Node).
  Variable live_slices : option (list unstructured).

Definition podsFromCache (namespaces : list string) (q : selector) (a : Adapter) : list api_Pod :=
  let nsAll := bool_decide (namespaces = [] \/ namespaces = [""]) in
  let pods := omap (fun uid => ad_podCache a !! uid) (range (map_to_list (ad_podCache a)).*1) in
  filter (fun p => (nsAll || bool_decide (ap_Namespace p ∈ namespaces)) &&
                   (bool_decide (selector_String q = "") || selector_Matches q (ap_Labels p)) = true) pods.

Fixpoint listPodsLive (namespaces : list string) (labelSelector : string) (a : Adapter) : Adapter * result k8s_error (list api_Pod) :=
  match namespaces with
  | [] => (a, Ok [])
  | ns :: rest =>
      match live_pods ns labelSelector with
      | None => (a, Err (ErrListPods ns))
      | Some pods =>
          let a := foldl (fun a p => setPodCache p a) a pods in
          match listPodsLive rest labelSelector a with
          | (a, Ok more) => (a, Ok (pods ++ more))
          | (a, Err e) => (a, Err e)
          end
      end
  end.

Definition listPods (namespaces : list string) (labelSelector : string) (a : Adapter) : Adapter * result k8s_error (list api_Pod) :=
  match labels_Parse labelSelector with
  | None => (a, Err ErrParse)
  | Some q =>
      if ad_cacheHasSynced a then (a, Ok (podsFromCache namespaces q a))
      else listPodsLive namespaces labelSelector a
  end.

(** [metav1.NamespaceAll] stands for no restriction. *)
Definition or_all (namespaces : list string) : list string := match namespaces with [] => [""] | _ => namespaces end.

Definition pod_result (p : api_Pod) : Pod * list Container :=
  (mkPod (ap_Name p) (ap_Namespace p) (copyLabels (ap_Labels p)) (ap_UID p) (ap_NodeName p), buildContainers p).

Definition QueryPods (opt : option QueryPodsOptions) (a : Adapter) : Adapter * result k8s_error (list (Pod * list Container)) :=
  match opt with
  | None => (a, Err ErrNilQueryInput)
  | Some opt =>
      if negb (ad_client a) then (a, Err ErrNoClient) else
      let '(a, r) := listPods (or_all (qpo_K8SNamespace opt)) (build_selector (qpo_LabelSelectors opt)) a in
      (a, rmap (fmap pod_result) r)
  end.

Definition dm_result (p : api_Pod) : DecisionMakerPod :=
  let host := if decide (ap_PodIP p = "") then ap_HostIP p else ap_PodIP p in
  mkDMPod (ap_NodeName p) (firstContainerPort p) host (mapPodState (ap_Phase p)).

Definition QueryDecisionMakerPods (opt : option QueryDecisionMakerPodsOptions) (a : Adapter)
    : Adapter * result k8s_error (list DecisionMakerPod) :=
  match opt with
  | None => (a, Err ErrNilQueryInput)
  | Some opt =>
      if negb (ad_client a) then (a, Err ErrNoClient) else
      let '(a, r) := listPods (or_all (qdo_K8SNamespace opt)) (build_selector [qdo_DecisionMakerLabel opt]) a in
      (a, rmap (fun pods => dm_result <$>
                  filter (fun p => is_nil (qdo_NodeIDs opt) || bool_decide (ap_NodeName p ∈ qdo_NodeIDs opt) = true) pods) r)
  end.

(** *** Nodes *)

Definition ListNodes (a : Adapter) : result k8s_error (list Node) :=
  if negb (ad_client a) then Err ErrNoClient else
  match live_nodes "" with None => Err ErrListNodes | Some l => Ok (nodeToDomain <$> l) end.

Definition QueryNodesBySelectors (opt : option QueryNodesOptions) (a : Adapter) : result k8s_error (list Node) :=
  match opt with
  | None => Err ErrNilQueryInput
  | Some opt =>
      if negb (ad_client a) then Err ErrNoClient else
      match live_nodes (build_selector (qno_NodeSelectors opt)) with
      | None => Err ErrListNodes
      | Some l => Ok (nodeToDomain <$> filter (fun n => is_nil (qno_NodeNames opt) || bool_decide (an_Name n ∈ qno_NodeNames opt) = true) l)
      end
  end.

(** [fmt.Sprintf] with [%v] on values other than strings, integers and Booleans. *)
Variable sprint_other : jval -> string.

Definition sprint (v : jval) : string :=
  match v with
  | JStr s => s
  | JInt z => Itoa z
  | JBool b => if b then "true" else "false"
  | _ => sprint_other v
  end.

Definition attributeValueToString (raw : jval) : string :=
  match raw with
  | JObj m => match omap (jget m) ["string"; "int"; "bool"; "version"] with v :: _ => sprint v | [] => "" end
  | _ => sprint raw
  end.

Definition attribute_matches (attrs : fields) (s : LabelSelector) : bool :=
  match jget attrs (ls_Key s) with
  | None => false
  | Some raw => bool_decide (ls_Value s = "") || bool_decide (attributeValueToString raw = ls_Value s)
  end.

Definition deviceAttributesMatch (attrs : fields) (wanted : list LabelSelector) : bool := forallb (attribute_matches attrs) wanted.

Definition getUnstructuredStr (obj : unstructured) (field1 field2 : string) : string :=
  match NestedMap obj field1 with Some m => getStr m field2 | None => "" end.

Definition device_attributes (d : jval) : option fields :=
  match d with JObj device => basic ← NestedMap device "basic"; NestedMap basic "attributes" | _ => None end.

Definition resourceSliceMatchesSelector (slice : unstructured) (sel : DRASelector) : bool :=
  if negb (bool_decide (dra_DeviceClass sel = "")) && negb (bool_decide (getUnstructuredStr slice "spec" "driver" = dra_DeviceClass sel))
  then false
  else if is_nil (dra_Attributes sel) then true
  else match (spec ← NestedMap slice "spec"; jget spec "devices") with
       | Some (JArr devices) =>
           existsb (fun d => match device_attributes d with
                             | Some attrs => deviceAttributesMatch attrs (dra_Attributes sel)
                             | None => false
                             end) devices
       | _ => false
       end.

(** The nodes named by the slices that match a selector. *)
Definition matched_nodes (slices : list unstructured) (sels : list DRASelector) : list string :=
  filter (fun n => n <> "") ((fun s => getUnstructuredStr s "spec" "nodeName") <$>
    filter (fun s => existsb (resourceSliceMatchesSelector s) sels = true) slices).

Definition QueryNodesByDRA (opt : option (list DRASelector)) (a : Adapter) : result k8s_error (list Node) :=
  match opt with
  | None => Err ErrNilQueryInput
  | Some sels =>
      if negb (ad_dynamicClient a) then Err ErrNoClient else
      if is_nil sels then Ok [] else
      match live_slices with
      | None => Err ErrListSlices
      | Some slices =>
          let names := matched_nodes slices sels in
          if is_nil names then Ok [] else
          match live_nodes "" with
          | None => Err ErrListNodes
          | Some l => Ok (nodeToDomain <$> filter (fun n => an_Name n ∈ names) l)
          end
      end
  end.

End queries.

(** ** Lemmas *)

(** An event about a pod with a given identifier, and the state it leaves it in. *)
Definition concerns (uid : string) (e : pod_event) : Prop :=
  match e with
  | PodAdded p | PodUpdated _ p | PodDeleted p | PodDeletedUnknown (Some p) => ap_UID p = uid
  | _ => False
  end.

Definition leaves (e : pod_event) : option api_Pod :=
  match e with PodAdded p | PodUpdated _ p => Some p | _ => None end.

(** The last event about the pod says it is [p]. *)
Definition current (events : list pod_event) (p : api_Pod) : Prop :=
  exists before e after, events = before ++ e :: after /\ leaves e = Some p /\ Forall (fun e => ~ concerns (ap_UID p) e) after.

#[global] Instance concerns_dec uid e : Decision (concerns uid e).
Proof. destruct e as [| | |[?|]|]; cbn; apply _. Defined.

Lemma handle_event_lookup a e uid :
  ad_podCache (handle_event a e) !! uid = if decide (concerns uid e) then leaves e else ad_podCache a !! uid.
Proof. destruct e as [| | |[p|]|]; cbn; repeat case_decide; simplify_map_eq; done. Qed.

Lemma leaves_concerns e p : leaves e = Some p -> concerns (ap_UID p) e.
Proof. by destruct e as [| | |[?|]|]; cbn; intros [= ->]. Qed.

Lemma events_lookup events a p :
  ad_podCache a = ∅ -> ad_podCache (foldl handle_event a events) !! ap_UID p = Some p <-> current events p.
Proof.
  intros Hempty. induction events as [|e events IH] using rev_ind.
  { cbn. rewrite Hempty, lookup_empty. split; [done|]. by intros ([|??] & ? & ? & [=] & _). }
  rewrite foldl_snoc, handle_event_lookup. case_decide as Hc.
  - split.
    + intros He. exists events, e, []. by rewrite He.
    + intros (before & e' & after & Heq & Hl & Hafter).
      destruct after as [|e2 after _] using rev_ind.
      * by apply app_inj_tail in Heq as [_ ->].
      * rewrite app_comm_cons, app_assoc in Heq. apply app_inj_tail in Heq as [_ ->].
        apply Forall_app in Hafter as [_ Hx]. inversion Hx; subst. done.
  - rewrite IH. split.
    + intros (before & e' & after & -> & Hl & Hafter). exists before, e', (after ++ [e]).
      rewrite <- app_assoc. split; [done|]. split; [done|]. apply Forall_app. by rewrite Forall_singleton.
    + intros (before & e' & after & Heq & Hl & Hafter).
      destruct after as [|e2 after _] using rev_ind.
      * apply app_inj_tail in Heq as [_ ->]. by apply leaves_concerns in Hl.
      * rewrite app_comm_cons, app_assoc in Heq. apply app_inj_tail in Heq as [-> ->].
        apply Forall_app in Hafter as [Ha _]. by exists before, e', after.
Qed.

(** The cache is keyed by the identifier of its pods. *)
Definition keyed (m : gmap string api_Pod) : Prop := forall uid p, m !! uid = Some p -> ap_UID p = uid.

Lemma events_keyed events a : keyed (ad_podCache a) -> keyed (ad_podCache (foldl handle_event a events)).
Proof.
  intros Ha. induction events as [|e events IH] using rev_ind; [done|].
  intros uid p. rewrite foldl_snoc, handle_event_lookup. case_decide as Hc; [|apply IH].
  intros Hl. destruct e as [| | |[?|]|]; cbn in *; congruence.
Qed.

Lemma events_client events a :
  ad_client (foldl handle_event a events) = ad_client a /\ ad_dynamicClient (foldl handle_event a events) = ad_dynamicClient a.
Proof.
  induction events as [|e events IH] using rev_ind; [done|].
  rewrite foldl_snoc. destruct e as [| | |[?|]|]; cbn; apply IH.
Qed.

(** What is in scope of a list of namespaces, none standing for all. *)
Definition in_namespaces (namespaces : list string) (p : api_Pod) : Prop :=
  namespaces = [] \/ namespaces = [""] \/ ap_Namespace p ∈ namespaces.

Section ranged.
  Context {L : LabelLib}.
  Variable range : list string -> list string.
  Hypothesis Hrange : forall l, range l ≡ₚ l.

Lemma cached_pods_elem a p :
  keyed (ad_podCache a) ->
  p ∈ omap (fun uid => ad_podCache a !! uid) (range (map_to_list (ad_podCache a)).*1) <-> ad_podCache a !! ap_UID p = Some p.
Proof.
  intros Hk. rewrite list_elem_of_omap. split.
  - intros (uid & _ & Hl). by rewrite (Hk _ _ Hl).
  - intros Hl. exists (ap_UID p). split; [|done]. rewrite Hrange. apply list_elem_of_fmap.
    exists (ap_UID p, p). by rewrite elem_of_map_to_list.
Qed.

Lemma cached_pods_uids a :
  keyed (ad_podCache a) -> NoDup (ap_UID <$> omap (fun uid => ad_podCache a !! uid) (range (map_to_list (ad_podCache a)).*1)).
Proof.
  intros Hk.
  assert (Hnd : NoDup (range (map_to_list (ad_podCache a)).*1)) by (rewrite Hrange; apply NoDup_fst_map_to_list).
  induction Hnd as [|uid l Hnew Hnd IH]; cbn; [constructor|].
  destruct (ad_podCache a !! uid) as [p|] eqn:Hl; [|done]. cbn. constructor; [|done].
  rewrite (Hk _ _ Hl). intros (q & -> & (uid' & Hin & Hq)%list_elem_of_omap)%list_elem_of_fmap.
  apply Hnew. by rewrite (Hk _ _ Hq).
Qed.

Lemma NoDup_fmap_filter {A B} (f : A -> B) (P : A -> Prop) `{!forall x, Decision (P x)} l :
  NoDup (f <$> l) -> NoDup (f <$> filter P l).
Proof.
  induction l as [|x l IH]; [done|]. rewrite fmap_cons, NoDup_cons, filter_cons. intros [Hx Hl].
  case_decide; [|auto]. rewrite fmap_cons, NoDup_cons. split; [|auto].
  intros (y & Hxy & Hy)%list_elem_of_fmap. apply Hx, list_elem_of_fmap. exists y. split; [done|].
  by apply list_elem_of_filter in Hy as [_ ?].
Qed.

(** What the cache answers, for a selector read as it was meant. *)
Lemma podsFromCache_spec `{!LabelLaws L} namespaces sels q a :
  keyed (ad_podCache a) -> labels_Parse (build_selector sels) = Some q ->
  Forall (fun s => ls_Key s = "" \/ well_formed s) sels ->
  (forall p, p ∈ podsFromCache range (or_all namespaces) q a <->
     ad_podCache a !! ap_UID p = Some p /\ in_namespaces namespaces p /\ forallb (label_matches (ap_Labels p)) sels = true) /\
  NoDup (ap_UID <$> podsFromCache range (or_all namespaces) q a).
Proof.
  intros Hk Hq Hwf. destruct (parse_built sels Hwf) as (q' & Hq' & Hm & Hstr). rewrite Hq in Hq'. injection Hq' as <-.
  unfold podsFromCache. split; [|by apply NoDup_fmap_filter, cached_pods_uids]. intros p.
  rewrite list_elem_of_filter, (cached_pods_elem a p Hk), andb_true_iff, !orb_true_iff, !bool_decide_eq_true, Hm.
  unfold in_namespaces. split.
  - intros [[Hns Hl] Hc]. split; [done|]. split.
    + destruct namespaces; cbn in Hns; [by left|]. naive_solver.
    + destruct Hl as [Hnone%Hstr|Hl]; [|done]. apply forallb_True_iff.
      eapply Forall_impl; [exact Hnone|]. intros s Hs. unfold label_matches. by rewrite decide_True.
  - intros (Hc & Hns & Hl). split; [|done]. split; [|by right].
    destruct namespaces; cbn; [by left; right|]. naive_solver.
Qed.

End ranged.

(** ** The properties *)


(** The port wanted of a pod: of the first preferred port, failing that of the first
    port that is not excluded, failing that of the first. *)
Definition wanted_port (ports : list ContainerPort) : Z :=
  let numbered := filter (fun p => cp_ContainerPort p <> 0%Z) ports in
  match list_find (fun p => preferred_port p = true) ports, list_find (fun p => excluded_port p = false) numbered, head numbered with
  | Some (_, p), _, _ | None, Some (_, p), _ | None, None, Some p => cp_ContainerPort p
  | None, None, None => 0%Z
  end.

Lemma preferred_not_excluded p : preferred_port p = true -> excluded_port p = false.
Proof.
  unfold preferred_port, excluded_port. rewrite bool_decide_eq_true, bool_decide_eq_false.
  unfold decisionMakerPortNames, excludedPortNames. set_unfold. intuition congruence.
Qed.

Lemma scan_ports_spec ports fallback nonExcluded :
  scan_ports fallback nonExcluded ports =
  match list_find (fun p => preferred_port p = true) ports with
  | Some (_, p) => cp_ContainerPort p
  | None =>
      let numbered := filter (fun p => cp_ContainerPort p <> 0%Z) ports in
      let other := match list_find (fun p => excluded_port p = false) numbered with Some (_, p) => cp_ContainerPort p | None => 0%Z end in
      let first := match head numbered with Some p => cp_ContainerPort p | None => 0%Z end in
      let n := if decide (nonExcluded = 0%Z) then other else nonExcluded in
      if decide (n = 0%Z) then (if decide (fallback = 0%Z) then first else fallback) else n
  end.
Proof.
  revert fallback nonExcluded. induction ports as [|p ports IH]; intros fallback nonExcluded.
  { cbn. by repeat case_decide. }
  cbn [scan_ports list_find]. rewrite filter_cons.
  destruct (decide (preferred_port p = true)) as [Hp|Hp].
  { by rewrite (preferred_not_excluded p Hp), Hp. }
  apply not_true_is_false in Hp. rewrite Hp, !IH.
  destruct (list_find _ ports) as [[? q]|] eqn:Hf; cbn [fmap option_fmap option_map prod_map].
  { by case_match. }
  destruct (decide (cp_ContainerPort p = 0%Z)) as [Hz|Hz].
  - rewrite (decide_False (P := cp_ContainerPort p <> 0%Z)) by tauto. rewrite Hz. case_match; repeat case_decide; congruence.
  - rewrite (decide_True (P := cp_ContainerPort p <> 0%Z)) by done. cbn [list_find head].
    destruct (excluded_port p) eqn:He.
    + rewrite (decide_False (P := true = false)) by done.
      destruct (list_find _ (filter _ ports)) as [[? r]|] eqn:Hr; cbn; repeat case_decide; congruence.
    + rewrite (decide_True (P := false = false)) by done. cbn. repeat case_decide; congruence.
Qed.

(** Remark (the port of a decision maker): the loop with its two remembered candidates
    returns the port wanted, the first port in the order of the containers whose name
    is preferred, whatever its rank in the list of preferred names; without one, the
    first whose name is not excluded; and an excluded one only when every port is. *)
Theorem first_container_port_spec pod :
  let ports := concat (ac_Ports <$> ap_Containers pod) in
  firstContainerPort pod = wanted_port ports /\
  (forall p, p ∈ ports -> cp_ContainerPort p <> 0%Z -> excluded_port p = false ->
     exists q, q ∈ ports /\ excluded_port q = false /\ firstContainerPort pod = cp_ContainerPort q).
Proof.
  intros ports. assert (Heq : firstContainerPort pod = wanted_port ports).
  { unfold firstContainerPort. fold ports. rewrite scan_ports_spec. unfold wanted_port. cbn zeta.
    destruct (list_find _ ports) as [[? p]|]; [done|].
    destruct (list_find _ (filter _ ports)) as [[i p]|] eqn:Hp; destruct (head _); repeat case_decide; try done.
    all: apply list_find_Some in Hp as [Hp _]; apply list_elem_of_lookup_2, list_elem_of_filter in Hp; tauto. }
  split; [done|]. intros p Hin Hz He. rewrite Heq. unfold wanted_port. cbn zeta.
  destruct (list_find _ ports) as [[i q]|] eqn:Hq.
  { apply list_find_Some in Hq as (Hq & Hpref & _). exists q. split; [by eapply list_elem_of_lookup_2|].
    by rewrite preferred_not_excluded. }
  destruct (list_find _ (filter _ ports)) as [[i q]|] eqn:Hr.
  - apply list_find_Some in Hr as (Hr & Hex & _). exists q. split; [|done].
    by apply list_elem_of_lookup_2, list_elem_of_filter in Hr as [_ ?].
  - apply list_find_None in Hr. rewrite Forall_forall in Hr. destruct (Hr p); [|done]. by apply list_elem_of_filter.
Qed.

(** A slice offers a device a selector asks for. *)
Definition offers (sprint_other : jval -> string) (slice : unstructured) (sel : DRASelector) : Prop :=
  (dra_DeviceClass sel = "" \/ getUnstructuredStr slice "spec" "driver" = dra_DeviceClass sel) /\
  (dra_Attributes sel = [] \/
   exists spec devices d attrs, NestedMap slice "spec" = Some spec /\ jget spec "devices" = Some (JArr devices) /\ d ∈ devices /\
     device_attributes d = Some attrs /\ Forall (fun s => attribute_matches sprint_other attrs s = true) (dra_Attributes sel)).

Lemma deviceAttributesMatch_spec sprint_other attrs wanted :
  deviceAttributesMatch sprint_other attrs wanted = true <-> Forall (fun s => attribute_matches sprint_other attrs s = true) wanted.
Proof. apply forallb_True_iff. Qed.

Lemma some_device_spec sprint_other devices wanted :
  existsb (fun d => match device_attributes d with
                    | Some attrs => deviceAttributesMatch sprint_other attrs wanted
                    | None => false
                    end) devices = true <->
  exists d attrs, d ∈ devices /\ device_attributes d = Some attrs /\ Forall (fun s => attribute_matches sprint_other attrs s = true) wanted.
Proof.
  rewrite existsb_exists. setoid_rewrite <- list_elem_of_In. split.
  - intros (d & Hin & Hd). destruct (device_attributes d) as [attrs|] eqn:Ha; [|done].
    apply deviceAttributesMatch_spec in Hd. eauto.
  - intros (d & attrs & Hin & Ha & Hall). exists d. rewrite Ha. split; [done|]. by apply deviceAttributesMatch_spec.
Qed.

Lemma resourceSliceMatchesSelector_spec sprint_other slice sel :
  resourceSliceMatchesSelector sprint_other slice sel = true <-> offers sprint_other slice sel.
Proof.
  unfold resourceSliceMatchesSelector, offers.
  assert (Hdriver : negb (bool_decide (dra_DeviceClass sel = "")) && negb (bool_decide (getUnstructuredStr slice "spec" "driver" = dra_DeviceClass sel)) = false <->
    (dra_DeviceClass sel = "" \/ getUnstructuredStr slice "spec" "driver" = dra_DeviceClass sel)).
  { by rewrite andb_false_iff, !negb_false_iff, !bool_decide_eq_true. }
  rewrite <- Hdriver. destruct (negb _ && negb _); [split; [done|by intros [? _]]|].
  destruct (is_nil (dra_Attributes sel)) eqn:Hn.
  { apply is_nil_spec in Hn. split; [by auto|done]. }
  assert (Hne : dra_Attributes sel <> []) by (intros Hx; by rewrite Hx in Hn).
  destruct (NestedMap slice "spec") as [spec|]; cbn [mbind option_bind].
  2: { split; [done|]. by intros [_ [?|(? & ? & ? & ? & ? & _)]]. }
  destruct (jget spec "devices") as [[]|] eqn:Hj.
  all: try (split; [done|]; intros [_ [?|(? & ? & ? & ? & [= <-] & Hj' & _)]]; [done|]; by rewrite Hj in Hj').
  rewrite some_device_spec. split.
  - intros (d & attrs & Hd). split; [done|]. right. naive_solver.
  - intros [_ [?|(spec' & ds & d & attrs & [= <-] & Hj' & Hd)]]; [done|].
    rewrite Hj in Hj'. injection Hj' as <-. eauto.
Qed.

(** Remark (nodes by device): a query by devices returns exactly the nodes of the cluster
    that are named by a slice offering a device one of the selectors asks for. *)
Theorem query_nodes_by_dra_spec sprint_other live_nodes slices nodes sels a r :
  ad_dynamicClient a = true -> live_nodes "" = Some nodes ->
  QueryNodesByDRA live_nodes (Some slices) sprint_other (Some sels) a = r ->
  exists found, r = Ok (nodeToDomain <$> found) /\
  forall n, n ∈ found <-> n ∈ nodes /\ an_Name n <> "" /\
    exists slice sel, slice ∈ slices /\ sel ∈ sels /\ getUnstructuredStr slice "spec" "nodeName" = an_Name n /\ offers sprint_other slice sel.
Proof.
  intros Hc Hl <-. unfold QueryNodesByDRA. rewrite Hc, Hl. cbn [negb].
  assert (Hm : forall name, name ∈ matched_nodes sprint_other slices sels <-> name <> "" /\
    exists slice sel, slice ∈ slices /\ sel ∈ sels /\ getUnstructuredStr slice "spec" "nodeName" = name /\ offers sprint_other slice sel).
  { intros name. unfold matched_nodes. rewrite list_elem_of_filter, list_elem_of_fmap.
    setoid_rewrite list_elem_of_filter. setoid_rewrite existsb_exists. setoid_rewrite <- list_elem_of_In.
    setoid_rewrite resourceSliceMatchesSelector_spec. naive_solver. }
  destruct (is_nil sels) eqn:Hs.
  { apply is_nil_spec in Hs as ->. exists []. split; [done|]. intros n.
    split; [by intros ?%not_elem_of_nil|]. by intros (_ & _ & ? & ? & _ & ?%not_elem_of_nil & _). }
  destruct (is_nil (matched_nodes sprint_other slices sels)) eqn:Hn.
  { apply is_nil_spec in Hn. exists []. split; [done|]. intros n. rewrite <- Hm, Hn.
    split; [by intros ?%not_elem_of_nil|]. by intros [_ ?%not_elem_of_nil]. }
  eexists. split; [done|]. intros n. rewrite list_elem_of_filter, Hm. tauto.
Qed.

(** ** Witnesses *)

(** A label library for selectors of the forms [key] and [key=value]. *)
Definition comma : Ascii.ascii := ","%char.
Definition equals : Ascii.ascii := "="%char.

Definition parse_requirement (t : string) : LabelSelector :=
  let '(k, v) := SplitN2 t equals in mkLabelSelector k (default "" v).

Definition plain_text (t : string) : Prop := has_char comma t = false /\ has_char equals t = false.

#[global] Instance plain_labels : LabelLib := {
  selector := list LabelSelector;
  labels_Parse t := Some (if decide (t = "") then [] else parse_requirement <$> Split t comma);
  selector_String := build_selector;
  selector_Matches q l := forallb (label_matches l) q;
  well_formed s := ls_Key s <> "" /\ plain_text (ls_Key s) /\ plain_text (ls_Value s)
}.

Lemma SplitN2_no_sep s c : has_char c s = false -> SplitN2 s c = (s, None).
Proof. induction s as [|a s IH]; cbn; [done|]. rewrite orb_false_iff. intros [-> Hs]. by rewrite IH. Qed.

Lemma SplitN2_app s c t : has_char c s = false -> SplitN2 (s +:+ String c t) c = (s, Some t).
Proof.
  induction s as [|a s IH]; rewrite ?string_app_nil_l, ?string_app_cons; cbn; [by rewrite Ascii.eqb_refl|]. rewrite orb_false_iff. intros [-> Hs]. by rewrite IH.
Qed.

Lemma selector_text_spec s t :
  well_formed s -> selector_text s = Some t -> parse_requirement t = s /\ has_char comma t = false /\ t <> "".
Proof.
  destruct s as [k v]. cbn. intros (Hk & [Hkc Hke] & [Hvc _]). unfold selector_text, parse_requirement. cbn.
  rewrite decide_False by done. case_decide as Hv; intros [= <-].
  - subst v. by rewrite SplitN2_no_sep.
  - change (k +:+ "=" +:+ v) with (k +:+ String equals v). rewrite SplitN2_app, has_char_app, Hkc by done. cbn.
    split; [done|]. split; [done|]. by destruct k.
Qed.

Lemma selector_text_None s : ls_Key s = "" -> selector_text s = None.
Proof. intros He. unfold selector_text. by rewrite decide_True. Qed.

Lemma omap_selector_cons s sels :
  omap selector_text (s :: sels) = match selector_text s with Some t => t :: omap selector_text sels | None => omap selector_text sels end.
Proof. done. Qed.

Lemma selector_texts sels :
  Forall (fun s => ls_Key s = "" \/ well_formed s) sels ->
  parse_requirement <$> omap selector_text sels = filter (fun s => ls_Key s <> "") sels /\
  Forall (fun t => has_char comma t = false /\ t <> "") (omap selector_text sels).
Proof.
  induction 1 as [|s sels Hs Hall IH]; [by split|]. rewrite filter_cons, omap_selector_cons. destruct IH as [IH1 IH2].
  destruct (decide (ls_Key s = "")) as [He|He].
  - by rewrite (selector_text_None s He), decide_False by tauto.
  - rewrite decide_True by done. destruct Hs as [?|Hs]; [done|].
    destruct (selector_text s) as [t|] eqn:Ht.
    + destruct (selector_text_spec s t Hs Ht) as (Hp & Hc & Hne). cbn. rewrite Hp, IH1. by split; [|constructor].
    + unfold selector_text in Ht. rewrite decide_False in Ht by done. by case_decide.
Qed.

Lemma Join_empty l sep : Forall (fun t => t <> "") l -> Join l sep = "" -> l = [].
Proof. destruct l as [|t [|t' l]]; [done| |]; inversion 1; subst; cbn; [done|]. by destruct t. Qed.

Lemma selector_texts_keys (sels : list LabelSelector) : omap selector_text (filter (fun s => ls_Key s <> "") sels) = omap selector_text sels.
Proof.
  induction sels as [|s sels IH]; [done|]. rewrite filter_cons. case_decide as Hk; rewrite !omap_selector_cons, IH; [done|].
  by rewrite (selector_text_None s) by (by destruct (decide (ls_Key s = ""))).
Qed.

Lemma filter_keys_nil (sels : list LabelSelector) : filter (fun s => ls_Key s <> "") sels = [] <-> Forall (fun s => ls_Key s = "") sels.
Proof.
  rewrite Forall_forall. split.
  - intros Hnil s Hs. destruct (decide (ls_Key s = "")) as [|Hk]; [done|].
    assert (Hin : s ∈ filter (fun s => ls_Key s <> "") sels) by by apply list_elem_of_filter.
    rewrite Hnil in Hin. by apply not_elem_of_nil in Hin.
  - intros Hall. apply elem_of_nil_inv. intros s [Hk Hs]%list_elem_of_filter. by apply Hk, Hall.
Qed.

Lemma forallb_keys l sels : forallb (label_matches l) (filter (fun s => ls_Key s <> "") sels) = forallb (label_matches l) sels.
Proof.
  induction sels as [|s sels IH]; [done|]. rewrite filter_cons. case_decide as Hk; cbn; rewrite IH; [done|].
  unfold label_matches at 2. by rewrite Hk.
Qed.

#[global] Instance plain_labels_laws : LabelLaws plain_labels.
Proof.
  constructor. intros sels Hwf. destruct (selector_texts sels Hwf) as [Hparse Htexts].
  assert (Hne : Forall (fun t => t <> "") (omap selector_text sels)) by (eapply Forall_impl; [exact Htexts|]; by intros ? [_ ?]).
  assert (Hbuilt : build_selector sels = "" <-> filter (fun s => ls_Key s <> "") sels = []).
  { rewrite <- Hparse. unfold build_selector. split; [intros ->%Join_empty; done|].
    by intros ->%fmap_nil_inv. }
  exists (filter (fun s => ls_Key s <> "") sels). cbn. split; [|split].
  - f_equal. case_decide as Ht; [by rewrite (proj1 Hbuilt Ht)|]. rewrite <- Hparse. unfold build_selector in *.
    change "," with (String comma ""). rewrite Split_Join; [done| |].
    + intros Hnil. by rewrite Hnil in Ht.
    + eapply Forall_impl; [exact Htexts|]. by intros ? [? _].
  - intros l. apply forallb_keys.
  - rewrite <- filter_keys_nil, <- Hbuilt. unfold build_selector. by rewrite selector_texts_keys.
Qed.

Definition web_pod (uid node : string) (ports : list ContainerPort) : api_Pod :=
  mkApiPod uid ("web-" +:+ uid) "prod" {["app" := "web"]} node [mkApiContainer "main" ["web"] ["-v"] ports] [] "10.0.0.1" "192.168.0.1" "Running".


Definition gpu_slice : unstructured :=
  [("spec", JObj [("driver", JStr "gpu.example.com"); ("nodeName", JStr "n1");
                  ("devices", JArr [JObj [("basic", JObj [("attributes", JObj [("model", JObj [("string", JStr "a100")])])])]])])].

Lemma query_nodes_by_dra_spec_witness :
  exists found, QueryNodesByDRA (fun _ => Some [mkApiNode "n1" ∅ [("Ready", "True")]; mkApiNode "n2" ∅ []]) (Some [gpu_slice]) (fun _ => "")
      (Some [mkDRA "gpu.example.com" [mkLabelSelector "model" "a100"]]) NewAdapter = Ok (nodeToDomain <$> found) /\
    mkApiNode "n1" ∅ [("Ready", "True")] ∈ found.
Proof.
  edestruct (query_nodes_by_dra_spec (fun _ => "") (fun _ => Some [mkApiNode "n1" ∅ [("Ready", "True")]; mkApiNode "n2" ∅ []]) [gpu_slice]
    [mkApiNode "n1" ∅ [("Ready", "True")]; mkApiNode "n2" ∅ []] [mkDRA "gpu.example.com" [mkLabelSelector "model" "a100"]] NewAdapter)
    as (found & Hq & Hin).
  - done.
  - done.
  - reflexivity.
  - exists found. split; [exact Hq|]. apply Hin. split; [by left|]. split; [done|].
    exists gpu_slice, (mkDRA "gpu.example.com" [mkLabelSelector "model" "a100"]).
    split; [by left|]. split; [by left|]. split; [done|]. by apply resourceSliceMatchesSelector_spec.
Defined.

(** The preferred names are documented as listed in the order of their priority; of
    two ports with such names the pod's order decides. *)
Example port_order_decides :
  firstContainerPort (web_pod "u1" "n1" [mkPort "dm" 8080; mkPort "http" 80]) = 8080%Z.
Proof. done. Qed.
