(* ===== verification/Argon2.v ===== *)
(** * Stored passwords: api/pkg/util/encrypt.go and api/manager/domain/value.go

    A password is kept as an Argon2 string with its parameters, salt and key in
    base64; it is hashed when it is written to the database, unless it already has
    the form of such a string.  The key derivation is a parameter; base64 and the
    scanning of numbers are those of the Go library. *)

From stdpp Require Import base strings list pretty.
From Stdlib Require Import ZArith Lia Ascii.
From S2P Require Import Prelude GoStrings GoPath Sha256.
#[local] Open Scope Z_scope.
#[local] Open Scope go_scope.

(** ** base64.RawStdEncoding *)

Definition b64_alphabet : string := "ABCDEFGHIJKLMNOPQRSTUVWXYZabcdefghijklmnopqrstuvwxyz0123456789+/".

Definition b64_char (v : Z) : ascii := nth (Z.to_nat v) (chars b64_alphabet) "A"%char.

Definition b64_value (a : ascii) : option Z := (fun p => Z.of_nat p.1) <$> list_find (fun c => c = a) (chars b64_alphabet).

Fixpoint b64_encode (bs : list Z) : string :=
  match bs with
  | [] => ""
  | [a] => String (b64_char (a / 4)) (String (b64_char (a mod 4 * 16)) "")
  | [a; b] => String (b64_char (a / 4)) (String (b64_char (a mod 4 * 16 + b / 16)) (String (b64_char (b mod 16 * 4)) ""))
  | a :: b :: c :: rest =>
      String (b64_char (a / 4)) (String (b64_char (a mod 4 * 16 + b / 16))
        (String (b64_char (b mod 16 * 4 + c / 64)) (String (b64_char (c mod 64)) (b64_encode rest))))
  end.

(** Four digits give three bytes; the last group may be short but for one digit. *)
Fixpoint b64_bytes (vs : list Z) : option (list Z) :=
  match vs with
  | [] => Some []
  | [_] => None
  | [x; y] => Some [x * 4 + y / 16]
  | [x; y; z] => Some [x * 4 + y / 16; y mod 16 * 16 + z / 4]
  | x :: y :: z :: w :: rest => r ← b64_bytes rest; Some (x * 4 + y / 16 :: y mod 16 * 16 + z / 4 :: z mod 4 * 64 + w :: r)
  end.

(** Line breaks are skipped; any other byte outside the alphabet is an error. *)
Definition line_break (a : ascii) : bool := Ascii.eqb a "013"%char || Ascii.eqb a "010"%char.

Definition b64_decode (s : string) : option (list Z) :=
  vs ← mapM b64_value (filter (fun a => line_break a = false) (chars s));
  b64_bytes vs.

(** ** fmt.Sscanf for [%d] *)

(** White space before a number is skipped, a line break there is an error. *)
Definition skip_space (s : string) : option string :=
  let t := trim_left s in
  if has_char "010"%char (String.substring 0 (String.length s - String.length t) s) then None else Some t.

Fixpoint span_digits (s : string) : string * string :=
  match s with
  | EmptyString => ("", "")
  | String a s' => match digit_of a with
                   | Some _ => let '(d, r) := span_digits s' in (String a d, r)
                   | None => ("", s)
                   end
  end.

Definition scan_int (s : string) : option (Z * string) :=
  t ← skip_space s;
  let '(sign, t) := match t with
                    | String a t' => if Ascii.eqb a "+"%char || Ascii.eqb a "-"%char then (String a "", t') else ("", t)
                    | EmptyString => ("", t)
                    end in
  let '(d, r) := span_digits t in
  v ← Atoi (sign +:+ d);
  Some (v, r).

Definition scan_uint (bits : Z) (s : string) : option (Z * string) :=
  t ← skip_space s;
  let '(d, r) := span_digits t in
  let '(v, ok) := ParseUint d in
  if ok && (v <? 2 ^ bits) then Some (v, r) else None.

(** A literal of the format and the number after it. *)
Definition scan_field {A} (literal : string) (scan : string -> option (A * string)) (s : string) : option (A * string) :=
  t ← strip_prefix literal s; scan t.

(** ** The format of a stored password *)

Record Argon2idParams := mkArgon {
  Memory : Z;
  Iterations : Z;
  Parallelism : Z;
  SaltLength : Z;
  KeyLength : Z
}.

Definition defaultArgon2idParams : Argon2idParams := mkArgon (16 * 1024) 3 2 16 32.

Definition argon2_Version : Z := 19.

(** [argon2Regex]: no class of it holds the separator, so it is matched by parts. *)
Definition some_digits (s : string) : bool := negb (bool_decide (s = "")) && forallb (fun a => bool_decide (is_Some (digit_of a))) (chars s).

Definition digits_after (literal s : string) : bool := match strip_prefix literal s with Some d => some_digits d | None => false end.

Definition b64_class (s : string) : bool :=
  negb (bool_decide (s = "")) && forallb (fun a => bool_decide (is_Some (b64_value a)) || Ascii.eqb a "="%char) (chars s).

Definition IsArgon2Hash (s : string) : bool :=
  match Split s "$"%char with
  | [first; alg; v; params; salt; hash] =>
      bool_decide (first = "") && bool_decide (alg ∈ ["argon2id"; "argon2i"; "argon2d"]) && digits_after "v=" v &&
      match Split params ","%char with
      | [m; t; p] => digits_after "m=" m && digits_after "t=" t && digits_after "p=" p
      | _ => false
      end && b64_class salt && b64_class hash
  | _ => false
  end.

Inductive pw_error := PwRand | PwFormat | PwVersionScan | PwVersion | PwParams | PwSalt | PwHash | PwPanic.

Definition decodeHash (encodedHash : string) : result pw_error (Argon2idParams * list Z * list Z) :=
  match Split encodedHash "$"%char with
  | [_; _; v; params; b64Salt; b64Hash] =>
      match scan_field "v=" scan_int v with
      | None => Err PwVersionScan
      | Some (version, _) =>
          if decide (version <> argon2_Version) then Err PwVersion else
          match (m ← scan_field "m=" (scan_uint 32) params;
                 t ← scan_field ",t=" (scan_uint 32) m.2;
                 p ← scan_field ",p=" (scan_uint 8) t.2;
                 Some (m.1, t.1, p.1)) with
          | None => Err PwParams
          | Some (m, t, p) =>
              match b64_decode b64Salt with
              | None => Err PwSalt
              | Some salt =>
                  match b64_decode b64Hash with
                  | None => Err PwHash
                  | Some hash => Ok (mkArgon m t p (u32 (Z.of_nat (length salt))) (u32 (Z.of_nat (length hash))), salt, hash)
                  end
              end
          end
      end
  | _ => Err PwFormat
  end.

(** ** Hashing and comparing *)

(** [argon2.IDKey(password, salt, time, memory, threads, keyLen)] returns [keyLen]
    bytes; it panics when there are no rounds or no threads. *)
Class Argon2Lib := IDKey : list Z -> list Z -> Z -> Z -> Z -> Z -> list Z.

Class Argon2Laws (A : Argon2Lib) : Prop :=
  IDKey_bytes : forall pw salt t m p n, 0 <= n < 2 ^ 32 ->
    Forall is_byte (IDKey pw salt t m p n) /\ Z.of_nat (length (IDKey pw salt t m p n)) = n.

Section passwords.
  Context {A : Argon2Lib}.
  Variable params : Argon2idParams.

Definition derive (password : string) (salt : list Z) (p : Argon2idParams) : result pw_error (list Z) :=
  if decide (Iterations p < 1 \/ Parallelism p < 1) then Err PwPanic
  else Ok (IDKey (bytes_of_string password) salt (Iterations p) (Memory p) (Parallelism p) (KeyLength p)).

(** The salt drawn, [None] when [rand.Read] fails. *)
Definition CreateArgon2Hash (salt : option (list Z)) (password : string) : result pw_error string :=
  match salt with
  | None => Err PwRand
  | Some salt =>
      let* hash := derive password salt params in
      Ok ("$argon2id$v=" +:+ Itoa argon2_Version +:+ "$m=" +:+ Itoa (Memory params) +:+ ",t=" +:+ Itoa (Iterations params) +:+
          ",p=" +:+ Itoa (Parallelism params) +:+ "$" +:+ b64_encode salt +:+ "$" +:+ b64_encode hash)
  end.

Definition ComparePasswordAndHash (password encodedHash : string) : result pw_error bool :=
  let* decoded := decodeHash encodedHash in
  let '(p, salt, hash) := decoded in
  let* otherHash := derive password salt p in
  Ok (bool_decide (hash = otherHash)).

(** [EncryptedPassword]: what is written, and the comparison with a plain text. *)
Definition MarshalBSONValue (salt : option (list Z)) (value : string) : result pw_error string :=
  if IsArgon2Hash value then Ok value else CreateArgon2Hash salt value.

Definition Cmp (value plainText : string) : result pw_error bool := ComparePasswordAndHash plainText value.

End passwords.

(** ** Lemmas *)

Lemma b64_value_char v : 0 <= v < 64 -> b64_value (b64_char v) = Some v.
Proof.
  intros Hv. replace v with (Z.of_nat (Z.to_nat v)) by lia.
  assert (Hall : forallb (fun n => bool_decide (b64_value (b64_char (Z.of_nat n)) = Some (Z.of_nat n))) (seq 0 64) = true) by by vm_compute.
  rewrite forallb_True_iff, Forall_forall in Hall. eapply bool_decide_eq_true_1, Hall, elem_of_seq. lia.
Qed.

(** Facts about the alphabet, checked over its characters. *)
Lemma b64_char_class v : let a := b64_char v in line_break a = false /\ is_Some (b64_value a) /\ a <> "$"%char.
Proof.
  assert (Hin : b64_char v ∈ chars b64_alphabet).
  { unfold b64_char. destruct (nth_in_or_default (Z.to_nat v) (chars b64_alphabet) "A"%char) as [H|Hd]; [by apply list_elem_of_In|rewrite Hd; by left]. }
  assert (Hall : forallb (fun a => negb (line_break a) && bool_decide (is_Some (b64_value a)) && negb (Ascii.eqb a "$"%char)) (chars b64_alphabet) = true) by by vm_compute.
  rewrite forallb_True_iff, Forall_forall in Hall. specialize (Hall _ Hin).
  rewrite !andb_true_iff, !negb_true_iff, bool_decide_eq_true, Ascii.eqb_neq in Hall. cbn. tauto.
Qed.

(** What holds of the digits holds of the encoding. *)
Lemma b64_encode_chars (P : ascii -> Prop) bs : (forall v, P (b64_char v)) -> Forall P (chars (b64_encode bs)).
Proof.
  intros HP. revert bs. fix IH 1. intros [|a [|b [|c rest]]]; cbn; repeat (constructor; [apply HP|]); try constructor. apply IH.
Qed.

Lemma filter_all {B} (P : B -> Prop) `{!forall x, Decision (P x)} l : Forall P l -> filter P l = l.
Proof. induction 1 as [|x l Hx _ IH]; [done|]. by rewrite filter_cons_True, IH by done. Qed.

Lemma b64_decode_digits s vs :
  Forall (fun a => line_break a = false) (chars s) -> mapM b64_value (chars s) = Some vs -> b64_decode s = b64_bytes vs.
Proof. intros Hl Hm. unfold b64_decode. rewrite filter_all by done. by rewrite Hm. Qed.

#[local] Opaque b64_value b64_char.

Lemma b64_round_trip bs : Forall is_byte bs -> b64_decode (b64_encode bs) = Some bs.
Proof.
  intros Hbs. assert (Hvs : exists vs, mapM b64_value (chars (b64_encode bs)) = Some vs /\ b64_bytes vs = Some bs).
  { revert bs Hbs. fix IH 1. intros [|a [|b [|c rest]]] Hbs; repeat (apply Forall_cons in Hbs as [? Hbs]); unfold is_byte in *; cbn.
    - by exists [].
    - rewrite !b64_value_char by divlia. eexists. split; [done|]. cbn. do 2 f_equal. divlia.
    - rewrite !b64_value_char by divlia. eexists. split; [done|]. cbn. do 2 f_equal; [divlia|]. f_equal. divlia.
    - destruct (IH rest Hbs) as (vs & Hm & Hb). rewrite !b64_value_char by divlia. cbn. rewrite Hm. cbn.
      eexists. split; [done|]. cbn. rewrite Hb. cbn. do 2 f_equal; [divlia|]. f_equal; [divlia|]. f_equal. divlia. }
  destruct Hvs as (vs & Hm & Hb). rewrite <- Hb. apply b64_decode_digits; [|done].
  apply b64_encode_chars. intros v. apply b64_char_class.
Qed.

(** A number printed is scanned up to what follows it. *)
Definition no_digit_front (s : string) : Prop := match s with String a _ => digit_of a = None | EmptyString => True end.

Lemma span_digits_app d r : Forall is_digit (chars d) -> no_digit_front r -> span_digits (d +:+ r) = (d, r).
Proof.
  intros Hd Hr. induction d as [|a d IH]; [destruct r as [|a r]; [done|]; rewrite string_app_nil_l; cbn in *; by rewrite Hr|].
  apply Forall_cons in Hd as [[v Hv] Hd]. rewrite string_app_cons. cbn. by rewrite Hv, IH.
Qed.

Lemma skip_space_digit a s : is_digit a -> skip_space (String a s) = Some (String a s).
Proof.
  intros [d Hd]. assert (Ht : trim_left (String a s) = String a s).
  { destruct a as [[] [] [] [] [] [] [] []]; try done; destruct s as [|b [|c s]]; done. }
  unfold skip_space. rewrite Ht, Nat.sub_diag. done.
Qed.

Lemma Itoa_digits z : 0 <= z -> Forall is_digit (chars (Itoa z)) /\ Itoa z <> "".
Proof.
  intros Hz. unfold Itoa. replace (pretty z) with (pretty (Z.to_N z)) by (destruct z; try done; lia). apply pretty_N_digits.
Qed.

Lemma skip_space_Itoa z r : 0 <= z -> skip_space (Itoa z +:+ r) = Some (Itoa z +:+ r).
Proof.
  intros Hz. destruct (Itoa_digits z Hz) as [Hd Hne]. destruct (Itoa z) as [|a s]; [done|].
  apply Forall_cons in Hd as [Ha _]. rewrite string_app_cons. by apply skip_space_digit.
Qed.

Lemma scan_uint_Itoa bits z r : 0 <= z < 2 ^ bits -> bits <= 64 -> no_digit_front r -> scan_uint bits (Itoa z +:+ r) = Some (z, r).
Proof.
  intros Hz Hb Hr. unfold scan_uint. rewrite skip_space_Itoa by lia. cbn.
  rewrite span_digits_app by (done || apply Itoa_digits; lia).
  rewrite ParseUint_Itoa by (unfold is_u64; pose proof (Z.pow_le_mono_r 2 bits 64); lia). cbn.
  by rewrite (proj2 (Z.ltb_lt _ _)) by lia.
Qed.

Lemma scan_int_Itoa z r : 0 <= z < 2 ^ 63 -> no_digit_front r -> scan_int (Itoa z +:+ r) = Some (z, r).
Proof.
  intros Hz Hr. unfold scan_int. rewrite skip_space_Itoa by lia. cbn.
  destruct (Itoa_digits z ltac:(lia)) as [Hd Hne]. pose proof (Atoi_Itoa z ltac:(unfold is_i64; lia)) as Ha.
  destruct (Itoa z) as [|a s] eqn:E; [done|]. rewrite string_app_cons. cbn.
  assert (Hsign : Ascii.eqb a "+"%char || Ascii.eqb a "-"%char = false).
  { apply Forall_cons in Hd as [[v Hv] _]. apply orb_false_iff. rewrite !Ascii.eqb_neq. split; intros ->; discriminate Hv. }
  rewrite Hsign, <- string_app_cons, span_digits_app by done. rewrite string_app_nil_l, Ha. done.
Qed.

Lemma scan_field_app {A} literal (scan : string -> option (A * string)) s : scan_field literal scan (literal +:+ s) = scan s.
Proof. unfold scan_field. by rewrite (proj2 (strip_prefix_Some literal (literal +:+ s) s)). Qed.

Definition good_params (p : Argon2idParams) : Prop :=
  0 <= Memory p < 2 ^ 32 /\ 1 <= Iterations p < 2 ^ 32 /\ 1 <= Parallelism p < 2 ^ 8 /\ 0 < KeyLength p < 2 ^ 32.

(** The string made of a salt and a key. *)
Definition encoded (p : Argon2idParams) (salt hash : list Z) : string :=
  "$argon2id$v=" +:+ Itoa argon2_Version +:+ "$m=" +:+ Itoa (Memory p) +:+ ",t=" +:+ Itoa (Iterations p) +:+
  ",p=" +:+ Itoa (Parallelism p) +:+ "$" +:+ b64_encode salt +:+ "$" +:+ b64_encode hash.

Definition param_text (p : Argon2idParams) : string :=
  "m=" +:+ Itoa (Memory p) +:+ ",t=" +:+ Itoa (Iterations p) +:+ ",p=" +:+ Itoa (Parallelism p).

Lemma no_dollar_b64 bs : has_char "$"%char (b64_encode bs) = false.
Proof.
  apply not_true_is_false. rewrite has_char_chars. intros Hin.
  pose proof (b64_encode_chars (fun a => a <> "$"%char) bs) as Hall. rewrite Forall_forall in Hall.
  eapply Hall; [|exact Hin|done]. intros v. apply b64_char_class.
Qed.

Lemma encoded_parts p salt hash :
  Split (encoded p salt hash) "$"%char =
  [""; "argon2id"; "v=" +:+ Itoa argon2_Version; param_text p; b64_encode salt; b64_encode hash].
Proof.
  pose proof (fun z => Itoa_no_char "$"%char z eq_refl ltac:(done)) as Hz.
  rewrite <- (Split_Join [""; "argon2id"; "v=" +:+ Itoa argon2_Version; param_text p; b64_encode salt; b64_encode hash] "$"%char).
  - f_equal. unfold encoded, param_text. cbn [Join]. rewrite ?string_app_nil_l, ?string_app_assoc.
    repeat rewrite ?string_app_cons, ?string_app_nil_l. done.
  - done.
  - repeat constructor; unfold param_text; rewrite ?has_char_app, ?Hz, ?no_dollar_b64; done.
Qed.

Lemma decodeHash_encoded p salt hash :
  good_params p -> Forall is_byte salt -> Forall is_byte hash ->
  decodeHash (encoded p salt hash) =
  Ok (mkArgon (Memory p) (Iterations p) (Parallelism p) (u32 (Z.of_nat (length salt))) (u32 (Z.of_nat (length hash))), salt, hash).
Proof.
  intros (Hm & Ht & Hp & _) Hs Hh. unfold decodeHash. rewrite encoded_parts, scan_field_app.
  rewrite <- (string_app_nil_r (Itoa argon2_Version)), scan_int_Itoa by done. rewrite decide_False by tauto.
  unfold param_text. rewrite scan_field_app, scan_uint_Itoa by done. cbn [mbind option_bind snd fst].
  rewrite scan_field_app, scan_uint_Itoa by (done || lia). cbn [mbind option_bind snd fst].
  rewrite scan_field_app, <- (string_app_nil_r (Itoa (Parallelism p))), scan_uint_Itoa by (done || lia).
  cbn [mbind option_bind snd fst]. by rewrite !b64_round_trip.
Qed.

Lemma digits_after_Itoa literal z : 0 <= z -> digits_after literal (literal +:+ Itoa z) = true.
Proof.
  intros Hz. unfold digits_after. rewrite (proj2 (strip_prefix_Some literal _ (Itoa z))) by done.
  destruct (Itoa_digits z Hz) as [Hd Hne]. unfold some_digits.
  rewrite andb_true_iff, negb_true_iff, bool_decide_eq_false, forallb_True_iff. split; [done|].
  eapply Forall_impl; [exact Hd|]. intros a Ha. by apply bool_decide_eq_true_2.
Qed.

Lemma b64_encode_nonempty bs : bs <> [] -> b64_encode bs <> "".
Proof. by destruct bs as [|a [|b [|c rest]]]. Qed.

Lemma b64_class_encode bs : bs <> [] -> b64_class (b64_encode bs) = true.
Proof.
  intros Hne. unfold b64_class. rewrite andb_true_iff, negb_true_iff, bool_decide_eq_false, forallb_True_iff.
  split; [by apply b64_encode_nonempty|]. apply b64_encode_chars. intros v.
  destruct (b64_char_class v) as (_ & Hv & _). by rewrite bool_decide_eq_true_2.
Qed.

Lemma param_parts p :
  Split (param_text p) ","%char = ["m=" +:+ Itoa (Memory p); "t=" +:+ Itoa (Iterations p); "p=" +:+ Itoa (Parallelism p)].
Proof.
  pose proof (fun z => Itoa_no_char ","%char z eq_refl ltac:(done)) as Hz.
  rewrite <- (Split_Join ["m=" +:+ Itoa (Memory p); "t=" +:+ Itoa (Iterations p); "p=" +:+ Itoa (Parallelism p)] ","%char).
  - done.
  - done.
  - repeat constructor; rewrite ?has_char_app, ?Hz; done.
Qed.

Lemma IsArgon2Hash_encoded p salt hash :
  good_params p -> salt <> [] -> hash <> [] -> IsArgon2Hash (encoded p salt hash) = true.
Proof.
  intros (Hm & Ht & Hp & _) Hs Hh. unfold IsArgon2Hash. rewrite encoded_parts, param_parts.
  rewrite !digits_after_Itoa, !b64_class_encode by (done || lia). done.
Qed.

Lemma create_encoded `{A : Argon2Lib} p salt pw :
  good_params p ->
  CreateArgon2Hash p (Some salt) pw =
  Ok (encoded p salt (IDKey (bytes_of_string pw) salt (Iterations p) (Memory p) (Parallelism p) (KeyLength p))).
Proof. intros (_ & Ht & Hp & _). unfold CreateArgon2Hash, derive. by rewrite decide_False by lia. Qed.

(** A key compared with a password is the key derived from it again. *)
Lemma compare_encoded `{!Argon2Laws A} p salt pw pw' :
  good_params p -> Forall is_byte salt ->
  let key q := IDKey (bytes_of_string q) salt (Iterations p) (Memory p) (Parallelism p) (KeyLength p) in
  ComparePasswordAndHash pw' (encoded p salt (key pw)) = Ok (bool_decide (key pw = key pw')).
Proof.
  intros Hp Hs key. destruct (IDKey_bytes (bytes_of_string pw) salt (Iterations p) (Memory p) (Parallelism p) (KeyLength p)) as [Hb Hl].
  { destruct Hp as (_ & _ & _ & ?). lia. }
  unfold ComparePasswordAndHash. rewrite decodeHash_encoded by done. cbn [rbind]. unfold derive. cbn [Iterations Memory Parallelism KeyLength].
  destruct Hp as (_ & Ht & Hpar & Hk). rewrite decide_False by lia. cbn [rbind].
  fold (key pw). replace (u32 (Z.of_nat (length (key pw)))) with (KeyLength p); [done|].
  unfold u32, key. rewrite Hl, Z.mod_small; lia.
Qed.

(** ** The properties *)


(** Remark (a password that looks stored): a password chosen in the form of a stored one,
    here that of another password, is written as it is: afterwards the other password is
    accepted, and the one chosen only if the same key happens to be derived from both. *)
Theorem hash_shaped_password_kept `{A : Argon2Lib} `{!Argon2Laws A} p salt salt' pw chosen :
  good_params p -> Forall is_byte salt -> salt <> [] -> CreateArgon2Hash p (Some salt) pw = Ok chosen ->
  let key q := IDKey (bytes_of_string q) salt (Iterations p) (Memory p) (Parallelism p) (KeyLength p) in
  MarshalBSONValue p salt' chosen = Ok chosen /\ Cmp chosen pw = Ok true /\ Cmp chosen chosen = Ok (bool_decide (key pw = key chosen)).
Proof.
  intros Hp Hs Hne Hc key. rewrite create_encoded in Hc by done. injection Hc as <-.
  assert (Hkey : key pw <> []).
  { pose proof (IDKey_bytes (bytes_of_string pw) salt (Iterations p) (Memory p) (Parallelism p) (KeyLength p)) as Hl.
    destruct Hp as (_ & _ & _ & Hk). intros He. unfold key in He. rewrite He in Hl. cbn in Hl. lia. }
  unfold MarshalBSONValue, Cmp. rewrite IsArgon2Hash_encoded by done. split; [done|].
  rewrite !compare_encoded by done. by rewrite bool_decide_eq_true_2.
Qed.

(** ** Witnesses *)

(** A derivation that keeps the front of the password. *)
Definition front_key : Argon2Lib := fun pw _ _ _ _ n => (fun i => nth i pw 0 mod 256) <$> seq 0 (Z.to_nat n).

Lemma front_key_laws : @Argon2Laws front_key.
Proof.
  intros pw salt t m p n Hn. unfold IDKey, front_key. split.
  - apply Forall_fmap, Forall_forall. intros i _. cbn. unfold is_byte. apply Z.mod_pos_bound. lia.
  - rewrite length_fmap, length_seq. lia.
Qed.

Definition sample_salt : list Z := [1; 2; 3; 4].

Lemma default_params_good : good_params defaultArgon2idParams.
Proof. unfold good_params, defaultArgon2idParams. cbn. lia. Qed.

Lemma sample_salt_bytes : Forall is_byte sample_salt.
Proof. unfold sample_salt, is_byte. repeat constructor; lia. Qed.


Lemma hash_shaped_password_kept_witness :
  exists chosen, @CreateArgon2Hash front_key defaultArgon2idParams (Some sample_salt) "secret" = Ok chosen /\
    @MarshalBSONValue front_key defaultArgon2idParams None chosen = Ok chosen /\
    @Cmp front_key chosen "secret" = Ok true /\ @Cmp front_key chosen chosen = Ok false.
Proof.
  destruct (@CreateArgon2Hash front_key defaultArgon2idParams (Some sample_salt) "secret") as [chosen|e] eqn:E; [|by vm_compute in E].
  destruct (@hash_shaped_password_kept front_key front_key_laws defaultArgon2idParams sample_salt None "secret" chosen
    default_params_good sample_salt_bytes ltac:(done) E) as (Hm & Hc & Hx).
  exists chosen. split; [done|]. split; [exact Hm|]. split; [exact Hc|]. rewrite Hx. vm_compute in E. injection E as <-. by vm_compute.
Defined.

(** A stored string with no rounds is recognised, and comparing with it panics. *)
Example no_rounds_panics :
  let s := "$argon2id$v=19$m=8,t=0,p=1$AQID$AQID" in
  IsArgon2Hash s = true /\ @Cmp front_key s "any" = Err PwPanic.
Proof. by vm_compute. Qed.
