(* ===== verification/RBACRepo.v ===== *)
(** * Users and roles in the database: api/manager/repository/repo_rbac.go

    Accounts of api/manager/domain/account.go with their refresh sessions, and the
    operations on the collections of users and roles.  MongoDB is an interface: a
    collection maps identifiers to documents, and a call that fails may or may not
    have been carried out. *)

From stdpp Require Import base gmap strings list.
From Stdlib Require Import ZArith Lia.
From S2P Require Import Prelude GoStrings Sha256 Argon2 ManagerDomain.
#[local] Open Scope go_scope.
#[local] Open Scope Z_scope.

(** ** Accounts *)

Record RefreshSession := mkSession { rs_JTI : string; rs_TokenHash : string; rs_ExpiresAt : Z; rs_Revoked : bool }.

(** [now] is in milliseconds, as everywhere; the expiry in seconds. *)
Definition IsExpired (s : RefreshSession) (now : Z) : bool := (0 <? rs_ExpiresAt s) && (rs_ExpiresAt s <=? now / 1000).

Definition UserStatusActive : Z := 1.
Definition UserStatusInactive : Z := 2.
Definition UserStatusWaitChangePassword : Z := 3.

Record User := mkUser {
  u_Base : BaseEntity;
  u_UserName : string;
  u_Password : string;
  u_Status : Z;
  u_Roles : list string;
  u_PermissionKeys : list string;
  u_TokenVersion : Z;
  u_RefreshTokens : list RefreshSession
}.

Record RolePolicy := mkRolePolicy { rp_PermissionKey : string; rp_Self : bool; rp_K8SNamespace : string; rp_PolicyNamespace : string }.

Record Role := mkRole { role_Base : BaseEntity; role_Name : string; role_Description : string; role_Policies : list RolePolicy }.

Definition u_ID (u : User) : ObjectID := be_ID (u_Base u).
Definition role_ID (r : Role) : ObjectID := be_ID (role_Base r).

#[global] Instance RefreshSession_eq_dec : EqDecision RefreshSession.
Proof. solve_decision. Defined.
#[global] Instance User_eq_dec : EqDecision User.
Proof. solve_decision. Defined.
#[global] Instance RolePolicy_eq_dec : EqDecision RolePolicy.
Proof. solve_decision. Defined.
#[global] Instance Role_eq_dec : EqDecision Role.
Proof. solve_decision. Defined.

(** Updates of some fields. *)
Definition set_user_base (b : BaseEntity) (u : User) : User :=
  mkUser b (u_UserName u) (u_Password u) (u_Status u) (u_Roles u) (u_PermissionKeys u) (u_TokenVersion u) (u_RefreshTokens u).
Definition set_user_password (p : string) (u : User) : User :=
  mkUser (u_Base u) (u_UserName u) p (u_Status u) (u_Roles u) (u_PermissionKeys u) (u_TokenVersion u) (u_RefreshTokens u).
Definition set_user_status (s : Z) (u : User) : User :=
  mkUser (u_Base u) (u_UserName u) (u_Password u) s (u_Roles u) (u_PermissionKeys u) (u_TokenVersion u) (u_RefreshTokens u).
Definition set_user_roles (rs : list string) (u : User) : User :=
  mkUser (u_Base u) (u_UserName u) (u_Password u) (u_Status u) rs (u_PermissionKeys u) (u_TokenVersion u) (u_RefreshTokens u).
Definition set_user_sessions (v : Z) (l : list RefreshSession) (u : User) : User :=
  mkUser (u_Base u) (u_UserName u) (u_Password u) (u_Status u) (u_Roles u) (u_PermissionKeys u) v l.

Definition set_updated (now : Z) (b : BaseEntity) : BaseEntity :=
  mkBase (be_ID b) (be_CreatedTime b) now (be_DeletedTime b) (be_CreatorID b) (be_UpdaterID b).
Definition set_updater (id : ObjectID) (b : BaseEntity) : BaseEntity :=
  mkBase (be_ID b) (be_CreatedTime b) (be_UpdatedTime b) (be_DeletedTime b) (be_CreatorID b) id.

(** The identifier and times an entity gets when it is created. *)
Definition stamp_new (now : Z) (id : ObjectID) (b : BaseEntity) : BaseEntity :=
  mkBase id (if decide (be_CreatedTime b = 0) then now else be_CreatedTime b) now (be_DeletedTime b) (be_CreatorID b) (be_UpdaterID b).

(** ** The database *)

Inductive db_error := DBError.

(** A collection of documents of type [D] in a database of type [K]. *)
Class Collection (K D : Type) := {
  docs : K -> gmap ObjectID D;
  InsertOne : ObjectID -> D -> SE K db_error unit;
  ReplaceOne : ObjectID -> D -> SE K db_error bool;
  Find : (D -> bool) -> SE K db_error (list D)
}.

Class CollectionLaws (K D : Type) `{Collection K D} : Prop := {
  insert_law : forall id d k,
    match InsertOne id d k with
    | (k', Ok _) => docs k !! id = None /\ docs k' = <[id := d]> (docs k)
    | (k', Err _) => docs k' = docs k \/ (docs k !! id = None /\ docs k' = <[id := d]> (docs k))
    end;
  replace_law : forall id d k,
    match ReplaceOne id d k with
    | (k', Ok true) => is_Some (docs k !! id) /\ docs k' = <[id := d]> (docs k)
    | (k', Ok false) => docs k !! id = None /\ docs k' = docs k
    | (k', Err _) => docs k' = docs k \/ (is_Some (docs k !! id) /\ docs k' = <[id := d]> (docs k))
    end;
  find_law : forall f k,
    docs (Find f k).1 = docs k /\
    forall l, (Find f k).2 = Ok l -> forall d, d ∈ l <-> (exists id, docs k !! id = Some d) /\ f d = true
}.

Inductive auth_error :=
| ANil
| ANoID
| ANotFound
| AInvalidID
| ADB (e : db_error)
| APassword (e : pw_error)
| ASign
| ANoAdminRole
| ANotImplemented
| AStatus (code : Z).

(** The database with its two collections, and how many random values were drawn. *)
Record rbac (U R : Type) := mkRBAC { rb_users : U; rb_roles : R; rb_draws : nat }.
Arguments mkRBAC {U R}.
Arguments rb_users {U R}.
Arguments rb_roles {U R}.
Arguments rb_draws {U R}.

(** [opt.IDs]: an empty list asks nothing. *)
Definition one_of (l : list string) (x : string) : bool := bool_decide (l = [] \/ x ∈ l).

(** [opt.UserNames], [opt.Names]: a field that is empty is left out of the document, and what
    is left out is not found, not even by the empty string. *)
Definition field_one_of (l : list string) (x : string) : bool := bool_decide (l = [] \/ (x <> "" /\ x ∈ l)).

Section repo.
  Context {U R : Type} `{Collection U User} `{Collection R Role} {A : Argon2Lib}.
  Variable NewObjectID : nat -> ObjectID.
  Variable random_salt : nat -> option (list Z).

Notation M := (SE (rbac U R) auth_error).

Definition on_users {B} (m : SE U db_error B) : M B :=
  fun w => match m (rb_users w) with
           | (u, Ok b) => (mkRBAC u (rb_roles w) (rb_draws w), Ok b)
           | (u, Err e) => (mkRBAC u (rb_roles w) (rb_draws w), Err (ADB e))
           end.

Definition on_roles {B} (m : SE R db_error B) : M B :=
  fun w => match m (rb_roles w) with
           | (r, Ok b) => (mkRBAC (rb_users w) r (rb_draws w), Ok b)
           | (r, Err e) => (mkRBAC (rb_users w) r (rb_draws w), Err (ADB e))
           end.

(** The number of the next random value. *)
Definition draw : M nat := fun w => (mkRBAC (rb_users w) (rb_roles w) (S (rb_draws w)), Ok (rb_draws w)).

(** A user as a document: the password is encrypted, unless it is empty and left out. *)
Definition encode_user (user : User) : M User :=
  if decide (u_Password user = "") then sret user else
  let! n := draw in
  match MarshalBSONValue defaultArgon2idParams (random_salt n) (u_Password user) with
  | Ok stored => sret (set_user_password stored user)
  | Err e => sfail (APassword e)
  end.

Definition fresh_id (id : ObjectID) : M ObjectID :=
  if decide (id = NilObjectID) then (let! n := draw in sret (NewObjectID n)) else sret id.

Definition CreateUser (now : Z) (user : option User) : M User :=
  match user with
  | None => sfail ANil
  | Some user =>
      let! id := fresh_id (u_ID user) in
      let user := set_user_base (stamp_new now id (u_Base user)) user in
      let! doc := encode_user user in
      let! _ := on_users (InsertOne id doc) in
      sret user
  end.

Definition UpdateUser (now : Z) (user : option User) : M unit :=
  match user with
  | None => sfail ANil
  | Some user =>
      if decide (u_ID user = NilObjectID) then sfail ANoID else
      let user := set_user_base (set_updated now (u_Base user)) user in
      let! doc := encode_user user in
      let! matched := on_users (ReplaceOne (u_ID user) doc) in
      if matched then sret tt else sfail ANotFound
  end.

Record QueryUserOptions := mkQueryUsers { qu_IDs : list ObjectID; qu_UserNames : list string }.

Definition QueryUsers (opt : option QueryUserOptions) : M (list User) :=
  match opt with
  | None => sfail ANil
  | Some opt => on_users (Find (fun u => one_of (qu_IDs opt) (u_ID u) && field_one_of (qu_UserNames opt) (u_UserName u)))
  end.

Definition CreateRole (now : Z) (role : option Role) : M Role :=
  match role with
  | None => sfail ANil
  | Some role =>
      let! id := fresh_id (role_ID role) in
      let role := mkRole (stamp_new now id (role_Base role)) (role_Name role) (role_Description role) (role_Policies role) in
      let! _ := on_roles (InsertOne id role) in
      sret role
  end.

Definition UpdateRole (now : Z) (role : option Role) : M unit :=
  match role with
  | None => sfail ANil
  | Some role =>
      if decide (role_ID role = NilObjectID) then sfail ANoID else
      let role := mkRole (set_updated now (role_Base role)) (role_Name role) (role_Description role) (role_Policies role) in
      let! matched := on_roles (ReplaceOne (role_ID role) role) in
      if matched then sret tt else sfail ANotFound
  end.

Record QueryRoleOptions := mkQueryRoles { qr_IDs : list ObjectID; qr_Names : list string }.

Definition QueryRoles (opt : option QueryRoleOptions) : M (list Role) :=
  match opt with
  | None => sfail ANil
  | Some opt => on_roles (Find (fun r => one_of (qr_IDs opt) (role_ID r) && field_one_of (qr_Names opt) (role_Name r)))
  end.

End repo.
