(* ===== verification/AuthSvc.v ===== *)
(** * Authentication and authorisation: api/manager/service/auth_svc.go, role_svc.go

    Logging in, access and refresh tokens, sessions, and the check of a permission
    against the roles of a user.  The JWT library, which signs with the key of the
    service, is a parameter; the time of a request is given in milliseconds. *)

From stdpp Require Import base gmap strings list.
From Stdlib Require Import ZArith Lia Ascii.
From S2P Require Import Prelude GoStrings Sha256 Merkle Argon2 ManagerDomain RBACRepo.
#[local] Open Scope go_scope.
#[local] Open Scope Z_scope.

(** ** Tokens *)

(** Signing with the private key, and reading a token at a time: the signing method,
    the signature and the times of validity are checked. *)
Class JWTLib := {
  SignedString : Claims -> option string;
  ParseWithClaims : Z -> string -> option Claims
}.

Class JWTLaws (J : JWTLib) : Prop := {
  parse_signed : forall c t now, SignedString c = Some t ->
    1000 * cl_NotBefore c <= now < 1000 * cl_ExpiresAt c -> ParseWithClaims now t = Some c;
  parse_expired : forall c t now, ParseWithClaims now t = Some c -> cl_ExpiresAt c <> 0 -> now < 1000 * cl_ExpiresAt c;
  parse_stable : forall c c' t now now', ParseWithClaims now t = Some c -> ParseWithClaims now' t = Some c' -> c = c'
}.

Record TokenPair := mkTokenPair { AccessToken : string; RefreshTokenString : string }.

Definition hashToken (token : string) : string := HashStringSHA256Hex token.

Definition pruneRefreshSessions (sessions : list RefreshSession) (now : Z) : list RefreshSession :=
  filter (fun s => rs_Revoked s || IsExpired s now = false) sessions.

(** The first session with an identifier is marked as revoked; [None] when there is
    none, [Some None] when it is refused. *)
Definition revoke (s : RefreshSession) : RefreshSession := mkSession (rs_JTI s) (rs_TokenHash s) (rs_ExpiresAt s) true.

Fixpoint consume_session (jti hash : string) (now : Z) (sessions : list RefreshSession) : option (option (list RefreshSession)) :=
  match sessions with
  | [] => None
  | s :: rest =>
      if decide (rs_JTI s <> jti) then fmap (M := option) (fmap (M := option) (cons s)) (consume_session jti hash now rest)
      else if rs_Revoked s || IsExpired s now then Some None
      else if decide (rs_TokenHash s <> hash) then Some None
      else Some (Some (revoke s :: rest))
  end.

(** The session with an identifier and a hash is marked as revoked. *)
Fixpoint revoke_session (jti hash : string) (sessions : list RefreshSession) : option (list RefreshSession) :=
  match sessions with
  | [] => None
  | s :: rest =>
      if decide (rs_JTI s = jti /\ rs_TokenHash s = hash) then Some (revoke s :: rest)
      else cons s <$> revoke_session jti hash rest
  end.

Definition ChangeOwnPassword : string := "user.password.change".
Definition AdminRole : string := "admin".

Record UpdateUserPermissionsOptions := mkUpdatePermissions { up_Roles : option (list string); up_Status : option Z }.
Record UpdateRoleOptions := mkUpdateRole { ur_Name : option string; ur_Description : option string; ur_Policies : option (list RolePolicy) }.

(** The first policy for a permission, in the order of the roles. *)
Definition find_policy (permissionKey : string) (roles : list Role) : option RolePolicy :=
  head (filter (fun p => rp_PermissionKey p = permissionKey) (concat (role_Policies <$> roles))).

Definition no_policy : RolePolicy := mkRolePolicy "" false "" "".

Section service.
  Context {U R : Type} `{Collection U User} `{Collection R Role} {A : Argon2Lib} {J : JWTLib}.
  Variable ObjectIDFromHex : string -> option ObjectID.
  Variable NewObjectID : nat -> ObjectID.
  Variable random_salt : nat -> option (list Z).
  Variable xid : nat -> string.

Notation M := (SE (rbac U R) auth_error).

Definition unauthorized {B} : M B := sfail (AStatus 401).
Definition forbidden {B} : M B := sfail (AStatus 403).

(** [bson.ObjectIDFromHex] and [GetBsonObjectUID] with the error of the caller. *)
Definition object_id (e : auth_error) (s : string) : M ObjectID :=
  match ObjectIDFromHex s with Some id => sret id | None => sfail e end.

Definition getUserByUserName (username : string) : M User :=
  let! users := QueryUsers (Some (mkQueryUsers [] [username])) in
  match users with [] => unauthorized | u :: _ => sret u end.

Definition getUserByID (id : ObjectID) : M User :=
  let! users := QueryUsers (Some (mkQueryUsers [id] [])) in
  match users with [] => unauthorized | u :: _ => sret u end.

Definition parseAndValidateToken (now : Z) (token : string) : M Claims :=
  match ParseWithClaims now token with Some c => sret c | None => unauthorized end.

Definition need_change (user : User) : bool := bool_decide (u_Status user = UserStatusWaitChangePassword).

Definition token_claims (now ttl : Z) (kind jti : string) (user : User) : Claims :=
  mkJWTClaims (u_ID user) (need_change user) (u_TokenVersion user) kind ((now + ttl) / 1000) (now / 1000) (now / 1000)
    "bss-api-server" (u_ID user) jti.

Definition genAccessToken (now : Z) (user : User) : M string :=
  match SignedString (token_claims now (60 * 1000) "access" "" user) with Some t => sret t | None => sfail ASign end.

Definition genRefreshToken (now : Z) (user : User) : M (string * Claims) :=
  let! n := draw in
  let claims := token_claims now (24 * 3600 * 1000) "refresh" (xid n) user in
  match SignedString claims with Some t => sret (t, claims) | None => sfail ASign end.

Definition issueTokenPair (now : Z) (user : User) : M TokenPair :=
  let! accessToken := genAccessToken now user in
  let! issued := genRefreshToken now user in
  let '(refreshToken, claims) := issued in
  let sessions := pruneRefreshSessions (u_RefreshTokens user) now ++
                  [mkSession (cl_ID claims) (hashToken refreshToken) (cl_ExpiresAt claims) false] in
  let user := set_user_base (set_updated now (u_Base user)) (set_user_sessions (u_TokenVersion user) sessions user) in
  let! _ := UpdateUser random_salt now (Some user) in
  sret (mkTokenPair accessToken refreshToken).

(** ** Operations *)

Definition CreateNewUser (now : Z) (operator : Claims) (username password : string) : M unit :=
  let! operatorID := object_id AInvalidID (cl_UID operator) in
  let user := mkUser (NewBaseEntity now operatorID operatorID) username password UserStatusWaitChangePassword [] [] 0 [] in
  let! _ := RBACRepo.CreateUser NewObjectID random_salt now (Some user) in
  sret tt.

Definition Login (now : Z) (username password : string) : M TokenPair :=
  let! user := getUserByUserName username in
  if decide (u_Status user = UserStatusInactive) then unauthorized else
  match Cmp (u_Password user) password with
  | Err e => sfail (APassword e)
  | Ok false => unauthorized
  | Ok true => issueTokenPair now user
  end.

(** The part of a refresh that reads: the session is found and marked. *)
Definition refresh_check (now : Z) (refreshToken : string) : M User :=
  let! claims := parseAndValidateToken now refreshToken in
  if decide (cl_TokenType claims <> "refresh") then unauthorized else
  if decide (cl_ID claims = "") then unauthorized else
  let! uid := object_id AInvalidID (cl_UID claims) in
  let! user := getUserByID uid in
  if decide (u_TokenVersion user <> cl_TokenVersion claims) then unauthorized else
  match consume_session (cl_ID claims) (hashToken refreshToken) now (u_RefreshTokens user) with
  | Some (Some sessions) => sret (set_user_sessions (u_TokenVersion user) sessions user)
  | _ => unauthorized
  end.

(** The part that writes: the marked session, then the new one. *)
Definition refresh_commit (now : Z) (user : User) : M TokenPair :=
  let user := set_user_base (set_updated now (u_Base user)) user in
  let! _ := UpdateUser random_salt now (Some user) in
  issueTokenPair now user.

Definition RefreshToken (now : Z) (refreshToken : string) : M TokenPair :=
  let! user := refresh_check now refreshToken in
  refresh_commit now user.

Definition Logout (now : Z) (refreshToken : string) : M unit :=
  let! claims := parseAndValidateToken now refreshToken in
  if decide (cl_TokenType claims <> "refresh" \/ cl_ID claims = "") then unauthorized else
  let! uid := object_id AInvalidID (cl_UID claims) in
  let! user := getUserByID uid in
  match revoke_session (cl_ID claims) (hashToken refreshToken) (u_RefreshTokens user) with
  | None => unauthorized
  | Some sessions => UpdateUser random_salt now (Some (set_user_sessions (u_TokenVersion user) sessions user))
  end.

Definition LogoutAll (now : Z) (userClaims : Claims) : M unit :=
  let! uid := object_id AInvalidID (cl_UID userClaims) in
  let! user := getUserByID uid in
  UpdateUser random_salt now (Some (set_user_sessions (i64 (u_TokenVersion user + 1)) [] user)).

Definition ChangePassword (now : Z) (userClaims : Claims) (oldPassword newPassword : string) : M unit :=
  let! uid := object_id AInvalidID (cl_UID userClaims) in
  let! user := getUserByID uid in
  match Cmp (u_Password user) oldPassword with
  | Err e => sfail (APassword e)
  | Ok false => unauthorized
  | Ok true =>
      let user := set_user_password newPassword (set_user_status UserStatusActive user) in
      UpdateUser random_salt now (Some (set_user_base (set_updater uid (u_Base user)) user))
  end.

Definition UpdateUserPermissions (now : Z) (operator : Claims) (id : string) (opt : UpdateUserPermissionsOptions) : M unit :=
  let! operatorID := object_id AInvalidID (cl_UID operator) in
  let! uid := object_id (AStatus 422) id in
  let! user := getUserByID uid in
  let! user := match up_Roles opt with
               | None => sret user
               | Some roles =>
                   let! found := QueryRoles (Some (mkQueryRoles [] roles)) in
                   if decide (length roles <> length found) then sfail (AStatus 400) else sret (set_user_roles roles user)
               end in
  let user := match up_Status opt with Some s => set_user_status s user | None => user end in
  UpdateUser random_salt now (Some (set_user_base (set_updater operatorID (u_Base user)) user)).

Definition ResetPassword (now : Z) (operator : Claims) (id newPassword : string) : M unit :=
  let! operatorID := object_id AInvalidID (cl_UID operator) in
  let! uid := object_id (AStatus 422) id in
  let! user := getUserByID uid in
  let user := set_user_status UserStatusWaitChangePassword (set_user_password newPassword user) in
  UpdateUser random_salt now (Some (set_user_base (set_updater operatorID (u_Base user)) user)).

Definition getRolesByNames (roleNames : list string) : M (list Role) :=
  match roleNames with [] => sret [] | _ => QueryRoles (Some (mkQueryRoles [] roleNames)) end.

Fixpoint object_ids (ids : list string) : M (list ObjectID) :=
  match ids with
  | [] => sret []
  | id :: rest => let! id := object_id AInvalidID id in let! rest := object_ids rest in sret (id :: rest)
  end.

Definition getRolesByIDs (roleIDs : list string) : M (list Role) :=
  match roleIDs with
  | [] => sret []
  | _ => let! ids := object_ids roleIDs in QueryRoles (Some (mkQueryRoles ids []))
  end.

Definition VerifyJWTToken (now : Z) (token permissionKey : string) : M (Claims * RolePolicy) :=
  let! claims := parseAndValidateToken now token in
  if decide (cl_TokenType claims <> "access") then unauthorized else
  if bool_decide (permissionKey <> ChangeOwnPassword) && cl_NeedChangePassword claims then forbidden else
  let! uid := object_id AInvalidID (cl_UID claims) in
  let! user := getUserByID uid in
  if decide (u_TokenVersion user <> cl_TokenVersion claims) then unauthorized else
  if decide (permissionKey = "" \/ permissionKey = ChangeOwnPassword) then sret (claims, no_policy) else
  let! roles := getRolesByNames (u_Roles user) in
  match find_policy permissionKey roles with
  | Some policy => sret (claims, policy)
  | None => forbidden
  end.

Definition CreateAdminUserIfNotExists (now : Z) (username password : string) : M unit :=
  let! users := QueryUsers (Some (mkQueryUsers [] [username])) in
  match users with
  | _ :: _ => sret tt
  | [] =>
      let! roles := QueryRoles (Some (mkQueryRoles [] [AdminRole])) in
      match roles with
      | [] => sfail ANoAdminRole
      | _ =>
          let admin := mkUser (NewBaseEntity now NilObjectID NilObjectID) username password UserStatusActive [AdminRole] [] 0 [] in
          let! _ := RBACRepo.CreateUser NewObjectID random_salt now (Some admin) in
          sret tt
      end
  end.

(** *** Roles *)

Definition CreateRole (now : Z) (operator : Claims) (role : Role) : M unit :=
  let! operatorID := object_id (AStatus 401) (cl_UID operator) in
  let role := mkRole (NewBaseEntity now operatorID operatorID) (role_Name role) (role_Description role) (role_Policies role) in
  let! _ := RBACRepo.CreateRole NewObjectID now (Some role) in
  sret tt.

Definition UpdateRole (now : Z) (operator : Claims) (roleID : string) (opt : UpdateRoleOptions) : M unit :=
  let! operatorID := object_id (AStatus 401) (cl_UID operator) in
  let! roles := getRolesByIDs [roleID] in
  match roles with
  | [] => sfail (AStatus 422)
  | role :: _ =>
      RBACRepo.UpdateRole now (Some (mkRole (set_updater operatorID (role_Base role)) (default (role_Name role) (ur_Name opt))
        (default (role_Description role) (ur_Description opt)) (default (role_Policies role) (ur_Policies opt))))
  end.

Definition DeleteRole (operator : Claims) (roleID : string) : M unit := sfail ANotImplemented.

End service.

(** ** Lemmas *)

(** An error that does not refuse the request. *)
Definition technical (e : auth_error) : Prop := forall code, e <> AStatus code.

Section proofs.
  Context {U R : Type} `{CollectionLaws U User} `{CollectionLaws R Role} {A : Argon2Lib} {J : JWTLib}.
  Variable ObjectIDFromHex : string -> option ObjectID.
  Variable NewObjectID : nat -> ObjectID.
  Variable random_salt : nat -> option (list Z).
  Variable xid : nat -> string.

  (** Whether the version of the tokens may rise. *)
  Variable bump : bool.

Notation world := (rbac U R).
Notation M := (SE world auth_error).
Notation stored w := (docs (rb_users w)).
Notation jtis u := (rs_JTI <$> u_RefreshTokens u).

(** Only the state inside the database differs. *)
Definition same_data (w w' : world) : Prop :=
  stored w' = stored w /\ docs (rb_roles w') = docs (rb_roles w) /\ rb_draws w' = rb_draws w.

Definition keyed_users (w : world) : Prop := forall id u, stored w !! id = Some u -> u_ID u = id.

(** The same account: all but the password and the times. *)
Definition same_account (u u' : User) : Prop :=
  u_ID u' = u_ID u /\ u_RefreshTokens u' = u_RefreshTokens u /\ u_TokenVersion u' = u_TokenVersion u /\
  u_Status u' = u_Status u /\ u_Roles u' = u_Roles u /\ u_UserName u' = u_UserName u.

Lemma same_data_refl w : same_data w w.
Proof. done. Qed.

Lemma same_data_trans w1 w2 w3 : same_data w1 w2 -> same_data w2 w3 -> same_data w1 w3.
Proof. unfold same_data. intuition congruence. Qed.

Lemma find_users_spec f (w : world) :
  let '(w', r) := on_users (Find f) w in
  same_data w w' /\
  match r with
  | Ok l => forall u, u ∈ l <-> (exists id, stored w !! id = Some u) /\ f u = true
  | Err e => technical e
  end.
Proof.
  unfold on_users. destruct (find_law f (rb_users w)) as [Hd Hl].
  destruct (Find f (rb_users w)) as [k [l|e]]; cbn in *; (split; [done|]); [by apply Hl|by intros ?].
Qed.

Lemma find_roles_spec f (w : world) :
  let '(w', r) := on_roles (Find f) w in
  same_data w w' /\
  match r with
  | Ok l => forall x, x ∈ l <-> (exists id, docs (rb_roles w) !! id = Some x) /\ f x = true
  | Err e => technical e
  end.
Proof.
  unfold on_roles. destruct (find_law f (rb_roles w)) as [Hd Hl].
  destruct (Find f (rb_roles w)) as [k [l|e]]; cbn in *; (split; [done|]); [by apply Hl|by intros ?].
Qed.

Lemma getUserByID_spec id (w : world) :
  keyed_users w ->
  let '(w', r) := getUserByID id w in
  same_data w w' /\
  match r with
  | Ok u => stored w !! id = Some u
  | Err e => technical e \/ (e = AStatus 401 /\ stored w !! id = None)
  end.
Proof.
  intros Hk. unfold getUserByID, QueryUsers, sbind. cbn [qu_IDs qu_UserNames].
  match goal with |- context [on_users (Find ?f) w] => pose proof (find_users_spec f w) as Hf; destruct (on_users (Find f) w) as [w' [l|e]] end;
    destruct Hf as [Hs Hl]; [|by auto].
  assert (Hall : forall u, u ∈ l <-> stored w !! id = Some u).
  { intros u. rewrite Hl. unfold one_of, field_one_of. rewrite andb_true_iff, !bool_decide_eq_true. split.
    - intros [[i Hi] [[?|Hu] _]]; [done|]. apply list_elem_of_singleton in Hu. rewrite (Hk _ _ Hi) in Hu. by subst i.
    - intros Hu. split; [by exists id|]. rewrite (Hk _ _ Hu). split; [right; by apply list_elem_of_singleton|by left]. }
  destruct l as [|u l]; cbn; (split; [done|]).
  - right. split; [done|]. destruct (stored w !! id) as [u|]; [|done]. exfalso. apply (not_elem_of_nil u). by apply Hall.
  - apply Hall. by left.
Qed.

Lemma encode_user_spec u (w : world) :
  let '(w', r) := encode_user random_salt u w in
  stored w' = stored w /\ docs (rb_roles w') = docs (rb_roles w) /\ (rb_draws w <= rb_draws w')%nat /\
  match r with Ok u' => same_account u u' | Err e => technical e end.
Proof.
  unfold encode_user. case_decide; [done|]. unfold sbind, draw. cbn.
  destruct (MarshalBSONValue _ _ _); cbn; repeat split; try done; lia.
Qed.

(** Writing a user: an existing document is replaced, or nothing is. *)
Lemma UpdateUser_spec now u (w : world) :
  let '(w', r) := UpdateUser random_salt now (Some u) w in
  docs (rb_roles w') = docs (rb_roles w) /\ (rb_draws w <= rb_draws w')%nat /\
  (stored w' = stored w /\ r <> Ok tt \/
   exists doc, same_account u doc /\ is_Some (stored w !! u_ID u) /\ stored w' = <[u_ID u := doc]> (stored w)) /\
  match r with Ok _ => True | Err e => technical e end.
Proof.
  unfold UpdateUser. case_decide as Hn.
  { split; [done|]. split; [lia|]. split; [by left|by intros ?]. }
  unfold sbind. pose proof (encode_user_spec (set_user_base (set_updated now (u_Base u)) u) w) as He.
  destruct (encode_user random_salt _ w) as [w1 [doc|e]]; destruct He as (Hst & Hro & Hdr & Hdoc).
  2: { split; [done|]. split; [lia|]. split; [by left|done]. }
  unfold on_users. pose proof (replace_law (u_ID u) doc (rb_users w1)) as Hr.
  destruct Hdoc as (Hid & Hrest).
  change (u_ID (set_user_base (set_updated now (u_Base u)) u)) with (u_ID u) in *.
  assert (Hacc : same_account u doc) by (split; assumption).
  destruct (ReplaceOne (u_ID u) doc (rb_users w1)) as [k [[|]|e]]; cbn; rewrite <- Hst.
  - destruct Hr as [Hin Hk]. split; [done|]. split; [lia|]. split; [|done]. right. exists doc. by rewrite Hk.
  - destruct Hr as [Hin Hk]. split; [done|]. split; [lia|]. split; [by left|by intros ?].
  - split; [done|]. split; [lia|]. split; [|by intros ?].
    destruct Hr as [Hk|[Hin Hk]]; [left; by rewrite Hk|]. right. exists doc. by rewrite Hk.
Qed.

(** *** One write to the accounts *)

(** What a kept session may become: revoked. *)
Definition kept (s s' : RefreshSession) : Prop :=
  rs_JTI s' = rs_JTI s /\ (rs_Revoked s = true -> rs_Revoked s' = true).

(** Sessions are dropped or revoked and at most one with a new identifier is added;
    the version of the tokens stays, or rises by one where it may. *)
Definition derives (d d' : nat) (u u' : User) : Prop :=
  u_ID u' = u_ID u /\
  (exists old kept_ new, old `sublist_of` u_RefreshTokens u /\ Forall2 kept old kept_ /\
     u_RefreshTokens u' = kept_ ++ new /\
     (new = [] \/ exists m s, (d <= m < d')%nat /\ new = [s] /\ rs_JTI s = xid m)) /\
  (u_TokenVersion u' = u_TokenVersion u \/ bump = true /\ u_TokenVersion u' = i64 (u_TokenVersion u + 1)).

Definition evolves (w w' : world) : Prop :=
  (rb_draws w <= rb_draws w')%nat /\
  forall id, stored w' !! id = stored w !! id \/
    exists u', stored w' !! id = Some u' /\
      match stored w !! id with
      | Some u => derives (rb_draws w) (rb_draws w') u u'
      | None => u_ID u' = id /\ u_RefreshTokens u' = []
      end.

(** The sessions of every account have identifiers that were drawn, each once. *)
Definition sessions_ok (w : world) : Prop :=
  keyed_users w /\
  forall id u, stored w !! id = Some u ->
    NoDup (jtis u) /\ forall s, s ∈ u_RefreshTokens u -> exists n, (n < rb_draws w)%nat /\ rs_JTI s = xid n.

Lemma same_data_evolves w w' : same_data w w' -> evolves w w'.
Proof. intros (Hs & _ & Hd). split; [lia|]. intros id. left. by rewrite Hs. Qed.

Lemma kept_jtis old new : Forall2 kept old new -> rs_JTI <$> new = rs_JTI <$> old.
Proof. induction 1 as [|s s' l l' [Hj _] _ IH]; [done|]. cbn. by rewrite Hj, IH. Qed.

Lemma fmap_sublist {X Y} (f : X -> Y) l k : l `sublist_of` k -> (f <$> l) `sublist_of` (f <$> k).
Proof. induction 1; cbn; constructor; auto. Qed.

Lemma Forall2_elem_r {X Y} (P : X -> Y -> Prop) l k y : Forall2 P l k -> y ∈ k -> exists x, x ∈ l /\ P x y.
Proof.
  induction 1 as [|x y' l k Hp _ IH]; [by intros ?%not_elem_of_nil|]. intros [->|Hy]%elem_of_cons; [exists x; by split; [left|]|].
  destruct (IH Hy) as (x' & Hx & Hp'). exists x'. by split; [right|].
Qed.

Lemma derives_sessions d d' u u' s' :
  derives d d' u u' -> s' ∈ u_RefreshTokens u' ->
  (exists s, s ∈ u_RefreshTokens u /\ kept s s') \/ exists m, (d <= m < d')%nat /\ rs_JTI s' = xid m.
Proof.
  intros (_ & (old & ks & new & Hsub & Hk & -> & Hnew) & _) [Hin|Hin]%elem_of_app.
  - left. destruct (Forall2_elem_r _ _ _ _ Hk Hin) as (s & Hs & Hkept). exists s. split; [|done].
    by eapply elem_of_sublist.
  - right. destruct Hnew as [->|(m & s & Hm & -> & Hj)]; [by apply not_elem_of_nil in Hin|].
    apply list_elem_of_singleton in Hin as ->. by exists m.
Qed.

Hypothesis Hxid : forall n m, xid n = xid m -> n = m.

Lemma derives_ok d d' u u' :
  derives d d' u u' -> (d <= d')%nat -> NoDup (jtis u) ->
  (forall s, s ∈ u_RefreshTokens u -> exists n, (n < d)%nat /\ rs_JTI s = xid n) ->
  NoDup (jtis u') /\ forall s, s ∈ u_RefreshTokens u' -> exists n, (n < d')%nat /\ rs_JTI s = xid n.
Proof.
  intros Hd Hle Hnd Hold. split.
  - destruct Hd as (_ & (old & ks & new & Hsub & Hk & -> & Hnew) & _).
    assert (Hks : NoDup (rs_JTI <$> ks)) by (rewrite (kept_jtis _ _ Hk); eapply sublist_NoDup; [exact Hnd|by apply fmap_sublist]).
    destruct Hnew as [->|(m & s & Hm & -> & Hj)]; [by rewrite app_nil_r|].
    rewrite fmap_app. apply NoDup_app. split; [done|]. split; [|apply NoDup_singleton].
    intros j Hin Hj'. cbn in Hj'. apply list_elem_of_singleton in Hj' as ->.
    rewrite (kept_jtis _ _ Hk) in Hin. apply list_elem_of_fmap in Hin as (s0 & Hs0 & Hin).
    destruct (Hold s0 (elem_of_sublist _ _ _ Hin Hsub)) as (n & Hn & Hjn). rewrite Hj, Hjn in Hs0. apply Hxid in Hs0. lia.
  - intros s' Hin. destruct (derives_sessions _ _ _ _ _ Hd Hin) as [(s & Hs & [Hj _])|(m & Hm & Hj)].
    + destruct (Hold s Hs) as (n & Hn & Hjn). exists n. split; [lia|]. by rewrite Hj.
    + exists m. split; [lia|done].
Qed.

Lemma evolves_sessions_ok w w' : evolves w w' -> sessions_ok w -> sessions_ok w'.
Proof.
  intros [Hd Hev] [Hk Hok]. split.
  - intros id u' Hu'. destruct (Hev id) as [Heq|(u2 & Hu2 & Hu)].
    { rewrite Heq in Hu'. by apply Hk. }
    rewrite Hu' in Hu2. injection Hu2 as <-. destruct (stored w !! id) as [u|] eqn:E; [|by destruct Hu].
    destruct Hu as [-> _]. by apply Hk.
  - intros id u' Hu'. destruct (Hev id) as [Heq|(u2 & Hu2 & Hu)].
    { rewrite Heq in Hu'. destruct (Hok id u' Hu') as [Hnd Hall]. split; [done|].
      intros s Hs. destruct (Hall s Hs) as (n & Hn & Hj). exists n. split; [lia|done]. }
    rewrite Hu' in Hu2. injection Hu2 as <-. destruct (stored w !! id) as [u|] eqn:E.
    + destruct (Hok id u E) as [Hnd Hall]. by eapply derives_ok.
    + destruct Hu as [_ ->]. split; [constructor|]. by intros s ?%not_elem_of_nil.
Qed.

(** A session that was issued and is revoked or gone. *)
Definition spent (id : ObjectID) (jti : string) (w : world) : Prop :=
  forall u s, stored w !! id = Some u -> s ∈ u_RefreshTokens u -> rs_JTI s = jti -> rs_Revoked s = true.

Lemma evolves_spent w w' id n : evolves w w' -> (n < rb_draws w)%nat -> spent id (xid n) w -> spent id (xid n) w'.
Proof.
  intros [Hd Hev] Hn Hsp u' s' Hu' Hs' Hj. destruct (Hev id) as [Heq|(u2 & Hu2 & Hu)].
  { rewrite Heq in Hu'. by eapply Hsp. }
  rewrite Hu' in Hu2. injection Hu2 as <-. destruct (stored w !! id) as [u|] eqn:E.
  - destruct (derives_sessions _ _ _ _ _ Hu Hs') as [(s & Hs & [Hjs Hr])|(m & Hm & Hjm)].
    + apply Hr. eapply Hsp; [exact E|exact Hs|congruence].
    + rewrite Hj in Hjm. apply Hxid in Hjm. lia.
  - destruct Hu as [_ Hnil]. rewrite Hnil in Hs'. by apply not_elem_of_nil in Hs'.
Qed.

Lemma consume_spent jti hash now l :
  Forall (fun s => rs_JTI s = jti -> rs_Revoked s = true) l -> forall l', consume_session jti hash now l <> Some (Some l').
Proof.
  induction 1 as [|s l Hs _ IH]; intros l'; cbn; [done|]. case_decide as Hj.
  - destruct (consume_session jti hash now l) as [[l2|]|] eqn:E; cbn; [|done..]. by destruct (IH l2).
  - by rewrite Hs by (by destruct (decide (rs_JTI s = jti))).
Qed.

Lemma consume_session_kept jti hash now l l' :
  consume_session jti hash now l = Some (Some l') -> Forall2 kept l l' /\ (exists s, s ∈ l /\ rs_JTI s = jti) /\
  (NoDup (rs_JTI <$> l) -> Forall (fun s => rs_JTI s = jti -> rs_Revoked s = true) l').
Proof.
  revert l'. induction l as [|s l IH]; intros l'; cbn; [done|]. case_decide as Hj.
  - destruct (consume_session jti hash now l) as [[l2|]|] eqn:E; cbn; [|done..]. intros [= <-].
    destruct (IH l2 eq_refl) as (Hk & (s0 & Hs0 & Hj0) & Hall). split; [by constructor|]. split; [exists s0; by split; [right|]|].
    rewrite NoDup_cons. intros [_ Hnd]. constructor; [done|auto].
  - destruct (rs_Revoked s || IsExpired s now) eqn:Er; [done|]. case_decide; [done|]. intros [= <-].
    assert (Hjs : rs_JTI s = jti) by (by destruct (decide (rs_JTI s = jti))). split.
    + constructor; [by split|]. clear. induction l; constructor; [by split|done].
    + split; [exists s; by split; [left|]|]. rewrite NoDup_cons. intros [Hnew _]. constructor; [done|].
      apply Forall_forall. intros s' Hin Hj'. exfalso. apply Hnew. rewrite Hjs, <- Hj'. by apply list_elem_of_fmap_2.
Qed.

Lemma revoke_session_kept jti hash l l' : revoke_session jti hash l = Some l' -> Forall2 kept l l'.
Proof.
  revert l'. induction l as [|s l IH]; intros l'; cbn; [done|]. case_decide.
  - intros [= <-]. constructor; [by split|]. clear. induction l; constructor; [by split|done].
  - destruct (revoke_session jti hash l) as [l2|]; cbn; [|done]. intros [= <-]. constructor; [by split|auto].
Qed.

(** *** Operations as writes *)

Lemma derives_account d d' d'' u u' doc : derives d d' u u' -> (d' <= d'')%nat -> same_account u' doc -> derives d d'' u doc.
Proof.
  intros (Hid & (old & ks & new & Hsub & Hk & Hl & Hnew) & Hv) Hle (Hid' & Hl' & Hv' & _).
  split; [congruence|]. split; [|by rewrite Hv'].
  exists old, ks, new. rewrite Hl'. repeat split; try done.
  destruct Hnew as [->|(m & s & Hm & -> & Hj)]; [by left|]. right. exists m, s. split; [lia|done].
Qed.

(** Sessions that stay, are revoked or are dropped. *)
Lemma derives_kept d d' u u' old :
  u_ID u' = u_ID u -> old `sublist_of` u_RefreshTokens u -> Forall2 kept old (u_RefreshTokens u') ->
  u_TokenVersion u' = u_TokenVersion u \/ bump = true /\ u_TokenVersion u' = i64 (u_TokenVersion u + 1) -> derives d d' u u'.
Proof.
  intros Hid Hsub Hk Hv. split; [done|]. split; [|done]. exists old, (u_RefreshTokens u'), []. rewrite app_nil_r. auto.
Qed.

Lemma kept_refl l : Forall2 kept l l.
Proof. induction l; constructor; [by split|done]. Qed.

Lemma derives_same d d' u u' :
  u_ID u' = u_ID u -> u_RefreshTokens u' = u_RefreshTokens u -> u_TokenVersion u' = u_TokenVersion u -> derives d d' u u'.
Proof.
  intros Hid Hl Hv. eapply derives_kept; [done|reflexivity| |by left]. rewrite Hl. apply kept_refl.
Qed.

Lemma write_evolves now w0 w1 u u' :
  stored w1 = stored w0 -> (rb_draws w0 <= rb_draws w1)%nat -> stored w0 !! u_ID u = Some u ->
  derives (rb_draws w0) (rb_draws w1) u u' -> evolves w0 (UpdateUser random_salt now (Some u') w1).1.
Proof.
  intros Hst Hle Hu Hd. pose proof (UpdateUser_spec now u' w1) as Hs.
  destruct (UpdateUser random_salt now (Some u') w1) as [w2 r]. destruct Hs as (_ & Hdr & Hw & _). cbn. split; [lia|].
  intros id. destruct Hw as [[-> _]|(doc & Hacc & _ & ->)]; [left; by rewrite Hst|].
  destruct Hd as (Hid & Hrest). rewrite Hst, Hid. destruct (decide (u_ID u = id)) as [<-|Hne].
  - right. exists doc. rewrite lookup_insert_eq, Hu. split; [done|]. eapply derives_account; [by split| |done]. lia.
  - left. by rewrite lookup_insert_ne.
Qed.

Lemma getUserByUserName_spec name (w : world) :
  keyed_users w ->
  let '(w', r) := getUserByUserName name w in
  same_data w w' /\ match r with Ok u => stored w !! u_ID u = Some u /\ u_UserName u = name | Err e => technical e \/ e = AStatus 401 end.
Proof.
  intros Hk. unfold getUserByUserName, QueryUsers, sbind. cbn [qu_IDs qu_UserNames].
  match goal with |- context [on_users (Find ?f) w] => pose proof (find_users_spec f w) as Hf; destruct (on_users (Find f) w) as [w' [l|e]] end;
    destruct Hf as [Hs Hl]; [|by auto].
  destruct l as [|u l]; cbn; (split; [done|]); [by right|].
  destruct (proj1 (Hl u) ltac:(by left)) as [[i Hi] Hn]. unfold one_of, field_one_of in Hn. rewrite andb_true_iff, !bool_decide_eq_true in Hn.
  destruct Hn as [_ [?|[_ Hn%list_elem_of_singleton]]]; [done|]. by rewrite (Hk _ _ Hi).
Qed.

Lemma prune_sublist l now : pruneRefreshSessions l now `sublist_of` l.
Proof.
  induction l as [|s l IH]; [done|]. unfold pruneRefreshSessions in *. rewrite filter_cons. case_decide; by constructor.
Qed.

(** Issuing tokens for a user as stored: the new session joins those still alive. *)
Lemma issue_spec now u user (w : world) :
  stored w !! u_ID u = Some u -> same_account u user ->
  let '(w', r) := issueTokenPair random_salt xid now user w in
  evolves w w' /\
  match r with
  | Err e => technical e
  | Ok tp =>
      exists n u', (rb_draws w <= n < rb_draws w')%nat /\ stored w' = <[u_ID u := u']> (stored w) /\
        docs (rb_roles w') = docs (rb_roles w) /\
        SignedString (token_claims now (60 * 1000) "access" "" user) = Some (AccessToken tp) /\
        SignedString (token_claims now (24 * 3600 * 1000) "refresh" (xid n) user) = Some (RefreshTokenString tp) /\
        u_ID u' = u_ID u /\ u_TokenVersion u' = u_TokenVersion u /\ u_Roles u' = u_Roles u /\ u_Status u' = u_Status u /\
        u_RefreshTokens u' = pruneRefreshSessions (u_RefreshTokens u) now ++
          [mkSession (xid n) (hashToken (RefreshTokenString tp)) ((now + 24 * 3600 * 1000) / 1000) false]
  end.
Proof.
  intros Hu (Hid & Hse & Hv & Hst & Hro & Hun). unfold issueTokenPair, genAccessToken, genRefreshToken, sbind, draw.
  destruct (SignedString (token_claims now (60 * 1000) "access" "" user)) as [acc|] eqn:Ea; cbn [sret sfail].
  2: { split; [by apply same_data_evolves|by intros ?]. }
  cbn -[UpdateUser u_ID]. set (c := token_claims now (24 * 3600 * 1000) "refresh" (xid (rb_draws w)) user).
  destruct (SignedString c) as [ref|] eqn:Er; cbn -[UpdateUser u_ID].
  2: { split; [split; [cbn; lia|by left]|by intros ?]. }
  set (w1 := mkRBAC (rb_users w) (rb_roles w) (S (rb_draws w))).
  match goal with |- context [UpdateUser random_salt now (Some ?x) w1] => set (user' := x) end.
  assert (Hder : derives (rb_draws w) (rb_draws w1) u user').
  { split; [exact Hid|]. split; [|by left]. exists (pruneRefreshSessions (u_RefreshTokens u) now), (pruneRefreshSessions (u_RefreshTokens u) now).
    eexists [_]. split; [apply prune_sublist|]. split; [apply kept_refl|]. cbn. rewrite Hse. split; [done|].
    right. exists (rb_draws w). eexists. split; [cbn; lia|]. by split. }
  pose proof (write_evolves now w w1 u user' eq_refl (le_S _ _ (le_n _)) Hu Hder) as Hev.
  pose proof (UpdateUser_spec now user' w1) as Hs.
  destruct (UpdateUser random_salt now (Some user') w1) as [w2 [[]|e]]; destruct Hs as (Hroles & Hdr & Hw & He); cbn; (split; [exact Hev|]); [|exact He].
  destruct Hw as [[_ ?]|(doc & (D1 & D2 & D3 & D4 & D5 & _) & _ & Hst2)]; [done|].
  change (u_ID user') with (u_ID user) in Hst2, D1. rewrite Hid in Hst2, D1.
  exists (rb_draws w), doc. cbn [rb_draws w1] in Hdr. rewrite D2, D3, D4, D5. cbn [u_RefreshTokens u_TokenVersion u_Roles u_Status user' set_user_base set_user_sessions].
  rewrite Hse. split; [lia|]. by auto 12.
Qed.

(** A computation only makes such writes. *)
Definition steps {B} (m : M B) (w : world) : Prop := rtc evolves w (m w).1.

Lemma steps_pure {B} (m : M B) w : (m w).1 = w -> steps m w.
Proof. intros Hm. unfold steps. by rewrite Hm. Qed.

Lemma steps_bind {B C} (m : M B) (k : B -> M C) w :
  steps m w -> (forall b w1, m w = (w1, Ok b) -> steps (k b) w1) -> steps (sbind m k) w.
Proof.
  unfold steps, sbind. intros Hm Hk. destruct (m w) as [w1 [b|e]] eqn:E; [|done].
  etrans; [exact Hm|]. by apply Hk.
Qed.

Lemma steps_one {B} (m : M B) w : evolves w (m w).1 -> steps m w.
Proof. apply rtc_once. Qed.

Lemma steps_object_id {C} e id (k : ObjectID -> M C) w :
  (forall b, ObjectIDFromHex id = Some b -> steps (k b) w) -> steps (sbind (object_id ObjectIDFromHex e id) k) w.
Proof.
  intros Hk. apply steps_bind; unfold object_id; [apply steps_pure; by case_match|].
  intros b w1. destruct (ObjectIDFromHex id) as [b'|]; intros [= -> ->]. by apply Hk.
Qed.

Lemma steps_parse {C} now t (k : Claims -> M C) w :
  (forall c, ParseWithClaims now t = Some c -> steps (k c) w) -> steps (sbind (parseAndValidateToken now t) k) w.
Proof.
  intros Hk. apply steps_bind; unfold parseAndValidateToken; [apply steps_pure; by case_match|].
  intros c w1. destruct (ParseWithClaims now t) as [c'|]; intros [= -> ->]. by apply Hk.
Qed.

(** Reading a user and going on with it. *)
Lemma steps_get {C} id (k : User -> M C) w :
  keyed_users w ->
  (forall u w1, same_data w w1 -> stored w1 !! id = Some u -> u_ID u = id -> steps (k u) w1) ->
  steps (sbind (getUserByID id) k) w.
Proof.
  intros Hkey Hk. pose proof (getUserByID_spec id w Hkey) as Hs. apply steps_bind.
  - apply steps_one, same_data_evolves. by destruct (getUserByID id w) as [w1 r], Hs.
  - intros u w1 E. rewrite E in Hs. destruct Hs as [Hsame Hu]. apply Hk; [done| |by apply Hkey].
    by destruct Hsame as [-> _].
Qed.

Lemma steps_update now u u' w :
  stored w !! u_ID u = Some u -> derives (rb_draws w) (rb_draws w) u u' -> steps (UpdateUser random_salt now (Some u')) w.
Proof. intros Hu Hd. by eapply steps_one, write_evolves. Qed.

Lemma steps_roles opt w : steps (QueryRoles opt) w /\ forall w1 l, QueryRoles opt w = (w1, Ok l) -> same_data w w1.
Proof.
  unfold QueryRoles. destruct opt as [opt|]; [|split; [by apply steps_pure|done]].
  match goal with |- context [on_roles (Find ?f)] => pose proof (find_roles_spec f w) as Hf; destruct (on_roles (Find f) w) as [w' r] eqn:E end.
  destruct Hf as [Hs _]. split; [apply steps_one, same_data_evolves; unfold steps; by rewrite E|]. by intros w1 l [= <- _].
Qed.

Lemma steps_users opt w : steps (QueryUsers opt) w.
Proof.
  unfold QueryUsers. destruct opt as [opt|]; [|by apply steps_pure].
  match goal with |- steps (on_users (Find ?f)) _ => pose proof (find_users_spec f w) as Hf end.
  apply steps_one, same_data_evolves. by destruct (on_users _ w) as [w1 r], Hf.
Qed.

Lemma fresh_id_spec id (w : world) :
  let '(w', r) := fresh_id NewObjectID id w in
  stored w' = stored w /\ docs (rb_roles w') = docs (rb_roles w) /\ (rb_draws w <= rb_draws w')%nat.
Proof. unfold fresh_id. case_decide; cbn; repeat split; lia. Qed.

Lemma create_user_steps now user w : u_RefreshTokens user = [] -> steps (RBACRepo.CreateUser NewObjectID random_salt now (Some user)) w.
Proof.
  intros Hnil. apply steps_one. unfold RBACRepo.CreateUser, sbind.
  pose proof (fresh_id_spec (u_ID user) w) as Hf. destruct (fresh_id NewObjectID (u_ID user) w) as [w1 [id|e]];
    destruct Hf as (Hst & _ & Hd); [|split; [cbn; lia|left; cbn; by rewrite Hst]].
  set (user' := set_user_base (stamp_new now id (u_Base user)) user).
  pose proof (encode_user_spec user' w1) as He. destruct (encode_user random_salt user' w1) as [w2 [doc|e]];
    destruct He as (Hst2 & _ & Hd2 & Hdoc); [|split; [cbn; lia|left; cbn; by rewrite Hst2, Hst]].
  unfold on_users. pose proof (insert_law id doc (rb_users w2)) as Hi. destruct Hdoc as (Hid & Hse & _).
  assert (Hevolves : forall k, stored w !! id = None -> docs k = <[id := doc]> (stored w) ->
    evolves w (mkRBAC k (rb_roles w2) (rb_draws w2))).
  { intros k Hn Hk. split; [cbn; lia|]. intros i. cbn. rewrite Hk. destruct (decide (id = i)) as [<-|Hne].
    - right. exists doc. rewrite lookup_insert_eq, Hn. rewrite Hid, Hse. by rewrite <- Hnil.
    - left. by rewrite lookup_insert_ne. }
  rewrite Hst2, Hst in Hi.
  destruct (InsertOne id doc (rb_users w2)) as [k [[]|e]]; cbn.
  - destruct Hi. by apply Hevolves.
  - destruct Hi as [Hk|[Hn Hk]]; [|by apply Hevolves]. split; [cbn; lia|]. intros i. left. cbn. by rewrite Hk.
Qed.

Lemma roles_evolves (w w' : world) : stored w' = stored w -> (rb_draws w <= rb_draws w')%nat -> evolves w w'.
Proof. intros Hst Hd. split; [done|]. intros id. left. by rewrite Hst. Qed.

Lemma create_role_steps now role w : steps (RBACRepo.CreateRole NewObjectID now role) w.
Proof.
  apply steps_one. unfold RBACRepo.CreateRole, sbind. destruct role as [role|]; [|by apply same_data_evolves].
  pose proof (fresh_id_spec (role_ID role) w) as Hf. destruct (fresh_id NewObjectID (role_ID role) w) as [w1 [id|e]];
    destruct Hf as (Hst & _ & Hd); [|by apply roles_evolves].
  unfold on_roles. destruct (InsertOne _ _ _) as [k [[]|e]]; by apply roles_evolves.
Qed.

Lemma update_role_steps now role w : steps (RBACRepo.UpdateRole now role) w.
Proof.
  apply steps_one. unfold RBACRepo.UpdateRole, sbind, on_roles. destruct role as [role|]; [|by apply same_data_evolves].
  case_decide; [by apply same_data_evolves|]. destruct (ReplaceOne _ _ _) as [k [[|]|e]]; by apply roles_evolves.
Qed.

(** The last write of a refresh starts from what the first one stored. *)
Lemma refresh_commit_spec now u user (w : world) :
  stored w !! u_ID u = Some u -> derives (rb_draws w) (rb_draws w) u user ->
  let '(w', r) := refresh_commit random_salt xid now user w in
  rtc evolves w w' /\
  match r with
  | Err e => technical e
  | Ok tp =>
      exists n u', (rb_draws w <= n)%nat /\ stored w' !! u_ID u = Some u' /\ u_TokenVersion u' = u_TokenVersion user /\
        exists s, u_RefreshTokens u' = pruneRefreshSessions (u_RefreshTokens user) now ++ [s] /\ rs_JTI s = xid n
  end.
Proof.
  intros Hu Hd. unfold refresh_commit, sbind. set (user' := set_user_base (set_updated now (u_Base user)) user).
  assert (Hd' : derives (rb_draws w) (rb_draws w) u user') by exact Hd.
  pose proof (write_evolves now w w u user' eq_refl (le_n _) Hu Hd') as Hev.
  pose proof (UpdateUser_spec now user' w) as Hs.
  destruct (UpdateUser random_salt now (Some user') w) as [w1 [[]|e]]; destruct Hs as (_ & Hdr & Hw & He).
  2: { split; [by apply rtc_once|done]. }
  destruct Hw as [[_ ?]|(doc & Hacc & _ & Hst)]; [done|].
  assert (Hid : u_ID user' = u_ID u) by apply Hd'.
  assert (Hdoc : stored w1 !! u_ID doc = Some doc).
  { destruct Hacc as [-> _]. rewrite Hst, Hid. apply lookup_insert_eq. }
  assert (Hacc' : same_account doc user') by (unfold same_account in *; intuition congruence).
  pose proof (issue_spec now doc user' w1 Hdoc Hacc') as Hi.
  destruct (issueTokenPair random_salt xid now user' w1) as [w2 [tp|e]]; destruct Hi as [Hev2 Hr].
  2: { split; [|done]. eapply rtc_l; [exact Hev|]. by apply rtc_once. }
  split; [eapply rtc_l; [exact Hev|]; by apply rtc_once|].
  destruct Hr as (n & u' & Hn & Hst2 & _ & _ & _ & Hid2 & Hv & _ & _ & Hse). exists n, u'. split; [lia|].
  destruct Hacc as (Hidd & Hsed & Hvd & _). rewrite Hst2, Hidd, Hid, lookup_insert_eq.
  split; [done|]. split; [rewrite Hv, Hvd; done|]. eexists. split; [rewrite Hse, Hsed; done|done].
Qed.

(** What was checked before the writes of a refresh. *)
Lemma refresh_check_spec now token (w : world) :
  keyed_users w ->
  let '(w', r) := refresh_check ObjectIDFromHex now token w in
  same_data w w' /\
  match r with
  | Ok user =>
      exists c uid u l, ParseWithClaims now token = Some c /\ cl_TokenType c = "refresh" /\ cl_ID c <> "" /\
        ObjectIDFromHex (cl_UID c) = Some uid /\ stored w !! uid = Some u /\ u_TokenVersion u = cl_TokenVersion c /\
        consume_session (cl_ID c) (hashToken token) now (u_RefreshTokens u) = Some (Some l) /\
        user = set_user_sessions (u_TokenVersion u) l u
  | Err e => True
  end.
Proof.
  intros Hk. unfold refresh_check, parseAndValidateToken, object_id, sbind.
  destruct (ParseWithClaims now token) as [c|]; [|done]. cbn. case_decide as H3; [done|]. case_decide as H4; [done|].
  destruct (ObjectIDFromHex (cl_UID c)) as [uid|] eqn:Eo; [|done]. cbn.
  pose proof (getUserByID_spec uid w Hk) as Hg. destruct (getUserByID uid w) as [w1 [u|e]]; destruct Hg as [Hs Hu]; [|done].
  case_decide as Hv; [done|]. destruct (consume_session _ _ _ _) as [[l|]|] eqn:Ec; [|done..].
  split; [done|]. exists c, uid, u, l. by split_and!.
Qed.

(** *** Histories *)

(** The requests of the service that touch accounts and roles, at their times. *)
Inductive auth_op :=
| OpCreateNewUser (now : Z) (operator : Claims) (username password : string)
| OpCreateAdmin (now : Z) (username password : string)
| OpLogin (now : Z) (username password : string)
| OpRefresh (now : Z) (token : string)
| OpLogout (now : Z) (token : string)
| OpLogoutAll (now : Z) (user : Claims)
| OpChangePassword (now : Z) (user : Claims) (oldPassword newPassword : string)
| OpUpdatePermissions (now : Z) (operator : Claims) (id : string) (opt : UpdateUserPermissionsOptions)
| OpResetPassword (now : Z) (operator : Claims) (id newPassword : string)
| OpCreateRole (now : Z) (operator : Claims) (role : Role)
| OpUpdateRole (now : Z) (operator : Claims) (id : string) (opt : UpdateRoleOptions).

Definition run_op (w : world) (o : auth_op) : world :=
  match o with
  | OpCreateNewUser now operator username password => (CreateNewUser ObjectIDFromHex NewObjectID random_salt now operator username password w).1
  | OpCreateAdmin now username password => (CreateAdminUserIfNotExists NewObjectID random_salt now username password w).1
  | OpLogin now username password => (Login random_salt xid now username password w).1
  | OpRefresh now token => (RefreshToken ObjectIDFromHex random_salt xid now token w).1
  | OpLogout now token => (Logout ObjectIDFromHex random_salt now token w).1
  | OpLogoutAll now user => (LogoutAll ObjectIDFromHex random_salt now user w).1
  | OpChangePassword now user old new => (ChangePassword ObjectIDFromHex random_salt now user old new w).1
  | OpUpdatePermissions now operator id opt => (UpdateUserPermissions ObjectIDFromHex random_salt now operator id opt w).1
  | OpResetPassword now operator id pw => (ResetPassword ObjectIDFromHex random_salt now operator id pw w).1
  | OpCreateRole now operator role => (CreateRole ObjectIDFromHex NewObjectID now operator role w).1
  | OpUpdateRole now operator id opt => (UpdateRole ObjectIDFromHex now operator id opt w).1
  end.

Lemma login_steps now username password w : keyed_users w -> steps (Login random_salt xid now username password) w.
Proof.
  intros Hk. unfold Login. pose proof (getUserByUserName_spec username w Hk) as Hg. apply steps_bind.
  { apply steps_one, same_data_evolves. by destruct (getUserByUserName username w) as [? ?], Hg. }
  intros u w1 E. rewrite E in Hg. destruct Hg as ((Hst & _) & Hu & _). case_decide; [by apply steps_pure|].
  destruct (Cmp _ _) as [[|]|]; [|by apply steps_pure..]. apply steps_one.
  pose proof (issue_spec now u u w1 ltac:(by rewrite Hst) ltac:(done)) as Hi. by destruct (issueTokenPair _ _ _ _ _) as [? ?], Hi.
Qed.

Lemma refresh_steps now token w : keyed_users w -> steps (RefreshToken ObjectIDFromHex random_salt xid now token) w.
Proof.
  intros Hk. unfold RefreshToken. pose proof (refresh_check_spec now token w Hk) as Hc. apply steps_bind.
  { apply steps_one, same_data_evolves. by destruct (refresh_check _ _ _ w) as [? ?], Hc. }
  intros user w1 E. rewrite E in Hc. destruct Hc as ((Hst & _) & c & uid & u & l & _ & _ & _ & _ & Hu & _ & Hl & ->).
  apply consume_session_kept in Hl as (Hkept & _ & _).
  pose proof (refresh_commit_spec now u (set_user_sessions (u_TokenVersion u) l u) w1) as Hcm.
  unfold steps. destruct (refresh_commit _ _ _ _ _) as [w2 r]. apply Hcm.
  - by rewrite Hst, (Hk _ _ Hu).
  - eapply derives_kept; [done|reflexivity|exact Hkept|by left].
Qed.

Lemma run_op_steps w o :
  sessions_ok w -> (forall now user, o = OpLogoutAll now user -> bump = true) -> rtc evolves w (run_op w o).
Proof.
  intros [Hk _] Hbump. destruct o; cbn [run_op];
    match goal with |- rtc evolves _ (?m _).1 => change (steps m w) end.
  - unfold CreateNewUser. apply steps_object_id. intros op _. apply steps_bind; [by apply create_user_steps|by intros; apply steps_pure].
  - unfold CreateAdminUserIfNotExists. apply steps_bind; [apply steps_users|]. intros [|] w1 _; [|by apply steps_pure].
    apply steps_bind; [apply steps_roles|]. intros [|] w2 _; [by apply steps_pure|].
    apply steps_bind; [by apply create_user_steps|by intros; apply steps_pure].
  - by apply login_steps.
  - by apply refresh_steps.
  - unfold Logout. apply steps_parse. intros c _. case_decide; [by apply steps_pure|].
    apply steps_object_id. intros uid _. apply steps_get; [done|]. intros u w1 Hs Hu Hid.
    destruct (revoke_session _ _ _) as [l|] eqn:El; [|by apply steps_pure]. apply revoke_session_kept in El.
    eapply steps_update; [by rewrite Hid|]. eapply derives_kept; [done|reflexivity|exact El|by left].
  - unfold LogoutAll. apply steps_object_id. intros uid _. apply steps_get; [done|]. intros u w1 Hs Hu Hid.
    eapply steps_update; [by rewrite Hid|]. eapply (derives_kept _ _ _ _ []); [done|apply sublist_nil_l|constructor|right; split; [by eapply Hbump|done]].
  - unfold ChangePassword. apply steps_object_id. intros uid _. apply steps_get; [done|]. intros u w1 Hs Hu Hid.
    destruct (Cmp _ _) as [[|]|]; [|by apply steps_pure..]. eapply steps_update; [by rewrite Hid|]. by apply derives_same.
  - unfold UpdateUserPermissions. apply steps_object_id. intros oid _. apply steps_object_id. intros uid _.
    apply steps_get; [done|]. intros u w1 Hs Hu Hid.
    apply steps_bind.
    + destruct (up_Roles opt) as [rs|]; [|by apply steps_pure]. apply steps_bind; [apply steps_roles|].
      intros l w2 _. case_decide; by apply steps_pure.
    + intros u2 w2 E. assert (Hu2 : stored w2 = stored w1 /\ derives (rb_draws w2) (rb_draws w2) u u2).
      { destruct (up_Roles opt) as [rs|]; [|injection E as <- <-; split; [done|by apply derives_same]].
        unfold sbind in E. destruct (QueryRoles _ w1) as [w3 [l|e]] eqn:Eq; [|done].
        destruct (proj2 (steps_roles (Some (mkQueryRoles [] rs)) w1) _ _ Eq) as [Hst _].
        case_decide; [done|]. injection E as <- <-. split; [done|by apply derives_same]. }
      destruct Hu2 as [Hst2 Hd]. eapply steps_update; [by rewrite Hst2, Hid|]. by destruct (up_Status opt).
  - unfold ResetPassword. apply steps_object_id. intros oid _. apply steps_object_id. intros uid _.
    apply steps_get; [done|]. intros u w1 Hs Hu Hid. eapply steps_update; [by rewrite Hid|]. by apply derives_same.
  - unfold CreateRole. apply steps_object_id. intros oid _. apply steps_bind; [apply create_role_steps|by intros; apply steps_pure].
  - unfold UpdateRole. apply steps_object_id. intros oid _. apply steps_bind.
    { unfold getRolesByIDs. cbn [object_ids]. apply steps_bind; [|intros; apply steps_roles].
      apply steps_object_id. intros. by apply steps_pure. }
    intros [|r l] w1 _; [by apply steps_pure|]. apply update_role_steps.
Qed.

Lemma rtc_sessions_ok w w' : rtc evolves w w' -> sessions_ok w -> sessions_ok w'.
Proof. induction 1 as [|w1 w2 w3 Hev _ IH]; [done|]. intros Hok. by apply IH, (evolves_sessions_ok _ _ Hev). Qed.

Lemma rtc_spent w w' id n : rtc evolves w w' -> (n < rb_draws w)%nat -> spent id (xid n) w -> spent id (xid n) w'.
Proof.
  induction 1 as [|w1 w2 w3 Hev _ IH]; [done|]. intros Hn Hsp. apply IH; [|by eapply evolves_spent].
  destruct Hev as [Hd _]. lia.
Qed.

Lemma rtc_draws w w' : rtc evolves w w' -> (rb_draws w <= rb_draws w')%nat.
Proof. induction 1 as [|w1 w2 w3 [Hd _] _ IH]; lia. Qed.

(** An account stays, and unless the version may rise it keeps it. *)
Lemma evolves_version w w' id u :
  evolves w w' -> stored w !! id = Some u -> exists u', stored w' !! id = Some u' /\
    (u_TokenVersion u' = u_TokenVersion u \/ bump = true /\ u_TokenVersion u' = i64 (u_TokenVersion u + 1)).
Proof.
  intros [_ Hev] Hu. destruct (Hev id) as [->|(u' & Hu' & Hd)]; [exists u; auto|].
  rewrite Hu in Hd. exists u'. split; [done|]. by destruct Hd as (_ & _ & ?).
Qed.

End proofs.

(** *** Histories after the section *)

Section histories.
  Context {U R : Type} `{CollectionLaws U User} `{CollectionLaws R Role} {A : Argon2Lib} {J : JWTLib}.
  Variable ObjectIDFromHex : string -> option ObjectID.
  Variable NewObjectID : nat -> ObjectID.
  Variable random_salt : nat -> option (list Z).
  Variable xid : nat -> string.
  Hypothesis Hxid : forall n m, xid n = xid m -> n = m.

Notation world := (rbac U R).
Notation run := (foldl (run_op ObjectIDFromHex NewObjectID random_salt xid)).
Notation ok := (sessions_ok xid).

Lemma history_steps ops (w : world) : ok w -> rtc (evolves xid true) w (run w ops) /\ ok (run w ops).
Proof.
  revert w. induction ops as [|o ops IH]; intros w Hok; [done|]. cbn.
  pose proof (run_op_steps ObjectIDFromHex NewObjectID random_salt xid true w o Hok ltac:(done)) as Hs.
  destruct (IH _ (rtc_sessions_ok xid true Hxid _ _ Hs Hok)) as [Hr Hf]. split; [by etrans|done].
Qed.

(** Without a logout from everywhere the version stays. *)
Lemma rtc_version (w w' : world) id u :
  rtc (evolves xid false) w w' -> docs (rb_users w) !! id = Some u ->
  exists u', docs (rb_users w') !! id = Some u' /\ u_TokenVersion u' = u_TokenVersion u.
Proof.
  intros Hr. revert u. induction Hr as [w|w1 w2 w3 Hev _ IH]; intros u Hu; [by exists u|].
  destruct (evolves_version xid false w1 w2 id u Hev Hu) as (u2 & Hu2 & [Hv|[? _]]); [|done].
  destruct (IH u2 Hu2) as (u3 & Hu3 & Hv3). exists u3. split; [done|congruence].
Qed.

(** A logout from everywhere reads the account and writes it once. *)
Lemma logout_all_spec now user (w : world) :
  keyed_users w ->
  let '(w', r) := LogoutAll ObjectIDFromHex random_salt now user w in
  (exists w1, same_data w w1 /\ (w' = w1 \/ evolves xid true w1 w')) /\
  match r with
  | Ok _ => exists uid u u', ObjectIDFromHex (cl_UID user) = Some uid /\ docs (rb_users w) !! uid = Some u /\
      docs (rb_users w') !! uid = Some u' /\ u_TokenVersion u' = i64 (u_TokenVersion u + 1) /\ u_RefreshTokens u' = []
  | Err _ => True
  end.
Proof.
  intros Hk. unfold LogoutAll, object_id, sbind. destruct (ObjectIDFromHex (cl_UID user)) as [uid|]; cbn [sret sfail].
  2: { split; [|done]. exists w. by split; [|left]. }
  pose proof (getUserByID_spec uid w Hk) as Hg. destruct (getUserByID uid w) as [w1 [u|e]]; destruct Hg as [Hs Hu].
  2: { split; [|done]. exists w1. by split; [|left]. }
  set (u' := set_user_sessions (i64 (u_TokenVersion u + 1)) [] u).
  assert (Hst : docs (rb_users w1) = docs (rb_users w)) by apply Hs.
  assert (Hu1 : docs (rb_users w1) !! u_ID u = Some u) by by rewrite Hst, (Hk _ _ Hu).
  pose proof (write_evolves random_salt xid true now w1 w1 u u' eq_refl (le_n _) Hu1) as Hev.
  pose proof (UpdateUser_spec random_salt now u' w1) as Hup.
  destruct (UpdateUser random_salt now (Some u') w1) as [w2 r]. destruct Hup as (_ & _ & Hw & _). split.
  - exists w1. split; [done|]. right. apply Hev. eapply (derives_kept _ _ _ _ _ _ []); [done|apply sublist_nil_l|constructor|by right].
  - destruct r as [[]|]; [|done]. destruct Hw as [[_ ?]|(doc & (_ & Hl & Hv & _) & _ & Hst2)]; [done|].
    exists uid, u, doc. split; [done|]. split; [done|]. rewrite Hst2. change (u_ID u') with (u_ID u). rewrite (Hk _ _ Hu), lookup_insert_eq.
    by rewrite Hl, Hv.
Qed.

Lemma run_op_version o (w : world) id u :
  ok w -> docs (rb_users w) !! id = Some u ->
  exists u', docs (rb_users (run_op ObjectIDFromHex NewObjectID random_salt xid w o)) !! id = Some u' /\
    (u_TokenVersion u' = u_TokenVersion u \/ u_TokenVersion u' = i64 (u_TokenVersion u + 1)).
Proof.
  intros Hok Hu. assert (Ho : (exists now user, o = OpLogoutAll now user) \/ forall now user, o <> OpLogoutAll now user) by (destruct o; eauto; by right).
  destruct Ho as [(now & user & ->)|Hno].
  - cbn. pose proof (logout_all_spec now user w (proj1 Hok)) as Hl.
    destruct (LogoutAll ObjectIDFromHex random_salt now user w) as [w' r]. destruct Hl as [(w1 & (Hst & _) & [->|Hev]) _]; cbn.
    + exists u. rewrite Hst. auto.
    + destruct (evolves_version xid true w1 w' id u Hev) as (u' & Hu' & Hv); [by rewrite Hst|]. exists u'. naive_solver.
  - pose proof (run_op_steps ObjectIDFromHex NewObjectID random_salt xid false w o Hok) as Hs.
    destruct (rtc_version _ _ id u (Hs (fun now user Ho => False_ind _ (Hno now user Ho))) Hu) as (u' & Hu' & Hv). exists u'. auto.
Qed.

(** Short of an overflow the version never falls. *)
Lemma history_version ops (w : world) id u :
  ok w -> docs (rb_users w) !! id = Some u -> min_i64 <= u_TokenVersion u -> u_TokenVersion u + Z.of_nat (length ops) <= max_i64 ->
  exists u', docs (rb_users (run w ops)) !! id = Some u' /\ u_TokenVersion u <= u_TokenVersion u'.
Proof.
  revert w u. induction ops as [|o ops IH]; intros w u Hok Hu Hmin Hmax; [exists u; split; [done|lia]|].
  cbn [foldl]. cbn [length] in Hmax. destruct (run_op_version o w id u Hok Hu) as (u1 & Hu1 & Hv1).
  assert (Hle : u_TokenVersion u <= u_TokenVersion u1 <= u_TokenVersion u + 1).
  { destruct Hv1 as [->|Hv1]; [lia|]. unfold min_i64, max_i64 in *. rewrite i64_id in Hv1 by (unfold is_i64; lia). lia. }
  pose proof (proj2 (history_steps [o] w Hok)) as Hok1. cbn in Hok1.
  destruct (IH _ u1 Hok1 Hu1) as (u' & Hu' & Hv'); [lia|lia|]. exists u'. split; [done|lia].
Qed.

(** A refresh that is accepted spends the session of its token. *)
Lemma refresh_spends now token (w w' : world) tp :
  ok w -> RefreshToken ObjectIDFromHex random_salt xid now token w = (w', Ok tp) ->
  exists c uid n, ParseWithClaims now token = Some c /\ ObjectIDFromHex (cl_UID c) = Some uid /\ cl_ID c = xid n /\
    (n < rb_draws w')%nat /\ spent uid (xid n) w' /\ ok w'.
Proof.
  intros Hok Hr. pose proof (refresh_steps ObjectIDFromHex random_salt xid true now token w (proj1 Hok)) as Hsteps.
  unfold steps in Hsteps. rewrite Hr in Hsteps. cbn in Hsteps.
  unfold RefreshToken, sbind in Hr. pose proof (refresh_check_spec ObjectIDFromHex now token w (proj1 Hok)) as Hc.
  destruct (refresh_check ObjectIDFromHex now token w) as [w1 [user|e]]; [|done].
  destruct Hc as ((Hst & _ & Hdr) & c & uid & u & l & Hparse & _ & _ & Huid & Hu & _ & Hl & ->).
  apply consume_session_kept in Hl as (Hkept & (s & Hs & Hj) & Hrev).
  destruct (proj2 Hok uid u Hu) as [Hnd Hissued]. specialize (Hrev Hnd). destruct (Hissued s Hs) as (n & Hn & Hjn).
  pose proof (refresh_commit_spec random_salt xid true now u (set_user_sessions (u_TokenVersion u) l u) w1) as Hcm. rewrite Hr in Hcm.
  destruct Hcm as (_ & m & u' & Hm & Hu' & _ & s' & Hse & Hjs').
  { by rewrite Hst, (proj1 Hok _ _ Hu). }
  { eapply derives_kept; [done|reflexivity|exact Hkept|by left]. }
  rewrite (proj1 Hok _ _ Hu) in Hu'. exists c, uid, n.
  split; [done|]. split; [done|]. split; [congruence|]. split; [pose proof (rtc_draws _ _ _ _ Hsteps); lia|].
  split; [|by eapply rtc_sessions_ok]. intros v s0 Hv Hs0 Hj0. rewrite Hu' in Hv. injection Hv as <-. rewrite Hse in Hs0.
  apply elem_of_app in Hs0 as [Hs0|Hs0%list_elem_of_singleton].
  - unfold pruneRefreshSessions in Hs0. apply list_elem_of_filter in Hs0 as [_ Hs0]. rewrite Forall_forall in Hrev.
    apply Hrev; [exact Hs0|congruence].
  - subst s0. rewrite Hjs' in Hj0. apply Hxid in Hj0. lia.
Qed.

Lemma spent_refused now token (w : world) c uid :
  keyed_users w -> (forall c', ParseWithClaims now token = Some c' -> c' = c) -> ObjectIDFromHex (cl_UID c) = Some uid ->
  spent uid (cl_ID c) w -> forall tp, (RefreshToken ObjectIDFromHex random_salt xid now token w).2 <> Ok tp.
Proof.
  intros Hk Hparse Huid Hsp tp. unfold RefreshToken, sbind. pose proof (refresh_check_spec ObjectIDFromHex now token w Hk) as Hc.
  destruct (refresh_check ObjectIDFromHex now token w) as [w1 [user|e]]; [|done].
  destruct Hc as (_ & c' & uid' & u & l & Hp & _ & _ & Huid' & Hu & _ & Hl & _). apply Hparse in Hp as ->.
  rewrite Huid in Huid'. injection Huid' as <-. exfalso.
  eapply consume_spent; [|exact Hl]. apply Forall_forall. intros s0 Hs0 Hj0. by eapply Hsp.
Qed.

End histories.

(** ** The properties *)

(** Remark (sessions): whatever requests are served, and whatever calls to the database
    fail, the sessions of every account keep identifiers that were drawn for them, no
    two the same. *)
Theorem sessions_stay_distinct {U R} `{CollectionLaws U User} `{CollectionLaws R Role} {A : Argon2Lib} {J : JWTLib}
    ObjectIDFromHex NewObjectID random_salt xid ops (w : rbac U R) :
  (forall n m, xid n = xid m -> n = m) -> sessions_ok xid w ->
  sessions_ok xid (foldl (run_op ObjectIDFromHex NewObjectID random_salt xid) w ops).
Proof. intros Hxid Hok. by apply history_steps. Qed.



(** What a token must show for a permission, and the policy that grants it: a valid
    access token of the current version, and for all but the own password a policy in
    one of the roles the user has now. *)
Definition granted {U R} `{Collection U User} `{Collection R Role} {J : JWTLib} ObjectIDFromHex
    (now : Z) (token permissionKey : string) (w : rbac U R) (c : Claims) (p : RolePolicy) : Prop :=
  ParseWithClaims now token = Some c /\ cl_TokenType c = "access" /\
  (permissionKey = ChangeOwnPassword \/ cl_NeedChangePassword c = false) /\
  exists uid u, ObjectIDFromHex (cl_UID c) = Some uid /\ docs (rb_users w) !! uid = Some u /\ u_TokenVersion u = cl_TokenVersion c /\
    if decide (permissionKey = "" \/ permissionKey = ChangeOwnPassword) then p = no_policy
    else exists id role, docs (rb_roles w) !! id = Some role /\ (role_Name role <> "" /\ role_Name role ∈ u_Roles u) /\ p ∈ role_Policies role /\ rp_PermissionKey p = permissionKey.

Lemma find_policy_Some key roles p :
  find_policy key roles = Some p -> exists role, role ∈ roles /\ p ∈ role_Policies role /\ rp_PermissionKey p = key.
Proof.
  unfold find_policy. intros Hh. assert (Hin : p ∈ filter (fun p => rp_PermissionKey p = key) (concat (role_Policies <$> roles))).
  { destruct (filter _ _) as [|q l]; [done|]. injection Hh as ->. by left. }
  apply list_elem_of_filter in Hin as [Hk Hin]. apply elem_of_concat in Hin as (l & Hl & Hin).
  apply list_elem_of_fmap in Hl as (role & -> & Hr). by exists role.
Qed.

Lemma find_policy_None key roles role p :
  find_policy key roles = None -> role ∈ roles -> p ∈ role_Policies role -> rp_PermissionKey p <> key.
Proof.
  unfold find_policy. intros Hh Hr Hp Hk. assert (Hin : p ∈ filter (fun p => rp_PermissionKey p = key) (concat (role_Policies <$> roles))).
  { apply list_elem_of_filter. split; [done|]. apply elem_of_concat. exists (role_Policies role). split; [|done]. by apply list_elem_of_fmap_2. }
  destruct (filter _ _) as [|q l]; [by apply not_elem_of_nil in Hin|done].
Qed.

Lemma getRolesByNames_spec {U R} `{CollectionLaws U User} `{CollectionLaws R Role} names (w : rbac U R) :
  let '(w', r) := getRolesByNames names w in
  same_data w w' /\
  match r with
  | Ok l => forall x, x ∈ l <-> (exists id, docs (rb_roles w) !! id = Some x) /\ role_Name x <> "" /\ role_Name x ∈ names
  | Err e => technical e
  end.
Proof.
  unfold getRolesByNames, QueryRoles. destruct names as [|n names].
  { split; [done|]. intros x. split; [by intros ?%not_elem_of_nil|]. by intros [_ [_ ?%not_elem_of_nil]]. }
  cbn [qr_IDs qr_Names]. match goal with |- context [on_roles (Find ?f) w] => pose proof (find_roles_spec f w) as Hf; destruct (on_roles (Find f) w) as [w' [l|e]] end;
    destruct Hf as [Hs Hl]; (split; [done|]); [|done].
  intros x. rewrite Hl. unfold one_of, field_one_of. rewrite andb_true_iff, !bool_decide_eq_true. naive_solver.
Qed.

Lemma verify_token_granted {U R} `{CollectionLaws U User} `{CollectionLaws R Role} {J : JWTLib} ObjectIDFromHex now token permissionKey (w : rbac U R) :
  keyed_users w ->
  let '(w', r) := VerifyJWTToken ObjectIDFromHex now token permissionKey w in
  same_data w w' /\
  match r with
  | Ok (c, p) => granted ObjectIDFromHex now token permissionKey w c p
  | Err e => technical e \/ (e = AStatus 401 \/ e = AStatus 403) /\ forall c p, ~ granted ObjectIDFromHex now token permissionKey w c p
  end.
Proof.
  intros Hk. unfold VerifyJWTToken, parseAndValidateToken, object_id, sbind, granted.
  destruct (ParseWithClaims now token) as [c|]; cbn; [|split; [done|right; split; [by left|naive_solver]]].
  case_decide as Hty.
  { split; [done|]. right. split; [by left|]. intros c' p (Hc & Ht & _). injection Hc as <-. done. }
  destruct (bool_decide (permissionKey <> ChangeOwnPassword) && cl_NeedChangePassword c) eqn:En; cbn.
  { apply andb_true_iff in En as [Hne%bool_decide_eq_true Hneed]. split; [done|]. right. split; [by right|].
    intros c' p (Hc & _ & Hn & _). injection Hc as <-. destruct Hn; congruence. }
  assert (Hneed : permissionKey = ChangeOwnPassword \/ cl_NeedChangePassword c = false).
  { apply andb_false_iff in En as [Hne%bool_decide_eq_false|]; [|by right]. left. by destruct (decide (permissionKey = ChangeOwnPassword)). }
  destruct (ObjectIDFromHex (cl_UID c)) as [uid|] eqn:Eo; cbn; [|split; [done|by left; intros ?]].
  pose proof (getUserByID_spec uid w Hk) as Hg. destruct (getUserByID uid w) as [w1 [u|e]]; destruct Hg as [Hs Hu].
  2: { split; [done|]. destruct Hu as [?|[-> Hu]]; [by left|]. right. split; [by left|].
    intros c' p (Hc & _ & _ & uid' & u' & Hi & Hu' & _). injection Hc as <-. congruence. }
  destruct (decide (u_TokenVersion u <> cl_TokenVersion c)) as [Hv|Hv].
  { cbn. split; [done|]. right. split; [by left|]. intros c' p (Hc & _ & _ & uid' & u' & Hi & Hu' & Hv' & _). injection Hc as <-. congruence. }
  apply dec_stable in Hv.
  destruct (decide (permissionKey = "" \/ permissionKey = ChangeOwnPassword)) as [Hkey|Hkey]; cbn.
  { split; [done|]. split_and!; try done. by exists uid, u. }
  pose proof (getRolesByNames_spec (u_Roles u) w1) as Hr. destruct (getRolesByNames (u_Roles u) w1) as [w2 [roles|e]]; destruct Hr as [Hs2 Hroles].
  2: { split; [by eapply same_data_trans|by left]. }
  destruct Hs as (Hst1 & Hro1 & Hdr1). rewrite Hro1 in Hroles.
  assert (Hs' : same_data w w2) by (by eapply same_data_trans).
  destruct (find_policy permissionKey roles) as [p|] eqn:Ep; cbn; (split; [exact Hs'|]).
  - apply find_policy_Some in Ep as (role & Hrole & Hp & Hpk). apply Hroles in Hrole as [[id Hid] Hname].
    split_and!; try done. exists uid, u. split_and!; try done. by exists id, role.
  - right. split; [by right|]. intros c' p (Hc & _ & _ & uid' & u' & Hi & Hu' & _ & id & role & Hid & Hname & Hp & Hpk).
    injection Hc as <-. rewrite Eo in Hi. injection Hi as <-. rewrite Hu in Hu'. injection Hu' as <-.
    eapply find_policy_None; [exact Ep| |exact Hp|exact Hpk]. apply Hroles. eauto.
Qed.

(** Remark (permissions are checked against the present): a request with a token is let
    through exactly when the permission is granted, by the roles and the version the
    user has at that moment; it is refused, with status 401 or 403, when it is not, and otherwise fails
    only for a technical reason.  Checking changes nothing. *)
Theorem verify_token_spec {U R} `{CollectionLaws U User} `{CollectionLaws R Role} {J : JWTLib} ObjectIDFromHex now token permissionKey (w : rbac U R) :
  keyed_users w ->
  let '(w', r) := VerifyJWTToken ObjectIDFromHex now token permissionKey w in
  same_data w w' /\
  match r with
  | Ok (c, p) => granted ObjectIDFromHex now token permissionKey w c p
  | Err e => technical e \/ (e = AStatus 401 \/ e = AStatus 403) /\ forall c p, ~ granted ObjectIDFromHex now token permissionKey w c p
  end.
Proof. apply verify_token_granted. Qed.

(** Remark (logging in): a login that succeeds was for a user of that name who is not
    inactive and whose stored password accepts the one given, and its access token is
    accepted as that user's until its minute is over and not afterwards. *)
Theorem login_token_works {U R} `{CollectionLaws U User} `{CollectionLaws R Role} {A : Argon2Lib} {J : JWTLib} `{!JWTLaws J}
    ObjectIDFromHex random_salt xid now username password (w w' : rbac U R) tp :
  keyed_users w -> 0 <= now -> (forall id u, docs (rb_users w) !! id = Some u -> ObjectIDFromHex id = Some id) ->
  Login random_salt xid now username password w = (w', Ok tp) ->
  exists u, docs (rb_users w) !! u_ID u = Some u /\ u_UserName u = username /\ u_Status u <> UserStatusInactive /\
    Cmp (u_Password u) password = Ok true /\
    let c := token_claims now (60 * 1000) "access" "" u in
    (forall now', now <= now' < 1000 * cl_ExpiresAt c -> granted ObjectIDFromHex now' (AccessToken tp) ChangeOwnPassword w' c no_policy) /\
    (forall now' key c' p, 1000 * cl_ExpiresAt c <= now' -> ~ granted ObjectIDFromHex now' (AccessToken tp) key w' c' p).
Proof.
  intros Hk Hnow Hhex. unfold Login, sbind. pose proof (getUserByUserName_spec username w Hk) as Hg.
  destruct (getUserByUserName username w) as [w1 [u|e]]; destruct Hg as [(Hst & _) Hu]; [|done]. destruct Hu as [Hu Hname].
  case_decide as Hact; [done|]. destruct (Cmp (u_Password u) password) as [[|]|] eqn:Hpw; [|done..]. intros Hi.
  pose proof (issue_spec random_salt xid true now u u w1 ltac:(by rewrite Hst) ltac:(done)) as Hs. rewrite Hi in Hs.
  destruct Hs as (_ & n & u' & _ & Hst' & _ & Hacc & _ & Hid & Hv & _). exists u. do 4 (split; [done|]).
  set (c := token_claims now (60 * 1000) "access" "" u) in *. cbn zeta. assert (Hc : 1000 * cl_NotBefore c <= now < 1000 * cl_ExpiresAt c).
  { cbn. pose proof (Z.div_mod now 1000 ltac:(lia)). pose proof (Z.mod_pos_bound now 1000 ltac:(lia)).
    pose proof (Z.div_mod (now + 60 * 1000) 1000 ltac:(lia)). pose proof (Z.mod_pos_bound (now + 60 * 1000) 1000 ltac:(lia)). lia. }
  split.
  - intros now' Hn. unfold granted. split; [eapply parse_signed; [exact Hacc|lia]|]. split; [done|]. split; [by left|].
    exists (u_ID u), u'. split; [by apply (Hhex _ u)|]. split; [by rewrite Hst', lookup_insert_eq|]. split; [done|].
    by rewrite decide_True by by right.
  - intros now' key c' p Hn (Hp & _). pose proof (parse_signed c (AccessToken tp) now Hacc Hc) as Hp0.
    pose proof (parse_stable _ _ _ _ _ Hp0 Hp) as <-. pose proof (parse_expired _ _ _ Hp) as He. lia.
Qed.

(** Without a technical error a refresh passes whenever its check does. *)
Lemma refresh_commit_technical {U R} `{CollectionLaws U User} `{CollectionLaws R Role} {A : Argon2Lib} {J : JWTLib}
    random_salt xid now user (w : rbac U R) e :
  (refresh_commit random_salt xid now user w).2 = Err e -> technical e.
Proof.
  unfold refresh_commit, sbind. match goal with |- context [UpdateUser _ _ ?x w] => pose proof (UpdateUser_spec random_salt now) as Hup end.
  match goal with |- context [UpdateUser random_salt now (Some ?x) w] => set (user' := x); pose proof (Hup user' w) as H1up end.
  destruct (UpdateUser random_salt now (Some user') w) as [w1 [[]|e1]]; [|intros [= ->]; apply H1up].
  unfold issueTokenPair, genAccessToken, genRefreshToken, sbind, draw.
  destruct (SignedString (token_claims now (60 * 1000) _ _ _)); cbn -[UpdateUser]; [|by intros [= <-] ?].
  destruct (SignedString _); cbn -[UpdateUser]; [|by intros [= <-] ?].
  match goal with |- context [UpdateUser random_salt now (Some ?x) ?v] => pose proof (Hup x v) as H2up; destruct (UpdateUser random_salt now (Some x) v) as [w2 [[]|e2]] end;
    [done|intros [= ->]; apply H2up].
Qed.

(** Remark (a session outlives its user's activity): making a user inactive, or resetting
    the password, leaves refresh tokens in force: one that passed its checks before
    still does, and new tokens are issued unless a call fails. *)
Theorem inactive_user_keeps_session {U R} `{CollectionLaws U User} `{CollectionLaws R Role} {A : Argon2Lib} {J : JWTLib} `{!JWTLaws J}
    ObjectIDFromHex random_salt xid now now' operator id token (w w0 w' : rbac U R) user c uid :
  keyed_users w -> refresh_check ObjectIDFromHex now' token w = (w0, Ok user) ->
  ParseWithClaims now' token = Some c -> ObjectIDFromHex (cl_UID c) = Some uid -> ObjectIDFromHex id = Some uid ->
  UpdateUserPermissions ObjectIDFromHex random_salt now operator id (mkUpdatePermissions None (Some UserStatusInactive)) w = (w', Ok tt) ->
  (exists u', docs (rb_users w') !! uid = Some u' /\ u_Status u' = UserStatusInactive) /\
  forall e, (RefreshToken ObjectIDFromHex random_salt xid now' token w').2 = Err e -> technical e.
Proof.
  intros Hk Hcheck Hparse Huid Hid. pose proof (refresh_check_spec ObjectIDFromHex now' token w Hk) as Hc. rewrite Hcheck in Hc.
  destruct Hc as (_ & c' & i & u & l & Hp & Hty & Hj & Hi & Hu & Hv & Hl & ->). rewrite Hparse in Hp. injection Hp as <-.
  rewrite Huid in Hi. injection Hi as <-.
  unfold UpdateUserPermissions, object_id, sbind. destruct (ObjectIDFromHex (cl_UID operator)) as [oid|]; [|done]. cbn [sret]. rewrite Hid. cbn [sret].
  pose proof (getUserByID_spec uid w Hk) as Hg. destruct (getUserByID uid w) as [w1 [u1|e]]; destruct Hg as [(Hst & _) Hu1]; [|done].
  rewrite Hu in Hu1. injection Hu1 as <-. cbn [up_Roles up_Status sret].
  match goal with |- context [UpdateUser random_salt now (Some ?x) w1] => set (user' := x); pose proof (UpdateUser_spec random_salt now user' w1) as Hup end.
  destruct (UpdateUser random_salt now (Some user') w1) as [w2 r]. destruct Hup as (_ & _ & Hw & _). intros [= <- ->].
  destruct Hw as [[_ ?]|(doc & (Hidd & Hse & Hve & Hsta & _) & _ & Hst2)]; [done|].
  change (u_ID user') with (u_ID u) in Hst2, Hidd. rewrite (Hk _ _ Hu), Hst in Hst2. rewrite (Hk _ _ Hu) in Hidd.
  assert (Hdoc : docs (rb_users w2) !! uid = Some doc) by (by rewrite Hst2, lookup_insert_eq).
  assert (Hk2 : keyed_users w2).
  { intros i v. rewrite Hst2. intros [[<- <-]|[_ Hv']]%lookup_insert_Some; [done|by apply Hk]. }
  split; [by exists doc|]. intros e. unfold RefreshToken, refresh_check, parseAndValidateToken, object_id, sbind. rewrite Hparse. cbn [sret].
  rewrite decide_False by tauto. rewrite decide_False by done. rewrite Huid. cbn [sret].
  pose proof (getUserByID_spec uid w2 Hk2) as Hg. destruct (getUserByID uid w2) as [w3 [v|e3]]; destruct Hg as [_ Hgv].
  2: { intros [= ->]. destruct Hgv as [?|[_ Hn]]; [done|]. by rewrite Hdoc in Hn. }
  rewrite Hdoc in Hgv. injection Hgv as <-. rewrite Hve, Hse. change (u_TokenVersion user') with (u_TokenVersion u).
  change (u_RefreshTokens user') with (u_RefreshTokens u). rewrite decide_False by tauto. rewrite Hl. cbn [sret].
  apply refresh_commit_technical.
Qed.

(** ** Witnesses *)

(** A database in memory. *)
#[global] Instance map_collection {D} : Collection (gmap ObjectID D) D := {
  docs k := k;
  InsertOne id d k := match k !! id with Some _ => (k, Err DBError) | None => (<[id := d]> k, Ok tt) end;
  ReplaceOne id d k := match k !! id with Some _ => (<[id := d]> k, Ok true) | None => (k, Ok false) end;
  Find f k := (k, Ok (filter (fun d => f d = true) (map_to_list k).*2))
}.

#[global] Instance map_collection_laws {D} : CollectionLaws (gmap ObjectID D) D.
Proof.
  constructor; cbn.
  - intros id d k. destruct (k !! id) eqn:E; cbn; auto.
  - intros id d k. destruct (k !! id) eqn:E; cbn; [|done]. split; [by eexists|done].
  - intros f k. split; [done|]. intros l [= <-] d. rewrite list_elem_of_filter, list_elem_of_fmap. split.
    + intros [Hf ([id d'] & -> & Hin)]. apply elem_of_map_to_list in Hin. split; [by exists id|done].
    + intros [[id Hid] Hf]. split; [done|]. exists (id, d). by rewrite elem_of_map_to_list.
Qed.

(** Tokens that are the binary form of their claims. *)
Fixpoint bits (p : positive) : string :=
  match p with xI p => String "1"%char (bits p) | xO p => String "0"%char (bits p) | xH => "" end.

Fixpoint of_bits (s : string) : positive :=
  match s with
  | EmptyString => xH
  | String a s => if Ascii.eqb a "1"%char then xI (of_bits s) else xO (of_bits s)
  end.

Lemma of_bits_bits p : of_bits (bits p) = p.
Proof. induction p as [p IH|p IH|]; cbn; by rewrite ?IH. Qed.

Definition number (z : Z) : string := bits (encode z).
Definition of_number (s : string) : Z := default 0 (decode (of_bits s)).

Lemma of_number_number z : of_number (number z) = z.
Proof. unfold of_number, number. by rewrite of_bits_bits, decode_encode. Qed.

Definition claims_list (c : Claims) : list string :=
  [cl_UID c; if cl_NeedChangePassword c then "t" else ""; number (cl_TokenVersion c); cl_TokenType c; number (cl_ExpiresAt c);
   number (cl_IssuedAt c); number (cl_NotBefore c); cl_Issuer c; cl_Subject c; cl_ID c].

Definition list_claims (l : list string) : option Claims :=
  match l with
  | [a; b; c; d; e; f; g; h; i; j] =>
      Some (mkJWTClaims a (bool_decide (b = "t")) (of_number c) d (of_number e) (of_number f) (of_number g) h i j)
  | _ => None
  end.

#[global] Instance Claims_eq_dec : EqDecision Claims.
Proof. solve_decision. Defined.

#[global] Instance Claims_countable : Countable Claims.
Proof.
  apply (inj_countable claims_list list_claims). intros [? [] ? ? ? ? ? ? ? ?]; cbn; by rewrite !of_number_number.
Defined.

#[global] Instance bits_jwt : JWTLib := {
  SignedString c := Some (bits (encode c));
  ParseWithClaims now t := c ← decode (of_bits t); if decide (1000 * cl_NotBefore c <= now < 1000 * cl_ExpiresAt c) then Some c else None
}.

#[global] Instance bits_jwt_laws : JWTLaws bits_jwt.
Proof.
  constructor; cbn.
  - intros c t now [= <-] Ht. rewrite of_bits_bits, decode_encode. cbn. by rewrite decide_True.
  - intros c t now. destruct (decode _); cbn; [|done]. case_decide; [|done]. intros [= ->]. lia.
  - intros c c' t now now'. destruct (decode _); cbn; [|done]. repeat case_decide; try done. congruence.
Qed.

Definition toy_db := rbac (gmap ObjectID User) (gmap ObjectID Role).

Definition toy_hex (s : string) : option ObjectID := if decide (String.length s = 24%nat) then Some s else None.
Definition toy_id (n : nat) : ObjectID := String.substring 0 24 ("64b00000000000000000000" +:+ Itoa (Z.of_nat n)).
Definition toy_xid (n : nat) : string := String "x"%char (bits (Pos.of_succ_nat n)).

Lemma toy_xid_inj n m : toy_xid n = toy_xid m -> n = m.
Proof. intros [= Hx]. apply (f_equal of_bits) in Hx. rewrite !of_bits_bits in Hx. lia. Qed.

(** An account whose password is stored, with the role of a reader. *)
Definition toy_password : string := "$argon2id$v=19$m=16384,t=3,p=2$AQIDBA$c2VjcmV0".

Definition toy_user (status : Z) : User :=
  mkUser (mkBase (toy_id 0) 1 1 0 (toy_id 0) (toy_id 0)) "ann" toy_password status ["reader"] [] 0 [].

Definition toy_role : Role := mkRole (mkBase (toy_id 1) 1 1 0 (toy_id 0) (toy_id 0)) "reader" "" [mkRolePolicy "schedule_strategy.read" true "" ""].

Definition toy_world : toy_db := mkRBAC {[toy_id 0 := toy_user UserStatusActive]} {[toy_id 1 := toy_role]} 0.

Definition toy_salt (n : nat) : option (list Z) := Some sample_salt.

#[local] Existing Instance front_key.

Lemma toy_users id u : docs (rb_users toy_world) !! id = Some u -> id = toy_id 0 /\ u = toy_user UserStatusActive.
Proof. cbn. by intros [<- <-]%lookup_singleton_Some. Qed.

Lemma toy_world_ok : sessions_ok toy_xid toy_world.
Proof.
  split; intros id u [-> ->]%toy_users; [by vm_compute|]. split; [constructor|]. by intros s ?%not_elem_of_nil.
Qed.

Definition ann : Claims := mkClaims (toy_id 0).

Definition toy_login : toy_db * result auth_error TokenPair :=
  Login toy_salt toy_xid 5000 "ann" "secret" toy_world.

Definition toy_token : string := match toy_login.2 with Ok tp => RefreshTokenString tp | Err _ => "" end.

Definition logged_in : toy_db := toy_login.1.

Lemma ok_outcome {S E B} (p : S * result E B) : is_ok p.2 = true -> exists b, p = (p.1, Ok b).
Proof. destruct p as [s [b|e]]; [|done]. by exists b. Qed.

Lemma logged_in_ok : sessions_ok toy_xid logged_in.
Proof.
  pose proof (proj2 (history_steps toy_hex toy_id toy_salt toy_xid toy_xid_inj [OpLogin 5000 "ann" "secret"] toy_world toy_world_ok)) as Hok.
  exact Hok.
Qed.

Lemma sessions_stay_distinct_witness :
  sessions_ok toy_xid (foldl (run_op toy_hex toy_id toy_salt toy_xid) toy_world
    [OpLogin 5000 "ann" "secret"; OpRefresh 6000 toy_token; OpLogin 7000 "ann" "secret"; OpLogout 8000 toy_token]).
Proof. apply sessions_stay_distinct; [exact toy_xid_inj|exact toy_world_ok]. Defined.

Definition refreshed : toy_db * result auth_error TokenPair :=
  RefreshToken toy_hex toy_salt toy_xid 6000 toy_token logged_in.


Definition left_everywhere : toy_db * result auth_error unit :=
  LogoutAll toy_hex toy_salt 6000 ann logged_in.

Definition token_claims_of (t : string) : Claims := default ann (ParseWithClaims 7000 t).


Definition toy_access : string := match toy_login.2 with Ok tp => AccessToken tp | Err _ => "" end.

Lemma verify_token_spec_witness :
  granted toy_hex 6000 toy_access "schedule_strategy.read" logged_in (default ann (ParseWithClaims 6000 toy_access)) (mkRolePolicy "schedule_strategy.read" true "" "").
Proof.
  pose proof (verify_token_spec toy_hex 6000 toy_access "schedule_strategy.read" logged_in (proj1 logged_in_ok)) as Hs.
  assert (Hr : (VerifyJWTToken toy_hex 6000 toy_access "schedule_strategy.read" logged_in).2 =
    Ok (default ann (ParseWithClaims 6000 toy_access), mkRolePolicy "schedule_strategy.read" true "" "")) by (vm_compute; reflexivity).
  destruct (VerifyJWTToken toy_hex 6000 toy_access "schedule_strategy.read" logged_in) as [w' r]. cbn in Hr. subst r. apply Hs.
Defined.

Lemma login_token_works_witness :
  exists u, u_UserName u = "ann" /\ granted toy_hex 6000 toy_access ChangeOwnPassword logged_in (token_claims 5000 (60 * 1000) "access" "" u) no_policy.
Proof.
  assert (Hl : exists tp, Login toy_salt toy_xid 5000 "ann" "secret" toy_world = (logged_in, Ok tp) /\ AccessToken tp = toy_access).
  { destruct (ok_outcome toy_login) as [tp Hl]; [vm_compute; reflexivity|]. exists tp. split; [exact Hl|]. unfold toy_access. by rewrite Hl. }
  destruct Hl as (tp & Hl & Hacc).
  destruct (login_token_works toy_hex toy_salt toy_xid 5000 "ann" "secret" toy_world logged_in tp (proj1 toy_world_ok) ltac:(done)
    ltac:(intros id u [-> ->]%toy_users; by vm_compute) Hl) as (u & Hu & Hn & _ & _ & Hg & _).
  exists u. split; [exact Hn|]. rewrite <- Hacc. apply Hg. unfold token_claims. cbn [cl_ExpiresAt].
  change ((5000 + 60 * 1000) / 1000) with 65. lia.
Defined.

Definition made_inactive : toy_db * result auth_error unit :=
  UpdateUserPermissions toy_hex toy_salt 6000 ann (toy_id 0) (mkUpdatePermissions None (Some UserStatusInactive)) logged_in.

Lemma inactive_user_keeps_session_witness :
  (exists u', docs (rb_users made_inactive.1) !! toy_id 0 = Some u' /\ u_Status u' = UserStatusInactive) /\
  is_ok (RefreshToken toy_hex toy_salt toy_xid 7000 toy_token made_inactive.1).2 = true.
Proof.
  split; [|vm_compute; reflexivity].
  destruct (ok_outcome (refresh_check toy_hex 7000 toy_token logged_in)) as [user Hc]; [vm_compute; reflexivity|].
  destruct (ok_outcome made_inactive) as [[] Hm]; [vm_compute; reflexivity|].
  refine (proj1 (inactive_user_keeps_session toy_hex toy_salt toy_xid 6000 7000 ann (toy_id 0) toy_token logged_in _ made_inactive.1 user
    (token_claims_of toy_token) (toy_id 0) (proj1 logged_in_ok) Hc _ _ _ Hm)); vm_compute; reflexivity.
Defined.

(** Two requests with the same refresh token whose checks come before their writes
    are both answered with new tokens. *)
Example refresh_race :
  match refresh_check toy_hex 6000 toy_token logged_in with
  | (w1, Ok user1) =>
      match refresh_check toy_hex 6000 toy_token w1 with
      | (w2, Ok user2) =>
          match refresh_commit toy_salt toy_xid 6000 user1 w2 with
          | (w3, Ok _) => is_ok (refresh_commit toy_salt toy_xid 6000 user2 w3).2 = true
          | _ => False
          end
      | _ => False
      end
  | _ => False
  end.
Proof. by vm_compute. Qed.
