(* ===== verification/RuntimeSvc.v ===== *)
(** * Scheduler configurations of the nodes: api/manager/service/runtime_config_svc.go

    The configuration wanted on each node is kept in the database, sent to the
    decision maker of the node, and sent again in every round of reconciliation; the
    status compares it with what the node reports.  The decision makers and the
    repository are the two interfaces the service declares; the repository is that of
    runtime_config_repo.go over a collection keyed by node. *)

From stdpp Require Import base gmap strings list.
From Stdlib Require Import ZArith Lia.
From S2P Require Import Prelude GoStrings Config DaemonConfig DaemonSupervisor DMRuntime ManagerDomain RBACRepo NodePolicySvc Manager.
#[local] Open Scope go_scope.

(** ** Data: domain/runtime_config.go *)

(** [Normalize] and [Validate] have the same text in both programs. *)
Definition mgr_Normalize (c : RuntimeSchedulerConfig) : RuntimeSchedulerConfig := Normalize c.
Definition mgr_Validate (c : RuntimeSchedulerConfig) : option validate_error := Validate c.

#[global] Instance RuntimeSchedulerConfig_eq_dec : EqDecision RuntimeSchedulerConfig.
Proof. solve_decision. Defined.

Record RuntimeConfigApplyOptions := mkApplyOptions { ao_NodeIDs : list string; ao_Config : RuntimeSchedulerConfig }.

Record RuntimeConfigApplyResult := mkApplyResult {
  ra_NodeID : string;
  ra_Host : string;
  ra_Success : bool;
  ra_Error : string;
  ra_ConfigVersion : string;
  ra_AppliedAt : string;
  ra_RestartCount : Z;
  ra_LastError : string;
  ra_Config : option RuntimeSchedulerConfig;
  ra_DesiredConfig : option RuntimeSchedulerConfig;
  ra_Drift : bool
}.

Record NodeRuntimeConfig := mkNodeRuntime {
  nr_NodeID : string;
  nr_ConfigVersion : string;
  nr_Config : RuntimeSchedulerConfig;
  nr_UpdatedBy : string;
  nr_UpdatedAt : Z;
  nr_LastApplyResult : RuntimeConfigApplyResult
}.

Definition no_result : RuntimeConfigApplyResult := mkApplyResult "" "" false "" "" "" 0 "" None None false.

Definition set_last (r : RuntimeConfigApplyResult) (d : NodeRuntimeConfig) : NodeRuntimeConfig :=
  mkNodeRuntime (nr_NodeID d) (nr_ConfigVersion d) (nr_Config d) (nr_UpdatedBy d) (nr_UpdatedAt d) r.

(** A result that says only what became of a call. *)
Definition outcome (node host : string) (success : bool) (error version : string) (desired : option RuntimeSchedulerConfig) (drift : bool) : RuntimeConfigApplyResult :=
  mkApplyResult node host success error version "" 0 "" None desired drift.

(** ** Interfaces *)

(** [runtimeConfigDMAdapter]; an error by its text. *)
Class RuntimeDM (F : Type) := {
  dm_ApplyRuntimeConfig : DecisionMakerPod -> RuntimeSchedulerConfig -> SE F string unit;
  dm_GetRuntimeConfigStatus : DecisionMakerPod -> SE F string RuntimeConfigApplyResult
}.

(** [runtimeConfigStatusResponse.Data], decoded; a flag may be absent. *)
Record StatusData := mkStatusData {
  sd_ConfigVersion : string;
  sd_Applied : bool;
  sd_AppliedAt : string;
  sd_RestartCount : Z;
  sd_LastError : string;
  sd_ConfigAvailable : bool;
  sd_Mode : string;
  sd_SchedulerName : string;
  sd_SliceNsDefault : Z;
  sd_SliceNsMin : Z;
  sd_KernelMode : option bool;
  sd_MaxTimeWatchdog : option bool;
  sd_EarlyProcessing : option bool;
  sd_BuiltinIdle : option bool;
  sd_SchedulerEnabled : option bool;
  sd_MonitoringEnabled : option bool
}.

Definition status_config (d : StatusData) : option RuntimeSchedulerConfig :=
  if sd_ConfigAvailable d then
    Some (mkRuntimeConfig (sd_ConfigVersion d) (sd_Mode d) (sd_SchedulerName d) (sd_SliceNsDefault d) (sd_SliceNsMin d)
      (default false (sd_KernelMode d)) (default false (sd_MaxTimeWatchdog d)) (default false (sd_EarlyProcessing d))
      (default false (sd_BuiltinIdle d)) (default false (sd_SchedulerEnabled d)) (default false (sd_MonitoringEnabled d)))
  else None.

(** The result made of a response with status OK: [success] and the data
    (client/deicison_maker.go). *)
Definition status_result (dm : DecisionMakerPod) (success : bool) (data : option StatusData) : option RuntimeConfigApplyResult :=
  if negb success then None else Some
  match data with
  | None => mkApplyResult (dm_NodeID dm) (dm_Host dm) false "runtime config not applied yet" "" "" 0 "" None None false
  | Some d =>
      let error := if sd_Applied d then "" else
                   if decide (sd_LastError d <> "") then sd_LastError d else "runtime config not applied yet" in
      mkApplyResult (dm_NodeID dm) (dm_Host dm) (sd_Applied d) error (sd_ConfigVersion d) (sd_AppliedAt d) (sd_RestartCount d)
        (sd_LastError d) (status_config d) None false
  end.

(** What a decision maker promises: a call that succeeds leaves the configuration
    applied at its address, one that fails leaves it applied or not, and neither
    touches another; a status that is returned is the one made of the response. *)
Class RuntimeDMLaws (F : Type) `{RuntimeDM F} := {
  applied : F -> gmap string RuntimeSchedulerConfig;
  dm_apply_law : forall dm c f,
    match dm_ApplyRuntimeConfig dm c f with
    | (f', Ok _) => applied f' = <[dm_addr dm := c]> (applied f)
    | (f', Err _) => applied f' = applied f \/ applied f' = <[dm_addr dm := c]> (applied f)
    end;
  dm_status_law : forall dm f,
    applied (dm_GetRuntimeConfigStatus dm f).1 = applied f /\
    forall r, (dm_GetRuntimeConfigStatus dm f).2 = Ok r -> exists success data, status_result dm success data = Some r
}.

(** The collection [node_runtime_configs]: replacing a document, or inserting it when
    there is none for the node, and finding documents. *)
Class ConfigCollection (D : Type) := {
  configs : D -> gmap string NodeRuntimeConfig;
  config_Replace : string -> NodeRuntimeConfig -> SE D string unit;
  config_Find : (NodeRuntimeConfig -> bool) -> SE D string (list NodeRuntimeConfig)
}.

Class ConfigLaws (D : Type) `{ConfigCollection D} : Prop := {
  config_replace_law : forall node d k,
    match config_Replace node d k with
    | (k', Ok _) => configs k' = <[node := d]> (configs k)
    | (k', Err _) => configs k' = configs k \/ configs k' = <[node := d]> (configs k)
    end;
  config_find_law : forall f k,
    configs (config_Find f k).1 = configs k /\
    forall l, (config_Find f k).2 = Ok l -> forall d, d ∈ l <-> (exists node, configs k !! node = Some d) /\ f d = true
}.

Inductive rt_error :=
| RtNil
| RtStatus (code : Z)
| RtK8S
| RtRepo (text : string).

Record rt_world (F D : Type) := mkRt { rt_fleet : F; rt_db : D }.
Arguments mkRt {F D}.
Arguments rt_fleet {F D}.
Arguments rt_db {F D}.

(** ** The service *)

Section service.
  Context {F D : Type} `{RuntimeDM F} `{ConfigCollection D}.
  Variable k8s : K8SAdapter.
  Variable now : Z.
  Variable range : list string -> list string.

Notation M := (SE (rt_world F D) rt_error).

(** A call whose error text is a value. *)
Definition on_dm {A} (m : SE F string A) : M (result string A) :=
  fun w => let '(f, r) := m (rt_fleet w) in (mkRt f (rt_db w), Ok r).

Definition on_db {A} (m : SE D string A) : M (result string A) :=
  fun w => let '(d, r) := m (rt_db w) in (mkRt (rt_fleet w) d, Ok r).

(** *** runtime_config_repo.go *)

Definition UpsertNodeRuntimeConfig (cfg : option NodeRuntimeConfig) : SE D string unit :=
  match cfg with
  | None => sfail "nil node runtime config"
  | Some cfg => config_Replace (nr_NodeID cfg) cfg
  end.

Definition QueryNodeRuntimeConfigs (nodeIDs : option (list string)) : SE D string (list NodeRuntimeConfig) :=
  match nodeIDs with
  | None => sfail "nil query options"
  | Some nodeIDs => config_Find (fun c => is_nil nodeIDs || bool_decide (nr_NodeID c ∈ nodeIDs))
  end.

(** *** Applying *)

Definition persistUnreachableRuntimeConfig (nodeID : string) (config : RuntimeSchedulerConfig) (updatedBy : string) (errMsg : string)
    : M RuntimeConfigApplyResult :=
  let result := outcome nodeID "" false errMsg (rc_ConfigVersion config) (Some config) true in
  let desired := mkNodeRuntime nodeID (rc_ConfigVersion config) config updatedBy now result in
  let! r := on_db (UpsertNodeRuntimeConfig (Some desired)) in
  sret (match r with
        | Ok _ => result
        | Err e => outcome nodeID "" false ("persist desired runtime config: " +:+ e) (rc_ConfigVersion config) (Some config) true
        end).

(** The configuration goes to one decision maker. *)
Definition apply_one (config : RuntimeSchedulerConfig) (updatedBy : string) (dm : DecisionMakerPod) : M RuntimeConfigApplyResult :=
  let node := dm_NodeID dm in
  let desired := mkNodeRuntime node (rc_ConfigVersion config) config updatedBy now no_result in
  let! r := on_db (UpsertNodeRuntimeConfig (Some desired)) in
  match r with
  | Err e => sret (outcome node (dm_Host dm) false ("persist desired runtime config: " +:+ e) "" None false)
  | Ok _ =>
      if decide (dm_State dm <> NodeStateOnline) then
        let result := outcome node (dm_Host dm) false "decision maker is offline" "" (Some config) false in
        let! _ := on_db (UpsertNodeRuntimeConfig (Some (set_last result desired))) in
        sret result
      else
        let! r := on_dm (dm_ApplyRuntimeConfig dm config) in
        let result := match r with
                      | Ok _ => outcome node (dm_Host dm) true "" (rc_ConfigVersion config) (Some config) false
                      | Err e => outcome node (dm_Host dm) false e (rc_ConfigVersion config) (Some config) false
                      end in
        let! _ := on_db (UpsertNodeRuntimeConfig (Some (set_last result desired))) in
        sret result
  end.

Definition singly {A B} (f : A -> M B) (a : A) : M (list B) := let! b := f a in sret [b].

Definition ApplyRuntimeConfig (operator : option Claims) (opt : option RuntimeConfigApplyOptions) : M (list RuntimeConfigApplyResult) :=
  match opt with
  | None => sfail (RtStatus 400)
  | Some opt =>
      if decide (rc_ConfigVersion (ao_Config opt) = "") then sfail (RtStatus 400) else
      let config := mgr_Normalize (ao_Config opt) in
      match mgr_Validate config with
      | Some _ => sfail (RtStatus 400)
      | None =>
          let updatedBy := match operator with Some c => cl_UID c | None => "" end in
          match Manager.QueryDecisionMakerPods k8s (ao_NodeIDs opt) with
          | None => sfail RtK8S
          | Some [] =>
              match ao_NodeIDs opt with
              | [] => sfail (RtStatus 404)
              | nodes => scollect (singly (fun node => persistUnreachableRuntimeConfig node config updatedBy "decision maker is not discovered")) nodes
              end
          | Some dms =>
              let! results := scollect (singly (apply_one config updatedBy)) dms in
              let missing := filter (fun node => node ∉ dm_NodeID <$> dms) (ao_NodeIDs opt) in
              let! more := scollect (singly (fun node => persistUnreachableRuntimeConfig node config updatedBy "decision maker is not discovered")) missing in
              sret (results ++ more)
          end
      end
  end.

(** *** Status *)

(** [DesiredConfig] points to the copy that is then normalised for the comparison. *)
Definition attachDesiredRuntimeConfig (result : RuntimeConfigApplyResult) (desired : option NodeRuntimeConfig) : RuntimeConfigApplyResult :=
  match desired with
  | None => result
  | Some desired =>
      let '(desiredConfig, drift) :=
        match ra_Config result with
        | None => (nr_Config desired, true)
        | Some appliedConfig =>
            let desiredConfig := mgr_Normalize (nr_Config desired) in
            (desiredConfig, bool_decide (desiredConfig <> mgr_Normalize appliedConfig))
        end in
      mkApplyResult (ra_NodeID result) (ra_Host result) (ra_Success result) (ra_Error result) (ra_ConfigVersion result)
        (ra_AppliedAt result) (ra_RestartCount result) (ra_LastError result) (ra_Config result) (Some desiredConfig) drift
  end.

Definition with_place (node host : string) (r : RuntimeConfigApplyResult) : RuntimeConfigApplyResult :=
  mkApplyResult (if decide (ra_NodeID r = "") then node else ra_NodeID r) (if decide (ra_Host r = "") then host else ra_Host r)
    (ra_Success r) (ra_Error r) (ra_ConfigVersion r) (ra_AppliedAt r) (ra_RestartCount r) (ra_LastError r) (ra_Config r)
    (ra_DesiredConfig r) (ra_Drift r).

Definition status_one (desiredByNode : gmap string NodeRuntimeConfig) (dm : DecisionMakerPod) : M RuntimeConfigApplyResult :=
  let desired := desiredByNode !! dm_NodeID dm in
  if decide (dm_State dm <> NodeStateOnline) then
    sret (attachDesiredRuntimeConfig (outcome (dm_NodeID dm) (dm_Host dm) false "decision maker is offline" "" None false) desired)
  else
    let! r := on_dm (dm_GetRuntimeConfigStatus dm) in
    sret (match r with
          | Err e => attachDesiredRuntimeConfig (outcome (dm_NodeID dm) (dm_Host dm) false e "" None false) desired
          | Ok result => attachDesiredRuntimeConfig (with_place (dm_NodeID dm) (dm_Host dm) result) desired
          end).

Definition by_node (l : list NodeRuntimeConfig) : gmap string NodeRuntimeConfig := index_by nr_NodeID l.

Definition undiscovered (node : string) (desired : NodeRuntimeConfig) : RuntimeConfigApplyResult :=
  attachDesiredRuntimeConfig (outcome node "" false "decision maker is not discovered" "" None false) (Some desired).

Definition GetRuntimeConfigStatus (nodeIDs : list string) : M (list RuntimeConfigApplyResult) :=
  match Manager.QueryDecisionMakerPods k8s nodeIDs with
  | None => sfail RtK8S
  | Some dms =>
      let! r := on_db (QueryNodeRuntimeConfigs (Some nodeIDs)) in
      match r with
      | Err e => sfail (RtRepo e)
      | Ok found =>
          let desiredByNode := by_node found in
          let! results := scollect (singly (status_one desiredByNode)) dms in
          let rest := omap (fun node => undiscovered node <$> desiredByNode !! node)
                        (filter (fun node => node ∉ dm_NodeID <$> dms) (range (map_to_list desiredByNode).*1)) in
          sret (results ++ rest)
      end
  end.

(** *** Reconciliation: [resyncRuntimeConfigsToDMs] of cron_svc.go *)

Definition resync_runtime (dmByNode : gmap string DecisionMakerPod) (desired : NodeRuntimeConfig) : M unit :=
  match dmByNode !! nr_NodeID desired with
  | None => sret tt
  | Some dm =>
      if decide (dm_State dm <> NodeStateOnline) then sret tt else
      let! r := on_dm (dm_ApplyRuntimeConfig dm (nr_Config desired)) in
      let result := match r with
                    | Ok _ => outcome (dm_NodeID dm) (dm_Host dm) true "" (nr_ConfigVersion desired) None false
                    | Err e => outcome (dm_NodeID dm) (dm_Host dm) false e (nr_ConfigVersion desired) None false
                    end in
      let! _ := on_db (UpsertNodeRuntimeConfig (Some (set_last result desired))) in
      sret tt
  end.

Definition resyncRuntimeConfigsToDMs : M unit :=
  let! r := on_db (QueryNodeRuntimeConfigs (Some [])) in
  match r with
  | Err e => sfail (RtRepo e)
  | Ok [] => sret tt
  | Ok found =>
      match Manager.QueryDecisionMakerPods k8s [] with
      | None => sfail RtK8S
      | Some dms => sfor (resync_runtime (index_by dm_NodeID dms)) found
      end
  end.

End service.

(** ** Lemmas *)

Section apply_facts.
  Context {F D : Type} `{RuntimeDMLaws F} `{ConfigLaws D}.
  Variable now : Z.
  Variable config : RuntimeSchedulerConfig.
  Variable updatedBy : string.

Notation W := (rt_world F D).

(** The configuration is recorded as the one wanted on a node. *)
Definition recorded (w : W) (node : string) : Prop :=
  exists d, configs (rt_db w) !! node = Some d /\ nr_NodeID d = node /\ nr_Config d = config /\
    nr_ConfigVersion d = rc_ConfigVersion config /\ nr_UpdatedBy d = updatedBy /\ nr_UpdatedAt d = now.

(** Between two moments of an application to nodes [N]. *)
Definition evolves (N : list string) (w w' : W) : Prop :=
  (forall node, configs (rt_db w') !! node = configs (rt_db w) !! node \/ (node ∈ N /\ recorded w' node)) /\
  (forall addr, applied (rt_fleet w') !! addr = applied (rt_fleet w) !! addr \/ applied (rt_fleet w') !! addr = Some config).

Lemma evolves_recorded N w w' node : evolves N w w' -> recorded w node -> recorded w' node.
Proof.
  intros [E _] (d & Hd & R). destruct (E node) as [Hn|[_ ?]]; [|done]. exists d. by rewrite Hn.
Qed.

Lemma evolves_applied N w w' addr :
  evolves N w w' -> applied (rt_fleet w) !! addr = Some config -> applied (rt_fleet w') !! addr = Some config.
Proof. intros [_ E] Ha. destruct (E addr) as [->|?]; done. Qed.

#[global] Instance evolves_preorder N : PreOrder (evolves N).
Proof.
  split; [split; by left|]. intros w1 w2 w3 E12 E23. split.
  - intros node. destruct (proj1 E23 node) as [E|?]; [|by right]. destruct (proj1 E12 node) as [E'|[Hn R]]; [left; congruence|].
    right. split; [done|]. by eapply evolves_recorded.
  - intros addr. destruct (proj2 E23 addr) as [E|?]; [|by right]. destruct (proj2 E12 addr) as [E'|R]; [left; congruence|].
    right. congruence.
Qed.

Lemma evolves_weaken N N' w w' : N ⊆ N' -> evolves N w w' -> evolves N' w w'.
Proof. intros HN [E1 E2]. split; [|done]. intros node. destruct (E1 node) as [?|[? ?]]; [by left|right]. set_solver. Qed.

(** Recording a configuration, whatever it says of the last attempt. *)
Lemma upsert_evolves node last (w : W) :
  let '(w', r) := on_db (F := F) (UpsertNodeRuntimeConfig
    (Some (mkNodeRuntime node (rc_ConfigVersion config) config updatedBy now last))) w in
  exists r', r = Ok r' /\ evolves [node] w w' /\ (is_ok r' -> recorded w' node).
Proof.
  unfold on_db, UpsertNodeRuntimeConfig. cbn [nr_NodeID].
  set (d := mkNodeRuntime _ _ _ _ _ _).
  assert (forall f k, configs k = <[node := d]> (configs (rt_db w)) -> recorded (mkRt f k) node) as Hr.
  { intros f k Hk. exists d. cbn [rt_db]. by rewrite Hk, lookup_insert_eq. }
  assert (forall k, configs k = <[node := d]> (configs (rt_db w)) -> evolves [node] w (mkRt (rt_fleet w) k)) as He.
  { intros k Hk. split; [|by left]. intros n. destruct (decide (n = node)) as [->|Hn].
    - right. split; [set_solver|]. by apply Hr.
    - left. cbn [rt_db]. by rewrite Hk, lookup_insert_ne by done. }
  pose proof (config_replace_law node d (rt_db w)) as L.
  destruct (config_Replace node d (rt_db w)) as [k [[]|e]]; eexists; split; try reflexivity.
  - split; [by apply He|]. intros _. by apply Hr.
  - split; [|done]. destruct L as [L|L]; [|by apply He]. split; [|by left]. left. cbn [rt_db]. by rewrite L.
Qed.

Lemma dm_apply_evolves dm (w : W) :
  let '(w', r) := on_dm (D := D) (dm_ApplyRuntimeConfig dm config) w in
  exists r', r = Ok r' /\ evolves [] w w' /\ (is_ok r' -> applied (rt_fleet w') !! dm_addr dm = Some config).
Proof.
  unfold on_dm.
  assert (forall f, applied f = <[dm_addr dm := config]> (applied (rt_fleet w)) -> evolves [] w (mkRt f (rt_db w))) as He.
  { intros f Hf. split; [by left|]. intros a. cbn [rt_fleet]. rewrite Hf.
    destruct (decide (a = dm_addr dm)) as [->|Hn]; [right; apply lookup_insert_eq|left; by rewrite lookup_insert_ne]. }
  pose proof (dm_apply_law dm config (rt_fleet w)) as L.
  destruct (dm_ApplyRuntimeConfig dm config (rt_fleet w)) as [f [[]|e]]; eexists; split; try reflexivity.
  - split; [by apply He|]. intros _. cbn [rt_fleet]. rewrite L. apply lookup_insert_eq.
  - split; [|done]. destruct L as [L|L]; [|by apply He]. split; [by left|]. left. cbn [rt_fleet]. by rewrite L.
Qed.

(** What a result says is true of the state. *)
Definition persist_failed (r : RuntimeConfigApplyResult) : Prop :=
  exists e, ra_Error r = "persist desired runtime config: " +:+ e.

Definition truthful (dms : list DecisionMakerPod) (w : W) (r : RuntimeConfigApplyResult) : Prop :=
  (persist_failed r \/ recorded w (ra_NodeID r)) /\
  (ra_Success r = true -> exists dm, dm ∈ dms /\ dm_NodeID dm = ra_NodeID r /\ dm_State dm = NodeStateOnline /\
     applied (rt_fleet w) !! dm_addr dm = Some config).

Lemma evolves_truthful N dms w w' r : evolves N w w' -> truthful dms w r -> truthful dms w' r.
Proof.
  intros E [[Hp|Hr] Hs]; (split; [by eauto using evolves_recorded|]);
    intros Hok; destruct (Hs Hok) as (dm & ? & ? & ? & ?); eauto 6 using evolves_applied.
Qed.

Lemma unreachable_step errMsg dms node (w : W) :
  exists w' r, persistUnreachableRuntimeConfig now node config updatedBy errMsg w = (w', Ok r) /\
    evolves [node] w w' /\ truthful dms w' r /\ ra_NodeID r = node.
Proof.
  unfold persistUnreachableRuntimeConfig, sbind, sret.
  pose proof (upsert_evolves node (outcome node "" false errMsg (rc_ConfigVersion config) (Some config) true) w) as U.
  destruct (on_db _ w) as [w' r]. destruct U as ([[]|e] & -> & E & R); do 2 eexists; (split; [reflexivity|]); split_and!; try done.
  - split; [right; by apply R|done].
  - split; [left; by eexists|done].
Qed.

Lemma apply_one_step dms dm (w : W) : dm ∈ dms ->
  exists w' r, apply_one now config updatedBy dm w = (w', Ok r) /\
    evolves [dm_NodeID dm] w w' /\ truthful dms w' r /\ ra_NodeID r = dm_NodeID dm.
Proof.
  intros Hdm. unfold apply_one. cbv zeta. unfold sbind at 1.
  pose proof (upsert_evolves (dm_NodeID dm) no_result w) as U. destruct (on_db _ w) as [w1 r1].
  destruct U as ([[]|e] & -> & E1 & R1); cbv iota.
  2: { do 2 eexists. split; [reflexivity|]. split_and!; try done. split; [left; by eexists|done]. }
  assert (forall w2 res, evolves [] w1 w2 -> ra_NodeID res = dm_NodeID dm ->
    (ra_Success res = true -> dm_State dm = NodeStateOnline /\ applied (rt_fleet w2) !! dm_addr dm = Some config) ->
    exists w' r, (let! _ := on_db (UpsertNodeRuntimeConfig (Some (mkNodeRuntime (dm_NodeID dm) (rc_ConfigVersion config) config updatedBy now res))) in
      sret (S := W) (E := rt_error) res) w2 = (w', Ok r) /\ evolves [dm_NodeID dm] w w' /\ truthful dms w' r /\ ra_NodeID r = dm_NodeID dm) as Hfin.
  { intros w2 res E2 Hn Hs. unfold sbind, sret. pose proof (upsert_evolves (dm_NodeID dm) res w2) as U.
    destruct (on_db _ w2) as [w3 r3]. destruct U as (r3' & -> & E3 & _). exists w3, res. split; [done|].
    assert (evolves [dm_NodeID dm] w1 w3) as E13 by (etransitivity; [by eapply evolves_weaken; [|exact E2]; set_solver|done]).
    split; [by etransitivity|]. split; [|done]. split; [right; rewrite Hn; by eapply evolves_recorded, R1|].
    intros Hok. destruct (Hs Hok). exists dm. split_and!; eauto using evolves_applied. }
  destruct (decide (dm_State dm <> NodeStateOnline)) as [Hst|Hst].
  - by apply Hfin; [reflexivity| |].
  - unfold sbind at 1. pose proof (dm_apply_evolves dm w1) as A. destruct (on_dm _ w1) as [w2 r2].
    destruct A as ([[]|e] & -> & E2 & R2); apply Hfin; try done. intros _. split; [|by apply R2].
    destruct (decide (dm_State dm = NodeStateOnline)); [done|by destruct Hst].
Qed.

(** A loop of such steps. *)
Lemma each_step {A} (key : A -> string) (f : A -> SE W rt_error RuntimeConfigApplyResult) dms l (w : W) :
  (forall x w, x ∈ l -> exists w' r, f x w = (w', Ok r) /\ evolves [key x] w w' /\ truthful dms w' r /\ ra_NodeID r = key x) ->
  exists w' rs, scollect (singly f) l w = (w', Ok rs) /\ evolves (key <$> l) w w' /\
    Forall (truthful dms w') rs /\ ra_NodeID <$> rs = key <$> l.
Proof.
  revert w. induction l as [|x l IH]; intros w Hf; [by exists w, []|]. cbn [scollect]. unfold singly, sbind, sret.
  destruct (Hf x w ltac:(set_solver)) as (w1 & r & -> & E1 & T1 & K1).
  destruct (IH w1 ltac:(set_solver)) as (w2 & rs & Hl & E2 & T2 & K2). unfold singly, sbind, sret in Hl. rewrite Hl.
  exists w2, (r :: rs). split; [done|]. split_and!.
  - etransitivity; eapply evolves_weaken; [|exact E1| |exact E2]; set_solver.
  - constructor; [by eapply evolves_truthful|done].
  - csimpl. by rewrite K1, K2.
Qed.
End apply_facts.

(** The desired configurations, as they are read back. *)
Section desired_facts.
  Context {F D : Type} `{RuntimeDMLaws F} `{ConfigLaws D}.

(** Documents are stored under their node. *)
Definition keyed (k : D) : Prop := forall node d, configs k !! node = Some d -> nr_NodeID d = node.

(** What a query for [nodeIDs] can see. *)
Definition visible (nodeIDs : list string) (k : D) (node : string) : option NodeRuntimeConfig :=
  if bool_decide (nodeIDs = [] \/ node ∈ nodeIDs) then configs k !! node else None.

Lemma query_visible nodeIDs (k : D) : keyed k ->
  let '(k', r) := QueryNodeRuntimeConfigs (Some nodeIDs) k in
  configs k' = configs k /\
  forall l, r = Ok l -> (forall d, d ∈ l <-> visible nodeIDs k (nr_NodeID d) = Some d) /\
    forall node, by_node l !! node = visible nodeIDs k node.
Proof.
  intros Hk. unfold QueryNodeRuntimeConfigs. pose proof (config_find_law (fun c => is_nil nodeIDs || bool_decide (nr_NodeID c ∈ nodeIDs)) k) as [Hu Hl].
  destruct (config_Find _ k) as [k' r]. cbn [fst snd] in *. split; [done|]. intros l ->. specialize (Hl l eq_refl).
  assert (forall d, d ∈ l <-> visible nodeIDs k (nr_NodeID d) = Some d) as Hd.
  { intros d. rewrite Hl, orb_true_iff, is_nil_spec, bool_decide_eq_true. unfold visible. case_bool_decide as Hv; split.
    - intros [[node Hn] _]. by rewrite (Hk _ _ Hn).
    - eauto.
    - by intros [_ ?].
    - done. }
  split; [done|]. intros node. pose proof (index_by_lookup nr_NodeID l node) as B. unfold by_node. destruct (_ !! node) as [d|].
  - destruct B as [B <-]. symmetry. by apply Hd.
  - destruct (visible nodeIDs k node) as [d|] eqn:Ev; [|done]. exfalso.
    assert (nr_NodeID d = node) as Hn. { unfold visible in Ev. case_bool_decide; [by apply Hk|done]. }
    apply (B d); [|done]. apply Hd. by rewrite Hn.
Qed.

(** A result that agrees with the configuration wanted on its node. *)
Definition agrees (desired : option NodeRuntimeConfig) (r : RuntimeConfigApplyResult) : Prop :=
  match desired with
  | None => ra_DesiredConfig r = None /\ ra_Drift r = false
  | Some d =>
      (ra_DesiredConfig r = Some (nr_Config d) \/ ra_DesiredConfig r = Some (mgr_Normalize (nr_Config d))) /\
      (ra_Drift r = false <-> exists c, ra_Config r = Some c /\ mgr_Normalize c = mgr_Normalize (nr_Config d))
  end.

Lemma attach_agrees desired r : ra_DesiredConfig r = None -> ra_Drift r = false ->
  agrees desired (attachDesiredRuntimeConfig r desired) /\ ra_NodeID (attachDesiredRuntimeConfig r desired) = ra_NodeID r.
Proof.
  intros Hd Hr. unfold attachDesiredRuntimeConfig. destruct desired as [d|]; [|done].
  destruct (ra_Config r) as [c|] eqn:Ec; cbn; (split; [|done]); (split; [auto|]).
  - rewrite bool_decide_eq_false. split; [|intros (c' & [= <-] & ?) ?; congruence].
    intros Hn. exists c. split; [done|]. destruct (decide (mgr_Normalize c = mgr_Normalize (nr_Config d))) as [?|Hne]; [done|].
    destruct Hn. congruence.
  - split; [done|]. by intros (? & ? & _).
Qed.

Lemma status_one_step found dm (w : rt_world F D) :
  exists w' r, status_one found dm w = (w', Ok r) /\ rt_db w' = rt_db w /\ applied (rt_fleet w') = applied (rt_fleet w) /\
    ra_NodeID r = dm_NodeID dm /\ agrees (found !! dm_NodeID dm) r.
Proof.
  unfold status_one. destruct (decide (dm_State dm <> NodeStateOnline)).
  - do 2 eexists. split; [reflexivity|]. split_and!; try done; by apply attach_agrees.
  - unfold sbind, on_dm. destruct (dm_status_law dm (rt_fleet w)) as [Ha Hr].
    destruct (dm_GetRuntimeConfigStatus dm (rt_fleet w)) as [f [r|e]]; cbn [fst snd sret] in *.
    + destruct (Hr r eq_refl) as (success & data & Hs). unfold status_result in Hs. destruct (negb success); [done|].
      injection Hs as <-. do 2 eexists. split; [reflexivity|].
      set (r := match data with Some _ => _ | None => _ end). assert (ra_NodeID r = dm_NodeID dm /\ ra_DesiredConfig r = None /\ ra_Drift r = false)
        as (R1 & R2 & R3) by (unfold r; by destruct data).
      destruct (attach_agrees (found !! dm_NodeID dm) (with_place (dm_NodeID dm) (dm_Host dm) r)) as [A1 A2]; [done|done|].
      split_and!; try done. rewrite A2. cbn. by destruct (decide _).
    + do 2 eexists. split; [reflexivity|]. split_and!; try done; by apply attach_agrees.
Qed.

Lemma status_loop found dms (w : rt_world F D) :
  exists w' rs, scollect (singly (status_one found)) dms w = (w', Ok rs) /\ rt_db w' = rt_db w /\
    applied (rt_fleet w') = applied (rt_fleet w) /\ ra_NodeID <$> rs = dm_NodeID <$> dms /\
    Forall (fun r => agrees (found !! ra_NodeID r) r) rs.
Proof.
  revert w. induction dms as [|dm dms IH]; intros w; [by exists w, []|]. cbn [scollect]. unfold singly, sbind, sret.
  destruct (status_one_step found dm w) as (w1 & r & -> & D1 & A1 & N1 & G1).
  destruct (IH w1) as (w2 & rs & Hl & D2 & A2 & N2 & G2). unfold singly, sbind, sret in Hl. rewrite Hl.
  exists w2, (r :: rs). split_and!; [done|congruence|congruence|csimpl; congruence|].
  constructor; [by rewrite N1|done].
Qed.

(** One turn of the reconciliation. *)
Definition same_configs (k k' : D) : Prop :=
  forall node, nr_Config <$> configs k' !! node = nr_Config <$> configs k !! node.

(** The decision maker has the configuration, or a call to give it failed. *)
Definition delivered (f : F) (dm : DecisionMakerPod) (c : RuntimeSchedulerConfig) : Prop :=
  applied f !! dm_addr dm = Some c \/ exists f0 e, (dm_ApplyRuntimeConfig dm c f0).2 = Err e.

Lemma resync_runtime_step dms d (w : rt_world F D) :
  nr_Config <$> configs (rt_db w) !! nr_NodeID d = Some (nr_Config d) ->
  exists w', resync_runtime (index_by dm_NodeID dms) d w = (w', Ok tt) /\ same_configs (rt_db w) (rt_db w') /\
    (applied (rt_fleet w') = applied (rt_fleet w) \/
     exists dm, index_by dm_NodeID dms !! nr_NodeID d = Some dm /\ applied (rt_fleet w') = <[dm_addr dm := nr_Config d]> (applied (rt_fleet w))) /\
    forall dm, index_by dm_NodeID dms !! nr_NodeID d = Some dm -> dm_State dm = NodeStateOnline -> delivered (rt_fleet w') dm (nr_Config d).
Proof.
  intros Hd. unfold resync_runtime. destruct (index_by dm_NodeID dms !! nr_NodeID d) as [dm|]; [|exists w; split_and!; by auto].
  destruct (decide (dm_State dm <> NodeStateOnline)) as [Hn|_]; [exists w; split_and!; try by auto|].
  { intros ? [= <-] ?. by destruct Hn. }
  unfold sbind, on_dm, on_db, sret. pose proof (dm_apply_law dm (nr_Config d) (rt_fleet w)) as L.
  destruct (dm_ApplyRuntimeConfig dm (nr_Config d) (rt_fleet w)) as [f res] eqn:Ea. cbn [rt_db rt_fleet UpsertNodeRuntimeConfig].
  set (d' := set_last _ d). pose proof (config_replace_law (nr_NodeID d') d' (rt_db w)) as R.
  destruct (config_Replace (nr_NodeID d') d' (rt_db w)) as [k r]. eexists. split; [reflexivity|]. cbn [rt_db rt_fleet]. split_and!.
  - assert (configs k = configs (rt_db w) \/ configs k = <[nr_NodeID d' := d']> (configs (rt_db w))) as Hk by (destruct r; tauto).
    intros node. destruct Hk as [Hk|Hk]; rewrite Hk; [done|]. destruct (decide (node = nr_NodeID d')) as [Hd'|?].
    + rewrite Hd', lookup_insert_eq. cbn. by rewrite Hd.
    + by rewrite lookup_insert_ne.
  - destruct res as [[]|e]; [eauto|destruct L; eauto].
  - intros ? [= <-] _. destruct res as [[]|e]; [left; rewrite L; apply lookup_insert_eq|].
    right. exists (rt_fleet w), e. by rewrite Ea.
Qed.
End desired_facts.

(** ** Properties *)

Section applying.
  Context {F D : Type} `{RuntimeDMLaws F} `{ConfigLaws D}.


(** Remark (the status tells drift).  The status changes nothing; it has an answer for
    every decision maker found and for every node in scope with a wanted
    configuration; every answer carries the wanted configuration of its node, as
    stored or normalised, and denies drift exactly when the node reports a
    configuration equal to it after normalisation. *)
Theorem runtime_status_tells_drift (k8s : K8SAdapter) (range : list string -> list string) (nodeIDs : list string) (dms : list DecisionMakerPod) (w : rt_world F D) :
  (forall l, range l ≡ₚ l) -> keyed (rt_db w) -> Manager.QueryDecisionMakerPods k8s nodeIDs = Some dms ->
  let '(w', res) := GetRuntimeConfigStatus k8s range nodeIDs w in
  configs (rt_db w') = configs (rt_db w) /\ applied (rt_fleet w') = applied (rt_fleet w) /\
  match res with
  | Err _ => True
  | Ok results =>
      (forall node, node ∈ dm_NodeID <$> dms \/ is_Some (visible nodeIDs (rt_db w) node) <-> node ∈ ra_NodeID <$> results) /\
      Forall (fun r => agrees (visible nodeIDs (rt_db w) (ra_NodeID r)) r) results
  end.
Proof.
  intros Hrange Hk Hdms. unfold GetRuntimeConfigStatus. rewrite Hdms. unfold sbind at 1, on_db.
  pose proof (query_visible nodeIDs (rt_db w) Hk) as Q. destruct (QueryNodeRuntimeConfigs _ _) as [k' [found|e]]; [|by destruct Q].
  destruct Q as [Hc Q]. destruct (Q found eq_refl) as [_ Hv]. unfold sbind.
  destruct (status_loop (by_node found) dms (mkRt (rt_fleet w) k')) as (w' & rs & -> & Hd & Ha & HN & HG). cbn [sret].
  split_and!; [rewrite Hd; done|done| |].
  - intros node. rewrite fmap_app, elem_of_app, HN, <- Hv. destruct (decide (node ∈ dm_NodeID <$> dms)) as [Hi|Hi]; [tauto|].
    rewrite !list_elem_of_fmap; rewrite list_elem_of_fmap in Hi. split.
    + intros [?|[d Hd']]; [by destruct Hi|]. right. exists (undiscovered node d). split; [done|]. apply list_elem_of_omap.
      exists node. rewrite Hd'. split; [|done]. apply list_elem_of_filter. split; [by rewrite list_elem_of_fmap|]. rewrite Hrange.
      apply list_elem_of_fmap. exists (node, d). by rewrite elem_of_map_to_list.
    + intros [?|(r & -> & (n & _ & (d & Hd' & ->)%fmap_Some)%list_elem_of_omap)]; [by destruct Hi|]. right. cbn. by rewrite Hd'.
  - apply Forall_app. split; [eapply Forall_impl; [exact HG|]; cbn; intros r; by rewrite Hv|].
    apply Forall_forall. intros r (n & _ & (d & Hd' & ->)%fmap_Some)%list_elem_of_omap. rewrite <- Hv. cbn [undiscovered].
    assert (ra_NodeID (undiscovered n d) = n) as -> by done. rewrite Hd'. by apply attach_agrees.
Qed.

End applying.

(** ** Witnesses *)

(** Decision makers that remember what they were given, and a collection in memory. *)
Definition reported (c : RuntimeSchedulerConfig) : StatusData :=
  mkStatusData (rc_ConfigVersion c) true "" 0 "" true (rc_Mode c) (rc_SchedulerName c) (rc_SliceNsDefault c) (rc_SliceNsMin c)
    (Some (rc_KernelMode c)) (Some (rc_MaxTimeWatchdog c)) (Some (rc_EarlyProcessing c)) (Some (rc_BuiltinIdle c))
    (Some (rc_SchedulerEnabled c)) (Some (rc_MonitoringEnabled c)).

#[global] Instance memory_dm : RuntimeDM (gmap string RuntimeSchedulerConfig) := {
  dm_ApplyRuntimeConfig := fun dm c f => (<[dm_addr dm := c]> f, Ok tt);
  dm_GetRuntimeConfigStatus := fun dm f =>
    (f, Ok (default no_result (status_result dm true (reported <$> f !! dm_addr dm))))
}.

#[global] Instance memory_dm_laws : RuntimeDMLaws (gmap string RuntimeSchedulerConfig).
Proof.
  unshelve refine {| applied := fun f => f |}; [done|]. intros dm f. split; [done|]. intros r [= <-].
  exists true, (reported <$> f !! dm_addr dm). done.
Defined.

#[global] Instance memory_configs : ConfigCollection (gmap string NodeRuntimeConfig) := {
  configs := fun k => k;
  config_Replace := fun node d k => (<[node := d]> k, Ok tt);
  config_Find := fun f k => (k, Ok (List.filter f (map_to_list k).*2))
}.

#[global] Instance memory_config_laws : ConfigLaws (gmap string NodeRuntimeConfig).
Proof.
  split; [done|]. intros f k. split; [done|]. intros l [= <-] d. rewrite list_elem_of_In, List.filter_In, <- list_elem_of_In, list_elem_of_fmap. split.
  - intros [([node d'] & -> & Hd%elem_of_map_to_list) Hf]. eauto.
  - intros [[node Hn] Hf]. split; [|done]. exists (node, d). by rewrite elem_of_map_to_list.
Qed.

Definition two_nodes : list DecisionMakerPod :=
  [mkDMPod "n1" 8080 "10.0.0.1" NodeStateOnline; mkDMPod "n2" 8080 "10.0.0.2" NodeStateOffline].

Definition runtime_k8s : K8SAdapter :=
  mkK8S (fun _ _ => Some []) (fun _ => Some two_nodes) (fun _ _ => Some []) (fun _ => Some []).

Definition wanted_runtime : RuntimeSchedulerConfig :=
  mkRuntimeConfig "v2" " simple" "" 20000 1000 false true false false false true.

Definition empty_rt : rt_world (gmap string RuntimeSchedulerConfig) (gmap string NodeRuntimeConfig) := mkRt ∅ ∅.


Definition recorded_rt : rt_world (gmap string RuntimeSchedulerConfig) (gmap string NodeRuntimeConfig) :=
  mkRt ∅ {["n1" := mkNodeRuntime "n1" "v2" (mgr_Normalize wanted_runtime) "" 7 no_result]}.

Lemma recorded_rt_keyed : keyed (rt_db recorded_rt).
Proof.
  intros node d Hd. cbn [recorded_rt rt_db configs memory_configs] in Hd. by apply lookup_singleton_Some in Hd as [<- <-].
Qed.

(** Before the configuration is applied the status of the node tells drift. *)
Lemma runtime_status_tells_drift_witness :
  exists w' results, GetRuntimeConfigStatus runtime_k8s id ["n1"] recorded_rt = (w', Ok results) /\
    ra_Drift <$> results = [true; false] /\ "n1" ∈ ra_NodeID <$> results.
Proof.
  pose proof (runtime_status_tells_drift runtime_k8s id ["n1"] two_nodes recorded_rt (fun _ => reflexivity _) recorded_rt_keyed eq_refl) as T.
  destruct (GetRuntimeConfigStatus _ _ _ _) as [w' res] eqn:E. destruct T as (_ & _ & T).
  assert (exists results, res = Ok results /\ ra_Drift <$> results = [true; false]) as (rs & -> & Hd).
  { vm_compute in E. injection E as <- <-. eexists. split; reflexivity. }
  exists w', rs. split_and!; [done|done|]. apply T. left. apply list_elem_of_fmap. exists (mkDMPod "n1" 8080 "10.0.0.1" NodeStateOnline).
  split; [done|]. unfold two_nodes. set_solver.
Defined.

