(* ===== verification/DMAuth.v ===== *)
(** * The API of the decision maker and the manager's client with its tokens

    service/token_svc.go, rest/middleware.go, rest/token_handler.go, rest/handler.go and the
    endpoints of api/decisionmaker that the other files leave out, composed to one server
    ([serve_http]); and GetToken, createClientAssertion and the calls of
    api/manager/client/deicison_maker.go on top of it.

    RSA keys and JWT are parameters ([RSALib], [RSALaws]), and so is the cache of tokens
    ([TokenCache]).  Times are in nanoseconds.  The clock of the manager is the time of the
    model; the clock of a node is ahead of it by a constant.  A request arrives after a
    delay, and is served, lost on the way, or served and its answer lost ([call_fate]).

    The theorems: without a token of this decision maker for the expected client a request
    changes nothing ([dm_no_token_no_effect]); the two kinds of tokens never stand in for each other
    ([token_kinds_apart]); a token that is refused is kept nevertheless
    ([refused_token_is_kept]); with the keys in place and the clocks within a minute every call
    of the client does what Manager.v says a call does, whichever token is in the cache
    ([client_refines_calls]). *)

From stdpp Require Import base gmap strings list.
From Stdlib Require Import ZArith Lia Ascii.
From S2P Require Import Prelude GoStrings GoFloat Intents ProcScan PodMetrics DecisionMaker.
From S2P Require Import Config DaemonConfig DaemonSupervisor DMRuntime ManagerDomain KubeStore Manager AuthSvc RuntimeSvc.
#[local] Open Scope go_scope.
#[local] Open Scope Z_scope.

(** ** Claims, keys and tokens *)

Definition DMClientAssertionAudience : string := "gthulhu-decision-maker-token".
Definition DMAccessTokenAudience : string := "gthulhu-decision-maker-api".
Definition DMAccessTokenIssuer : string := "decision-maker-service".
Definition DMAccessTokenType : string := "dm_access".
Definition DMClientAssertionType : string := "dm_client_assertion".

(** Claims with the registered ones; a date in seconds, or absent. *)
Record DMClaims := mkDMClaims {
  dc_ClientID : string;
  dc_TokenType : string;
  dc_ExpiresAt : option Z;
  dc_IssuedAt : option Z;
  dc_NotBefore : option Z;
  dc_Issuer : string;
  dc_Subject : string;
  dc_Audience : list string
}.

Definition second : Z := 1000000000.
Definition hour : Z := 3600 * second.

(** [Time.Unix] *)
Definition Unix (ns : Z) : Z := ns / second.

(** What the JWT library checks of the dates at a time. *)
Definition dates_ok (now : Z) (c : DMClaims) : Prop :=
  match dc_ExpiresAt c with Some e => now < e * second | None => True end /\
  match dc_NotBefore c with Some n => n * second <= now | None => True end.

(** The signing methods of the library. *)
Inductive jwt_method := RS256 | RS384 | RS512 | OtherMethod (alg : string).

Definition is_RSA (m : jwt_method) : bool := match m with OtherMethod _ => false | _ => true end.

(** crypto/rsa, crypto/x509, encoding/pem and golang-jwt.  A key of PKCS#8 or PKIX may be
    of another kind than RSA. *)
Class RSALib := {
  PrivateKey : Type;
  PublicKey : Type;
  public_key : PrivateKey -> PublicKey;
  pem_Decode : string -> option string;
  ParsePKCS1PrivateKey : string -> option PrivateKey;
  ParsePKCS8PrivateKey : string -> option (option PrivateKey);
  ParsePKIXPublicKey : string -> option (option PublicKey);
  SignRS256 : PrivateKey -> DMClaims -> option string;
  ParseClaims : (jwt_method -> option PublicKey) -> Z -> string -> option DMClaims
}.

(** A token signed with a key is read with its public half as long as its dates allow, and
    no longer; what is read from a token is what was signed; and a token is not blank. *)
Class RSALaws (R : RSALib) : Prop := {
  parse_sign : forall k c t keyfunc now, SignRS256 k c = Some t -> keyfunc RS256 = Some (public_key k) -> dates_ok now c ->
    ParseClaims keyfunc now t = Some c;
  parse_dates : forall keyfunc now t c, ParseClaims keyfunc now t = Some c -> dates_ok now c;
  parse_claims : forall k c t keyfunc now c', SignRS256 k c = Some t -> ParseClaims keyfunc now t = Some c' -> c' = c;
  sign_text : forall k c t, SignRS256 k c = Some t -> TrimSpace t <> ""
}.

(** go-generics-cache: [Get] returns what was set until it has expired, or nothing. *)
Class TokenCache (C : Type) := {
  cache_New : C;
  cache_Get : string -> Z -> C -> option string;
  cache_Set : string -> string -> Z -> Z -> C -> C
}.

Class TokenCacheLaws (C : Type) `{TokenCache C} : Prop := {
  cache_get_new : forall k now, cache_Get k now cache_New = None;
  cache_get_set : forall k k' v v' now now' ttl c, cache_Get k now (cache_Set k' v' now' ttl c) = Some v ->
    (k = k' /\ v = v' /\ now <= now' + ttl) \/ cache_Get k now c = Some v
}.

Record TokenConfig := mkTokenConfig {
  RsaPrivateKeyPem : string;
  TrustedClientPublicKey : string;
  ExpectedClientID : string;
  TokenDurationHr : Z
}.

Fixpoint hasAudience (audiences : list string) (expected : string) : bool :=
  match audiences with
  | [] => false
  | audience :: rest => if decide (audience = expected) then true else hasAudience rest expected
  end.

(** The claims [generateJWT] signs; hours are multiplied in 64 bits. *)
Definition access_claims (now durationHr : Z) (clientID : string) : DMClaims :=
  let expireHr := if decide (durationHr <= 0) then 24 else durationHr in
  mkDMClaims clientID DMAccessTokenType (Some (Unix (now + i64 (expireHr * hour)))) (Some (Unix now)) (Some (Unix now))
    DMAccessTokenIssuer clientID [DMAccessTokenAudience].

(** The claims [createClientAssertion] signs. *)
Definition assertion_claims (now : Z) (clientID : string) : DMClaims :=
  mkDMClaims clientID DMClientAssertionType (Some (Unix (now + 60 * second))) (Some (Unix now)) (Some (Unix now))
    clientID clientID [DMClientAssertionAudience].

Inductive token_error :=
| TEClientID | TEAssertion | TEUnauthorized | TETrustedKey | TEParse | TEType | TEMismatch | TEAudience | TESign | TEIssuer.

(** ** Metrics of the scheduler: rest/metric_handler.go, service/metric_collector.go *)

Record MetricSet := mkMetricSet {
  UserSchedLastRunAt : Z; NrQueued : Z; NrScheduled : Z; NrRunning : Z; NrOnlineCPUs : Z; NrUserDispatches : Z;
  NrKernelDispatches : Z; NrCancelDispatches : Z; NrBounceDispatches : Z; NrFailedDispatches : Z; NrSchedCongested : Z
}.

(** [MetricCollector.Collect]: nothing before the first update. *)
Definition collect_gauges (m : option MetricSet) : list (string * float64) :=
  match m with
  | None => []
  | Some m =>
      [("user_sched_last_run_at", f64_of_Z (UserSchedLastRunAt m)); ("nr_queued", f64_of_Z (NrQueued m));
       ("nr_scheduled", f64_of_Z (NrScheduled m)); ("nr_running", f64_of_Z (NrRunning m));
       ("nr_online_cpus", f64_of_Z (NrOnlineCPUs m)); ("nr_user_dispatches", f64_of_Z (NrUserDispatches m));
       ("nr_kernel_dispatches", f64_of_Z (NrKernelDispatches m)); ("nr_cancel_dispatches", f64_of_Z (NrCancelDispatches m));
       ("nr_bounce_dispatches", f64_of_Z (NrBounceDispatches m)); ("nr_failed_dispatches", f64_of_Z (NrFailedDispatches m));
       ("nr_sched_congested", f64_of_Z (NrSchedCongested m))]
  end.

(** ** The server *)

(** The two deprecated fields, which nothing reads, are left out. *)
Record TokenRequest := mkTokenRequest { tr_ClientID : string; tr_ClientAssertion : string }.

(** The requests; a body is [None] when it does not bind. *)
Inductive dm_route :=
| RtHealth
| RtVersion
| RtMetrics
| RtToken (body : option TokenRequest)
| RtApi (rq : dm_request)
| RtUpdateMetrics (body : option MetricSet)
| RtApplyRuntime (body : option RuntimeSchedulerConfig)
| RtGetRuntime
| RtPodsPIDs.

Inductive dm_answer :=
| AnHealth
| AnVersion
| AnMetrics (gauges : list (string * float64)) (pods : list metric)
| AnToken (token : string) (expiredAt : Z)
| AnApi (r : dm_response)
| AnEmpty
| AnRuntime (st : RuntimeConfigStatus)
| AnPods (pods : list PodInfo) (timestamp nodeName : string)
| AnError (code : Z).

(** The status code. *)
Definition answer_code (a : dm_answer) : Z :=
  match a with AnError c | AnApi (RespError c) => c | _ => 200 end.

(** [SetupRoutes]: methods and paths, and where the middleware is. *)
Definition route_method (r : dm_route) : string :=
  match r with
  | RtHealth | RtVersion | RtMetrics | RtGetRuntime | RtPodsPIDs => "GET"
  | RtToken _ | RtUpdateMetrics _ | RtApplyRuntime _ => "POST"
  | RtApi (RqIntents _) | RtApi (RqNodePolicies _) => "POST"
  | RtApi (RqDelete _) | RtApi (RqDeleteNode _) => "DELETE"
  | RtApi RqList | RtApi RqRoot | RtApi RqNodeRoot => "GET"
  end.

Definition route_path (r : dm_route) : string :=
  match r with
  | RtHealth => "/health"
  | RtVersion => "/version"
  | RtMetrics => "/metrics"
  | RtToken _ => "/api/v1/auth/token"
  | RtApi (RqIntents _) | RtApi (RqDelete _) => "/api/v1/intents"
  | RtApi RqRoot => "/api/v1/intents/merkle"
  | RtApi RqList => "/api/v1/scheduling/strategies"
  | RtApi (RqNodePolicies _) | RtApi (RqDeleteNode _) => "/api/v1/node-intents"
  | RtApi RqNodeRoot => "/api/v1/node-intents/merkle"
  | RtUpdateMetrics _ => "/api/v1/metrics"
  | RtApplyRuntime _ | RtGetRuntime => "/api/v1/runtime-config"
  | RtPodsPIDs => "/api/v1/pods/pids"
  end.

Definition route_guarded (r : dm_route) : bool :=
  match r with RtHealth | RtVersion | RtMetrics | RtToken _ => false | _ => true end.

(** The requests the middleware lets pass. *)
Definition skips_auth (method path : string) : bool :=
  bool_decide (method = "OPTIONS" \/ path = "/health" \/ path = "/" \/ path = "/api/v1/auth/token") || HasPrefix path "/static/".

(** What a request meets: the time, the node, the daemon, and the order of a map. *)
Record http_env := mkHttpEnv {
  he_now : Z;
  he_dm : dm_env;
  he_post : runtimeConfigRequest -> http_result;
  he_got : http_result;
  he_hostname : string;
  he_NODE_NAME : string;
  he_range : gmap string PodInfo -> list (string * PodInfo)
}.

Section server.
  Context {R : RSALib}.

(** util/encrypt.go *)
Definition InitRSAPrivateKey (pemStr : string) : option PrivateKey :=
  match pem_Decode pemStr with
  | None => None
  | Some bytes =>
      match ParsePKCS1PrivateKey bytes with
      | Some key => Some key
      | None => match ParsePKCS8PrivateKey bytes with Some (Some key) => Some key | _ => None end
      end
  end.

Definition PEMToRSAPublicKey (pemBytes : string) : option PublicKey :=
  match pem_Decode pemBytes with
  | None => None
  | Some bytes => match ParsePKIXPublicKey bytes with Some (Some pub) => Some pub | _ => None end
  end.

(** The function both parsers pass: the key, for the methods of RSA. *)
Definition rsa_keyfunc (pub : PublicKey) (m : jwt_method) : option PublicKey := if is_RSA m then Some pub else None.

Definition VerifyClientAssertion (cfg : TokenConfig) (now : Z) (clientID clientAssertion : string) : option token_error :=
  if decide (TrimSpace clientID = "") then Some TEClientID else
  if decide (TrimSpace clientAssertion = "") then Some TEAssertion else
  let expected := TrimSpace (ExpectedClientID cfg) in
  if decide (expected <> "" /\ clientID <> expected) then Some TEUnauthorized else
  match PEMToRSAPublicKey (TrustedClientPublicKey cfg) with
  | None => Some TETrustedKey
  | Some rsaPublicKey =>
      match ParseClaims (rsa_keyfunc rsaPublicKey) now clientAssertion with
      | None => Some TEParse
      | Some claims =>
          if decide (dc_TokenType claims <> DMClientAssertionType) then Some TEType else
          if decide (dc_ClientID claims <> clientID \/ dc_Subject claims <> clientID \/ dc_Issuer claims <> clientID)
          then Some TEMismatch else
          if negb (hasAudience (dc_Audience claims) DMClientAssertionAudience) then Some TEAudience else None
      end
  end.

Definition generateJWT (cfg : TokenConfig) (jwtPrivateKey : PrivateKey) (now : Z) (clientID : string) : option (string * DMClaims) :=
  let claims := access_claims now (TokenDurationHr cfg) clientID in
  (fun tokenStr => (tokenStr, claims)) <$> SignRS256 jwtPrivateKey claims.

(** The token and when it expires. *)
Definition VerifyAndGenerateToken (cfg : TokenConfig) (jwtPrivateKey : PrivateKey) (now : Z) (clientID clientAssertion : string) :
    result token_error (string * Z) :=
  match VerifyClientAssertion cfg now clientID clientAssertion with
  | Some e => Err e
  | None =>
      match generateJWT cfg jwtPrivateKey now clientID with
      | None => Err TESign
      | Some (token, claims) => Ok (token, default 0 (dc_ExpiresAt claims))
      end
  end.

Definition validateJWT (rasKey : PrivateKey) (cfg : TokenConfig) (now : Z) (tokenString : string) : result token_error DMClaims :=
  match ParseClaims (rsa_keyfunc (public_key rasKey)) now tokenString with
  | None => Err TEParse
  | Some claims =>
      if decide (dc_TokenType claims <> DMAccessTokenType) then Err TEType else
      if decide (dc_Issuer claims <> DMAccessTokenIssuer) then Err TEIssuer else
      if negb (hasAudience (dc_Audience claims) DMAccessTokenAudience) then Err TEAudience else
      let expected := TrimSpace (ExpectedClientID cfg) in
      if decide (expected <> "" /\ dc_ClientID claims <> expected) then Err TEUnauthorized else Ok claims
  end.

(** The decision maker: its configuration and key, and the state of its service. *)
Record DMServer := mkDMServer {
  sv_config : TokenConfig;
  sv_key : PrivateKey;
  sv_service : Service;
  sv_runtime : option RuntimeSchedulerConfig;
  sv_metrics : option MetricSet
}.

(** [NewService] with the key; without one there is no server. *)
Definition NewServer (cfg : TokenConfig) : option DMServer :=
  (fun key => mkDMServer cfg key NewService None None) <$> InitRSAPrivateKey (RsaPrivateKeyPem cfg).

Definition set_service (svc : Service) (s : DMServer) : DMServer :=
  mkDMServer (sv_config s) (sv_key s) svc (sv_runtime s) (sv_metrics s).
Definition set_runtime (rc : option RuntimeSchedulerConfig) (s : DMServer) : DMServer :=
  mkDMServer (sv_config s) (sv_key s) (sv_service s) rc (sv_metrics s).
Definition UpdateMetrics (m : MetricSet) (s : DMServer) : DMServer :=
  mkDMServer (sv_config s) (sv_key s) (sv_service s) (sv_runtime s) (Some m).

Definition GenTokenHandler (env : http_env) (body : option TokenRequest) (s : DMServer) : DMServer * dm_answer :=
  match body with
  | None => (s, AnError 400)
  | Some req =>
      match VerifyAndGenerateToken (sv_config s) (sv_key s) (he_now env) (tr_ClientID req) (tr_ClientAssertion req) with
      | Err _ => (s, AnError 401)
      | Ok (token, expiredAt) => (s, AnToken token expiredAt)
      end
  end.

Definition HandleUpdateMetrics (body : option MetricSet) (s : DMServer) : DMServer * dm_answer :=
  match body with None => (s, AnError 400) | Some m => (UpdateMetrics m s, AnEmpty) end.

Definition GetPodsPIDs (env : http_env) (s : DMServer) : DMServer * dm_answer :=
  match GetAllPodInfos (env_fs (he_dm env)) with
  | Err _ => (s, AnError 500)
  | Ok podInfoMap =>
      let pods := (fun kv => kv.2) <$> he_range env podInfoMap in
      let nodeName := if decide (he_NODE_NAME env <> "") then he_NODE_NAME env else he_hostname env in
      (s, AnPods pods (FormatRFC3339 (he_now env)) nodeName)
  end.

(** The handler of a route. *)
Definition handle (env : http_env) (r : dm_route) (s : DMServer) : DMServer * dm_answer :=
  match r with
  | RtHealth => (s, AnHealth)
  | RtVersion => (s, AnVersion)
  | RtMetrics => (s, AnMetrics (collect_gauges (sv_metrics s)) (Collect (env_fs (he_dm env)) (intentPods (sv_service s))))
  | RtToken body => GenTokenHandler env body s
  | RtApi rq => let '(svc, resp) := serve (he_dm env) rq (sv_service s) in (set_service svc s, AnApi resp)
  | RtUpdateMetrics body => HandleUpdateMetrics body s
  | RtApplyRuntime body =>
      let '(rc, code) := HandleApplyRuntimeConfig (he_post env) body (sv_runtime s) in
      (set_runtime rc s, if decide (code = 200) then AnEmpty else AnError code)
  | RtGetRuntime => (s, AnRuntime (DMRuntime.GetRuntimeConfigStatus (he_got env) (sv_runtime s)))
  | RtPodsPIDs => GetPodsPIDs env s
  end.

Definition bearerSchema : string := "Bearer ".

(** [GetJwtAuthMiddleware]; the header is empty when there is none. *)
Definition GetJwtAuthMiddleware (env : http_env) (authHeader : string) (r : dm_route)
    (next : DMServer -> DMServer * dm_answer) (s : DMServer) : DMServer * dm_answer :=
  if skips_auth (route_method r) (route_path r) then next s else
  if decide (authHeader = "") then (s, AnError 401) else
  match strip_prefix bearerSchema authHeader with
  | None => (s, AnError 401)
  | Some tokenString =>
      match validateJWT (sv_key s) (sv_config s) (he_now env) tokenString with
      | Err _ => (s, AnError 401)
      | Ok _ => next s
      end
  end.

Definition serve_http (env : http_env) (authHeader : string) (r : dm_route) (s : DMServer) : DMServer * dm_answer :=
  if route_guarded r then GetJwtAuthMiddleware env authHeader r (handle env r) s else handle env r s.

End server.
Arguments DMServer : clear implicits.
Arguments DMServer {R}.

(** ** The client: api/manager/client/deicison_maker.go *)

Inductive client_fault := CNoKey | CSign | CDm (e : dm_fault).

Section client.
  Context {R : RSALib} {C : Type} `{TokenCache C}.

Record DMClient := mkDMClient { clientKey : option PrivateKey; clientID : string; tokenCache : C }.

(** [NewDecisionMakerClient]; without a key the client starts, and cannot get tokens. *)
Definition NewDecisionMakerClient (rsaPrivateKeyPem id : string) : option DMClient :=
  if decide (rsaPrivateKeyPem <> "") then (fun k => mkDMClient (Some k) id cache_New) <$> InitRSAPrivateKey rsaPrivateKeyPem
  else Some (mkDMClient None id cache_New).

(** The client, the servers by address, the time, and what becomes of the requests to come,
    with their delays.  [nt_applied] records the configuration last accepted at an address. *)
Record net := mkNet {
  nt_client : DMClient;
  nt_servers : gmap string DMServer;
  nt_now : Z;
  nt_fates : list (call_fate * Z);
  nt_applied : gmap string RuntimeSchedulerConfig
}.

Definition set_cache (c : C) (w : net) : net :=
  mkNet (mkDMClient (clientKey (nt_client w)) (clientID (nt_client w)) c) (nt_servers w) (nt_now w) (nt_fates w) (nt_applied w).

(** Where each server runs: its node, how far the clock of the node is ahead, the rest. *)
Context (node_of : string -> string) (skew : string -> Z) (node_env : string -> http_env).

Definition env_at (addr : string) (t : Z) : http_env :=
  let e := node_env addr in
  mkHttpEnv (t + skew (node_of addr)) (he_dm e) (he_post e) (he_got e) (he_hostname e) (he_NODE_NAME e) (he_range e).

(** What an answer says of the configurations accepted. *)
Definition note_applied (addr : string) (r : dm_route) (a : dm_answer) (m : gmap string RuntimeSchedulerConfig) :
    gmap string RuntimeSchedulerConfig :=
  match r with RtApplyRuntime (Some c) => if decide (answer_code a = 200) then <[addr := c]> m else m | _ => m end.

(** One request. *)
Definition http_Do (addr authHeader : string) (r : dm_route) : SE net client_fault dm_answer := fun w =>
  let '(fate, delay) := default (CallOk, 0) (head (nt_fates w)) in
  let t := nt_now w + delay in
  match fate, nt_servers w !! addr with
  | CallFails, _ | _, None => (mkNet (nt_client w) (nt_servers w) t (tail (nt_fates w)) (nt_applied w), Err (CDm Unreachable))
  | _, Some s =>
      let '(s', a) := serve_http (env_at addr t) authHeader r s in
      (mkNet (nt_client w) (<[addr := s']> (nt_servers w)) t (tail (nt_fates w)) (note_applied addr r a (nt_applied w)),
       match fate with CallOk => Ok a | _ => Err (CDm Unreachable) end)
  end.

(** The response must have the status OK. *)
Definition checked (a : dm_answer) : SE net client_fault dm_answer :=
  if decide (answer_code a <> 200) then sfail (CDm (NonOK (answer_code a))) else sret a.

Definition createClientAssertion (k : PrivateKey) : SE net client_fault string := fun w =>
  (w, match SignRS256 k (assertion_claims (nt_now w) (clientID (nt_client w))) with Some t => Ok t | None => Err CSign end).

(** A token of a response is kept until a minute before it expires. *)
Definition keep_token (node token : string) (expiredAt : Z) : SE net client_fault unit := fun w =>
  let ttl := i64 (expiredAt - Unix (nt_now w) - 60) in
  (if decide (0 < ttl) then set_cache (cache_Set node token (nt_now w) (i64 (ttl * second)) (tokenCache (nt_client w))) w else w, Ok tt).

Definition GetToken (dm : DecisionMakerPod) : SE net client_fault string := fun w =>
  match cache_Get (dm_NodeID dm) (nt_now w) (tokenCache (nt_client w)) with
  | Some token => (w, Ok token)
  | None =>
      match clientKey (nt_client w) with
      | None => (w, Err CNoKey)
      | Some clientKey =>
          (let! clientAssertion := createClientAssertion clientKey in
           let! resp := http_Do (dm_addr dm) "" (RtToken (Some (mkTokenRequest (clientID (nt_client w)) clientAssertion))) in
           let! resp := checked resp in
           match resp with
           | AnToken token expiredAt => let! _ := keep_token (dm_NodeID dm) token expiredAt in sret token
           | _ => sfail (CDm NoData)
           end) w
      end
  end.

(** A request with a token. *)
Definition authorized (dm : DecisionMakerPod) (token : string) (r : dm_route) : SE net client_fault dm_answer :=
  let! a := http_Do (dm_addr dm) (bearerSchema +:+ token) r in checked a.

(** The payload of a checked answer to a request for intents or policies. *)
Definition api (dm : DecisionMakerPod) (token : string) (rq : dm_request) : SE net client_fault dm_response :=
  let! a := authorized dm token (RtApi rq) in
  match a with AnApi resp => sret resp | _ => sfail (CDm NoData) end.

Definition root_data (resp : dm_response) : SE net client_fault string :=
  match resp with RespRoot h => sret h | _ => sfail (CDm NoData) end.

End client.

(** The calls, under the names of the source. *)
Module Client.
Section calls.
  Context {R : RSALib} {C : Type} `{TokenCache C}.
  Context (error_text : sup_error -> string) (node_of : string -> string) (skew : string -> Z) (node_env : string -> http_env).
  Notation GetToken := (GetToken node_of skew node_env).
  Notation api := (api node_of skew node_env).
  Notation authorized := (authorized node_of skew node_env).

Definition SendSchedulingIntent (dm : DecisionMakerPod) (intents : list ScheduleIntent) : SE net client_fault unit :=
  let! token := GetToken dm in
  let! _ := api dm token (RqIntents (Some (payload <$> intents))) in sret tt.

Definition GetIntentMerkleRoot (dm : DecisionMakerPod) : SE net client_fault string :=
  let! token := GetToken dm in
  let! resp := api dm token RqRoot in root_data resp.

Definition DeleteSchedulingIntents (dm : DecisionMakerPod) (req : DeleteIntentsRequest) : SE net client_fault unit :=
  let! token := GetToken dm in
  if di_All req then let! _ := api dm token (RqDelete (Some (mkDelete "" None true))) in sret tt
  else sfor (fun podID => let! _ := api dm token (RqDelete (Some (mkDelete podID None false))) in sret tt) (di_PodIDs req).

Definition SendNodeSchedulingPolicies (dm : DecisionMakerPod) (intents : list NodeSchedulingIntent) : SE net client_fault unit :=
  let! token := GetToken dm in
  let! _ := api dm token (RqNodePolicies (Some (policy_payload <$> intents))) in sret tt.

Definition GetNodePolicyMerkleRoot (dm : DecisionMakerPod) : SE net client_fault string :=
  let! token := GetToken dm in
  let! resp := api dm token RqNodeRoot in root_data resp.

Definition DeleteNodeSchedulingIntents (dm : DecisionMakerPod) (req : DeleteNodeIntentsRequest) : SE net client_fault unit :=
  let! token := GetToken dm in
  let! _ := api dm token (RqDeleteNode (Some (mkDeleteNP (dn_PolicyID req) (dn_All req)))) in sret tt.

(** The data has no node identifier: the decision maker does not fill it in. *)
Definition GetPodPIDMapping (dm : DecisionMakerPod) : SE net client_fault PodPIDMapping :=
  let! token := GetToken dm in
  let! a := authorized dm token RtPodsPIDs in
  match a with AnPods pods timestamp nodeName => sret (mkMapping pods timestamp nodeName "") | _ => sfail (CDm NoData) end.

(** Every field is sent, or is zero and left out. *)
Definition ApplyRuntimeConfig (dm : DecisionMakerPod) (config : RuntimeSchedulerConfig) : SE net client_fault unit :=
  let! token := GetToken dm in
  let! _ := authorized dm token (RtApplyRuntime (Some config)) in sret tt.

(** [GetRuntimeConfig] of rest/runtime_config_handler.go: the response to a status. *)
Definition runtime_response (st : RuntimeConfigStatus) : StatusData :=
  let flag f := f <$> rcs_Config st in
  mkStatusData (rcs_ConfigVersion st) (rcs_Applied st) (rcs_AppliedAt st) (rcs_RestartCount st)
    (from_option error_text "" (rcs_LastError st)) (bool_decide (is_Some (rcs_Config st)))
    (from_option rc_Mode "" (rcs_Config st)) (from_option rc_SchedulerName "" (rcs_Config st))
    (from_option rc_SliceNsDefault 0 (rcs_Config st)) (from_option rc_SliceNsMin 0 (rcs_Config st))
    (flag rc_KernelMode) (flag rc_MaxTimeWatchdog) (flag rc_EarlyProcessing) (flag rc_BuiltinIdle)
    (flag rc_SchedulerEnabled) (flag rc_MonitoringEnabled).

Definition GetRuntimeConfigStatus (dm : DecisionMakerPod) : SE net client_fault RuntimeConfigApplyResult :=
  let! token := GetToken dm in
  let! a := authorized dm token RtGetRuntime in
  match a with
  | AnRuntime st => match status_result dm true (Some (runtime_response st)) with Some r => sret r | None => sfail (CDm NoData) end
  | _ => sfail (CDm NoData)
  end.

End calls.
End Client.

(** ** Facts about tokens *)

Lemma hasAudience_elem l a : hasAudience l a = true <-> a ∈ l.
Proof.
  induction l as [|x l IH]; cbn; [split; [done|by intros ?%not_elem_of_nil]|].
  rewrite elem_of_cons. case_decide as Hx; [split; [by left|done]|]. rewrite IH. split; [by right|]. by intros [->|].
Qed.

Section tokens.
  Context {R : RSALib}.

(** The credentials of a server, and the tokens they admit at a time. *)
Definition creds : Type := TokenConfig * PrivateKey.
Definition creds_of (s : DMServer) : creds := (sv_config s, sv_key s).

Definition for_client (cfg : TokenConfig) (id : string) : Prop :=
  TrimSpace (ExpectedClientID cfg) = "" \/ id = TrimSpace (ExpectedClientID cfg).

Definition admits (cr : creds) (now : Z) (token : string) : Prop :=
  exists c, ParseClaims (rsa_keyfunc (public_key cr.2)) now token = Some c /\
    dc_TokenType c = DMAccessTokenType /\ dc_Issuer c = DMAccessTokenIssuer /\ DMAccessTokenAudience ∈ dc_Audience c /\
    for_client cr.1 (dc_ClientID c).

Lemma validateJWT_spec key cfg now token :
  match validateJWT key cfg now token with Ok _ => admits (cfg, key) now token | Err _ => ~ admits (cfg, key) now token end.
Proof.
  unfold validateJWT, admits, for_client. cbn [fst snd].
  destruct (ParseClaims _ now token) as [c|]; [|by intros (? & ? & _)].
  case_decide as H1; [intros (c' & [= <-] & ? & _); congruence|].
  case_decide as H2; [intros (c' & [= <-] & _ & ? & _); congruence|].
  destruct (hasAudience _ _) eqn:Ha; cbn [negb]; [|intros (c' & [= <-] & _ & _ & Hau%hasAudience_elem & _); congruence].
  case_decide as H3; [intros (c' & [= <-] & _ & _ & _ & He); tauto|].
  exists c. apply hasAudience_elem in Ha. repeat (split; [done|]).
  destruct (decide (TrimSpace (ExpectedClientID cfg) = "")); [by left|]. right. apply dec_stable. tauto.
Qed.

Lemma strip_prefix_None p h : strip_prefix p h = None -> forall t, h <> p +:+ t.
Proof. intros Hn t ->. by rewrite strip_prefix_app in Hn. Qed.

(** No route behind the middleware is one it lets pass. *)
Lemma guarded_not_skipped r : route_guarded r = true -> skips_auth (route_method r) (route_path r) = false.
Proof. destruct r as [| | | |[]| | | |]; try done; intros _; by vm_compute. Qed.

Lemma unguarded_keeps env r s : route_guarded r = false -> (handle env r s).1 = s.
Proof.
  destruct r; try done; intros _; cbn. unfold GenTokenHandler. destruct body as [req|]; [|done].
  by destruct (VerifyAndGenerateToken _ _ _ _ _) as [[]|].
Qed.

Lemma middleware_runs env h r s :
  route_guarded r = true ->
  match strip_prefix bearerSchema h with
  | Some t => admits (creds_of s) (he_now env) t /\ serve_http env h r s = handle env r s \/
              ~ admits (creds_of s) (he_now env) t /\ serve_http env h r s = (s, AnError 401)
  | None => serve_http env h r s = (s, AnError 401)
  end.
Proof.
  intros Hg. unfold serve_http, GetJwtAuthMiddleware. rewrite Hg, guarded_not_skipped by done.
  case_decide as Hh; [by subst h|]. destruct (strip_prefix bearerSchema h) as [t|]; [|done].
  pose proof (validateJWT_spec (sv_key s) (sv_config s) (he_now env) t) as Hv. destruct (validateJWT _ _ _ _); [by left|by right].
Qed.

Lemma serve_creds env h r s : creds_of (serve_http env h r s).1 = creds_of s.
Proof.
  assert (creds_of (handle env r s).1 = creds_of s) as Hh.
  { destruct r as [| | |body|rq|body|body| |]; try done; cbn.
    - unfold GenTokenHandler. destruct body; [|done]. by destruct (VerifyAndGenerateToken _ _ _ _ _) as [[]|].
    - by destruct (serve _ _ _).
    - by destruct body.
    - by destruct (HandleApplyRuntimeConfig _ _ _).
    - unfold GetPodsPIDs. by destruct (GetAllPodInfos _). }
  destruct (route_guarded r) eqn:Hg; [|unfold serve_http; by rewrite Hg].
  pose proof (middleware_runs env h r s Hg) as Hm. destruct (strip_prefix _ h); [destruct Hm as [[_ ->]|[_ ->]]|rewrite Hm]; done.
Qed.

End tokens.

(** ** What the server promises *)

(** C32 (safety): a request whose header carries no token the decision maker admits (one
    read with its own public key, within its dates, that it issued as an access token for
    this API and for the client it expects) changes nothing, and behind the middleware it
    is refused; with such a token the handler runs. *)
Theorem dm_no_token_no_effect {R : RSALib} env h r (s : DMServer) :
  ((forall t, h = bearerSchema +:+ t -> ~ admits (creds_of s) (he_now env) t) ->
     (serve_http env h r s).1 = s /\ (route_guarded r = true -> (serve_http env h r s).2 = AnError 401)) /\
  (forall t, h = bearerSchema +:+ t -> admits (creds_of s) (he_now env) t -> serve_http env h r s = handle env r s).
Proof.
  destruct (route_guarded r) eqn:Hg.
  - pose proof (middleware_runs env h r s Hg) as Hm. split.
    + intros Hno. destruct (strip_prefix bearerSchema h) as [t|] eqn:E.
      * apply strip_prefix_Some in E. destruct Hm as [[Ha _]|[_ ->]]; [by destruct (Hno t)|done].
      * by rewrite Hm.
    + intros t Ht Ha. apply strip_prefix_Some in Ht. rewrite Ht in Hm. by destruct Hm as [[_ ?]|[? _]].
  - unfold serve_http. rewrite Hg. split; [|done]. intros _. split; [|done]. by apply unguarded_keeps.
Qed.

(** Remark (kinds of tokens): an assertion of a client is never admitted as an access
    token, and an access token never stands for an assertion, whatever the keys: not even
    when the manager and the decision maker have the same one. *)
Theorem token_kinds_apart {R : RSALib} `{!RSALaws R} k id t token :
  (SignRS256 k (assertion_claims t id) = Some token -> forall cr now, ~ admits cr now token) /\
  (forall cfg c, generateJWT cfg k t id = Some (token, c) -> forall cfg' now id', VerifyClientAssertion cfg' now id' token <> None).
Proof.
  split.
  - intros Hs cr now (c & Hp & Ht & _). rewrite (parse_claims _ _ _ _ _ _ Hs Hp) in Ht. done.
  - intros cfg c Hg cfg' now id' Hv. unfold generateJWT in Hg. apply fmap_Some in Hg as (t' & Hs & [= -> ->]).
    revert Hv. unfold VerifyClientAssertion. repeat (case_decide; [done|]). destruct (PEMToRSAPublicKey _) as [pub|]; [|done].
    destruct (ParseClaims _ now t') as [c'|] eqn:Hp; [|done]. by rewrite (parse_claims _ _ _ _ _ _ Hs Hp), decide_True.
Qed.

(** A token is issued only for an assertion the trusted key verifies. *)
Lemma issued_spec {R : RSALib} cfg key now id assertion token e :
  VerifyAndGenerateToken cfg key now id assertion = Ok (token, e) ->
  (exists pub c, PEMToRSAPublicKey (TrustedClientPublicKey cfg) = Some pub /\
     ParseClaims (rsa_keyfunc pub) now assertion = Some c /\ dc_TokenType c = DMClientAssertionType /\
     dc_ClientID c = id /\ dc_Subject c = id /\ dc_Issuer c = id) /\
  for_client cfg id /\ SignRS256 key (access_claims now (TokenDurationHr cfg) id) = Some token /\
  dc_ExpiresAt (access_claims now (TokenDurationHr cfg) id) = Some e.
Proof.
  unfold VerifyAndGenerateToken, VerifyClientAssertion, generateJWT.
  case_decide; [done|]. case_decide; [done|]. case_decide as He; [done|]. destruct (PEMToRSAPublicKey _) as [pub|]; [|done].
  destruct (ParseClaims _ _ _) as [c|] eqn:Hp; [|done]. case_decide as Ht; [done|]. case_decide as Hm; [done|].
  destruct (hasAudience _ _); [|done]. cbn [negb]. destruct (SignRS256 _ _) as [t|] eqn:Hs; [|done]. intros [= -> <-].
  split; [exists pub, c; repeat (split; [done || (apply dec_stable; tauto)|]); apply dec_stable; tauto|].
  split; [|done]. unfold for_client. destruct (decide (TrimSpace (ExpectedClientID cfg) = "")); [by left|]. right. apply dec_stable. tauto.
Qed.

(** An assertion made at [t0] verifies while the clock of the server is within 59 seconds. *)
Lemma assertion_verifies {R : RSALib} `{!RSALaws R} cfg k t0 t id assertion :
  SignRS256 k (assertion_claims t0 id) = Some assertion -> PEMToRSAPublicKey (TrustedClientPublicKey cfg) = Some (public_key k) ->
  TrimSpace id <> "" -> for_client cfg id -> t0 <= t <= t0 + 59 * second -> VerifyClientAssertion cfg t id assertion = None.
Proof.
  intros Hs Hk Hid Hf Ht. unfold VerifyClientAssertion. rewrite decide_False by done.
  rewrite decide_False by by eapply sign_text. rewrite decide_False by (destruct Hf; naive_solver). rewrite Hk.
  rewrite (parse_sign k (assertion_claims t0 id)); [|done|done|].
  - cbn [assertion_claims dc_TokenType dc_ClientID dc_Subject dc_Issuer dc_Audience]. rewrite decide_False by naive_solver.
    rewrite decide_False by naive_solver. done.
  - unfold dates_ok. cbn. unfold Unix, second in *.
    pose proof (Z.div_mod (t0 + 60 * 1000000000) 1000000000). pose proof (Z.mod_pos_bound (t0 + 60 * 1000000000) 1000000000).
    pose proof (Z.div_mod t0 1000000000). pose proof (Z.mod_pos_bound t0 1000000000). lia.
Qed.

(** Before its second, and from a minute after it, an assertion is refused: a node whose
    clock is behind by a second never issues a token. *)
Lemma assertion_refused_outside {R : RSALib} `{!RSALaws R} cfg k t0 t id assertion :
  SignRS256 k (assertion_claims t0 id) = Some assertion -> t < Unix t0 * second \/ t0 + 60 * second <= t ->
  VerifyClientAssertion cfg t id assertion <> None.
Proof.
  intros Hs Ht Hv. revert Hv. unfold VerifyClientAssertion. repeat (case_decide; [done|]). destruct (PEMToRSAPublicKey _) as [pub|]; [|done].
  destruct (ParseClaims _ t assertion) as [c|] eqn:Hp; [|done]. pose proof (parse_dates _ _ _ _ Hp) as Hd.
  rewrite (parse_claims _ _ _ _ _ _ Hs Hp) in Hd. unfold dates_ok in Hd. cbn in Hd. destruct Hd as [He Hn].
  exfalso. unfold Unix, second in *. pose proof (Z.div_mod (t0 + 60 * 1000000000) 1000000000).
  pose proof (Z.mod_pos_bound (t0 + 60 * 1000000000) 1000000000). lia.
Qed.

(** An access token issued at [d] is admitted from then on for all but the last minute of
    its hours. *)
Definition token_life (durationHr : Z) : Z := (if decide (durationHr <= 0) then 24 else durationHr) * hour.

Lemma access_admitted {R : RSALib} `{!RSALaws R} cfg key d id token now :
  SignRS256 key (access_claims d (TokenDurationHr cfg) id) = Some token -> for_client cfg id -> TokenDurationHr cfg <= 2562047 ->
  d <= now -> now < Unix (d + token_life (TokenDurationHr cfg)) * second -> admits (cfg, key) now token.
Proof.
  intros Hs Hf Hd Hn He. exists (access_claims d (TokenDurationHr cfg) id). cbn [fst snd]. split; [|split; [done|]].
  - apply (parse_sign key); [done|done|]. unfold dates_ok. cbn [access_claims dc_ExpiresAt dc_NotBefore].
    change ((if decide (TokenDurationHr cfg <= 0) then 24 else TokenDurationHr cfg) * hour) with (token_life (TokenDurationHr cfg)).
    rewrite i64_id by (unfold is_i64, token_life, hour, second; case_decide; lia). split; [done|].
    unfold Unix, second. pose proof (Z.div_mod d 1000000000). pose proof (Z.mod_pos_bound d 1000000000). lia.
  - cbn. repeat (split; [done || set_solver|]). done.
Qed.

(** ** The client refines the calls of Manager.v *)

Section refinement.
  Context {R : RSALib} `{!RSALaws R} {C : Type} `{TokenCacheLaws C}.
  Context (node_of : string -> string) (skew : string -> Z) (node_env : string -> http_env).

Definition net_creds (w : net (C := C)) : gmap string creds := creds_of <$> nt_servers w.

(** The configurations fit: the servers trust the key of the client and expect it, their
    tokens last for a time Go can express, and the servers of a node share their key. *)
Record paired (k : PrivateKey) (w : net (C := C)) : Prop := {
  pd_key : clientKey (nt_client w) = Some k;
  pd_signs : forall c, is_Some (SignRS256 k c);
  pd_id : TrimSpace (clientID (nt_client w)) <> "";
  pd_server : forall a cr, net_creds w !! a = Some cr ->
    PEMToRSAPublicKey (TrustedClientPublicKey cr.1) = Some (public_key k) /\ for_client cr.1 (clientID (nt_client w)) /\
    TokenDurationHr cr.1 <= 2562047 /\ (forall c, is_Some (SignRS256 cr.2 c));
  pd_node : forall a b cr cr', net_creds w !! a = Some cr -> net_creds w !! b = Some cr' -> node_of a = node_of b ->
    cr.2 = cr'.2 /\ ExpectedClientID cr.1 = ExpectedClientID cr'.1
}.

(** A token is good at an address from now until the time [hi]. *)
Definition good_token (w : net (C := C)) (a token : string) (hi : Z) : Prop :=
  forall cr t, net_creds w !! a = Some cr -> nt_now w <= t <= hi -> admits cr (t + skew (node_of a)) token.

(** A token that the cache returns, now or later, is good for 59 seconds by the clock of
    the node. *)
Definition cache_ok (w : net (C := C)) : Prop :=
  forall a cr now token t, net_creds w !! a = Some cr -> nt_now w <= now -> cache_Get (node_of a) now (tokenCache (nt_client w)) = Some token ->
    now <= t -> t + skew (node_of a) - now <= 59 * second -> admits cr (t + skew (node_of a)) token.

(** The requests of a call take less than a minute, the difference of the clocks included. *)
Definition on_time (a : string) (hi : Z) (w : net (C := C)) : Prop :=
  Forall (fun f => 0 <= f.2) (nt_fates w) /\ nt_now w + foldr Z.add 0 ((nt_fates w).*2) <= hi.

Definition punctual (a : string) (w : net (C := C)) : Prop :=
  0 <= skew (node_of a) /\ on_time a (nt_now w + 59 * second - skew (node_of a)) w.

(** The same decision makers in the two models. *)
Definition sim (w : net (C := C)) (f : fleet) : Prop :=
  fl_env f = (fun a => he_dm (node_env a)) /\ fl_dms f = sv_service <$> nt_servers w /\ fl_fates f = (nt_fates w).*1.

Definition lift_result {A} (r : result dm_fault A) : result client_fault A :=
  match r with Ok x => Ok x | Err e => Err (CDm e) end.

(** What stays the same during a call. *)
Definition settled (w w' : net (C := C)) : Prop :=
  net_creds w' = net_creds w /\ nt_client w' = nt_client w /\ nt_now w <= nt_now w'.

Lemma settled_refl w : settled w w.
Proof. by repeat split. Qed.
Lemma settled_trans w1 w2 w3 : settled w1 w2 -> settled w2 w3 -> settled w1 w3.
Proof. intros (? & ? & ?) (? & ? & ?). split; [congruence|]. split; [congruence|lia]. Qed.
Lemma settled_good w w' a token hi : settled w w' -> good_token w a token hi -> good_token w' a token hi.
Proof. intros (Hc & _ & Hn) Hg cr t Ha Ht. apply Hg; [by rewrite <- Hc|lia]. Qed.
Lemma settled_cache w w' : settled w w' -> cache_ok w -> cache_ok w'.
Proof. intros (Hc & Hk & Hn) Hg a cr now token t Ha ?. rewrite Hk. apply Hg; [by rewrite <- Hc|lia]. Qed.
Lemma settled_paired k w w' : settled w w' -> paired k w -> paired k w'.
Proof. intros (Hc & Hk & Hn) []. split; rewrite ?Hk, ?Hc; done. Qed.

(** The next request: what becomes of it and when it arrives. *)
Definition next (w : net (C := C)) : call_fate * Z := default (CallOk, 0) (head (nt_fates w)).

Lemma on_time_next a hi w : on_time a hi w ->
  0 <= (next w).2 /\ nt_now w + (next w).2 <= hi /\
  forall w', nt_fates w' = tail (nt_fates w) -> nt_now w' = nt_now w + (next w).2 -> on_time a hi w'.
Proof.
  unfold on_time, next. intros [Hp Hs]. destruct (nt_fates w) as [|[f d] fs]; cbn in *.
  - split; [lia|]. split; [lia|]. intros w' -> ->. cbn. split; [done|lia].
  - apply Forall_cons in Hp as [Hd Hp]. cbn in Hd.
    assert (0 <= foldr Z.add 0 (fs.*2)) by (clear Hs; induction fs as [|[] fs IH]; cbn; [lia|]; apply Forall_cons in Hp as [? ?]; cbn in *; specialize (IH ltac:(done)); lia).
    split; [done|]. split; [lia|]. intros w' -> ->. split; [done|lia].
Qed.

(** The handlers never fail with the status OK. *)
Lemma serve_error_code env rq s c : (serve env rq s).2 = RespError c -> c = 400 \/ c = 500.
Proof.
  destruct rq as [b| | |b|b| |b]; cbn.
  - unfold HandleIntents. destruct b as [l|]; [|intros [= <-]; auto]. destruct (ProcessIntents _ _ _) as [? []]; [intros [= <-]; auto|done].
  - unfold ListIntents. destruct (ListAllSchedulingIntents _ _) as [? []]; [done|intros [= <-]; auto].
  - unfold DecisionMaker.GetIntentMerkleRoot. destruct (TraverseIntentMerkleTree _ _) as [? []]; [done|intros [= <-]; auto].
  - unfold DeleteIntent. destruct b as [q|]; [|intros [= <-]; auto]. destruct (del_All q); [done|]. case_decide; [intros [= <-]; auto|].
    by destruct (del_PID q).
  - by destruct b; [|intros [= <-]; auto].
  - done.
  - unfold DeleteNodePolicy. destruct b as [q|]; [|intros [= <-]; auto]. destruct (dnp_All q); [done|]. case_decide; [done|]. intros [= <-]; auto.
Qed.

(** One request: the servers that do not answer are left alone. *)
Lemma http_Do_spec addr h r w :
  0 <= (next w).2 ->
  let '(w', res) := http_Do node_of skew node_env addr h r w in
  settled w w' /\ nt_fates w' = tail (nt_fates w) /\ nt_now w' = nt_now w + (next w).2 /\
  match (next w).1, nt_servers w !! addr with
  | CallFails, _ | _, None => nt_servers w' = nt_servers w /\ res = Err (CDm Unreachable)
  | fate, Some s =>
      let '(s', a) := serve_http (env_at node_of skew node_env addr (nt_now w')) h r s in
      nt_servers w' = <[addr := s']> (nt_servers w) /\ res = match fate with CallOk => Ok a | _ => Err (CDm Unreachable) end
  end.
Proof.
  intros Hd. unfold http_Do, next in *. destruct (default _ (head (nt_fates w))) as [fate d]. cbn [fst snd] in *.
  assert (forall a b, settled w (mkNet (nt_client w) (nt_servers w) (nt_now w + d) a b)) as Hs.
  { intros. split; [done|]. split; [done|]. cbn. lia. }
  destruct (nt_servers w !! addr) as [s|] eqn:E; [|by destruct fate; split_and!; try done; apply Hs].
  pose proof (serve_creds (env_at node_of skew node_env addr (nt_now w + d)) h r s) as Hc.
  destruct (serve_http _ h r s) as [s' a] eqn:Es.
  assert (forall b c, settled w (mkNet (nt_client w) (<[addr := s']> (nt_servers w)) (nt_now w + d) b c)) as Hs'.
  { intros b c. split; [|split; [done|cbn; lia]]. unfold net_creds. cbn [nt_servers]. rewrite fmap_insert.
    cbn in Hc. rewrite Hc. apply insert_id. by rewrite lookup_fmap, E. }
  destruct fate; cbn [nt_now]; rewrite ?Es; split_and!; try done; first [apply Hs'|apply Hs].
Qed.

(** A request for intents with a good token is the call of Manager.v. *)
Lemma api_sim dm token rq w f hi :
  sim w f -> on_time (dm_addr dm) hi w -> good_token w (dm_addr dm) token hi ->
  let '(w', r) := api node_of skew node_env dm token rq w in
  let '(f', r') := call dm rq f in
  sim w' f' /\ settled w w' /\ on_time (dm_addr dm) hi w' /\ r = lift_result r'.
Proof.
  intros (He & Hd & Hf) Ht Hg. destruct (on_time_next _ _ _ Ht) as (Hnn & Hle & Hnext).
  unfold api, authorized, sbind. pose proof (http_Do_spec (dm_addr dm) (bearerSchema +:+ token) (RtApi rq) w Hnn) as Hdo.
  destruct (http_Do _ _ _ _ _ _ w) as [w' res]. destruct Hdo as (Hset & Hfa & Hno & Hdo).
  assert (default CallOk (head (fl_fates f)) = (next w).1) as Hfate.
  { rewrite Hf. unfold next. by destruct (nt_fates w). }
  assert (tail (fl_fates f) = (nt_fates w').*1) as Htail by (rewrite Hf, Hfa; by destruct (nt_fates w)).
  unfold call. rewrite Hfate, Hd, lookup_fmap, Htail, He.
  destruct (nt_servers w !! dm_addr dm) as [s|] eqn:E; cbn [fmap option_fmap option_map].
  2:{ assert (nt_servers w' = nt_servers w /\ res = Err (CDm Unreachable)) as [Hs ->] by by destruct ((next w).1).
      destruct ((next w).1); cbn; (split; [by rewrite <- Hs|]); (split; [done|]); (split; [by apply Hnext|done]). }
  pose proof (middleware_runs (env_at node_of skew node_env (dm_addr dm) (nt_now w')) (bearerSchema +:+ token) (RtApi rq) s eq_refl) as Hm.
  rewrite (proj2 (strip_prefix_Some bearerSchema _ token) eq_refl) in Hm.
  assert (admits (creds_of s) (he_now (env_at node_of skew node_env (dm_addr dm) (nt_now w'))) token) as Ha.
  { apply Hg; [unfold net_creds; by rewrite lookup_fmap, E|lia]. }
  destruct Hm as [[_ Hm]|[Hn _]]; [|done]. rewrite Hm in Hdo. cbn in Hdo.
  destruct (serve (he_dm (node_env (dm_addr dm))) rq (sv_service s)) as [svc resp] eqn:Es.
  assert (forall c, resp = RespError c -> c <> 200) as Hc.
  { intros c ->. destruct (serve_error_code (he_dm (node_env (dm_addr dm))) rq (sv_service s) c) as [-> | ->]; by rewrite ?Es. }
  destruct ((next w).1) eqn:Ef.
  - destruct Hdo as [Hs ->]. unfold checked. destruct resp; cbn; [..|rewrite decide_True by by apply Hc]; cbn;
      (split; [split; [done|split; [by rewrite Hs, fmap_insert|done]]|]); (split; [done|]); (split; [by apply Hnext|done]).
  - destruct Hdo as [Hs ->]. destruct resp; cbn; (split; [split; [done|split; [by rewrite Hs, fmap_insert|done]]|]);
      (split; [done|]); (split; [by apply Hnext|done]).
  - destruct Hdo as [Hs ->]. cbn. split; [split; [done|split; [by rewrite Hs|done]]|]. split; [done|]. split; [by apply Hnext|done].
Qed.

Lemma admits_shared (cr cr' : creds) now token :
  cr.2 = cr'.2 -> ExpectedClientID cr.1 = ExpectedClientID cr'.1 -> admits cr now token -> admits cr' now token.
Proof. unfold admits, for_client. intros -> Hx. by rewrite Hx. Qed.

Lemma Unix_bounds t : Unix t * second <= t < Unix t * second + second.
Proof. unfold Unix, second. pose proof (Z.div_mod t 1000000000). pose proof (Z.mod_pos_bound t 1000000000). lia. Qed.

Lemma life_bounds n : n <= 2562047 -> hour <= token_life n <= 2562047 * hour.
Proof. unfold token_life, hour, second. case_decide; lia. Qed.

(** How long a token is kept, without overflow. *)
Lemma ttl_exact t d life :
  t <= d <= t + 59 * second -> hour <= life <= 2562047 * hour ->
  let ttl := Unix (d + life) - Unix t - 60 in i64 ttl = ttl /\ i64 (ttl * second) = ttl * second.
Proof.
  intros Hd Hl ttl. pose proof (Unix_bounds (d + life)). pose proof (Unix_bounds t). unfold ttl, hour, second in *.
  split; apply i64_id; unfold is_i64; lia.
Qed.

(** A token that was issued is kept only for as long as it is good. *)
Lemma keep_token_ok k a node cr id token w :
  paired k w -> cache_ok w -> node = node_of a -> net_creds w !! a = Some cr -> for_client cr.1 id ->
  0 <= skew node <= 59 * second ->
  let d := nt_now w + skew node in
  SignRS256 cr.2 (access_claims d (TokenDurationHr cr.1) id) = Some token ->
  cache_ok (keep_token node token (Unix (d + token_life (TokenDurationHr cr.1))) w).1.
Proof.
  intros Hp Hc Hnode Hcr Hf Hk d Hs. destruct (pd_server _ _ Hp _ _ Hcr) as (_ & _ & Hdur & _). apply life_bounds in Hdur as Hlife.
  unfold keep_token. destruct (ttl_exact (nt_now w) d (token_life (TokenDurationHr cr.1))) as [Et1 Et2]; [unfold d; lia|done|].
  rewrite Et1, Et2. case_decide as Hpos; [|done]. intros b cr' now tok t Hb Hnow Hget Ht Hlt. cbn in Hb, Hnow, Hget.
  apply cache_get_set in Hget as [(Hn & -> & Hexp)|Hget]; [|by eapply Hc].
  destruct (pd_node _ _ Hp a b cr cr') as [Hkey Hexpd]; [done|done|congruence|].
  eapply admits_shared; [exact Hkey|exact Hexpd|]. destruct cr as [cfg key].
  eapply access_admitted; [exact Hs|done|done| |]; rewrite Hn in *; unfold d; [lia|].
  pose proof (Unix_bounds (nt_now w)). pose proof (Unix_bounds (d + token_life (TokenDurationHr cfg))). cbn [fst] in *.
  fold d. unfold second in *. lia.
Qed.

(** What a server that trusts the client answers to its assertion. *)
Lemma token_granted k cfg key t0 d id assertion token svc rc ms env :
  SignRS256 k (assertion_claims t0 id) = Some assertion -> PEMToRSAPublicKey (TrustedClientPublicKey cfg) = Some (public_key k) ->
  TrimSpace id <> "" -> for_client cfg id -> TokenDurationHr cfg <= 2562047 -> t0 <= d <= t0 + 59 * second ->
  SignRS256 key (access_claims d (TokenDurationHr cfg) id) = Some token -> he_now env = d ->
  let s := mkDMServer cfg key svc rc ms in
  serve_http env "" (RtToken (Some (mkTokenRequest id assertion))) s = (s, AnToken token (Unix (d + token_life (TokenDurationHr cfg)))).
Proof.
  intros Hs Hk Hid Hf Hdur Hd Htok He s. unfold serve_http, handle, GenTokenHandler, VerifyAndGenerateToken. cbn [route_guarded tr_ClientID tr_ClientAssertion].
  rewrite He. cbn [s sv_config sv_key]. rewrite (assertion_verifies cfg k t0) by done. unfold generateJWT. rewrite Htok. cbn. do 3 f_equal.
  apply life_bounds in Hdur. unfold token_life in *. rewrite i64_id; [done|]. unfold is_i64, hour, second in *. lia.
Qed.

Lemma keep_token_frame node token e w :
  let '(w', u) := keep_token node token e w in
  nt_servers w' = nt_servers w /\ nt_now w' = nt_now w /\ nt_fates w' = nt_fates w /\
  clientKey (nt_client w') = clientKey (nt_client w) /\ clientID (nt_client w') = clientID (nt_client w) /\ u = Ok tt.
Proof. unfold keep_token. by case_decide. Qed.

Lemma get_token_spec k dm w :
  let a := dm_addr dm in
  let hi := nt_now w + 59 * second - skew (node_of a) in
  paired k w -> cache_ok w -> punctual a w -> dm_NodeID dm = node_of a ->
  let '(w1, r) := GetToken node_of skew node_env dm w in
  nt_servers w1 = nt_servers w /\ paired k w1 /\ cache_ok w1 /\ on_time a hi w1 /\
  match r with
  | Ok token => good_token w1 a token hi /\ (nt_fates w1 = nt_fates w \/ nt_fates w1 = tail (nt_fates w))
  | Err e => e = CDm Unreachable /\ ((next w).1 <> CallOk \/ nt_servers w !! a = None)
  end.
Proof.
  intros a hi Hp Hc [Hsk Hot] Hnode. unfold GetToken. rewrite Hnode.
  destruct (cache_Get _ _ _) as [token|] eqn:Eg.
  { split_and!; [done|done|done|done| |by left]. intros cr t Hcr Ht. eapply Hc; [done|done|exact Eg|lia|unfold hi in Ht; lia]. }
  destruct (on_time_next _ _ _ Hot) as (Hnn & Hle & Hnext).
  rewrite (pd_key _ _ Hp). unfold sbind, createClientAssertion. destruct (pd_signs _ _ Hp (assertion_claims (nt_now w) (clientID (nt_client w)))) as [asn Hasn].
  rewrite Hasn. set (rt := RtToken _). pose proof (http_Do_spec a "" rt w Hnn) as Hdo.
  fold a. destruct (http_Do _ _ _ a "" rt w) as [w' res]. destruct Hdo as (Hset & Hfa & Hno & Hdo).
  assert (paired k w') as Hp' by by eapply settled_paired. assert (cache_ok w') as Hc' by by eapply settled_cache.
  assert (on_time a hi w') as Hot' by by apply Hnext.
  destruct (nt_servers w !! a) as [s|] eqn:E.
  2:{ assert (nt_servers w' = nt_servers w /\ res = Err (CDm Unreachable)) as [Hs ->] by by destruct ((next w).1).
      split_and!; try done. by right. }
  destruct (serve_http _ "" rt s) as [s' ans] eqn:Es.
  assert (s' = s) as ->.
  { replace s' with (serve_http (env_at node_of skew node_env a (nt_now w')) "" rt s).1 by by rewrite Es. by apply unguarded_keeps. }
  rewrite (insert_id _ _ _ E) in Hdo.
  destruct ((next w).1) eqn:Ef.
  2-3: destruct Hdo as [Hs ->]; split_and!; try done; by left.
  destruct Hdo as [Hs ->].
  assert (net_creds w !! a = Some (creds_of s)) as Hcr by (unfold net_creds; by rewrite lookup_fmap, E).
  destruct (pd_server _ _ Hp _ _ Hcr) as (Htrust & Hfor & Hdur & Hsig). cbn [creds_of fst snd] in *.
  set (d := nt_now w' + skew (node_of a)).
  destruct (Hsig (access_claims d (TokenDurationHr (sv_config s)) (clientID (nt_client w)))) as [tok Htok].
  apply life_bounds in Hdur as Hlife.
  assert (ans = AnToken tok (Unix (d + token_life (TokenDurationHr (sv_config s))))) as ->.
  { destruct s as [cfg key svc rc ms]. cbn [sv_config sv_key] in *. unfold rt in Es.
    rewrite (token_granted k cfg key (nt_now w) d _ asn tok) in Es; try done; [by injection Es|by apply Hp|unfold d, hi in *; lia]. }
  unfold checked. cbn [answer_code]. rewrite decide_False by tauto. cbv beta iota delta [sret].
  assert (net_creds w' !! a = Some (creds_of s)) as Hcr' by (destruct Hset as [-> _]; done).
  pose proof (keep_token_ok k a (node_of a) (creds_of s) (clientID (nt_client w)) tok w' Hp' Hc' eq_refl Hcr' Hfor) as Hkeep.
  cbn [creds_of fst snd] in Hkeep. fold d in Hkeep. specialize (Hkeep ltac:(unfold hi in *; lia) Htok).
  pose proof (keep_token_frame (node_of a) tok (Unix (d + token_life (TokenDurationHr (sv_config s)))) w') as Hfr.
  destruct (keep_token _ _ _ w') as [w1 u]. destruct Hfr as (F1 & F2 & F3 & F4 & F5 & ->). cbn [fst snd] in *.
  split_and!; [congruence| |done|by apply Hnext; congruence| |right; congruence].
  - destruct Hp'. split; unfold net_creds in *; rewrite ?F1, ?F4, ?F5 in *; done.
  - intros cr t Hcr1 Ht. unfold net_creds in Hcr1. rewrite F1, Hs in Hcr1. fold (net_creds w) in Hcr1. rewrite Hcr in Hcr1. injection Hcr1 as <-.
    eapply access_admitted; [exact Htok|done|done| |]; fold d; [unfold d; lia|].
    pose proof (Unix_bounds (d + token_life (TokenDurationHr (sv_config s)))). unfold d, hi, hour, second in *. lia.
Qed.

(** *** Composing calls *)

(** What follows a token does what a method of Manager.v does. *)
Definition body_refines {A} (dm : DecisionMakerPod) (body : string -> SE (net (C := C)) client_fault A) (m : SE fleet dm_fault A) : Prop :=
  forall token w f hi, sim w f -> on_time (dm_addr dm) hi w -> good_token w (dm_addr dm) token hi ->
    let '(w', r) := body token w in
    let '(f', r') := m f in
    sim w' f' /\ settled w w' /\ on_time (dm_addr dm) hi w' /\ r = lift_result r'.

Lemma refines_ret {A} dm (x : A) : body_refines dm (fun _ => sret x) (sret x).
Proof. intros token w f hi Hs Ht Hg. split_and!; [done|apply settled_refl|done|done]. Qed.

Lemma refines_fail {A} dm e : body_refines (A := A) dm (fun _ => sfail (CDm e)) (sfail e).
Proof. intros token w f hi Hs Ht Hg. split_and!; [done|apply settled_refl|done|done]. Qed.

Lemma refines_api dm rq : body_refines dm (fun token => api node_of skew node_env dm token rq) (call dm rq).
Proof. intros token w f hi Hs Ht Hg. by apply api_sim. Qed.

Lemma refines_bind {A B} dm body m (k : A -> string -> SE (net (C := C)) client_fault B) (k' : A -> SE fleet dm_fault B) :
  body_refines dm body m -> (forall x, body_refines dm (k x) (k' x)) ->
  body_refines dm (fun token => sbind (body token) (fun x => k x token)) (sbind m k').
Proof.
  intros Hm Hk token w f hi Hs Ht Hg. unfold sbind. specialize (Hm token w f hi Hs Ht Hg).
  destruct (body token w) as [w1 r1], (m f) as [f1 r1']. destruct Hm as (Hs1 & Hset & Ht1 & ->).
  destruct r1' as [x|e]; cbn [lift_result]; [|done].
  specialize (Hk x token w1 f1 hi Hs1 Ht1 (settled_good _ _ _ _ _ Hset Hg)).
  destruct (k x token w1) as [w2 r2], (k' x f1) as [f2 r2']. destruct Hk as (? & Hset2 & ? & ?).
  split_and!; try done. by eapply settled_trans.
Qed.

Lemma refines_sfor {X} dm (g : X -> string -> SE (net (C := C)) client_fault unit) (g' : X -> SE fleet dm_fault unit) l :
  (forall x, body_refines dm (g x) (g' x)) -> body_refines dm (fun token => sfor (fun x => g x token) l) (sfor g' l).
Proof.
  intros Hg. induction l as [|x l IH]; [apply refines_ret|].
  exact (refines_bind dm (g x) (g' x) (fun _ token => sfor (fun x => g x token) l) (fun _ => sfor g' l) (Hg x) (fun _ => IH)).
Qed.

(** A method that cannot do without its first call. *)
Definition needs_call {A} (dm : DecisionMakerPod) (m : SE fleet dm_fault A) : Prop :=
  forall f, head (fl_fates f) = Some CallFails \/ fl_dms f !! dm_addr dm = None ->
    exists f', m f = (f', Err Unreachable) /\ fl_dms f' = fl_dms f.

Lemma needs_call_bind {A} dm rq (k : dm_response -> SE fleet dm_fault A) : needs_call dm (sbind (call dm rq) k).
Proof.
  intros f Hf. unfold sbind, call. destruct Hf as [-> | ->]; cbn.
  - eexists. by split.
  - destruct (head (fl_fates f)) as [[]|]; cbn; eexists; by split.
Qed.

Lemma needs_call_bind2 {A B} dm rq (k : dm_response -> SE fleet dm_fault A) (k' : A -> SE fleet dm_fault B) :
  needs_call dm (sbind (sbind (call dm rq) k) k').
Proof. intros f Hf. destruct (needs_call_bind dm rq k f Hf) as (f' & E & Hd). exists f'. unfold sbind at 1. by rewrite E. Qed.

Definition services (w : net (C := C)) : gmap string Service := sv_service <$> nt_servers w.

Definition fleet_of (w : net (C := C)) (fates : list call_fate) : fleet :=
  mkFleet (fun a => he_dm (node_env a)) (services w) fates [].

Lemma with_token_refines {A} k dm (body : string -> SE (net (C := C)) client_fault A) (m : SE fleet dm_fault A) w :
  paired k w -> cache_ok w -> punctual (dm_addr dm) w -> dm_NodeID dm = node_of (dm_addr dm) ->
  body_refines dm body m -> needs_call dm m ->
  let '(w', r) := sbind (GetToken node_of skew node_env dm) body w in
  paired k w' /\ cache_ok w' /\
  exists fates, (Forall (fun f => f.1 = CallOk) (nt_fates w) -> Forall (eq CallOk) fates) /\
    let '(f', r') := m (fleet_of w fates) in r = lift_result r' /\ fl_dms f' = services w'.
Proof.
  intros Hp Hc Hpu Hn Hb Hneed. unfold sbind. pose proof (get_token_spec k dm w Hp Hc Hpu Hn) as Ht. cbn zeta in Ht.
  destruct (GetToken _ _ _ dm w) as [w1 [token|e]]; destruct Ht as (Hs1 & Hp1 & Hc1 & Ho1 & Ht).
  - destruct Ht as [Hgood Hfa]. pose proof (Hb token w1 (fleet_of w1 ((nt_fates w1).*1)) _ ltac:(done) Ho1 Hgood) as Hbody.
    destruct (body token w1) as [w2 r2]. assert (fleet_of w1 ((nt_fates w1).*1) = fleet_of w ((nt_fates w1).*1)) as Hfl.
    { unfold fleet_of, services. by rewrite Hs1. }
    rewrite Hfl in Hbody. destruct (m (fleet_of w ((nt_fates w1).*1))) as [f' r'] eqn:Em. destruct Hbody as ((_ & Hd & _) & Hset & _ & Hr).
    split; [by eapply settled_paired|]. split; [by eapply settled_cache|]. exists ((nt_fates w1).*1). rewrite Em. split; [|done].
    intros Hok. apply Forall_fmap. assert (Forall (fun f => f.1 = CallOk) (nt_fates w1)) as Hok1.
    { destruct Hfa as [-> | ->]; [done|]. destruct Hok; [done|]. done. }
    eapply Forall_impl; [exact Hok1|]. by intros [] ?.
  - destruct Ht as [-> Hwhy]. split; [done|]. split; [done|].
    destruct (nt_servers w !! dm_addr dm) as [s|] eqn:Es.
    + exists [CallFails]. split.
      { intros Hok. destruct Hwhy as [Hne|]; [|done]. destruct Hne. unfold next. by destruct Hok. }
      destruct (Hneed (fleet_of w [CallFails])) as (f' & -> & Hd); [by left|]. split; [done|]. rewrite Hd. unfold fleet_of, services. by rewrite Hs1.
    + exists []. split; [done|]. destruct (Hneed (fleet_of w [])) as (f' & -> & Hd).
      { right. cbn. unfold services. by rewrite lookup_fmap, Es. }
      split; [done|]. rewrite Hd. unfold fleet_of, services. by rewrite Hs1.
Qed.

(** *** The calls of the reconciliation *)

Inductive dm_op :=
| OpSend (intents : list ScheduleIntent)
| OpRoot
| OpDelete (req : DeleteIntentsRequest)
| OpSendNode (intents : list NodeSchedulingIntent)
| OpNodeRoot
| OpDeleteNode (req : DeleteNodeIntentsRequest).

Definition op_type (op : dm_op) : Type := match op with OpRoot | OpNodeRoot => string | _ => unit end.

Definition client_op (op : dm_op) (dm : DecisionMakerPod) : SE (net (C := C)) client_fault (op_type op) :=
  match op with
  | OpSend intents => Client.SendSchedulingIntent node_of skew node_env dm intents
  | OpRoot => Client.GetIntentMerkleRoot node_of skew node_env dm
  | OpDelete req => Client.DeleteSchedulingIntents node_of skew node_env dm req
  | OpSendNode intents => Client.SendNodeSchedulingPolicies node_of skew node_env dm intents
  | OpNodeRoot => Client.GetNodePolicyMerkleRoot node_of skew node_env dm
  | OpDeleteNode req => Client.DeleteNodeSchedulingIntents node_of skew node_env dm req
  end.

Definition manager_op (op : dm_op) (dm : DecisionMakerPod) : SE fleet dm_fault (op_type op) :=
  match op with
  | OpSend intents => Manager.SendSchedulingIntent dm intents
  | OpRoot => Manager.GetIntentMerkleRoot dm
  | OpDelete req => Manager.DeleteSchedulingIntents dm req
  | OpSendNode intents => Manager.SendNodeSchedulingPolicies dm intents
  | OpNodeRoot => Manager.GetNodePolicyMerkleRoot dm
  | OpDeleteNode req => Manager.DeleteNodeSchedulingIntents dm req
  end.

(** There is something to delete. *)
Definition op_sends (op : dm_op) : bool :=
  match op with OpDelete req => di_All req || negb (bool_decide (di_PodIDs req = [])) | _ => true end.

Lemma refines_unit dm rq : body_refines dm (fun token => let! _ := api node_of skew node_env dm token rq in sret tt)%go (let! _ := call dm rq in sret tt)%go.
Proof. apply (refines_bind dm _ _ (fun _ _ => sret tt)); [apply refines_api|intros _; apply refines_ret]. Qed.

Lemma refines_root dm rq :
  body_refines dm (fun token => let! resp := api node_of skew node_env dm token rq in root_data resp)%go (let! resp := call dm rq in root_of resp)%go.
Proof.
  apply (refines_bind dm _ _ (fun resp _ => root_data resp)); [apply refines_api|].
  intros []; first [apply refines_ret|apply refines_fail].
Qed.

End refinement.


(** A request with a token that is not admitted. *)
Lemma api_refused {R : RSALib} {C : Type} `{TokenCache C} node_of skew node_env dm token rq (w : net (C := C)) s :
  nt_servers w !! dm_addr dm = Some s -> (next w).1 = CallOk ->
  ~ admits (creds_of s) (nt_now w + (next w).2 + skew (node_of (dm_addr dm))) token ->
  let '(w', r) := api node_of skew node_env dm token rq w in
  r = Err (CDm (NonOK 401)) /\ nt_client w' = nt_client w /\ nt_servers w' = nt_servers w.
Proof.
  intros Hs Hf Ha. unfold api, authorized, sbind, http_Do. fold (next w). destruct (next w) as [fate d]. cbn in Hf, Ha. subst fate.
  rewrite Hs. pose proof (middleware_runs (env_at node_of skew node_env (dm_addr dm) (nt_now w + d)) (bearerSchema +:+ token) (RtApi rq) s eq_refl) as Hm.
  rewrite (proj2 (strip_prefix_Some bearerSchema _ token) eq_refl) in Hm. destruct Hm as [[? _]|[_ ->]]; [done|].
  unfold checked. cbn. split_and!; [done|done|]. by apply insert_id.
Qed.

(** Remark (a refused token is kept): a token in the cache that the decision maker does not
    admit, as after its key was replaced, is sent with every call until it expires; the
    calls are refused, and nothing makes the client ask for another token. *)
Theorem refused_token_is_kept {R : RSALib} {C : Type} `{TokenCache C} node_of skew node_env op dm token (w : net (C := C)) s :
  cache_Get (dm_NodeID dm) (nt_now w) (tokenCache (nt_client w)) = Some token ->
  nt_servers w !! dm_addr dm = Some s -> (next w).1 = CallOk ->
  ~ admits (creds_of s) (nt_now w + (next w).2 + skew (node_of (dm_addr dm))) token -> op_sends op = true ->
  let '(w', r) := client_op node_of skew node_env op dm w in
  r = Err (CDm (NonOK 401)) /\ nt_client w' = nt_client w /\ nt_servers w' = nt_servers w.
Proof.
  intros Hg Hs Hf Ha Hop. assert (GetToken node_of skew node_env dm w = (w, Ok token)) as Et by (unfold GetToken; by rewrite Hg).
  pose proof (fun rq => api_refused node_of skew node_env dm token rq w s Hs Hf Ha) as Hr.
  assert (forall A rq (k : dm_response -> SE net client_fault A),
    let '(w', r) := sbind (api node_of skew node_env dm token rq) k w in
    r = Err (CDm (NonOK 401)) /\ nt_client w' = nt_client w /\ nt_servers w' = nt_servers w) as Hk.
  { intros A rq k. unfold sbind. specialize (Hr rq). destruct (api _ _ _ dm token rq w) as [w' r]. by destruct Hr as (-> & ?). }
  destruct op as [| |req| | |]; cbn [client_op];
    unfold Client.SendSchedulingIntent, Client.GetIntentMerkleRoot, Client.DeleteSchedulingIntents, Client.SendNodeSchedulingPolicies,
      Client.GetNodePolicyMerkleRoot, Client.DeleteNodeSchedulingIntents; unfold sbind at 1; rewrite Et; try apply Hk.
  cbn in Hop. destruct (di_All req); [apply Hk|]. destruct (di_PodIDs req) as [|p ps]; [done|]. cbn [sfor].
  unfold sbind at 1. specialize (Hk unit (RqDelete (Some (mkDelete p None false))) (fun _ => sret tt)).
  destruct (sbind _ _ w) as [w' r]. by destruct Hk as (-> & ?).
Qed.

(** ** The client as the adapter of runtime_config_svc.go *)

Section runtime.
  Context {R : RSALib} {C : Type} `{TokenCache C}.
  Context (error_text : sup_error -> string) (fault_text : client_fault -> string).
  Context (node_of : string -> string) (skew : string -> Z) (node_env : string -> http_env).

#[local] Instance client_runtime : RuntimeDM (net (C := C)) := {
  dm_ApplyRuntimeConfig dm c := swrap fault_text (Client.ApplyRuntimeConfig node_of skew node_env dm c);
  dm_GetRuntimeConfigStatus dm := swrap fault_text (Client.GetRuntimeConfigStatus error_text node_of skew node_env dm)
}.

(** A request about anything else leaves the accepted configurations alone. *)
Lemma http_Do_applied addr h r (w : net (C := C)) :
  let '(w', res) := http_Do node_of skew node_env addr h r w in
  (nt_applied w' = nt_applied w /\ (forall c a, r = RtApplyRuntime (Some c) -> res = Ok a -> answer_code a <> 200)) \/
  (exists c, r = RtApplyRuntime (Some c) /\ nt_applied w' = <[addr := c]> (nt_applied w)).
Proof.
  unfold http_Do. destruct (default _ _) as [fate d].
  destruct (nt_servers w !! addr) as [s|]; [|destruct fate; by left].
  destruct (serve_http _ h r s) as [s' a]. unfold note_applied.
  destruct fate; cbn; [| |by left]; destruct r as [| | | | | |[c|]| |]; try (by left); case_decide; try (right; by exists c); left;
    (split; [done|]); intros ?? [= <-] [= <-]; done.
Qed.

Lemma get_token_applied dm (w : net (C := C)) : nt_applied (GetToken node_of skew node_env dm w).1 = nt_applied w.
Proof.
  unfold GetToken. destruct (cache_Get _ _ _); [done|]. destruct (clientKey _) as [k|]; [|done]. unfold sbind at 1, createClientAssertion.
  destruct (SignRS256 _ _) as [asn|]; [|done]. unfold sbind at 1.
  pose proof (http_Do_applied (dm_addr dm) "" (RtToken (Some (mkTokenRequest (clientID (nt_client w)) asn))) w) as Hdo.
  destruct (http_Do _ _ _ _ _ _ w) as [w1 [a|e]]; (destruct Hdo as [[Hw _]|(c & ? & _)]; [|done]); [|done].
  rewrite <- Hw. unfold sbind, checked. case_decide; [done|]. cbn. destruct a; try done. unfold keep_token. by case_decide.
Qed.

Lemma apply_runtime_law dm c (w : net (C := C)) :
  match dm_ApplyRuntimeConfig dm c w with
  | (w', Ok _) => nt_applied w' = <[dm_addr dm := c]> (nt_applied w)
  | (w', Err _) => nt_applied w' = nt_applied w \/ nt_applied w' = <[dm_addr dm := c]> (nt_applied w)
  end.
Proof.
  cbn. unfold swrap, Client.ApplyRuntimeConfig, sbind. pose proof (get_token_applied dm w) as Ht.
  destruct (GetToken _ _ _ dm w) as [w1 [token|e]]; cbn in Ht; [|by left]. rewrite <- Ht. unfold authorized, sbind.
  pose proof (http_Do_applied (dm_addr dm) (bearerSchema +:+ token) (RtApplyRuntime (Some c)) w1) as Hdo.
  destruct (http_Do _ _ _ _ _ _ w1) as [w2 [a|e]].
  - unfold checked. case_decide as Hcode; cbn.
    + destruct Hdo as [[-> _]|(c' & [= <-] & ->)]; [by left|by right].
    + destruct Hdo as [[_ Hno]|(c' & [= <-] & ->)]; [|done]. exfalso. by apply (Hno c a).
  - destruct Hdo as [[-> _]|(c' & [= <-] & ->)]; [by left|by right].
Qed.

Lemma runtime_status_law dm (w : net (C := C)) :
  nt_applied (dm_GetRuntimeConfigStatus dm w).1 = nt_applied w /\
  forall r, (dm_GetRuntimeConfigStatus dm w).2 = Ok r -> exists success data, status_result dm success data = Some r.
Proof.
  cbn. unfold swrap, Client.GetRuntimeConfigStatus, sbind. pose proof (get_token_applied dm w) as Ht.
  destruct (GetToken _ _ _ dm w) as [w1 [token|e]]; cbn in Ht; [|done]. rewrite <- Ht. unfold authorized, sbind.
  pose proof (http_Do_applied (dm_addr dm) (bearerSchema +:+ token) RtGetRuntime w1) as Hdo.
  destruct (http_Do _ _ _ _ _ _ w1) as [w2 [a|e]]; (destruct Hdo as [[Hw _]|(c' & ? & _)]; [|done]); rewrite <- Hw; [|done].
  unfold checked. case_decide; [done|]. cbn [sret]. destruct a as [| | | | | |st| |]; try done. split; [done|].
  intros r [= <-]. by exists true, (Some (Client.runtime_response error_text st)).
Qed.

(** The theorems of RuntimeSvc.v hold of this client. *)
#[local] Instance client_runtime_laws : RuntimeDMLaws (net (C := C)) := {|
  applied := nt_applied; dm_apply_law := apply_runtime_law; dm_status_law := runtime_status_law |}.

End runtime.

(** ** Examples: keys that are names, and tokens that spell out their key and claims *)

Definition claims_tuple (c : DMClaims) :=
  (dc_ClientID c, dc_TokenType c, (dc_ExpiresAt c, dc_IssuedAt c, dc_NotBefore c), (dc_Issuer c, dc_Subject c, dc_Audience c)).
Definition tuple_claims (x : string * string * (option Z * option Z * option Z) * (string * string * list string)) : DMClaims :=
  let '(a, b, (c, d, e), (f, g, h)) := x in mkDMClaims a b c d e f g h.

#[global] Instance DMClaims_eq_dec : EqDecision DMClaims.
Proof. solve_decision. Defined.
#[global] Instance DMClaims_countable : Countable DMClaims.
Proof. refine (inj_countable' claims_tuple tuple_claims _). by intros []. Defined.

#[global] Instance dates_ok_dec now c : Decision (dates_ok now c).
Proof. unfold dates_ok. destruct (dc_ExpiresAt c), (dc_NotBefore c); apply _. Defined.

#[global] Instance named_keys : RSALib := {
  PrivateKey := string;
  PublicKey := string;
  public_key k := k;
  pem_Decode s := Some s;
  ParsePKCS1PrivateKey s := Some s;
  ParsePKCS8PrivateKey _ := None;
  ParsePKIXPublicKey s := Some (Some s);
  SignRS256 k c := Some (String "j"%char (bits (encode (k, c))));
  ParseClaims keyfunc now t :=
    match t with
    | String _ t =>
        '(k, c) ← decode (A := string * DMClaims) (of_bits t);
        if decide (keyfunc RS256 = Some k /\ dates_ok now c) then Some c else None
    | EmptyString => None
    end
}.

(** Such a token has no white space at its ends. *)
Definition plain_char (a : ascii) : Prop := (33 <= byte_of a < 127)%N.

Lemma trim_front_plain f2 f3 a t :
  plain_char a -> (forall b, f2 a b = false) -> (forall b c, f3 a b c = false) -> trim_front f2 f3 (String a t) = String a t.
Proof.
  intros Ha H2 H3. cbn. replace (is_space1 a) with false by (unfold is_space1, plain_char in *; cbv zeta; lia).
  destruct t as [|b [|c t]]; [done|by rewrite H2|by rewrite H2, H3].
Qed.

Lemma rev_front a d t : (exists c r, String.rev (String d t) = String c r /\ plain_char c) ->
  exists c r, String.rev (String a (String d t)) = String c r /\ plain_char c.
Proof.
  intros (c & r & Hr & Hc). exists c, (r +:+ String a ""). split; [|done].
  change (String a (String d t)) with (String a "" +:+ String d t). by rewrite string_rev_app, Hr.
Qed.

Lemma rev_bits_front p a : plain_char a -> exists c r, String.rev (String a (bits p)) = String c r /\ plain_char c.
Proof.
  revert a. induction p as [p IH|p IH|]; intros a Ha; cbn [bits].
  - apply rev_front, IH. unfold plain_char. cbn. lia.
  - apply rev_front, IH. unfold plain_char. cbn. lia.
  - by exists a, "".
Qed.

Lemma token_not_blank p : TrimSpace (String "j"%char (bits p)) <> "".
Proof.
  unfold TrimSpace, trim_left. rewrite trim_front_plain by (done || (unfold plain_char; cbn; lia)).
  destruct (rev_bits_front p "j"%char) as (c & r & Hr & Hc); [unfold plain_char; cbn; lia|]. unfold trim_right. rewrite Hr, trim_front_plain.
  - intros He. apply (f_equal String.rev) in He. by rewrite string_rev_involutive in He.
  - done.
  - intros b. unfold is_space2, plain_char in *. lia.
  - intros b d. unfold is_space3, plain_char in *. cbv zeta. lia.
Qed.

#[global] Instance named_keys_laws : RSALaws named_keys.
Proof.
  split; cbn.
  - intros k c t keyfunc now [= <-] Hk Hd. rewrite of_bits_bits, decode_encode. cbn. by rewrite decide_True.
  - intros keyfunc now [|a t] c; [done|]. destruct (decode _) as [[k c']|]; cbn; [|done]. case_decide; [|done]. intros [= <-]. tauto.
  - intros k c t keyfunc now c' [= <-]. rewrite of_bits_bits, decode_encode. cbn. case_decide; [|done]. by intros [= <-].
  - intros k c t [= <-]. apply token_not_blank.
Qed.

(** A cache that keeps what has not expired. *)
#[global] Instance map_cache : TokenCache (gmap string (string * Z)) := {
  cache_New := ∅;
  cache_Get k now c := '(v, e) ← c !! k; if decide (now <= e) then Some v else None;
  cache_Set k v now ttl c := <[k := (v, now + ttl)]> c
}.

#[global] Instance map_cache_laws : TokenCacheLaws (gmap string (string * Z)).
Proof.
  split; cbn; [done|]. intros k k' v v' now now' ttl c. destruct (decide (k = k')) as [->|Hne].
  - rewrite lookup_insert_eq. cbn. case_decide; [|done]. intros [= <-]. by left.
  - rewrite lookup_insert_ne by done. by right.
Qed.

Definition sample_config : TokenConfig := mkTokenConfig "dm-key" "manager-key" " manager " 24.
Definition sample_http_env : http_env :=
  mkHttpEnv 0 (substring_env sample_procfs) (fun _ => None) None "host-1" "" map_to_list.
Definition sample_node (addr : string) : string := "n1".
(** The clock of the node is two seconds ahead. *)
Definition sample_skew (node : string) : Z := 2 * second.
Definition sample_pod : DecisionMakerPod := sample_dm "n1" "10.0.0.1".
Definition sample_net (fates : list (call_fate * Z)) : net (C := gmap string (string * Z)) :=
  mkNet (mkDMClient (Some ("manager-key" : PrivateKey)) "manager" cache_New)
    {["10.0.0.1:8080" := mkDMServer sample_config ("dm-key" : PrivateKey) NewService None None]} (1000 * second + 7) fates ∅.

Lemma sample_paired fates : paired sample_node "manager-key" (sample_net fates).
Proof.
  assert (forall a (cr : creds), net_creds (sample_net fates) !! a = Some cr -> cr = (sample_config, "dm-key" : PrivateKey)) as Hcr.
  { intros a cr. unfold net_creds. cbn [sample_net nt_servers]. rewrite map_fmap_singleton, lookup_singleton_Some. by intros [_ <-]. }
  split; [done|by eexists|by vm_compute| |].
  - intros a cr ->%Hcr. split; [done|]. split; [right; by vm_compute|]. split; [cbn; lia|by eexists].
  - intros a b cr cr' ->%Hcr ->%Hcr _. done.
Qed.

Lemma new_cache_ok node_of skew w : tokenCache (nt_client w) = (cache_New : gmap string (string * Z)) -> cache_ok node_of skew w.
Proof. intros Hw a cr now token t _ _. by rewrite Hw, cache_get_new. Qed.


Lemma token_kinds_apart_witness : ~ admits (sample_config, "manager-key" : PrivateKey) (5 * second)
  (String "j"%char (bits (encode ("manager-key", assertion_claims (5 * second) "decision-maker-service")))).
Proof. exact (proj1 (token_kinds_apart ("manager-key" : PrivateKey) "decision-maker-service" (5 * second) _) eq_refl _ _). Defined.

(** The key of the decision maker was replaced after the token was issued. *)
Lemma refused_token_is_kept_witness :
  let old := String "j"%char (bits (encode ("old-key", access_claims (1000 * second) 24 "manager"))) in
  let w := set_cache (cache_Set "n1" old (1000 * second) hour cache_New) (sample_net [(CallOk, second)]) in
  (client_op sample_node sample_skew (fun _ => sample_http_env) OpRoot sample_pod w).2 = Err (CDm (NonOK 401)) /\
  nt_client (client_op sample_node sample_skew (fun _ => sample_http_env) OpRoot sample_pod w).1 = nt_client w.
Proof.
  intros old w.
  assert (~ admits (sample_config, "dm-key" : PrivateKey) (nt_now w + (next w).2 + sample_skew (sample_node (dm_addr sample_pod))) old) as Ha.
  { intros Hx. pose proof (validateJWT_spec ("dm-key" : PrivateKey) sample_config (nt_now w + (next w).2 + sample_skew (sample_node (dm_addr sample_pod))) old) as Hv.
    assert (validateJWT ("dm-key" : PrivateKey) sample_config (nt_now w + (next w).2 + sample_skew (sample_node (dm_addr sample_pod))) old = Err TEParse) as E by by vm_compute.
    rewrite E in Hv. done. }
  pose proof (refused_token_is_kept sample_node sample_skew (fun _ => sample_http_env) OpRoot sample_pod old w
    (mkDMServer sample_config ("dm-key" : PrivateKey) NewService None None)) as Hr.
  assert (cache_Get (dm_NodeID sample_pod) (nt_now w) (tokenCache (nt_client w)) = Some old) as Hc by by vm_compute.
  assert (nt_servers w !! dm_addr sample_pod = Some (mkDMServer sample_config ("dm-key" : PrivateKey) NewService None None)) as Hs by by vm_compute.
  specialize (Hr Hc Hs eq_refl Ha eq_refl). destruct (client_op _ _ _ _ _ _). split; apply Hr.
Defined.
