(* ===== verification/ReconcileAll.v ===== *)
(** * A whole round of reconciliation: [ReconcileIntents] of cron_svc.go

    The five steps of a round composed: the refresh of pod intents, their
    synchronisation with the decision makers, the scheduler configurations of the
    nodes, and the refresh and synchronisation of node intents.  The steps share the
    store, the fleet and the database; what each of them leaves alone is what makes
    the result of the earlier ones last. *)

From stdpp Require Import base gmap strings list sorting.
From Stdlib Require Import ZArith Lia.
From S2P Require Import Prelude GoStrings Sha256 Merkle Intents ProcScan PodMetrics DecisionMaker ManagerDomain KubeStore CRRepo.
From S2P Require Import DMRuntime CRNodeRepo Manager StrategySvc NodePolicySvc Reconcile RuntimeSvc.
#[local] Open Scope go_scope.

(** ** The round *)

(** The manager with its repository, the decision makers it talks to, and the
    scheduler configurations. *)
Record mgr_state (K F D : Type) := mkState { ms_world : world K; ms_rt : rt_world F D }.
Arguments mkState {K F D}.
Arguments ms_world {K F D}.
Arguments ms_rt {K F D}.

Inductive recon_error :=
| RcNoClient
| RcManager (e : mgr_error)
| RcRuntime (e : rt_error).

Section round.
  Context {K F D : Type} `{KubeAPI K} `{RuntimeDM F} `{ConfigCollection D}.
  Variable ObjectIDFromHex : string -> option ObjectID.
  Variable crNamespace : string.
  Variable NewObjectID : nat -> ObjectID.
  Variable range : list string -> list string.
  Variable now : Z.

Notation M := (SE (mgr_state K F D) recon_error).

Definition on_world {A} (m : SE (world K) mgr_error A) : M A :=
  fun s => let '(w, r) := m (ms_world s) in
           (mkState w (ms_rt s), match r with Ok a => Ok a | Err e => Err (RcManager e) end).

Definition on_rt {A} (m : SE (rt_world F D) rt_error A) : M A :=
  fun s => let '(rt, r) := m (ms_rt s) in
           (mkState (ms_world s) rt, match r with Ok a => Ok a | Err e => Err (RcRuntime e) end).

(** An error that is only logged. *)
Definition warned {A} (m : M A) : M unit := fun s => ((m s).1, Ok tt).

(** [None] for a service without a cluster client. *)
Definition ReconcileIntents (k8s : option K8SAdapter) : M unit :=
  match k8s with
  | None => sfail RcNoClient
  | Some k8s =>
      let! _ := warned (on_world (refreshStaleIntents ObjectIDFromHex crNamespace NewObjectID k8s now)) in
      let! _ := on_world (resyncIntentsToDMs ObjectIDFromHex k8s now) in
      let! _ := warned (on_rt (resyncRuntimeConfigsToDMs k8s)) in
      let! _ := warned (on_world (refreshStaleNodeIntents ObjectIDFromHex crNamespace NewObjectID k8s range now)) in
      let! _ := warned (on_world (resyncNodeIntentsToDMs ObjectIDFromHex k8s now)) in
      sret tt
  end.

End round.

(** ** What a computation leaves alone *)

(** *** Node operations leave pod intents and strategies alone *)

Section frame.
  Context {K : Type} {KA : KubeAPI K} {KL : KubeLaws K}.

(** The stored strategies and pod intents are as before. *)
Definition pods_apart (r r' : repo K) : Prop :=
  kube_objects (r_kube r') intentGVR = kube_objects (r_kube r) intentGVR /\
  kube_objects (r_kube r') strategyGVR = kube_objects (r_kube r) strategyGVR.

#[global] Instance pods_apart_preorder : PreOrder pods_apart.
Proof. split; [done|]. intros r1 r2 r3 [H1 H2] [H3 H4]. split; congruence. Qed.

(** The kinds of node policies and node intents. *)
Definition node_kind (g : gvr) : Prop := g = nodePolicyGVR \/ g = nodeIntentGVR.

Lemma apart_changes g (k k' : K) n n' objs : node_kind g -> changes g k k' objs -> pods_apart (mkRepo k n) (mkRepo k' n').
Proof. intros Hg [_ Ho]. split; apply Ho; by destruct Hg as [->| ->]. Qed.

Lemma apart_unchanged (k k' : K) n n' : unchanged k k' -> pods_apart (mkRepo k n) (mkRepo k' n').
Proof. intros Hu. split; apply Hu. Qed.

Ltac by_law L := let r := fresh in intros r; pose proof (L (r_kube r)) as Law; unfold kube; destruct r as [k nx]; cbn in *;
  match type of Law with context [let '(_, _) := ?m in _] => destruct m as [k' []] end;
  naive_solver eauto using apart_changes, apart_unchanged.

Lemma keeps_create g o : node_kind g -> keeps pods_apart (kube (kube_Create g o)).
Proof. intros Hg. by_law (create_law g o). Qed.

Lemma keeps_update g o : node_kind g -> keeps pods_apart (kube (kube_Update g o)).
Proof. intros Hg. by_law (update_law g o). Qed.

Lemma keeps_delete g n : node_kind g -> keeps pods_apart (kube (kube_Delete g n)).
Proof.
  intros Hg r. pose proof (delete_law g n (r_kube r)) as Law. unfold kube. destruct r as [k nx]. cbn in *.
  destruct (kube_Delete g n k) as [k' [|[]]]; naive_solver eauto using apart_changes, apart_unchanged.
Qed.

Lemma keeps_get g n : keeps pods_apart (kube (kube_Get g n)).
Proof. by_law (get_law g n). Qed.

Lemma keeps_list g reqs : keeps pods_apart (kube (kube_List g reqs)).
Proof. by_law (list_law g reqs). Qed.

Lemma keeps_lift {A} (m : result repo_error A) : keeps pods_apart (lift m).
Proof. intros r. reflexivity. Qed.

Lemma keeps_ensure NewObjectID id : keeps pods_apart (ensure_id NewObjectID id).
Proof. unfold ensure_id. case_decide; intros r; by split. Qed.
End frame.

#[export] Hint Resolve keeps_create keeps_update keeps_delete keeps_get keeps_list keeps_lift keeps_ensure : keeps.
#[export] Hint Extern 1 (node_kind _) => (by left) || (by right) : keeps.

Section node_frame.
  Context {K : Type} {KA : KubeAPI K} {KL : KubeLaws K}.
  Variable ObjectIDFromHex : string -> option ObjectID.
  Variable crNamespace : string.
  Variable NewObjectID : nat -> ObjectID.

Notation apart := (keeps (pods_apart (K := K))).

Lemma apart_query {A} g from (keep_ : A -> bool) ids sel : apart (query_objects g from keep_ ids sel).
Proof. unfold query_objects, fetch, convert. keep. Qed.

Lemma apart_update_state g now st id : node_kind g -> apart (update_object_state g now st id).
Proof. intros Hg. unfold update_object_state. keep. Qed.

Lemma apart_delete_object g n : node_kind g -> apart (delete_object g n).
Proof. intros Hg. unfold delete_object. keep. Qed.

Lemma apart_insert now l : apart (InsertNodeIntents crNamespace NewObjectID now l).
Proof. induction l as [|i l IH]; cbn [InsertNodeIntents]; keep. Qed.
End node_frame.

#[export] Hint Resolve apart_query apart_update_state apart_delete_object apart_insert : keeps.

(** *** The fleet *)

(** The decision makers have the intents they had. *)
Definition caches_kept (f f' : fleet) : Prop :=
  forall a, intentCache <$> fl_dms f' !! a = intentCache <$> fl_dms f !! a.

(** The same machines; calls go on succeeding, services stay well formed. *)
Definition services_ok (f : fleet) : Prop := fl_fates f = [] /\ forall a s, fl_dms f !! a = Some s -> service_wf s.

Definition calm (f f' : fleet) : Prop :=
  fl_env f' = fl_env f /\ (forall a, is_Some (fl_dms f' !! a) <-> is_Some (fl_dms f !! a)) /\ (services_ok f -> services_ok f').

#[global] Instance caches_kept_preorder : PreOrder caches_kept.
Proof. split; [done|]. intros f1 f2 f3 H1 H2 a. by rewrite H2. Qed.

#[global] Instance calm_preorder : PreOrder calm.
Proof.
  split; [intros f; by split_and!|]. intros f1 f2 f3 (E1 & D1 & S1) (E2 & D2 & S2). split_and!; [congruence| |auto].
  intros a. by rewrite D2.
Qed.

Definition node_request (rq : dm_request) : Prop :=
  match rq with RqNodePolicies _ | RqNodeRoot | RqDeleteNode _ => True | _ => False end.

Lemma serve_node_keeps env rq s : node_request rq -> intentCache (serve env rq s).1 = intentCache s.
Proof.
  destruct rq as [| | | |l| |b]; try done; intros _; cbn [serve].
  - unfold HandleNodePolicies. by destruct l.
  - unfold DecisionMaker.DeleteNodePolicy. destruct b as [b|]; [|done]. destruct (dnp_All b); [done|]. by destruct (decide _).
Qed.

(** What a call does to the fleet: a fate is used up, and the service called may be
    replaced by what it became. *)
Lemma call_effect dm rq f : let f' := (call dm rq f).1 in
  fl_env f' = fl_env f /\ fl_fates f' = tail (fl_fates f) /\
  (fl_dms f' = fl_dms f \/ exists s, fl_dms f !! dm_addr dm = Some s /\
     fl_dms f' = <[dm_addr dm := (serve (fl_env f (dm_addr dm)) rq s).1]> (fl_dms f)).
Proof.
  cbv zeta. unfold call. destruct (fl_dms f !! dm_addr dm) as [s|] eqn:Es; destruct (default CallOk (head (fl_fates f))); cbn;
    try (by split_and!; auto); destruct (serve _ rq s) as [s' resp] eqn:E; cbn; (split_and!; [done|done|]); right; exists s; by rewrite E.
Qed.

Lemma keeps_node_call dm rq : node_request rq -> keeps caches_kept (call dm rq).
Proof.
  intros Hr f a. destruct (call_effect dm rq f) as (_ & _ & [-> |(s & Hs & ->)]); [done|].
  destruct (decide (a = dm_addr dm)) as [->|Hne]; [|by rewrite lookup_insert_ne].
  rewrite lookup_insert_eq, Hs. cbn. by rewrite serve_node_keeps.
Qed.

Lemma calm_call dm rq : keeps calm (call dm rq).
Proof.
  intros f. destruct (call_effect dm rq f) as (He & Hf & Hd). split; [done|]. split.
  - intros a. destruct Hd as [-> |(s & Hs & ->)]; [done|]. destruct (decide (a = dm_addr dm)) as [->|Hne];
      [by rewrite lookup_insert_eq, Hs|by rewrite lookup_insert_ne].
  - intros [H1 H2]. split; [by rewrite Hf, H1|]. intros a s'. destruct Hd as [-> |(s & Hs & ->)]; [apply H2|].
    intros [[_ <-]|[_ Ha]]%lookup_insert_Some; [|eauto]. by apply serve_wf, (H2 (dm_addr dm)).
Qed.

Lemma keeps_root_of (R : fleet -> fleet -> Prop) `{!PreOrder R} resp : keeps R (root_of resp).
Proof. destruct resp; intros f; reflexivity. Qed.

#[export] Hint Resolve keeps_node_call calm_call keeps_root_of : keeps.
#[export] Hint Extern 1 (node_request _) => exact I : keeps.

Lemma node_send_keeps dm l : keeps caches_kept (SendNodeSchedulingPolicies dm l).
Proof. unfold SendNodeSchedulingPolicies. keep. Qed.

Lemma node_root_keeps dm : keeps caches_kept (Manager.GetNodePolicyMerkleRoot dm).
Proof. unfold Manager.GetNodePolicyMerkleRoot. keep. Qed.

Lemma node_delete_keeps dm req : keeps caches_kept (Manager.DeleteNodeSchedulingIntents dm req).
Proof. unfold Manager.DeleteNodeSchedulingIntents. keep. Qed.

Lemma delete_calm dm req : keeps calm (DeleteSchedulingIntents dm req).
Proof. unfold DeleteSchedulingIntents. keep. Qed.

#[export] Hint Resolve node_send_keeps node_root_keeps node_delete_keeps delete_calm : keeps.

(** *** Both *)

Section worlds.
  Context {K : Type}.

(** A relation on the fleet and one on the repository. *)
Definition both (Rf : fleet -> fleet -> Prop) (Rr : repo K -> repo K -> Prop) (w w' : world K) : Prop :=
  Rf (w_fleet w) (w_fleet w') /\ Rr (w_repo w) (w_repo w').

#[global] Instance both_preorder Rf Rr `{!PreOrder Rf} `{!PreOrder Rr} : PreOrder (both Rf Rr).
Proof. split; [split; reflexivity|]. intros w1 w2 w3 [H1 H2] [H3 H4]. split; by etransitivity. Qed.

Context (Rf : fleet -> fleet -> Prop) (Rr : repo K -> repo K -> Prop) `{!PreOrder Rf} `{!PreOrder Rr}.

Lemma keeps_on_repo {A} (m : SE (repo K) repo_error A) : keeps Rr m -> keeps (both Rf Rr) (on_repo m).
Proof. intros Hm w. specialize (Hm (w_repo w)). unfold on_repo. destruct (m (w_repo w)) as [r []]; split; by cbn. Qed.

Lemma keeps_on_fleet {A} (m : SE fleet dm_fault A) : keeps Rf m -> keeps (both Rf Rr) (on_fleet m).
Proof. intros Hm w. specialize (Hm (w_fleet w)). unfold on_fleet. destruct (m (w_fleet w)) as [f []]; split; by cbn. Qed.

Lemma keeps_on_k8s {A} (o : option A) : keeps (both Rf Rr) (on_k8s o).
Proof. intros w. by split. Qed.

Lemma keeps_logged {A} (m : SE (world K) mgr_error A) : keeps (both Rf Rr) m -> keeps (both Rf Rr) (logged m).
Proof. intros Hm w. apply Hm. Qed.
End worlds.

#[export] Hint Resolve keeps_on_repo keeps_on_fleet keeps_on_k8s keeps_logged : keeps.

(** ** What the steps leave alone *)

Section steps.
  Context {K : Type} {KA : KubeAPI K} {KL : KubeLaws K}.
  Variable ObjectIDFromHex : string -> option ObjectID.
  Variable crNamespace : string.
  Variable NewObjectID : nat -> ObjectID.
  Variable k8s : K8SAdapter.
  Variable range : list string -> list string.
  Variable now : Z.

Notation node_only := (keeps (both caches_kept (pods_apart (K := K)))).

Lemma query_policies_keeps opt : node_only (on_repo (QueryNodePolicies ObjectIDFromHex opt)).
Proof. apply keeps_on_repo; [apply _|]. unfold QueryNodePolicies. keep. Qed.

Lemma query_node_intents_keeps opt : node_only (on_repo (QueryNodeIntents ObjectIDFromHex opt)).
Proof. apply keeps_on_repo; [apply _|]. unfold QueryNodeIntents. keep. Qed.

Lemma mark_nodes_keeps ids st : node_only (on_repo (BatchUpdateNodeIntentsState now ids st)).
Proof. apply keeps_on_repo; [apply _|]. unfold BatchUpdateNodeIntentsState. keep. Qed.

Lemma delete_nodes_keeps ids : node_only (on_repo (DeleteNodeIntents ids)).
Proof. apply keeps_on_repo; [apply _|]. unfold DeleteNodeIntents. keep. Qed.

#[local] Hint Resolve query_policies_keeps query_node_intents_keeps mark_nodes_keeps delete_nodes_keeps : keeps.

Lemma send_nodes_keeps intents : node_only (sendNodeIntentsToDMs k8s range now intents).
Proof. unfold sendNodeIntentsToDMs, push_to_dms, push_host. keep. Qed.

Lemma notify_nodes_keeps intents : node_only (notifyDMsDeleteNodeIntents k8s range intents).
Proof. unfold notifyDMsDeleteNodeIntents. keep. Qed.

#[local] Hint Resolve send_nodes_keeps notify_nodes_keeps : keeps.

Lemma refresh_nodes_keeps : node_only (refreshStaleNodeIntents ObjectIDFromHex crNamespace NewObjectID k8s range now).
Proof. unfold refreshStaleNodeIntents, refresh_node_policy. keep. Qed.

Lemma resync_nodes_keeps : node_only (resyncNodeIntentsToDMs ObjectIDFromHex k8s now).
Proof. unfold resyncNodeIntentsToDMs, resync_node_dm. keep. Qed.

(** The refresh of pod intents calls decision makers, and leaves them in order. *)
Definition anything (r r' : repo K) : Prop := True.

#[local] Instance anything_preorder : PreOrder anything.
Proof. done. Qed.

Lemma keeps_anything {A} (m : SE (repo K) repo_error A) : keeps anything m.
Proof. done. Qed.

#[local] Hint Resolve keeps_anything : keeps.

Lemma refresh_calm : keeps (both calm anything) (refreshStaleIntents ObjectIDFromHex crNamespace NewObjectID k8s now).
Proof. unfold refreshStaleIntents, refresh_strategy, notifyDMsDeleteIntents. keep. Qed.
End steps.

(** ** Marking intents as sent *)

Definition mark_intent (now st : Z) (i : ScheduleIntent) : ScheduleIntent :=
  let b := sc_Base i in
  mkScheduleIntent (mkBase (be_ID b) (be_CreatedTime b) now (be_DeletedTime b) (be_CreatorID b) (be_UpdaterID b)) (sc_StrategyID i)
    (sc_PodID i) (sc_PodName i) (sc_NodeID i) (sc_K8sNamespace i) (sc_CommandRegex i) (sc_Priority i) (sc_ExecutionTime i)
    (sc_PodLabels i) st.

Lemma SetLabels_name l o : GetName (SetLabels l o) = GetName o.
Proof.
  unfold GetName, SetLabels, NestedMap, getStr. destruct (jget o "metadata") as [[]|] eqn:E; rewrite jget_jset, decide_True by done; try done.
  rewrite jget_jset. by rewrite decide_False.
Qed.

Lemma SetLabels_content l o : content_of (SetLabels l o) = mkContent l (NestedMap o "spec").
Proof.
  unfold content_of, GetLabels, SetLabels, NestedMap. f_equal.
  - destruct (jget o "metadata") as [[]|]; rewrite jget_jset, decide_True by done; try (cbn [jget]; rewrite decide_True by done; by rewrite string_map_fields).
    all: try (rewrite jget_jset, decide_True by done; by rewrite string_map_fields).
  - destruct (jget o "metadata") as [[]|]; rewrite jget_jset, decide_False by done; done.
Qed.

Section marking.
  Context {K : Type} {KA : KubeAPI K} {KL : KubeLaws K}.
  Variable ObjectIDFromHex : string -> option ObjectID.
  Variable crNamespace : string.

Notation enc := (domainIntentToUnstructured crNamespace).
Notation held r i := (holds_intent ObjectIDFromHex crNamespace (r_kube r) i).
Notation wf r := (repo_wf ObjectIDFromHex crNamespace (r_kube r)).

Lemma update_state_content now st i o spec :
  content_of o = content_of (enc i) -> NestedMap o "spec" = Some spec ->
  content_of (update_state now st o spec) = content_of (enc (mark_intent now st i)) /\ GetName (update_state now st o spec) = GetName o.
Proof.
  intros Hc Hs. unfold update_state. rewrite SetLabels_name, SetLabels_content. split.
  - assert (spec = intent_spec i) as ->.
    { apply (f_equal ct_spec) in Hc. change (NestedMap o "spec" = Some (intent_spec i)) in Hc. congruence. }
    set (o' := jset o "spec" _).
    assert (GetLabels o' = GetLabels (enc i)) as ->.
    { apply (f_equal ct_labels) in Hc. change (GetLabels o = GetLabels (enc i)) in Hc. rewrite <- Hc.
      unfold o', GetLabels, NestedMap. by rewrite jget_jset, decide_False. }
    assert (NestedMap o' "spec" = Some (intent_spec (mark_intent now st i))) as ->.
    { unfold o', NestedMap. by rewrite jget_jset, decide_True. }
    unfold content_of at 1. rewrite !intent_labels_enc.
    change (NestedMap (enc (mark_intent now st i)) "spec") with (Some (intent_spec (mark_intent now st i))). f_equal.
  - unfold GetName, NestedMap. by rewrite jget_jset, decide_False.
Qed.

(** Intents that differ in their state and time stamp only, as far as strategies and
    decision makers are concerned. *)
Definition alike (i i' : ScheduleIntent) : Prop := sc_StrategyID i' = sc_StrategyID i /\ payload i' = payload i.

(** Every stored intent is still there up to its state, and none has been added. *)
Definition marks (r r' : repo K) : Prop :=
  wf r -> wf r' /\ kube_objects (r_kube r') strategyGVR = kube_objects (r_kube r) strategyGVR /\
    (forall i, held r i -> exists i', held r' i' /\ alike i i') /\ (forall i', held r' i' -> exists i, held r i /\ alike i i').

#[global] Instance marks_preorder : PreOrder marks.
Proof.
  split.
  - intros r Hw. split_and!; [done|done| |]; intros i Hi; by exists i.
  - intros r1 r2 r3 H12 H23 Hw. destruct (H12 Hw) as (W2 & S2 & F2 & B2). destruct (H23 W2) as (W3 & S3 & F3 & B3).
    split_and!; [done|congruence| |].
    + intros i Hi. destruct (F2 i Hi) as (j & Hj & A1 & A2). destruct (F3 j Hj) as (l & Hl & A3 & A4). exists l. split; [done|]. split; congruence.
    + intros i Hi. destruct (B3 i Hi) as (j & Hj & A1 & A2). destruct (B2 j Hj) as (l & Hl & A3 & A4). exists l. split; [done|]. split; congruence.
Qed.

Lemma marks_same (r r' : repo K) : pods_apart r r' -> marks r r'.
Proof.
  intros [Hi Hs] [W1 W2]. split; [split; (eapply all_held_same; [|done]); done|]. split; [done|].
  unfold holds_intent, holds. cbn [res_gvr intent_resource]. rewrite Hi. split; intros i Hh; by exists i.
Qed.

Lemma marks_put now st i (k k' : K) n n' : (-128 <= st < 128)%Z -> held (mkRepo k n) i ->
  changes intentGVR k k' (<[sc_ID i := content_of (enc (mark_intent now st i))]> (kube_objects k intentGVR)) ->
  marks (mkRepo k n) (mkRepo k' n').
Proof.
  intros Hst Hi [Ho Hother] [W1 W2]. cbn [r_kube] in *. set (i' := mark_intent now st i) in *.
  assert (valid_intent ObjectIDFromHex i') as Hv.
  { destruct Hi as [((Hid & Hd & Hc & Hu) & Hs & _) _]. unfold valid_intent, valid_base, i'. cbn. split_and!; try done; lia. }
  assert (holds_intent ObjectIDFromHex crNamespace k' i') as Hi'.
  { split; [done|]. cbn [res_gvr res_name res_enc intent_resource]. rewrite Ho. apply lookup_insert_eq. }
  assert (forall j, sc_ID j <> sc_ID i -> holds_intent ObjectIDFromHex crNamespace k' j <-> holds_intent ObjectIDFromHex crNamespace k j) as Hj.
  { intros j Hne. unfold holds_intent, holds. cbn [res_gvr res_name res_enc intent_resource]. rewrite Ho, lookup_insert_ne by done. done. }
  split; [split|].
  - apply (all_held_insert (RA := intent_resource ObjectIDFromHex crNamespace) k k' i'); done.
  - eapply all_held_same; [|exact W2]. by apply Hother.
  - split; [by apply Hother|]. split; intros j Hh; (destruct (decide (sc_ID j = sc_ID i)) as [He|He]; [|exists j; split; [by apply Hj|done]]).
    + exists i'. split; [done|].
      by assert (j = i) as -> by (by apply (holds_inj (RA := intent_resource ObjectIDFromHex crNamespace) k)).
    + exists i. split; [done|].
      by assert (j = i') as -> by (by apply (holds_inj (RA := intent_resource ObjectIDFromHex crNamespace) k')).
Qed.

Lemma update_intent_marks now st id : (-128 <= st < 128)%Z -> keeps marks (update_object_state intentGVR now st id).
Proof.
  intros Hst [k n] Hw. unfold update_object_state, sbind, stry, swrap, kube, sret, sfail. cbn [r_kube r_next].
  pose proof (get_law intentGVR id k) as G. destruct (kube_Get intentGVR id k) as [k1 [o|[]]]; destruct G as [Hu G]; cbn [fst];
    try (by apply (marks_same _ _ (apart_unchanged k k1 n n Hu))).
  destruct G as [Hn Ho]. destruct (proj1 Hw id (content_of o) Ho) as (i & Hi & Hin & Hc).
  destruct (NestedMap o "spec") as [spec|] eqn:Es; [|by apply (marks_same _ _ (apart_unchanged k k1 n n Hu))].
  destruct (update_state_content now st i o spec Hc Es) as [Hc' Hn'].
  assert (forall k2, marks (mkRepo k1 n) (mkRepo k2 n) -> marks (mkRepo k n) (mkRepo k2 n)) as M1.
  { intros k2 M2. transitivity (mkRepo k1 n); [apply marks_same, apart_unchanged, Hu|done]. }
  assert (held (mkRepo k1 n) i) as Hi1 by (by apply (held_unchanged ObjectIDFromHex crNamespace (mkRepo k n) (mkRepo k1 n) i Hu)).
  pose proof (update_law intentGVR (update_state now st o spec) k1) as U. rewrite Hc', Hn', Hn, <- Hin in U.
  cbn [res_name intent_resource] in U. cbn [r_kube].
  destruct (kube_Update _ _ k1) as [k2 [o'|e]]; cbn [fst].
  - destruct U as [_ U]. apply (M1 k2); [by apply (marks_put now st i)|done].
  - destruct U as [U|[_ U]]; (apply (M1 k2); [|done]); [by apply marks_same, apart_unchanged|by apply (marks_put now st i)].
Qed.

Lemma batch_marks now ids st : (-128 <= st < 128)%Z -> keeps marks (BatchUpdateIntentsState now ids st).
Proof. intros Hst. apply keeps_sfor; [apply _|]. intros id. by apply update_intent_marks. Qed.

(** The synchronisation of pod intents changes nothing else in the store. *)
Definition any_fleet (f f' : fleet) : Prop := True.

#[global] Instance any_fleet_preorder : PreOrder any_fleet.
Proof. done. Qed.

Lemma keeps_any_fleet {A} (m : SE fleet dm_fault A) : keeps any_fleet m.
Proof. done. Qed.

#[local] Hint Resolve keeps_any_fleet : keeps.

Lemma resync_dm_marks now intents dm : keeps (both any_fleet marks) (resync_dm now intents dm).
Proof.
  assert (forall ids, keeps marks (BatchUpdateIntentsState now ids IntentStateSent)) as Hb.
  { intros ids. apply batch_marks. unfold IntentStateSent. lia. }
  unfold resync_dm. keep.
Qed.
End marking.

(** ** The round *)

Section settle.
  Context {K : Type} {KA : KubeAPI K} {KL : KubeLaws K} {KU : KubeUp K}.
  Variable ObjectIDFromHex : string -> option ObjectID.
  Variable crNamespace : string.
  Variable NewObjectID : nat -> ObjectID.
  Variable supply : nat.
  Variable k8s : K8SAdapter.
  Variable now : Z.

Notation held w i := (holds_intent ObjectIDFromHex crNamespace (r_kube (w_repo w)) i).
Notation held_strategy w s := (holds_strategy ObjectIDFromHex crNamespace (r_kube (w_repo w)) s).
Notation ok w := (working ObjectIDFromHex crNamespace NewObjectID supply (w_repo w)).
Notation marked := (marks ObjectIDFromHex crNamespace).

(** The decision maker has the root of the stored intents for its node. *)
Definition in_step (w : world K) (dm : DecisionMakerPod) : Prop :=
  exists pushed, root_at (w_fleet w) dm = Some (node_hash (intentTree pushed)) /\
    forall p, p ∈ pushed <-> exists i, held w i /\ payload i = p /\ sc_NodeID i = dm_NodeID dm.

Lemma ready_calm f f' dm : calm f f' -> services_ok f -> dm_ready f dm -> dm_ready f' dm.
Proof.
  intros (He & Hd & Hs) Hok Hr Hon. destruct (Hr Hon) as (s & infos & Hs0 & _ & Hp).
  destruct (proj2 (Hd (dm_addr dm)) ltac:(eauto)) as [s' Hs']. exists s', infos. rewrite He. split_and!; [done| |done].
  by apply (proj2 (Hs Hok) (dm_addr dm)).
Qed.

Lemma covers_marked (w w' : world K) s pods : marked (w_repo w) (w_repo w') -> ok w ->
  covers ObjectIDFromHex crNamespace w s pods -> covers ObjectIDFromHex crNamespace w' s pods.
Proof.
  intros Hm (_ & Hw & _) Hc podID. destruct (Hm Hw) as (_ & _ & F & B). rewrite <- (Hc podID). split.
  - intros (i' & Hi' & Hs & Hp). destruct (B i' Hi') as (i & Hi & A1 & A2). exists i. split; [done|]. split; [congruence|].
    apply (f_equal PodID) in A2. cbn in A2. congruence.
  - intros (i & Hi & Hs & Hp). destruct (F i Hi) as (i' & Hi' & A1 & A2). exists i'. split; [done|]. split; [congruence|].
    apply (f_equal PodID) in A2. cbn in A2. congruence.
Qed.

(** The intents of the payloads pushed, before and after they are marked. *)
Lemma pushed_marked (w w' : world K) node (intents : list ScheduleIntent) : marked (w_repo w) (w_repo w') -> ok w ->
  (forall i, i ∈ intents <-> held w i) ->
  forall p, p ∈ payload <$> filter (fun i => sc_NodeID i = node) intents <-> exists i, held w' i /\ payload i = p /\ sc_NodeID i = node.
Proof.
  intros Hm (_ & Hw & _) Hin p. destruct (Hm Hw) as (_ & _ & F & B). rewrite list_elem_of_fmap. split.
  - intros (i & -> & [Hn Hi%Hin]%list_elem_of_filter). destruct (F i Hi) as (i' & Hi' & _ & A2). exists i'. split_and!; [done|done|].
    apply (f_equal NodeID) in A2. cbn in A2. congruence.
  - intros (i' & Hi' & <- & Hn). destruct (B i' Hi') as (i & Hi & _ & A2). exists i. split; [done|]. apply list_elem_of_filter.
    rewrite Hin. split; [|done]. apply (f_equal NodeID) in A2. cbn in A2. congruence.
Qed.

(** The second step of a round. *)
Lemma resync_settles dms (w : world K) :
  ok w -> Manager.QueryDecisionMakerPods k8s [] = Some dms -> NoDup (dm_addr <$> dms) -> services_ok (w_fleet w) ->
  (forall dm, dm ∈ dms -> dm_ready (w_fleet w) dm) -> (forall i, held w i -> clean_intent (payload i)) ->
  exists w', resyncIntentsToDMs ObjectIDFromHex k8s now w = (w', Ok tt) /\ marked (w_repo w) (w_repo w') /\
    forall dm, dm ∈ dms -> dm_State dm = NodeStateOnline -> exists intents, (forall i, i ∈ intents <-> held w i) /\
      root_at (w_fleet w') dm = Some (node_hash (intentTree (payload <$> filter (fun i => sc_NodeID i = dm_NodeID dm) intents))).
Proof.
  intros Hok Hdms Hnd [Hf Hwf] Hr Hc. unfold resyncIntentsToDMs, sbind at 1, on_k8s. rewrite Hdms.
  destruct dms as [|d0 dms]; [exists w; split_and!; [done|reflexivity|by intros dm ?%not_elem_of_nil]|].
  unfold sbind at 1. rewrite on_repo_run.
  destruct (query_intents_up ObjectIDFromHex crNamespace NewObjectID supply (mkQueryIntent [] [] [] [] [] []) (w_repo w) Hok eq_refl)
    as (r1 & intents & -> & Hr1 & Hun & _ & Hin).
  assert (forall i, i ∈ intents <-> held w i) as Hin' by (intros i; rewrite Hin; cbn; tauto). clear Hin.
  assert (Forall clean_intent (payload <$> intents)) as Hcl.
  { apply Forall_fmap, Forall_forall. intros i Hi. by apply Hc, Hin'. }
  destruct (resync_loop_ok now intents (d0 :: dms) (mkWorld (w_fleet w) r1) Hcl Hnd Hf Hr) as (w' & log & E & _ & _ & _ & _ & _ & Hset & _).
  exists w'. split; [exact E|]. split.
  - transitivity r1; [apply marks_same; destruct (w_repo w), r1; by apply apart_unchanged|].
    pose proof (keeps_sfor (both any_fleet marked) (resync_dm now intents) (d0 :: dms)
      (fun dm => resync_dm_marks ObjectIDFromHex crNamespace now intents dm) (mkWorld (w_fleet w) r1)) as [_ Hm]. rewrite E in Hm. exact Hm.
  - intros dm Hdm Hon. exists intents. split; [done|]. rewrite (Hset dm Hdm Hon). f_equal. by apply expected_root_spec.
Qed.
End settle.

(** ** Properties *)

(** What a round needs to succeed: fresh identifiers, a working store, answers of the cluster,
    decision makers that are up, and texts that can be hashed. *)
Definition round_ready {K} `{KubeLaws K} `{!KubeUp K} ObjectIDFromHex crNamespace NewObjectID k8s now (supply most : nat) (pods_of : ScheduleStrategy -> list Pod)
    (dms : list DecisionMakerPod) (w : world K) : Prop :=
  (forall n, valid_id ObjectIDFromHex (NewObjectID n)) /\ distinct_ids NewObjectID supply /\
  working ObjectIDFromHex crNamespace NewObjectID supply (w_repo w) /\
  (forall s, holds_strategy ObjectIDFromHex crNamespace (r_kube (w_repo w)) s ->
     QueryPods k8s (ss_K8sNamespace s) (ss_LabelSelectors s) = Some (pods_of s) /\ length (pods_of s) <= most) /\
  r_next (w_repo w) + size (kube_objects (r_kube (w_repo w)) strategyGVR) * most <= supply /\
  Manager.QueryDecisionMakerPods k8s [] = Some dms /\ NoDup (dm_addr <$> dms) /\
  services_ok (w_fleet w) /\ (forall dm, dm ∈ dms -> dm_ready (w_fleet w) dm) /\
  (forall i, holds_intent ObjectIDFromHex crNamespace (r_kube (w_repo w)) i -> clean_intent (payload i)) /\
  (forall s p, holds_strategy ObjectIDFromHex crNamespace (r_kube (w_repo w)) s -> p ∈ pods_of s ->
     clean_intent (payload (NewScheduleIntent now s p))).

(** What it achieves. *)
Definition round_done {K} `{KubeLaws K} ObjectIDFromHex crNamespace (pods_of : ScheduleStrategy -> list Pod)
    (dms : list DecisionMakerPod) (w w' : world K) : Prop :=
  kube_objects (r_kube (w_repo w')) strategyGVR = kube_objects (r_kube (w_repo w)) strategyGVR /\
  (forall s, holds_strategy ObjectIDFromHex crNamespace (r_kube (w_repo w)) s -> covers ObjectIDFromHex crNamespace w' s (pods_of s)) /\
  forall dm, dm ∈ dms -> dm_State dm = NodeStateOnline -> in_step ObjectIDFromHex crNamespace w' dm.

Lemma reconcile_run {K F D} `{KubeLaws K} `{!KubeUp K} `{RuntimeDM F} `{ConfigCollection D}
    ObjectIDFromHex crNamespace NewObjectID range k8s now supply most pods_of dms (st : mgr_state K F D) :
  let w := ms_world st in
  round_ready ObjectIDFromHex crNamespace NewObjectID k8s now supply most pods_of dms w ->
  exists st', ReconcileIntents ObjectIDFromHex crNamespace NewObjectID range now (Some k8s) st = (st', Ok tt) /\
    round_done ObjectIDFromHex crNamespace pods_of dms w (ms_world st').
Proof.
  intros w (Hids & Hinj & Hok & Hq & Hroom & Hdms & Hnd & Hso & Hr & Hc & Hcn).
  destruct (refresh_run_ok ObjectIDFromHex crNamespace NewObjectID supply k8s now Hids Hinj pods_of most w Hok Hq Hroom)
    as (w1 & E1 & Hok1 & Hg1 & Hcov1 & Hor1).
  pose proof (refresh_calm ObjectIDFromHex crNamespace NewObjectID k8s now w) as [Hcalm _]. rewrite E1 in Hcalm. cbn [fst] in Hcalm.
  destruct (resync_settles ObjectIDFromHex crNamespace NewObjectID supply k8s now dms w1) as (w2 & E2 & Hm2 & Hroots).
  { done. } { done. } { done. } { by apply Hcalm. } { intros dm Hdm. by apply (ready_calm (w_fleet w)); [|done|apply Hr]. }
  { intros i Hi. destruct (Hor1 i Hi) as [?|(s & p & Hs & Hp & ->)]; [by apply Hc|by apply Hcn]. }
  unfold ReconcileIntents, sbind, warned, on_world, on_rt. fold w. rewrite E1. cbn [fst ms_world ms_rt]. rewrite E2. cbn [ms_world ms_rt].
  destruct (resyncRuntimeConfigsToDMs k8s (ms_rt st)) as [rt' rr]. cbn [fst ms_world ms_rt].
  pose proof (refresh_nodes_keeps ObjectIDFromHex crNamespace NewObjectID k8s range now w2) as [F3 R3].
  destruct (refreshStaleNodeIntents _ _ _ _ _ _ w2) as [w3 r3]. cbn [fst ms_world ms_rt] in *.
  pose proof (resync_nodes_keeps ObjectIDFromHex k8s now w3) as [F4 R4].
  destruct (resyncNodeIntentsToDMs _ _ _ w3) as [w4 r4]. cbn [fst ms_world ms_rt sret] in *.
  assert (marks ObjectIDFromHex crNamespace (w_repo w1) (w_repo w4)) as Hm.
  { transitivity (w_repo w2); [done|]. apply marks_same. by transitivity (w_repo w3). }
  eexists. split; [reflexivity|]. unfold round_done. cbn [ms_world]. split_and!.
  - destruct (Hm (proj1 (proj2 Hok1))) as (_ & -> & _). by apply Hg1.
  - intros s Hs. eapply covers_marked; [exact Hm|exact Hok1|]. apply Hcov1. destruct Hs as [Hv Hs]. split; [done|].
    cbn [res_gvr strategy_resource] in *. by rewrite Hg1.
  - intros dm Hdm Hon. destruct (Hroots dm Hdm Hon) as (intents & Hin & Hroot). eexists. split; [|by eapply pushed_marked].
    rewrite <- Hroot. unfold root_at. pose proof (F3 (dm_addr dm)) as C3. pose proof (F4 (dm_addr dm)) as C4.
    rewrite C3 in C4. destruct (fl_dms (w_fleet w4) !! dm_addr dm), (fl_dms (w_fleet w2) !! dm_addr dm); cbn in *; congruence.
Qed.

(** C1 (a round of reconciliation brings everything in step).  With a store and
    calls that work, a round of [ReconcileIntents] succeeds whatever state it starts
    from: stored strategies are kept, every one of them has intents for exactly the
    pods it matches now, and every online decision maker has the root of exactly the
    intents stored for its node.  The later steps of the round, on scheduler
    configurations and node policies, may fail in any way without undoing this. *)
Theorem reconcile_round {K F D} `{KubeLaws K} `{!KubeUp K} `{RuntimeDM F} `{ConfigCollection D}
    ObjectIDFromHex crNamespace NewObjectID range k8s now (supply most : nat) (pods_of : ScheduleStrategy -> list Pod)
    (dms : list DecisionMakerPod) (st : mgr_state K F D) :
  let w := ms_world st in
  (forall n, valid_id ObjectIDFromHex (NewObjectID n)) -> distinct_ids NewObjectID supply ->
  working ObjectIDFromHex crNamespace NewObjectID supply (w_repo w) ->
  (forall s, holds_strategy ObjectIDFromHex crNamespace (r_kube (w_repo w)) s ->
     QueryPods k8s (ss_K8sNamespace s) (ss_LabelSelectors s) = Some (pods_of s) /\ length (pods_of s) <= most) ->
  r_next (w_repo w) + size (kube_objects (r_kube (w_repo w)) strategyGVR) * most <= supply ->
  Manager.QueryDecisionMakerPods k8s [] = Some dms -> NoDup (dm_addr <$> dms) ->
  services_ok (w_fleet w) -> (forall dm, dm ∈ dms -> dm_ready (w_fleet w) dm) ->
  (forall i, holds_intent ObjectIDFromHex crNamespace (r_kube (w_repo w)) i -> clean_intent (payload i)) ->
  (forall s p, holds_strategy ObjectIDFromHex crNamespace (r_kube (w_repo w)) s -> p ∈ pods_of s ->
     clean_intent (payload (NewScheduleIntent now s p))) ->
  exists st', ReconcileIntents ObjectIDFromHex crNamespace NewObjectID range now (Some k8s) st = (st', Ok tt) /\
    kube_objects (r_kube (w_repo (ms_world st'))) strategyGVR = kube_objects (r_kube (w_repo w)) strategyGVR /\
    (forall s, holds_strategy ObjectIDFromHex crNamespace (r_kube (w_repo w)) s ->
       covers ObjectIDFromHex crNamespace (ms_world st') s (pods_of s)) /\
    forall dm, dm ∈ dms -> dm_State dm = NodeStateOnline -> in_step ObjectIDFromHex crNamespace (ms_world st') dm.
Proof.
  intros w Hids Hinj Hok Hq Hroom Hdms Hnd Hso Hr Hc Hcn.
  exact (reconcile_run ObjectIDFromHex crNamespace NewObjectID range k8s now supply most pods_of dms st
    ltac:(unfold round_ready; split_and!; assumption)).
Qed.

(** ** Concrete inputs *)

Lemma list_store_only {A} (RA : Resource A) (k : map_kube) (l : list A) a :
  mk_objects k res_gvr = list_to_map ((fun a => (res_name a, res_enc a)) <$> l) -> NoDup (res_name <$> l) ->
  Forall res_valid l -> holds (RA := RA) k a -> a ∈ l.
Proof.
  intros Hk Hnd Hv Ha. destruct (list_store_held RA k l Hk Hnd Hv) as [_ Hh].
  assert (exists b, b ∈ l /\ res_name b = res_name a) as (b & Hb & Hn).
  { destruct Ha as [_ Hc]. change ((content_of <$> mk_objects k res_gvr) !! res_name a = Some (content_of (res_enc a))) in Hc.
    rewrite lookup_fmap_Some, Hk in Hc. destruct Hc as (o & _ & Ho). apply elem_of_list_to_map_2, list_elem_of_fmap in Ho as (b & [= Hn _] & Hb).
    exists b. by rewrite Hn. }
  assert (a = b) as -> by (apply (holds_inj k); [done|by eapply Forall_forall in Hh|done]). done.
Qed.

(** The pod of the first strategy was replaced and the decision maker restarted. *)
Definition restarted : mgr_state map_kube (gmap string RuntimeSchedulerConfig) (gmap string NodeRuntimeConfig) :=
  mkState (mkWorld (sample_fleet {[dm_addr (sample_dm "n1" "10.0.0.1") := NewService]}) (mkRepo svc_store 0)) empty_rt.

Definition replaced_pods (s : ScheduleStrategy) : list Pod := [sample_pod "p2" "n1"; sample_pod "p3" "n1"].

Lemma sample_ready now :
  round_ready sample_parse "gthulhu" sample_new_id replaced_k8s now 5 2 replaced_pods [sample_dm "n1" "10.0.0.1"] (ms_world restarted).
Proof.
  destruct svc_store_wf as (Hw & Hs & _). destruct sample_procfs_readable as [infos Hp].
  assert (forall s, holds_strategy sample_parse "gthulhu" svc_store s -> s ∈ [stored_strategy 0; stored_strategy 1]) as Hst.
  { intros s Hh. apply (list_store_only (strategy_resource sample_parse "gthulhu") svc_store); [reflexivity| | |exact Hh].
    - apply (bool_decide_eq_true_1 _). vm_compute. reflexivity.
    - repeat constructor; apply sample_new_id_valid || apply sample_user_valid. }
  split_and!.
  - exact sample_new_id_valid.
  - intros n m Hn Hm E. do 5 (destruct n as [|n]; [do 5 (destruct m as [|m]; [vm_compute in E; done|]); lia|]). lia.
  - split; [reflexivity|]. split; [exact Hw|]. intros n [_ Hn]. do 5 (destruct n as [|n]; [vm_compute; reflexivity|]). lia.
  - intros s _. split; [reflexivity|]. simpl. lia.
  - vm_compute. lia.
  - reflexivity.
  - apply NoDup_singleton.
  - split; [reflexivity|]. intros a s Ha. cbn [restarted ms_world w_fleet sample_fleet fl_dms] in Ha.
    apply lookup_singleton_Some in Ha as [_ <-]. apply NewService_wf.
  - intros dm ->%list_elem_of_singleton _. exists NewService, infos. split; [apply lookup_singleton_eq|]. split; [apply NewService_wf|exact Hp].
  - intros i Hh. assert (i ∈ stored_intents) as Hi.
    { apply (list_store_only (intent_resource sample_parse "gthulhu") svc_store); [reflexivity| | |exact Hh].
      - apply (bool_decide_eq_true_1 _). vm_compute. reflexivity.
      - repeat constructor; apply sample_intent_valid. }
    assert (Forall (fun i => clean_intent (payload i)) stored_intents) as Hall by (apply (bool_decide_eq_true_1 _); vm_compute; reflexivity).
    by eapply Forall_forall in Hall.
  - intros s p Hh Hin. assert (Forall (fun s => Forall (fun p => clean_intent (payload (NewScheduleIntent now s p)))
      (replaced_pods s)) [stored_strategy 0; stored_strategy 1]) as Hall
      by (apply (bool_decide_eq_true_1 _); vm_compute; reflexivity).
    eapply Forall_forall in Hall; [|by apply Hst]. by eapply Forall_forall in Hall.
Qed.

Lemma reconcile_round_witness :
  exists st', ReconcileIntents sample_parse "gthulhu" sample_new_id id 9 (Some replaced_k8s) restarted = (st', Ok tt) /\
    covers sample_parse "gthulhu" (ms_world st') (stored_strategy 0) [sample_pod "p2" "n1"; sample_pod "p3" "n1"] /\
    in_step sample_parse "gthulhu" (ms_world st') (sample_dm "n1" "10.0.0.1").
Proof.
  destruct (sample_ready 9) as (Hids & Hinj & Hok & Hq & Hroom & Hdms & Hnd & Hso & Hr & Hc & Hcn). destruct svc_store_wf as (_ & Hs & _).
  destruct (reconcile_round sample_parse "gthulhu" sample_new_id id replaced_k8s 9 5 2 replaced_pods [sample_dm "n1" "10.0.0.1"] restarted
    Hids Hinj Hok Hq Hroom Hdms Hnd Hso Hr Hc Hcn) as (st' & E & _ & Hcov & Hin).
  exists st'. split; [exact E|]. split; [by apply Hcov|]. apply Hin; [by apply list_elem_of_singleton|reflexivity].
Defined.
