(* ===== verification/PSM.v ===== *)
(** * Pod scheduling metrics: the resources that ask for them and their values

    The way of a PodSchedulingMetrics resource through the manager
    (repository/cr_psm_repo.go, service/psm_svc.go) to the watcher of the monitor on each
    node (Monitor), and the way of the measured values back: read from the decision
    makers (client/deicison_maker_metrics.go), summed up and sorted
    (service/psm_runtime_svc.go), and fed to the classifier (rest/psm_runtime_hdl.go).

    The text of the Prometheus endpoint is parsed by a library; the model starts from the
    families of series it returns.

    The theorems: what the manager stores it reads back, and the monitor reads the same
    selection ([psm_round_trip]); a resource that was created is in force at every monitor
    that is told of it ([created_psm_in_force]); update and deletion change exactly the
    resource they name ([update_psm_spec], [delete_psm_exact]); the values of a pod are the sums over the nodes' answers, sorted,
    with a warning for each node that did not answer ([metric_values_spec]). *)

From stdpp Require Import base gmap strings list sorting.
From Stdlib Require Import ZArith Lia.
From S2P Require Import Prelude GoStrings GoSort Intents ManagerDomain KubeStore Monitor Manager CRRepo StrategySvc Clustering Classifier.
#[local] Open Scope go_scope.

(** ** domain/pod_scheduling_metrics.go *)

Record PSMMetrics := mkPSMMetrics {
  mm_VoluntaryCtxSwitches : bool; mm_InvoluntaryCtxSwitches : bool; mm_CPUTimeNs : bool;
  mm_WaitTimeNs : bool; mm_RunCount : bool; mm_CPUMigrations : bool;
}.
Record PSMScaleTargetRef := mkTargetRef { tr_APIVersion : string; tr_Kind : string; tr_Name : string }.
Record PSMScaling := mkScaling {
  sg_Enabled : bool; sg_MetricName : string; sg_TargetValue : string; sg_ScaleTargetRef : option PSMScaleTargetRef;
  sg_MinReplicaCount : Z; sg_MaxReplicaCount : Z; sg_CooldownPeriod : Z;
}.
Record PodSchedulingMetrics := mkPSMetrics {
  pm_Base : BaseEntity;
  pm_LabelSelectors : list LabelSelector;
  pm_K8sNamespaces : list string;
  pm_CommandRegex : string;
  pm_CollectionIntervalSeconds : Z;
  pm_Enabled : bool;
  pm_Metrics : option PSMMetrics;
  pm_Scaling : option PSMScaling;
}.

Definition pm_ID (p : PodSchedulingMetrics) : ObjectID := be_ID (pm_Base p).
Definition set_psm_base (b : BaseEntity) (p : PodSchedulingMetrics) : PodSchedulingMetrics :=
  mkPSMetrics b (pm_LabelSelectors p) (pm_K8sNamespaces p) (pm_CommandRegex p) (pm_CollectionIntervalSeconds p)
    (pm_Enabled p) (pm_Metrics p) (pm_Scaling p).
Definition set_interval (n : Z) (p : PodSchedulingMetrics) : PodSchedulingMetrics :=
  mkPSMetrics (pm_Base p) (pm_LabelSelectors p) (pm_K8sNamespaces p) (pm_CommandRegex p) n
    (pm_Enabled p) (pm_Metrics p) (pm_Scaling p).

(** int32 *)
Definition i32 (z : Z) : Z := ((z + 2 ^ 31) mod 2 ^ 32 - 2 ^ 31)%Z.
Definition is_i32 (z : Z) : Prop := (- 2 ^ 31 <= z < 2 ^ 31)%Z.
Lemma i32_id z : is_i32 z -> i32 z = z.
Proof. unfold is_i32, i32. intros. rewrite Z.mod_small; lia. Qed.

(** ** repository/cr_psm_repo.go: conversions *)

Definition getBool (m : fields) (key : string) : bool := match jget m key with Some (JBool b) => b | _ => false end.

Definition metrics_fields (m : PSMMetrics) : jval := JObj [
  ("voluntaryCtxSwitches", JBool (mm_VoluntaryCtxSwitches m));
  ("involuntaryCtxSwitches", JBool (mm_InvoluntaryCtxSwitches m));
  ("cpuTimeNs", JBool (mm_CPUTimeNs m));
  ("waitTimeNs", JBool (mm_WaitTimeNs m));
  ("runCount", JBool (mm_RunCount m));
  ("cpuMigrations", JBool (mm_CPUMigrations m))].

Definition scaling_fields (s : PSMScaling) : jval := JObj ([
  ("enabled", JBool (sg_Enabled s));
  ("metricName", JStr (sg_MetricName s));
  ("targetValue", JStr (sg_TargetValue s));
  ("minReplicaCount", JInt (sg_MinReplicaCount s));
  ("maxReplicaCount", JInt (sg_MaxReplicaCount s));
  ("cooldownPeriod", JInt (sg_CooldownPeriod s))] ++
  match sg_ScaleTargetRef s with
  | Some r => [("scaleTargetRef", JObj [("apiVersion", JStr (tr_APIVersion r)); ("kind", JStr (tr_Kind r)); ("name", JStr (tr_Name r))])]
  | None => []
  end).

Definition psm_spec (p : PodSchedulingMetrics) : fields := [
  ("labelSelectors", JArr (selector_fields <$> pm_LabelSelectors p));
  ("k8sNamespaces", JArr (JStr <$> pm_K8sNamespaces p));
  ("commandRegex", JStr (pm_CommandRegex p));
  ("collectionIntervalSeconds", JInt (pm_CollectionIntervalSeconds p));
  ("enabled", JBool (pm_Enabled p));
  ("creatorID", JStr (be_CreatorID (pm_Base p)));
  ("updaterID", JStr (be_UpdaterID (pm_Base p)));
  ("createdTime", JInt (be_CreatedTime (pm_Base p)));
  ("updatedTime", JInt (be_UpdatedTime (pm_Base p)))] ++
  match pm_Metrics p with Some m => [("metrics", metrics_fields m)] | None => [] end ++
  match pm_Scaling p with Some s => [("scaling", scaling_fields s)] | None => [] end.

Definition dec_metrics (m : fields) : PSMMetrics :=
  mkPSMMetrics (getBool m "voluntaryCtxSwitches") (getBool m "involuntaryCtxSwitches") (getBool m "cpuTimeNs")
    (getBool m "waitTimeNs") (getBool m "runCount") (getBool m "cpuMigrations").

Definition dec_scaling (m : fields) : PSMScaling :=
  mkScaling (getBool m "enabled") (getStr m "metricName") (getStr m "targetValue")
    match jget m "scaleTargetRef" with
    | Some (JObj r) => Some (mkTargetRef (getStr r "apiVersion") (getStr r "kind") (getStr r "name"))
    | _ => None
    end
    (i32 (getInt64 m "minReplicaCount")) (i32 (getInt64 m "maxReplicaCount")) (i32 (getInt64 m "cooldownPeriod")).

Section repository.
  Context {K : Type} `{KubeAPI K}.
  Variable ObjectIDFromHex : string -> option ObjectID.
  Variable crNamespace : string.
  Variable NewObjectID : nat -> ObjectID.

Notation M := (SE (repo K) repo_error).

Definition domainPSMToUnstructured (p : PodSchedulingMetrics) : unstructured :=
  [("apiVersion", JStr "gthulhu.io/v1alpha1");
   ("kind", JStr "PodSchedulingMetrics");
   ("metadata", JObj [("name", JStr (pm_ID p)); ("namespace", JStr crNamespace);
      ("labels", JObj [(labelCreatorID, JStr (be_CreatorID (pm_Base p)))])]);
   ("spec", JObj (psm_spec p))].

(** An identifier that cannot be read is left out. *)
Definition id_or_nil (r : result repo_error ObjectID) : ObjectID := match r with Ok id => id | Err _ => NilObjectID end.

Definition unstructuredToDomainPSM (obj : unstructured) : result repo_error PodSchedulingMetrics :=
  match NestedMap obj "spec" with
  | None => Err RNoSpec
  | Some spec =>
      Ok (mkPSMetrics
            (mkBase (id_or_nil (parseObjectIDField ObjectIDFromHex [("id", JStr (GetName obj))] "id"))
               (getInt64 spec "createdTime") (getInt64 spec "updatedTime") 0
               (id_or_nil (parseObjectIDField ObjectIDFromHex spec "creatorID"))
               (id_or_nil (parseObjectIDField ObjectIDFromHex spec "updaterID")))
            match jget spec "labelSelectors" with Some (JArr l) => omap decode_selector l | _ => [] end
            match jget spec "k8sNamespaces" with Some (JArr l) => omap decode_string l | _ => [] end
            (getStr spec "commandRegex") (i32 (getInt64 spec "collectionIntervalSeconds")) (getBool spec "enabled")
            match jget spec "metrics" with Some (JObj m) => Some (dec_metrics m) | _ => None end
            match jget spec "scaling" with Some (JObj m) => Some (dec_scaling m) | _ => None end)
  end.

(** ** repository/cr_psm_repo.go: operations *)

Definition stamp_psm (now : Z) (p : PodSchedulingMetrics) : PodSchedulingMetrics :=
  let b := pm_Base p in
  set_psm_base (mkBase (be_ID b) (or_now now (be_CreatedTime b)) now (be_DeletedTime b) (be_CreatorID b) (be_UpdaterID b)) p.

Definition CreatePSM (now : Z) (psm : option PodSchedulingMetrics) : M unit :=
  match psm with
  | None => sfail RNil
  | Some psm =>
      let! _ := swrap RKube (kube (kube_Create psmGVR (domainPSMToUnstructured (stamp_psm now psm)))) in
      sret tt
  end.

(** [CreatorIDs] of the options is not read. *)
Definition QueryPSMs (ids : list string) : M (list PodSchedulingMetrics) :=
  query_objects psmGVR unstructuredToDomainPSM (fun _ => true) ids [].

Definition UpdatePSM (psm : option PodSchedulingMetrics) : M unit :=
  match psm with
  | None => sfail RNil
  | Some psm =>
      let! _ := swrap RKube (kube (kube_Get psmGVR (pm_ID psm))) in
      let! _ := swrap RKube (kube (kube_Update psmGVR (domainPSMToUnstructured psm))) in
      sret tt
  end.

Definition DeletePSM (name : string) : M unit := delete_object psmGVR name.

(** ** service/psm_svc.go *)

Notation S := (SE (world K) mgr_error).

Definition CreatePodSchedulingMetrics (now : Z) (operator : Claims) (psm : PodSchedulingMetrics) : S unit :=
  let! operatorID := GetBsonObjectUID ObjectIDFromHex operator in
  let psm := set_psm_base (NewBaseEntity now operatorID operatorID) psm in
  let! id := on_repo (ensure_id NewObjectID (pm_ID psm)) in
  let b := pm_Base psm in
  let psm := set_psm_base (mkBase id (be_CreatedTime b) (be_UpdatedTime b) (be_DeletedTime b) (be_CreatorID b) (be_UpdaterID b)) psm in
  let psm := if (pm_CollectionIntervalSeconds psm =? 0)%Z then set_interval 10 psm else psm in
  on_repo (CreatePSM now (Some psm)).

Definition ListPodSchedulingMetrics (ids : list string) : S (list PodSchedulingMetrics) := on_repo (QueryPSMs ids).

Definition UpdatePodSchedulingMetrics (operator : Claims) (name : string) (psm : PodSchedulingMetrics) : S unit :=
  let! psmID := parse_id ObjectIDFromHex name in
  let! operatorID := GetBsonObjectUID ObjectIDFromHex operator in
  let! found := on_repo (QueryPSMs [name]) in
  match found with
  | [] => not_found
  | existing :: _ =>
      let b := pm_Base psm in
      let psm := set_psm_base (mkBase psmID (be_CreatedTime (pm_Base existing)) (be_UpdatedTime b) (be_DeletedTime b)
                                 (be_CreatorID (pm_Base existing)) operatorID) psm in
      on_repo (UpdatePSM (Some psm))
  end.

Definition DeletePodSchedulingMetrics (operator : Claims) (name : string) : S unit :=
  let! found := on_repo (QueryPSMs [name]) in
  match found with
  | [] => not_found
  | _ => on_repo (DeletePSM name)
  end.
End repository.

(** ** client/deicison_maker_metrics.go *)

Record PodSchedulingMetricValue := mkValue {
  v_Namespace : string; v_PodName : string; v_NodeID : string;
  v_VoluntaryCtxSwitches : Z; v_InvoluntaryCtxSwitches : Z; v_CPUTimeNs : Z; v_WaitTimeNs : Z; v_RunCount : Z;
  v_CPUMigrations : Z; v_SMTMigrations : Z; v_L3Migrations : Z; v_NUMAMigrations : Z;
}.

(** A series: its labels and its value as uint64, 0 for a type without a value. *)
Record prom_metric := mkMetric { m_labels : gmap string string; m_value : Z }.

(** The setters of [podSchedulingMetricFamilies] *)
Definition set_value (family : string) (v : Z) (i : PodSchedulingMetricValue) : option PodSchedulingMetricValue :=
  let '(mkValue ns p n a b c d e f g h k) := i in
  if decide (family = "gthulhu_pod_voluntary_ctx_switches_total") then Some (mkValue ns p n v b c d e f g h k)
  else if decide (family = "gthulhu_pod_involuntary_ctx_switches_total") then Some (mkValue ns p n a v c d e f g h k)
  else if decide (family = "gthulhu_pod_cpu_time_nanoseconds_total") then Some (mkValue ns p n a b v d e f g h k)
  else if decide (family = "gthulhu_pod_wait_time_nanoseconds_total") then Some (mkValue ns p n a b c v e f g h k)
  else if decide (family = "gthulhu_pod_run_count_total") then Some (mkValue ns p n a b c d v f g h k)
  else if decide (family = "gthulhu_pod_cpu_migrations_total") then Some (mkValue ns p n a b c d e v g h k)
  else if decide (family = "gthulhu_pod_smt_migrations_total") then Some (mkValue ns p n a b c d e f v h k)
  else if decide (family = "gthulhu_pod_l3_migrations_total") then Some (mkValue ns p n a b c d e f g v k)
  else if decide (family = "gthulhu_pod_numa_migrations_total") then Some (mkValue ns p n a b c d e f g h v)
  else None.

Fixpoint firstNonEmpty (values : list string) : string :=
  match values with
  | [] => ""
  | v :: rest => if decide (v = "") then firstNonEmpty rest else v
  end.

Definition value_key (ns p n : string) : string := ns +:+ "/" +:+ p +:+ "/" +:+ n.
Definition no_values (ns p n : string) : PodSchedulingMetricValue := mkValue ns p n 0 0 0 0 0 0 0 0 0.

Definition add_metric (nodeID family : string) (items : gmap string PodSchedulingMetricValue) (m : prom_metric)
    : gmap string PodSchedulingMetricValue :=
  let label k := default "" (m_labels m !! k) in
  let podName := firstNonEmpty [label "pod_name"; label "pod"] in
  let ns := firstNonEmpty [label "namespace"; label "kubernetes_namespace"] in
  if decide (podName = "" \/ ns = "") then items else
  let node := firstNonEmpty [label "node_name"; label "node"; nodeID] in
  let key := value_key ns podName node in
  let item := default (no_values ns podName node) (items !! key) in
  match set_value family (m_value m) item with Some item => <[key := item]> items | None => items end.

(** The comparison by namespace, pod and node. *)
Definition v_key (v : PodSchedulingMetricValue) : string * string * string := (v_Namespace v, v_PodName v, v_NodeID v).
Definition key3_le : relation (string * string * string) :=
  fun a b => if decide (a.1 = b.1) then String.le a.2 b.2 else key2_le a.1 b.1.

#[global] Instance key3_le_dec : RelDecision key3_le.
Proof. intros a b. unfold key3_le. case_decide; apply _. Defined.
#[global] Instance key3_le_po : PartialOrder key3_le.
Proof.
  split; [split|].
  - intros a. unfold key3_le. by rewrite decide_True.
  - intros [a1 a2] [b1 b2] [c1 c2]. unfold key3_le. cbn [fst snd]. repeat case_decide; subst; intros Hab Hbc; try done; try by etransitivity.
    assert (b1 = c1) by by apply (anti_symm key2_le). done.
  - intros [a1 a2] [b1 b2]. unfold key3_le. cbn [fst snd]. repeat case_decide; subst; intros Hab Hbc; try done.
    + f_equal. by apply (anti_symm String.le).
    + assert (a1 = b1) by by apply (anti_symm key2_le). done.
Qed.
#[global] Instance key3_le_total : Total key3_le.
Proof.
  intros [a1 a2] [b1 b2]. unfold key3_le. cbn [fst snd]. repeat case_decide; subst; try done;
    first [apply (total String.le)|apply (total key2_le)].
Qed.

Section values.
  (** Go's order of iteration over a map. *)
  Context (range : gmap string PodSchedulingMetricValue -> list (string * PodSchedulingMetricValue)).

(** The values of one decision maker, from the families its endpoint lists. *)
Definition GetPodSchedulingMetricValues (nodeID : string) (families : list (string * list prom_metric)) : list PodSchedulingMetricValue :=
  let items := foldl (fun items '(family, metrics) =>
                 if decide (is_Some (set_value family 0 (no_values "" "" ""))) then foldl (add_metric nodeID family) items metrics else items)
                 ∅ families in
  sort_by v_key key3_le (snd <$> range items).

(** ** service/psm_runtime_svc.go *)

Definition add_values (a b : PodSchedulingMetricValue) : PodSchedulingMetricValue :=
  mkValue (v_Namespace a) (v_PodName a) (v_NodeID a)
    (u64 (v_VoluntaryCtxSwitches a + v_VoluntaryCtxSwitches b)) (u64 (v_InvoluntaryCtxSwitches a + v_InvoluntaryCtxSwitches b))
    (u64 (v_CPUTimeNs a + v_CPUTimeNs b)) (u64 (v_WaitTimeNs a + v_WaitTimeNs b)) (u64 (v_RunCount a + v_RunCount b))
    (u64 (v_CPUMigrations a + v_CPUMigrations b)) (u64 (v_SMTMigrations a + v_SMTMigrations b))
    (u64 (v_L3Migrations a + v_L3Migrations b)) (u64 (v_NUMAMigrations a + v_NUMAMigrations b)).

Definition at_node (nodeID : string) (v : PodSchedulingMetricValue) : PodSchedulingMetricValue :=
  if decide (v_NodeID v = "") then
    let '(mkValue ns p _ a b c d e f g h k) := v in mkValue ns p nodeID a b c d e f g h k
  else v.

Definition item_key3 (v : PodSchedulingMetricValue) : string := value_key (v_Namespace v) (v_PodName v) (v_NodeID v).

Definition add_item (agg : gmap string PodSchedulingMetricValue) (v : PodSchedulingMetricValue) : gmap string PodSchedulingMetricValue :=
  match agg !! item_key3 v with
  | None => <[item_key3 v := v]> agg
  | Some old => <[item_key3 v := add_values old v]> agg
  end.

Inductive metric_warning := NotOnline (node : string) | NoAnswer (node : string).

(** One turn of the loop over the decision makers; [answer] is what the client returned. *)
Definition add_dm (answer : DecisionMakerPod -> option (list (option PodSchedulingMetricValue)))
    (acc : gmap string PodSchedulingMetricValue * list metric_warning) (dm : DecisionMakerPod) :=
  let '(agg, warnings) := acc in
  if decide (dm_State dm <> NodeStateOnline) then (agg, warnings ++ [NotOnline (dm_NodeID dm)]) else
  match answer dm with
  | None => (agg, warnings ++ [NoAnswer (dm_NodeID dm)])
  | Some items => (foldl add_item agg (at_node (dm_NodeID dm) <$> non_nil items), warnings)
  end.

Definition ListPodSchedulingMetricValues (k8s : K8SAdapter)
    (answer : DecisionMakerPod -> option (list (option PodSchedulingMetricValue))) :
    option (list PodSchedulingMetricValue * list metric_warning) :=
  match QueryDecisionMakerPods k8s [] with
  | None => None
  | Some dms =>
      let '(agg, warnings) := foldl (add_dm answer) (∅, []) dms in
      Some (sort_by v_key key3_le (snd <$> range agg), warnings)
  end.
End values.

(** ** rest/psm_runtime_hdl.go: the values on their way to the classifier *)

Definition metrics_of (v : PodSchedulingMetricValue) : metricsPayload :=
  {| VolCtxSW := v_VoluntaryCtxSwitches v; InvolCtxSW := v_InvoluntaryCtxSwitches v; CPUTime := v_CPUTimeNs v;
     WaitTime := v_WaitTimeNs v; RunCount := v_RunCount v; SMTMigr := v_SMTMigrations v; L3Migr := v_L3Migrations v;
     NUMAMigr := v_NUMAMigrations v |}.

(** [clock] is the later reading of the clock by [Ingest]; the time stamp given is positive. *)
Definition IngestMetricsIntoClassifier (range : gmap string podState -> list (string * podState)) (now clock : Z)
    (items : list (option PodSchedulingMetricValue)) (c : AdaptiveClassifier) : AdaptiveClassifier :=
  foldl (fun c v => (Ingest range c {| inTimestamp := now; inNamespace := TrimSpace (v_Namespace v); inPod := TrimSpace (v_PodName v);
                                       inNode := TrimSpace (v_NodeID v); inMetrics := metrics_of v |} clock clock).1)
    c (non_nil items).

(** ** Resources lose nothing on their way *)

Section round_trip.
  Variable ObjectIDFromHex : string -> option ObjectID.
  Variable crNamespace : string.

(** What the types of the fields guarantee, and identifiers as the driver prints them. *)
Definition valid_scaling (s : PSMScaling) : Prop :=
  is_i32 (sg_MinReplicaCount s) /\ is_i32 (sg_MaxReplicaCount s) /\ is_i32 (sg_CooldownPeriod s).
Definition valid_fields (p : PodSchedulingMetrics) : Prop :=
  is_i32 (pm_CollectionIntervalSeconds p) /\ match pm_Scaling p with Some s => valid_scaling s | None => True end.
Definition valid_psm (p : PodSchedulingMetrics) : Prop := valid_base ObjectIDFromHex (pm_Base p) /\ valid_fields p.

Lemma dec_scaling_fields s m : valid_scaling s -> scaling_fields s = JObj m -> dec_scaling m = s.
Proof.
  intros (H1 & H2 & H3). unfold scaling_fields. intros [= <-]. destruct s as [en mn tv [[av kd nm]|] mi ma cd]; unfold dec_scaling; cbn in *;
    by rewrite !i32_id.
Qed.

Lemma psm_decodes o p :
  valid_psm p -> GetName o = pm_ID p -> NestedMap o "spec" = Some (psm_spec p) ->
  unstructuredToDomainPSM ObjectIDFromHex o = Ok p.
Proof.
  intros [(Hid & Hd & Hc & Hu) [Hi Hs]] Hn Hsp. unfold unstructuredToDomainPSM. rewrite Hsp, Hn.
  rewrite (parse_valid _ _ _ (pm_ID p)), (parse_valid _ _ _ (be_CreatorID (pm_Base p))), (parse_valid _ _ _ (be_UpdaterID (pm_Base p))) by (reflexivity || assumption).
  change (jget (psm_spec p) "labelSelectors") with (Some (JArr (selector_fields <$> pm_LabelSelectors p))).
  change (jget (psm_spec p) "k8sNamespaces") with (Some (JArr (JStr <$> pm_K8sNamespaces p))).
  change (getInt64 (psm_spec p) "collectionIntervalSeconds") with (pm_CollectionIntervalSeconds p).
  cbv iota. rewrite decode_selectors, decode_strings, i32_id by done.
  destruct p as [[id ct ut dt cr up] ls ns rx iv en om os]. cbn in Hd. subst dt. cbn [pm_Scaling] in Hs.
  destruct om as [[]|], os as [s|]; cbn; try reflexivity; unfold id_or_nil, pm_ID; cbn; repeat f_equal; by apply (dec_scaling_fields s).
Qed.

Lemma psm_dec_enc p o :
  valid_psm p -> GetName o = pm_ID p -> content_of o = content_of (domainPSMToUnstructured crNamespace p) ->
  unstructuredToDomainPSM ObjectIDFromHex o = Ok p.
Proof. intros Hv Hn Hc. apply psm_decodes; [done..|]. apply (f_equal ct_spec) in Hc. exact Hc. Qed.

Definition psm_resource : Resource PodSchedulingMetrics := {|
  res_gvr := psmGVR; res_name := pm_ID; res_enc := domainPSMToUnstructured crNamespace;
  res_dec := unstructuredToDomainPSM ObjectIDFromHex; res_valid := valid_psm;
  res_enc_name := fun _ => eq_refl; res_dec_enc := psm_dec_enc
|}.
End round_trip.

(** What the monitor makes of a resource. *)
Definition monitor_spec (p : PodSchedulingMetrics) : PSMSpec :=
  mkPSMSpec (pm_LabelSelectors p) (pm_K8sNamespaces p) (pm_CommandRegex p) (pm_Enabled p).

Lemma dec_int_ok lo hi z : (lo <= z <= hi)%Z -> bool_decide (is_Some (dec_int lo hi (JInt z))) = true.
Proof. intros H. unfold dec_int. rewrite decide_True by done. apply bool_decide_eq_true. eauto. Qed.

Lemma is_int32_ok z : is_i32 z -> is_int32 (JInt z) = true.
Proof. unfold is_i32. intros H. apply dec_int_ok. lia. Qed.
Lemma is_int64_ok z : is_i64 z -> is_int64 (JInt z) = true.
Proof. unfold is_i64. intros H. apply dec_int_ok. unfold min_i64, max_i64. lia. Qed.

Lemma mapM_selectors (l : list LabelSelector) : mapM dec_selector (selector_fields <$> l) = Some l.
Proof. induction l as [|[k v] l IH]; [done|]. cbn. by rewrite IH. Qed.
Lemma mapM_strings (l : list string) : mapM dec_str (JStr <$> l) = Some l.
Proof. induction l as [|x l IH]; [done|]. cbn. by rewrite IH. Qed.

Lemma scaling_typed s : valid_scaling s ->
  typed [("enabled", is_bool); ("metricName", is_str); ("targetValue", is_str);
         ("scaleTargetRef", typed [("apiVersion", is_str); ("kind", is_str); ("name", is_str)]);
         ("minReplicaCount", is_int32); ("maxReplicaCount", is_int32); ("cooldownPeriod", is_int32)] (scaling_fields s) = true.
Proof.
  intros (H1 & H2 & H3). pose proof (is_int32_ok _ H1) as E1. pose proof (is_int32_ok _ H2) as E2. pose proof (is_int32_ok _ H3) as E3.
  transitivity (is_int32 (JInt (sg_MinReplicaCount s)) && (is_int32 (JInt (sg_MaxReplicaCount s)) && (is_int32 (JInt (sg_CooldownPeriod s)) && true)));
    [|by rewrite E1, E2, E3].
  destruct s as [en mn tv [[av kd nm]|] mi ma cd]; reflexivity.
Qed.

Lemma parsePSM_spec o p :
  valid_fields p -> is_i64 (be_CreatedTime (pm_Base p)) -> is_i64 (be_UpdatedTime (pm_Base p)) ->
  NestedMap o "spec" = Some (psm_spec p) ->
  parsePSM o = Some (mkPSM (GetName o) (GetNamespace o) (monitor_spec p)).
Proof.
  intros [Hi Hs] Hct Hut Hsp. unfold parsePSM. rewrite Hsp. cbn [mbind option_bind].
  assert (typed other_fields (JObj (psm_spec p)) = true) as Ht.
  { pose proof (is_int32_ok _ Hi) as E1. pose proof (is_int64_ok _ Hct) as E2. pose proof (is_int64_ok _ Hut) as E3.
    transitivity (is_int32 (JInt (pm_CollectionIntervalSeconds p)) &&
      (match pm_Scaling p with
       | Some s => typed [("enabled", is_bool); ("metricName", is_str); ("targetValue", is_str);
         ("scaleTargetRef", typed [("apiVersion", is_str); ("kind", is_str); ("name", is_str)]);
         ("minReplicaCount", is_int32); ("maxReplicaCount", is_int32); ("cooldownPeriod", is_int32)] (scaling_fields s)
       | None => true end &&
       (is_int64 (JInt (be_CreatedTime (pm_Base p))) && (is_int64 (JInt (be_UpdatedTime (pm_Base p))) && true)))).
    - destruct p as [[id ct ut dt cr up] ls ns rx iv en [[]|] [s|]]; reflexivity.
    - rewrite E1, E2, E3. destruct (pm_Scaling p) as [s|]; [by rewrite scaling_typed|done]. }
  unfold field. change (jget (psm_spec p) "labelSelectors") with (Some (JArr (selector_fields <$> pm_LabelSelectors p))).
  change (jget (psm_spec p) "k8sNamespaces") with (Some (JArr (JStr <$> pm_K8sNamespaces p))).
  cbn [dec_list]. rewrite mapM_selectors. cbn [mbind option_bind]. rewrite mapM_strings. cbn [mbind option_bind].
  change (jget (psm_spec p) "commandRegex") with (Some (JStr (pm_CommandRegex p))).
  change (jget (psm_spec p) "enabled") with (Some (JBool (pm_Enabled p))). cbn [dec_str dec_bool mbind option_bind].
  by rewrite option_guard_True.
Qed.

(** Remark (roundtrip): a resource loses nothing: what the manager writes into a custom
    resource it reads back from it, and the monitor of every node reads the same
    selection, under the name and namespace of the resource. *)
Theorem psm_round_trip ObjectIDFromHex crNamespace p :
  valid_psm ObjectIDFromHex p -> is_i64 (be_CreatedTime (pm_Base p)) -> is_i64 (be_UpdatedTime (pm_Base p)) ->
  let o := domainPSMToUnstructured crNamespace p in
  unstructuredToDomainPSM ObjectIDFromHex o = Ok p /\ parsePSM o = Some (mkPSM (pm_ID p) crNamespace (monitor_spec p)).
Proof.
  intros Hv Hc Hu o. split; [by apply psm_decodes|]. exact (parsePSM_spec o p (proj2 Hv) Hc Hu eq_refl).
Qed.

(** The pods a resource asks for. *)
Definition asks_for (p : PodSchedulingMetrics) (ref : PodRef) : Prop :=
  (pm_K8sNamespaces p = [] \/ pr_Namespace ref ∈ pm_K8sNamespaces p) /\
  forall sel, sel ∈ pm_LabelSelectors p -> ls_Key sel <> "" -> pr_Labels ref !! ls_Key sel = Some (ls_Value sel).

Lemma matches_asks p name ns ref : psmMatchesPod (mkPSM name ns (monitor_spec p)) ref = true <-> asks_for p ref.
Proof.
  unfold psmMatchesPod, asks_for, monitor_spec. cbn [psm_Spec ps_K8sNamespaces ps_LabelSelectors].
  rewrite andb_true_iff, forallb_True_iff, Forall_forall. f_equiv.
  - case_decide as H; [naive_solver|]. rewrite existsb_exists. split.
    + intros (x & Hx%list_elem_of_In & <-%bool_decide_eq_true). by right.
    + intros [?|Hin]; [done|]. exists (pr_Namespace ref). split; [by apply list_elem_of_In|]. by apply bool_decide_eq_true.
  - split; intros Hall sel Hsel.
    + intros Hk. specialize (Hall sel Hsel). rewrite decide_False in Hall by done. by apply bool_decide_eq_true in Hall.
    + case_decide as Hk; [done|]. apply bool_decide_eq_true. by apply Hall.
Qed.

Section service.
  Context {K : Type} {KA : KubeAPI K} {KL : KubeLaws K}.
  Variable ObjectIDFromHex : string -> option ObjectID.
  Variable crNamespace : string.
  Variable NewObjectID : nat -> ObjectID.

Notation objects w := (kube_objects (r_kube (w_repo w)) psmGVR).

(** What a creation stores. *)
Definition stored_psm (now : Z) (id operatorID : ObjectID) (p : PodSchedulingMetrics) : PodSchedulingMetrics :=
  let p := set_psm_base (mkBase id (or_now now now) now 0 operatorID operatorID) p in
  if (pm_CollectionIntervalSeconds p =? 0)%Z then set_interval 10 p else p.

Lemma create_psm_run now op psm (w w' : world K) :
  CreatePodSchedulingMetrics ObjectIDFromHex crNamespace NewObjectID now op psm w = (w', Ok tt) ->
  exists operatorID, ObjectIDFromHex (cl_UID op) = Some operatorID /\
  let id := NewObjectID (r_next (w_repo w)) in
  objects w !! id = None /\
  changes psmGVR (r_kube (w_repo w)) (r_kube (w_repo w'))
    (<[id := content_of (domainPSMToUnstructured crNamespace (stored_psm now id operatorID psm))]> (objects w)).
Proof.
  unfold CreatePodSchedulingMetrics, GetBsonObjectUID, parse_id, sbind at 1. destruct (ObjectIDFromHex (cl_UID op)) as [oid|]; [|done].
  intros Hrun. exists oid. split; [done|]. cbn zeta. set (id := NewObjectID (r_next (w_repo w))).
  unfold sret in Hrun. unfold sbind at 1 in Hrun.
  change (on_repo (ensure_id NewObjectID _) w) with (mkWorld (w_fleet w) (mkRepo (r_kube (w_repo w)) (S (r_next (w_repo w)))), @Ok mgr_error ObjectID id) in Hrun.
  unfold on_repo in Hrun. cbv beta iota in Hrun. cbn [w_repo w_fleet] in Hrun. set (p0 := if (_ =? 0)%Z then _ else _) in Hrun.
  assert (stamp_psm now p0 = stored_psm now id oid psm) as Hp.
  { unfold p0, stamp_psm, stored_psm. destruct psm as [b ls ns rx iv en om os]. cbn. by destruct (iv =? 0)%Z. }
  unfold CreatePSM, sbind, swrap, kube in Hrun. rewrite Hp in Hrun. cbn [r_kube r_next] in Hrun.
  pose proof (create_law psmGVR (domainPSMToUnstructured crNamespace (stored_psm now id oid psm)) (r_kube (w_repo w))) as L.
  destruct (kube_Create psmGVR _ (r_kube (w_repo w))) as [k' [o'|e]]; [|done]. injection Hrun as <-. cbn [w_repo r_kube].
  assert (pm_ID (stored_psm now id oid psm) = id) as Hid by (unfold stored_psm; by destruct (_ =? 0)%Z).
  destruct L as (H1 & _ & H2).
  change (GetName (domainPSMToUnstructured crNamespace (stored_psm now id oid psm))) with (pm_ID (stored_psm now id oid psm)) in H1, H2.
  by rewrite Hid in H1, H2.
Qed.

(** C26 (functional): when the manager has accepted a resource, the cluster has one object
    more, under a new name and with the creator's identity, and nothing else of the kind
    has changed; and when a monitor is told of that object, the resource is in force
    there: enabled as asked for, and for exactly the pods it asks for. *)
Theorem created_psm_in_force now op psm (w w' : world K) :
  valid_fields psm -> is_i64 now ->
  CreatePodSchedulingMetrics ObjectIDFromHex crNamespace NewObjectID now op psm w = (w', Ok tt) ->
  exists id c, objects w !! id = None /\ objects w' = <[id := c]> (objects w) /\
  forall o, GetName o = id -> content_of o = c ->
  forall B (BM : BPFMap B) fs range (wt : Watcher B),
    exists spec, w_specs (handleEvent fs range (mkEvent EvAdded (Some o)) wt) !! event_key o = Some spec /\
      ps_Enabled (psm_Spec spec) = pm_Enabled psm /\
      forall ref, psmMatchesPod spec ref = true <-> asks_for psm ref.
Proof.
  intros Hv Hnow Hrun. destruct (create_psm_run _ _ _ _ _ Hrun) as (oid & _ & Hfresh & [Hobj _]). cbn zeta in *.
  set (id := NewObjectID _) in *. set (p := stored_psm now id oid psm) in *.
  exists id, (content_of (domainPSMToUnstructured crNamespace p)). split_and!; [done|done|].
  intros o Hn Hc B BM fs range wt.
  assert (NestedMap o "spec" = Some (psm_spec p)) as Hs by (apply (f_equal ct_spec) in Hc; exact Hc).
  assert (be_CreatedTime (pm_Base p) = now /\ be_UpdatedTime (pm_Base p) = now) as [Hct Hut].
  { unfold p, stored_psm, or_now. destruct (now =? 0)%Z; by destruct (_ =? 0)%Z. }
  assert (valid_fields p) as Hvp.
  { unfold p, stored_psm, valid_fields in *. cbn [pm_CollectionIntervalSeconds set_psm_base]. destruct (_ =? 0)%Z; cbn; [|done].
    split; [unfold is_i32; lia|apply Hv]. }
  assert (monitor_spec p = monitor_spec psm) as Hm by (unfold p, stored_psm; by destruct (_ =? 0)%Z).
  pose proof (parsePSM_spec o p Hvp ltac:(by rewrite Hct) ltac:(by rewrite Hut) Hs) as Hparse. rewrite Hm in Hparse.
  eexists. split.
  - unfold handleEvent. cbn [ev_object ev_type]. rewrite Hparse, reconcile_specs. cbn [w_specs set_specs]. apply lookup_insert_eq.
  - split; [done|]. intros ref. apply matches_asks.
Qed.

(** The resource of that name before an update or a deletion. *)
Lemma query_one name (w : world K) : let RA := psm_resource ObjectIDFromHex crNamespace in
  all_held (RA := RA) (r_kube (w_repo w)) ->
  let '(w1, res) := on_repo (QueryPSMs ObjectIDFromHex [name]) w in
  unchanged (r_kube (w_repo w)) (r_kube (w_repo w1)) /\
  match res with
  | Ok l => forall p, p ∈ l <-> holds (RA := RA) (r_kube (w_repo w)) p /\ pm_ID p = name
  | Err _ => True
  end.
Proof.
  intros RA Hall. unfold on_repo, QueryPSMs.
  pose proof (query_spec (RA := RA) (fun _ => true) [name] [] (w_repo w) Hall ltac:(done)) as Q.
  change (@res_gvr _ RA) with psmGVR in Q. change (@res_dec _ RA) with (unstructuredToDomainPSM ObjectIDFromHex) in Q.
  destruct (query_objects _ _ _ _ _ (w_repo w)) as [r' [l|e]]; destruct Q as [Hu Q]; (split; [exact Hu|]); [|done].
  intros p. rewrite Q. unfold named. change (@res_name _ RA p) with (pm_ID p). rewrite list_elem_of_singleton. naive_solver.
Qed.

(** What an update stores. *)
Definition updated_psm (existing : PodSchedulingMetrics) (operatorID : ObjectID) (p : PodSchedulingMetrics) : PodSchedulingMetrics :=
  let b := pm_Base p in
  set_psm_base (mkBase (pm_ID existing) (be_CreatedTime (pm_Base existing)) (be_UpdatedTime b) (be_DeletedTime b)
                  (be_CreatorID (pm_Base existing)) operatorID) p.

(** Remark (functional): an update either fails, and then the resource is as it was unless the
    server reported a failure of the last write, or replaces the content of the resource it
    names, which exists, keeping its creator and time of creation; every other object
    stays.  The operator need not be the creator, and the time of the update is the one in
    the request. *)
Theorem update_psm_spec op name psm (w : world K) : let RA := psm_resource ObjectIDFromHex crNamespace in
  all_held (RA := RA) (r_kube (w_repo w)) ->
  let '(w', res) := UpdatePodSchedulingMetrics ObjectIDFromHex crNamespace op name psm w in
  let written p oid := changes psmGVR (r_kube (w_repo w)) (r_kube (w_repo w'))
    (<[name := content_of (domainPSMToUnstructured crNamespace (updated_psm p oid psm))]> (objects w)) in
  match res with
  | Ok _ => exists p oid, holds (RA := RA) (r_kube (w_repo w)) p /\ pm_ID p = name /\ ObjectIDFromHex (cl_UID op) = Some oid /\ written p oid
  | Err e => unchanged (r_kube (w_repo w)) (r_kube (w_repo w')) \/
      (exists ke, e = MRepo (RKube ke)) /\ exists p oid, holds (RA := RA) (r_kube (w_repo w)) p /\ pm_ID p = name /\ written p oid
  end.
Proof.
  intros RA Hall. unfold UpdatePodSchedulingMetrics, GetBsonObjectUID, parse_id.
  destruct (ObjectIDFromHex name) as [psmID|] eqn:Ename; [|by left].
  unfold sbind at 1, sret at 1. destruct (ObjectIDFromHex (cl_UID op)) as [oid|]; [|by left]. unfold sbind at 1, sret at 1. unfold sbind at 1.
  pose proof (query_one name w Hall) as Q. destruct (on_repo (QueryPSMs _ [name]) w) as [w1 [l|e]]; destruct Q as [Hu Q]; [|by left].
  destruct l as [|p l]; [by left|]. destruct (proj1 (Q p) ltac:(left)) as [Hp Hn].
  assert (psmID = name) as ->. { destruct Hp as [[[[_ Hid] _] _] _]. unfold pm_ID in *. congruence. }
  replace (mkBase name _ _ _ _ _) with (pm_Base (updated_psm p oid psm)) by (unfold updated_psm; by rewrite <- Hn).
  change (set_psm_base (pm_Base (updated_psm p oid psm)) psm) with (updated_psm p oid psm). set (q := updated_psm p oid psm). clear Q.
  unfold on_repo, UpdatePSM, sbind at 1, swrap at 1, kube at 1. pose proof (get_law psmGVR (pm_ID q) (r_kube (w_repo w1))) as G.
  destruct (kube_Get psmGVR (pm_ID q) (r_kube (w_repo w1))) as [k2 [o|e]]; destruct G as [Hu2 _]; cbv beta iota; cbn [w_repo r_kube];
    [|left; by eapply unchanged_trans].
  assert (unchanged (r_kube (w_repo w)) k2) as Hu' by by eapply unchanged_trans. clear Hu Hu2.
  unfold sbind, swrap, kube. cbn [r_kube r_next]. pose proof (update_law psmGVR (domainPSMToUnstructured crNamespace q) k2) as U.
  destruct (kube_Update psmGVR _ k2) as [k3 r3].
  assert (forall k3, changes psmGVR k2 k3 (<[GetName (domainPSMToUnstructured crNamespace q) := content_of (domainPSMToUnstructured crNamespace q)]>
    (kube_objects k2 psmGVR)) -> changes psmGVR (r_kube (w_repo w)) k3 (<[name := content_of (domainPSMToUnstructured crNamespace q)]> (objects w))) as Hch.
  { intros k [C1 C2]. change (GetName _) with (pm_ID p) in C1. rewrite Hn in C1. split; [by rewrite C1, Hu'|]. intros g Hg. by rewrite C2, Hu'. }
  destruct r3 as [o3|e3]; cbv beta iota; cbn [w_repo r_kube].
  - exists p, oid. destruct U as [_ U]. by apply Hch in U.
  - destruct U as [U|[_ U]]; [left; by eapply unchanged_trans|]. right. split; [eauto|]. exists p, oid. by apply Hch in U.
Qed.

(** Remark (functional): a deletion that succeeds removes the resource it names, which
    existed, and nothing else; the name of no resource gives the status 404. *)
Theorem delete_psm_exact op name (w : world K) : let RA := psm_resource ObjectIDFromHex crNamespace in
  all_held (RA := RA) (r_kube (w_repo w)) ->
  let '(w', res) := DeletePodSchedulingMetrics ObjectIDFromHex op name w in
  (forall g n, (g, n) <> (psmGVR, name) -> kube_objects (r_kube (w_repo w')) g !! n = kube_objects (r_kube (w_repo w)) g !! n) /\
  match res with
  | Ok _ => is_Some (objects w !! name) /\ objects w' !! name = None
  | Err (MStatus code) => code = 404%Z /\ objects w !! name = None /\ unchanged (r_kube (w_repo w)) (r_kube (w_repo w'))
  | Err _ => objects w' !! name = None \/ objects w' !! name = objects w !! name
  end.
Proof.
  intros RA Hall. unfold DeletePodSchedulingMetrics, sbind at 1. pose proof (query_one name w Hall) as Q.
  assert (forall w1 : world K, match (on_repo (QueryPSMs ObjectIDFromHex [name]) w).2 with Err (MStatus _) => False | _ => True end) as Hno.
  { intros _. unfold on_repo. by destruct (QueryPSMs _ _ _) as [r' [l|e]]. }
  destruct (on_repo (QueryPSMs _ [name]) w) as [w1 [l|e]]; destruct Q as [Hu Q].
  - destruct l as [|p l].
    + cbn. split; [intros g n _; by rewrite Hu|]. split_and!; [done| |done].
      destruct (objects w !! name) as [c|] eqn:E; [|done]. destruct (Hall _ _ E) as (q & Hq & Hn & _).
      assert (q ∈ ([] : list PodSchedulingMetrics)) as []%not_elem_of_nil by by apply Q.
    + destruct (proj1 (Q p) ltac:(left)) as [[_ Hp] Hn]. change (objects w !! pm_ID p = Some (content_of (domainPSMToUnstructured crNamespace p))) in Hp. rewrite Hn in Hp.
      unfold on_repo, DeletePSM. pose proof (delete_object_spec psmGVR name (w_repo w1)) as D.
      destruct (delete_object psmGVR name (w_repo w1)) as [r' [[]|e]]; destruct D as [Hother D]; cbn [w_repo];
        (split; [intros g n Hne; by rewrite Hother, Hu|]).
      * split; [|done]. by rewrite Hp.
      * destruct D as [_ D]. by rewrite Hu in D.
  - specialize (Hno w1). split; [intros g n _; by rewrite Hu|]. destruct e; try done; right; by rewrite Hu.
Qed.
End service.

(** ** The values are sums *)

(** The counters of a value. *)
Definition value_fields : list (PodSchedulingMetricValue -> Z) :=
  [v_VoluntaryCtxSwitches; v_InvoluntaryCtxSwitches; v_CPUTimeNs; v_WaitTimeNs; v_RunCount;
   v_CPUMigrations; v_SMTMigrations; v_L3Migrations; v_NUMAMigrations].
Definition value_ok (v : PodSchedulingMetricValue) : Prop := Forall (fun f => 0 <= f v < 2 ^ 64)%Z value_fields.

Lemma add_values_fields a b f : f ∈ value_fields -> f (add_values a b) = ((f a + f b) mod 2 ^ 64)%Z.
Proof. unfold value_fields. rewrite !elem_of_cons. intros H. repeat (destruct H as [->|H]; [done|]). by apply not_elem_of_nil in H. Qed.

Notation of_key key l := (filter (fun v => item_key3 v = key) l).

Lemma add_items_spec l : Forall value_ok l -> forall key,
  match foldl add_item ∅ l !! key with
  | None => of_key key l = []
  | Some a => of_key key l <> [] /\ item_key3 a = key /\
      forall f, f ∈ value_fields -> f a = (zsum f (of_key key l) mod 2 ^ 64)%Z
  end.
Proof.
  induction l as [|v l IH] using rev_ind; [done|]. intros [Hl [Hv _]%Forall_cons]%Forall_app key. specialize (IH Hl).
  rewrite foldl_snoc, filter_app. unfold add_item at 1. set (agg := foldl add_item ∅ l) in *.
  destruct (decide (item_key3 v = key)) as [<-|Hne].
  - rewrite filter_cons_True, filter_nil by done. pose proof (IH (item_key3 v)) as IHk.
    destruct (agg !! item_key3 v) as [a|]; rewrite lookup_insert_eq.
    + destruct IHk as (_ & Hk & Hf). split_and!; [by intros []%app_eq_nil|by rewrite <- Hk|]. intros f Hin.
      rewrite add_values_fields, (Hf f Hin), zsum_app by done. cbn [zsum foldr]. rewrite Z.add_0_r. apply Zplus_mod_idemp_l.
    + split_and!; [by intros []%app_eq_nil|done|]. intros f Hin. rewrite IHk. cbn [app zsum foldr]. rewrite Z.add_0_r.
      unfold value_ok in Hv. rewrite Forall_forall in Hv. symmetry. by apply Z.mod_small, Hv.
  - rewrite filter_cons_False, filter_nil, app_nil_r by done. specialize (IH key).
    destruct (agg !! item_key3 v); by rewrite lookup_insert_ne.
Qed.

Section collected.
  Context (answer : DecisionMakerPod -> option (list (option PodSchedulingMetricValue))).

(** What the decision makers that are online report, and the warnings for the others. *)
Definition reported_by (dm : DecisionMakerPod) : list PodSchedulingMetricValue :=
  if decide (dm_State dm <> NodeStateOnline) then [] else
  match answer dm with Some items => at_node (dm_NodeID dm) <$> non_nil items | None => [] end.
Definition warning_of (dm : DecisionMakerPod) : list metric_warning :=
  if decide (dm_State dm <> NodeStateOnline) then [NotOnline (dm_NodeID dm)]
  else match answer dm with Some _ => [] | None => [NoAnswer (dm_NodeID dm)] end.

Lemma add_dm_fold dms agg ws :
  foldl (add_dm answer) (agg, ws) dms = (foldl add_item agg (mjoin (reported_by <$> dms)), ws ++ mjoin (warning_of <$> dms)).
Proof.
  revert agg ws. induction dms as [|dm dms IH]; intros agg ws; [by cbn; rewrite app_nil_r|].
  cbn [foldl fmap list_fmap mjoin list_join]. unfold add_dm at 2, reported_by at 1, warning_of at 1.
  case_decide; [by rewrite IH, <- app_assoc|]. destruct (answer dm); rewrite IH; [by rewrite foldl_app|by rewrite <- app_assoc].
Qed.

(** Remark (functional): the values the manager lists are, for each pod and node, the sums of
    the counters that the decision makers which are online and answer report for it, modulo 2^64,
    with one entry per pod and node, sorted by namespace, pod and node; and the warnings name,
    in order, exactly the decision makers that are not online or did not answer. *)
Theorem metric_values_spec range k8s dms :
  (forall m, range m ≡ₚ map_to_list m) -> QueryDecisionMakerPods k8s [] = Some dms ->
  let reported := mjoin (reported_by <$> dms) in
  Forall value_ok reported ->
  exists items, ListPodSchedulingMetricValues range k8s answer = Some (items, mjoin (warning_of <$> dms)) /\
    StronglySorted (key_le v_key key3_le) items /\ NoDup (item_key3 <$> items) /\
    forall key,
      (of_key key items = [] <-> of_key key reported = []) /\
      forall v, v ∈ items -> item_key3 v = key -> forall f, f ∈ value_fields -> f v = (zsum f (of_key key reported) mod 2 ^ 64)%Z.
Proof.
  intros Hr Hk reported Hok. unfold ListPodSchedulingMetricValues. rewrite Hk, add_dm_fold. fold reported.
  set (agg := foldl add_item ∅ reported). pose proof (add_items_spec reported Hok) as Ha. fold agg in Ha.
  set (items := sort_by v_key key3_le (snd <$> range agg)). exists items. destruct (sort_by_spec v_key key3_le (snd <$> range agg)) as [Hp Hs].
  fold items in Hp, Hs.
  assert (items ≡ₚ snd <$> map_to_list agg) as Hp' by by rewrite Hp, Hr.
  assert (forall v, v ∈ items -> agg !! item_key3 v = Some v) as Hin.
  { intros v Hv. rewrite Hp' in Hv. apply list_elem_of_fmap in Hv as ([k v'] & -> & Hv%elem_of_map_to_list).
    pose proof (Ha k) as Hak. rewrite Hv in Hak. destruct Hak as (_ & <- & _). done. }
  split_and!; [done|done| |].
  - rewrite Hp', <- list_fmap_compose. rewrite (list_fmap_ext _ fst); [apply NoDup_fst_map_to_list|].
    intros i [k v] Hi%list_elem_of_lookup_2%elem_of_map_to_list. pose proof (Ha k) as Hak. rewrite Hi in Hak. by destruct Hak as (_ & <- & _).
  - intros key. split.
    + pose proof (Ha key) as Hak. destruct (agg !! key) as [a|] eqn:E.
      * destruct Hak as (Hne & Hka & _). split; [|done]. intros Hnil. exfalso.
        assert (a ∈ of_key key items) as H; [|rewrite Hnil in H; by apply not_elem_of_nil in H].
        apply list_elem_of_filter. split; [done|]. rewrite Hp'. apply list_elem_of_fmap. exists (key, a). split; [done|].
        by apply elem_of_map_to_list.
      * split; [done|]. intros _. apply elem_of_nil_inv. intros v [<- Hv%Hin]%list_elem_of_filter. congruence.
    + intros v Hv <- f Hf. apply Hin in Hv. pose proof (Ha (item_key3 v)) as Hak. rewrite Hv in Hak. by apply Hak.
Qed.
End collected.

(** ** Witnesses *)

Definition sample_psm : PodSchedulingMetrics :=
  mkPSMetrics (mkBase (sample_new_id 3) 5 6 0 sample_user sample_user) [mkLabelSelector "app" "web"] ["prod"] "nginx" 15 true
    (Some (mkPSMMetrics true true true false false true))
    (Some (mkScaling true "gthulhu_pod_cpu_time" "100" (Some (mkTargetRef "apps/v1" "Deployment" "web")) 1 8 30)).

Lemma sample_fields_valid : valid_fields sample_psm.
Proof. unfold valid_fields, valid_scaling, is_i32. cbn. lia. Qed.

Lemma sample_psm_valid : valid_psm sample_parse sample_psm.
Proof.
  split; [|apply sample_fields_valid].
  split_and!; [apply sample_new_id_valid|done|apply sample_user_valid..].
Qed.

Definition psm_store : map_kube :=
  mkMapKube (fun g => match g with
    | psmGVR => list_to_map ((fun p => (pm_ID p, domainPSMToUnstructured "gthulhu" p)) <$> [sample_psm])
    | _ => ∅ end) [].
Definition psm_world : world map_kube := mkWorld (sample_fleet ∅) (mkRepo psm_store 4).

Lemma psm_store_held : all_held (RA := psm_resource sample_parse "gthulhu") psm_store.
Proof.
  destruct (list_store_held (psm_resource sample_parse "gthulhu") psm_store [sample_psm]) as [H1 _]; [reflexivity| | |done].
  - apply (bool_decide_eq_true_1 _). vm_compute. reflexivity.
  - repeat constructor; apply sample_psm_valid.
Qed.

Lemma psm_round_trip_witness :
  parsePSM (domainPSMToUnstructured "gthulhu" sample_psm) = Some (mkPSM (sample_new_id 3) "gthulhu" (monitor_spec sample_psm)).
Proof.
  refine (proj2 (psm_round_trip sample_parse "gthulhu" sample_psm sample_psm_valid _ _)); unfold is_i64; cbn; lia.
Defined.

(** The counters of one series of families for one pod on one node. *)
Definition sample_value (ns pod node : string) (run : Z) : PodSchedulingMetricValue := mkValue ns pod node 1 0 0 0 run 0 0 0 0.

Lemma created_psm_in_force_witness :
  exists w' id c, CreatePodSchedulingMetrics sample_parse "gthulhu" sample_new_id 9 (mkClaims sample_user) sample_psm psm_world = (w', Ok tt) /\
    kube_objects (r_kube (w_repo w')) psmGVR !! id = Some c.
Proof.
  destruct (CreatePodSchedulingMetrics sample_parse "gthulhu" sample_new_id 9 (mkClaims sample_user) sample_psm psm_world) as [w' r] eqn:E.
  assert (r = Ok tt) as -> by (change r with (w', r).2; rewrite <- E; vm_compute; reflexivity).
  destruct (created_psm_in_force sample_parse "gthulhu" sample_new_id 9 (mkClaims sample_user) sample_psm psm_world w' sample_fields_valid
    ltac:(unfold is_i64; cbn; lia) E) as (id & c & _ & Hw & _).
  exists w', id, c. split; [reflexivity|]. rewrite Hw. apply lookup_insert_eq.
Defined.

(** Another user than the creator changes the resource. *)
Lemma update_psm_spec_witness :
  exists w' p oid, UpdatePodSchedulingMetrics sample_parse "gthulhu" (mkClaims other_user) (sample_new_id 3) sample_psm psm_world = (w', Ok tt) /\
    pm_ID p = sample_new_id 3 /\ sample_parse other_user = Some oid.
Proof.
  pose proof (update_psm_spec sample_parse "gthulhu" (mkClaims other_user) (sample_new_id 3) sample_psm psm_world psm_store_held) as P.
  destruct (UpdatePodSchedulingMetrics sample_parse "gthulhu" (mkClaims other_user) (sample_new_id 3) sample_psm psm_world) as [w' r] eqn:E.
  assert (r = Ok tt) as -> by (change r with (w', r).2; rewrite <- E; vm_compute; reflexivity).
  destruct P as (p & oid & _ & Hn & Ho & _). exists w', p, oid. split_and!; [reflexivity|exact Hn|exact Ho].
Defined.

Lemma delete_psm_exact_witness :
  exists w', DeletePodSchedulingMetrics sample_parse (mkClaims other_user) (sample_new_id 3) psm_world = (w', Ok tt) /\
    kube_objects (r_kube (w_repo w')) psmGVR !! sample_new_id 3 = None.
Proof.
  pose proof (delete_psm_exact sample_parse "gthulhu" (mkClaims other_user) (sample_new_id 3) psm_world psm_store_held) as P.
  destruct (DeletePodSchedulingMetrics sample_parse (mkClaims other_user) (sample_new_id 3) psm_world) as [w' r] eqn:E.
  assert (r = Ok tt) as -> by (change r with (w', r).2; rewrite <- E; vm_compute; reflexivity).
  exists w'. split; [reflexivity|]. apply P.
Defined.

(** Two nodes report the same pod of node [n1]; a third does not answer. *)
Lemma metric_values_spec_witness :
  let dms := [sample_dm "n1" "10.0.0.1"; sample_dm "n2" "10.0.0.2"; sample_dm "n3" "10.0.0.3"] in
  let answer dm := if decide (dm_NodeID dm = "n3") then None
                   else Some [Some (sample_value "prod" "web" "n1" 7); None] in
  exists items, ListPodSchedulingMetricValues map_to_list (mkK8S (fun _ _ => Some []) (fun _ => Some dms) (fun _ _ => Some []) (fun _ => Some [])) answer
    = Some (items, [NoAnswer "n3"]) /\
    forall v, v ∈ items -> item_key3 v = "prod/web/n1" -> v_RunCount v = 14%Z.
Proof.
  intros dms answer.
  destruct (metric_values_spec answer map_to_list (mkK8S (fun _ _ => Some []) (fun _ => Some dms) (fun _ _ => Some []) (fun _ => Some [])) dms)
    as (items & Hl & _ & _ & Hv).
  - done.
  - done.
  - repeat constructor; vm_compute; done.
  - exists items. split; [exact Hl|]. intros v H1 H2. destruct (Hv "prod/web/n1") as [_ H]. rewrite (H v H1 H2 v_RunCount).
    + vm_compute. reflexivity.
    + unfold value_fields. do 4 right. left.
Defined.
