(* ===== verification/RestBind.v ===== *)
(** * Request bodies of the manager's API

    What a handler of api/manager/rest finds in its request: [JSONBind] (rest/hander.go)
    decodes the body into the request type of the handler, with unknown fields
    disallowed and nothing allowed after the first value.

    encoding/json is modelled from the parsed value on.  A decoder returns the value that
    is left in the destination and whether no error was recorded: after a type error or an
    unknown field Go goes on decoding the rest, so that a body that is refused has
    still filled the destination.  Keys match the names of fields up to case.  Every
    destination is a fresh zero value and an object is taken to name a field once (when it
    does not, the model keeps the last value, where Go merges nested objects).

    The theorems: what is accepted has only known fields ([bind_known]), a refused body may
    have filled the destination ([refused_body_is_decoded]), and decoding a request that
    was encoded gives it back ([strategy_request_round_trip]). *)

From stdpp Require Import base gmap strings list.
From Stdlib Require Import ZArith Lia Ascii.
From S2P Require Import Prelude GoStrings Intents DMRuntime Clustering Classifier ManagerDomain KubeStore RBACRepo PSM.
#[local] Open Scope go_scope.

(** ** encoding/json *)

(** The zero value of a type and its decoding. *)
Record decoder (A : Type) := mkDecoder { zero_of : A; decode_as : jval -> A * bool }.
Arguments mkDecoder {A}.
Arguments zero_of {A}.
Arguments decode_as {A}.

(** A null has no effect, a value of another type is an error. *)
Definition scalar {A} (z : A) (f : jval -> option A) : decoder A :=
  mkDecoder z (fun v => match v with JNull => (z, true) | _ => match f v with Some a => (a, true) | None => (z, false) end end).

Definition d_string : decoder string := scalar "" (fun v => match v with JStr s => Some s | _ => None end).
Definition d_bool : decoder bool := scalar false (fun v => match v with JBool b => Some b | _ => None end).
Definition d_int (lo hi : Z) : decoder Z :=
  scalar 0%Z (fun v => match v with JInt z => if decide (lo <= z <= hi)%Z then Some z else None | _ => None end).
Definition d_int8 : decoder Z := d_int (-128) 127.
Definition d_int32 : decoder Z := d_int (- 2 ^ 31) (2 ^ 31 - 1).
Definition d_int64 : decoder Z := d_int (- 2 ^ 63) (2 ^ 63 - 1).
Definition d_uint64 : decoder Z := d_int 0 (2 ^ 64 - 1).

(** A pointer is allocated before its target is decoded. *)
Definition d_ptr {A} (d : decoder A) : decoder (option A) :=
  mkDecoder None (fun v => match v with JNull => (None, true) | _ => let '(a, ok) := decode_as d v in (Some a, ok) end).

Definition d_slice {A} (d : decoder A) : decoder (list A) :=
  mkDecoder [] (fun v => match v with
                         | JNull => ([], true)
                         | JArr l => ((fun v => (decode_as d v).1) <$> l, forallb (fun v => (decode_as d v).2) l)
                         | _ => ([], false)
                         end).

(** Case folding, as far as a comparison with a string of ASCII can tell: U+017F folds to
    s and U+212A to k. *)
Fixpoint foldName (s : string) : string :=
  match s with
  | String "197" (String "191" s') => String "s" (foldName s')
  | String "226" (String "132" (String "170" s')) => String "k" (foldName s')
  | String a s' => String (lower_byte a) (foldName s')
  | EmptyString => EmptyString
  end.

Definition same_name (name key : string) : bool := String.eqb (foldName key) (foldName name).

(** The fields of a struct: their names, and what they read of an object. *)
Record struct (A : Type) := mkStruct { st_names : list string; st_read : fields -> A * bool }.
Arguments mkStruct {A}.
Arguments st_names {A}.
Arguments st_read {A}.

Definition fld {A} (name : string) (d : decoder A) : struct A :=
  mkStruct [name] (fun m => match last (snd <$> filter (fun kv => same_name name kv.1 = true) m) with
                            | None => (zero_of d, true)
                            | Some v => decode_as d v
                            end).
Definition build {A} (a : A) : struct A := mkStruct [] (fun _ => (a, true)).
Definition with_field {A B} (f : struct (A -> B)) (x : struct A) : struct B :=
  mkStruct (st_names f ++ st_names x) (fun m => let '(g, ok) := st_read f m in let '(a, ok') := st_read x m in (g a, ok && ok')).
Notation "f '<.>' x" := (with_field f x) (at level 61, left associativity) : go_scope.

(** [DisallowUnknownFields] *)
Definition known (names : list string) (m : fields) : bool := forallb (fun kv => existsb (fun n => same_name n kv.1) names) m.

Definition object {A} (s : struct A) : decoder A :=
  let z := (st_read s []).1 in
  mkDecoder z (fun v => match v with
                        | JNull => (z, true)
                        | JObj m => let '(a, ok) := st_read s m in (a, ok && known (st_names s) m)
                        | _ => (z, false)
                        end).

(** ** rest/hander.go *)

(** A body: its first value, [None] when there is none or it is malformed, and whether only
    white space follows. *)
Record body := mkBody { b_first : option jval; b_eof : bool }.
Definition no_body : body := mkBody None true.

Definition JSONBind {A} (d : decoder A) (b : body) : A * bool :=
  match b_first b with
  | None => (zero_of d, false)
  | Some v => let '(a, ok) := decode_as d v in (a, ok && b_eof b)
  end.

(** ** rest/auth_hdl.go *)

Record LoginRequest := mkLogin { lr_UserName : string; lr_Password : string }.
Definition d_login : decoder LoginRequest := object (build mkLogin <.> fld "username" d_string <.> fld "password" d_string).

Record CreateUserRequest := mkCreateUser { cu_UserName : string; cu_Password : string }.
Definition d_create_user : decoder CreateUserRequest :=
  object (build mkCreateUser <.> fld "username" d_string <.> fld "password" d_string).

Record RefreshTokenRequest := mkRefresh { rt_RefreshToken : string }.
Definition d_refresh : decoder RefreshTokenRequest := object (build mkRefresh <.> fld "refreshToken" d_string).

Record ChangePasswordRequest := mkChangePassword { cp_OldPassword : string; cp_NewPassword : string }.
Definition d_change_password : decoder ChangePasswordRequest :=
  object (build mkChangePassword <.> fld "oldPassword" d_string <.> fld "newPassword" d_string).

Record ResetPasswordRequest := mkResetPassword { rp_UserID : string; rp_NewPassword : string }.
Definition d_reset_password : decoder ResetPasswordRequest :=
  object (build mkResetPassword <.> fld "userID" d_string <.> fld "newPassword" d_string).

Record UpdateUserPermissionsRequest := mkUserPermissions { pr_UserID : string; pr_Roles : option (list string); pr_Status : option Z }.
Definition d_user_permissions : decoder UpdateUserPermissionsRequest :=
  object (build mkUserPermissions <.> fld "userID" d_string <.> fld "roles" (d_ptr (d_slice d_string)) <.> fld "status" (d_ptr d_int8)).

(** ** rest/role_hdl.go *)

Definition d_role_policy : decoder RolePolicy :=
  object (build mkRolePolicy <.> fld "permissionKey" d_string <.> fld "self" d_bool <.> fld "k8sNamespace" d_string <.> fld "policyNamespace" d_string).

Record CreateRoleRequest := mkCreateRole { rr_Name : string; rr_Description : string; rr_RolePolicies : list RolePolicy }.
Definition d_create_role : decoder CreateRoleRequest :=
  object (build mkCreateRole <.> fld "name" d_string <.> fld "description" d_string <.> fld "rolePolicies" (d_slice d_role_policy)).

Record UpdateRoleRequest := mkUpdateRoleReq {
  uq_ID : string; uq_Name : option string; uq_Description : option string; uq_RolePolicy : option (list RolePolicy) }.
Definition d_update_role : decoder UpdateRoleRequest :=
  object (build mkUpdateRoleReq <.> fld "id" d_string <.> fld "name" (d_ptr d_string) <.> fld "description" (d_ptr d_string)
          <.> fld "rolePolicy" (d_ptr (d_slice d_role_policy))).

Record DeleteRoleRequest := mkDeleteRole { dr_ID : string }.
Definition d_delete_role : decoder DeleteRoleRequest := object (build mkDeleteRole <.> fld "id" d_string).

(** ** rest/strategy_hdl.go *)

Definition d_selector : decoder LabelSelector := object (build mkLabelSelector <.> fld "key" d_string <.> fld "value" d_string).

Record CreateScheduleStrategyRequest := mkCreateStrategy {
  cs_StrategyNamespace : string; cs_LabelSelectors : list LabelSelector; cs_K8sNamespace : list string;
  cs_CommandRegex : string; cs_Priority : Z; cs_ExecutionTime : Z }.

(** The fields both requests share. *)
Definition strategy_fields {A} (s : struct (string -> list LabelSelector -> list string -> string -> Z -> Z -> A)) : struct A :=
  s <.> fld "strategyNamespace" d_string <.> fld "labelSelectors" (d_slice d_selector) <.> fld "k8sNamespace" (d_slice d_string)
    <.> fld "commandRegex" d_string <.> fld "priority" d_int64 <.> fld "executionTime" d_int64.

Definition d_create_strategy : decoder CreateScheduleStrategyRequest := object (strategy_fields (build mkCreateStrategy)).

Record UpdateScheduleStrategyRequest := mkUpdateStrategy {
  us_StrategyID : string; us_StrategyNamespace : string; us_LabelSelectors : list LabelSelector; us_K8sNamespace : list string;
  us_CommandRegex : string; us_Priority : Z; us_ExecutionTime : Z }.
Definition d_update_strategy : decoder UpdateScheduleStrategyRequest :=
  object (strategy_fields (build mkUpdateStrategy <.> fld "strategyId" d_string)).

Record DeleteScheduleStrategyRequest := mkDeleteStrategy { ds_StrategyID : string }.
Definition d_delete_strategy : decoder DeleteScheduleStrategyRequest := object (build mkDeleteStrategy <.> fld "strategyId" d_string).

Record DeleteScheduleIntentsRequest := mkDeleteIntents { di_IntentIDs : list string }.
Definition d_delete_intents : decoder DeleteScheduleIntentsRequest := object (build mkDeleteIntents <.> fld "intentIds" (d_slice d_string)).

(** ** rest/node_policy_hdl.go *)

Definition d_dra_selector : decoder DRASelector :=
  object (build mkDRA <.> fld "deviceClass" d_string <.> fld "attributes" (d_slice d_selector)).

Record CreateNodeSchedulingPolicyRequest := mkCreatePolicy {
  np_NodeSelectors : list LabelSelector; np_NodeNames : list string; np_DRASelectors : list DRASelector;
  np_CommandRegex : string; np_Priority : Z; np_ExecutionTime : Z }.

Definition policy_fields {A} (s : struct (list LabelSelector -> list string -> list DRASelector -> string -> Z -> Z -> A)) : struct A :=
  s <.> fld "nodeSelectors" (d_slice d_selector) <.> fld "nodeNames" (d_slice d_string) <.> fld "draSelectors" (d_slice d_dra_selector)
    <.> fld "commandRegex" d_string <.> fld "priority" d_int64 <.> fld "executionTime" d_int64.

Definition d_create_policy : decoder CreateNodeSchedulingPolicyRequest := object (policy_fields (build mkCreatePolicy)).

Record UpdateNodeSchedulingPolicyRequest := mkUpdatePolicy {
  up_PolicyID : string; up_NodeSelectors : list LabelSelector; up_NodeNames : list string; up_DRASelectors : list DRASelector;
  up_CommandRegex : string; up_Priority : Z; up_ExecutionTime : Z }.
Definition d_update_policy : decoder UpdateNodeSchedulingPolicyRequest :=
  object (policy_fields (build mkUpdatePolicy <.> fld "policyId" d_string)).

Record DeleteNodeSchedulingPolicyRequest := mkDeletePolicy { dp_PolicyID : string }.
Definition d_delete_policy : decoder DeleteNodeSchedulingPolicyRequest := object (build mkDeletePolicy <.> fld "policyId" d_string).

Record DeleteNodeSchedulingIntentsRequest := mkDeleteNodeIntents { dn_IntentIDs : list string }.
Definition d_delete_node_intents : decoder DeleteNodeSchedulingIntentsRequest :=
  object (build mkDeleteNodeIntents <.> fld "intentIds" (d_slice d_string)).

(** ** rest/psm_hdl.go *)

Definition d_psm_metrics : decoder PSMMetrics :=
  object (build mkPSMMetrics <.> fld "voluntaryCtxSwitches" d_bool <.> fld "involuntaryCtxSwitches" d_bool <.> fld "cpuTimeNs" d_bool
          <.> fld "waitTimeNs" d_bool <.> fld "runCount" d_bool <.> fld "cpuMigrations" d_bool).
Definition d_target_ref : decoder PSMScaleTargetRef :=
  object (build mkTargetRef <.> fld "apiVersion" d_string <.> fld "kind" d_string <.> fld "name" d_string).
Definition d_psm_scaling : decoder PSMScaling :=
  object (build mkScaling <.> fld "enabled" d_bool <.> fld "metricName" d_string <.> fld "targetValue" d_string
          <.> fld "scaleTargetRef" (d_ptr d_target_ref) <.> fld "minReplicaCount" d_int32 <.> fld "maxReplicaCount" d_int32
          <.> fld "cooldownPeriod" d_int32).

Record CreatePSMRequest := mkCreatePSM {
  cq_LabelSelectors : list LabelSelector; cq_K8sNamespaces : list string; cq_CommandRegex : string;
  cq_CollectionIntervalSeconds : Z; cq_Enabled : option bool; cq_Metrics : option PSMMetrics; cq_Scaling : option PSMScaling }.

Definition psm_fields {A} (s : struct (list LabelSelector -> list string -> string -> Z -> option bool -> option PSMMetrics -> option PSMScaling -> A))
    : struct A :=
  s <.> fld "labelSelectors" (d_slice d_selector) <.> fld "k8sNamespaces" (d_slice d_string) <.> fld "commandRegex" d_string
    <.> fld "collectionIntervalSeconds" d_int32 <.> fld "enabled" (d_ptr d_bool) <.> fld "metrics" (d_ptr d_psm_metrics)
    <.> fld "scaling" (d_ptr d_psm_scaling).

Definition d_create_psm : decoder CreatePSMRequest := object (psm_fields (build mkCreatePSM)).

(** [UpdatePSMRequest]: an identifier and the same fields. *)
Record UpdatePSMRequest := mkUpdatePSM { uq_PSMID : string; uq_Fields : CreatePSMRequest }.
Definition d_update_psm : decoder UpdatePSMRequest :=
  object (psm_fields (build (fun id a b c d e f g => mkUpdatePSM id (mkCreatePSM a b c d e f g)) <.> fld "id" d_string)).

Record DeletePSMRequest := mkDeletePSM { dq_ID : string }.
Definition d_delete_psm : decoder DeletePSMRequest := object (build mkDeletePSM <.> fld "id" d_string).

(** ** rest/classify_hdl.go *)

Definition d_metrics : decoder metricsPayload :=
  object (build Build_metricsPayload <.> fld "vol_ctx_sw" d_uint64 <.> fld "invol_ctx_sw" d_uint64 <.> fld "cpu_time" d_uint64
          <.> fld "wait_time" d_uint64 <.> fld "run_count" d_uint64 <.> fld "smt_migr" d_uint64 <.> fld "l3_migr" d_uint64
          <.> fld "numa_migr" d_uint64).

(** [ingestMetricsRequest] has the fields of a [classificationInput]. *)
Definition d_ingest : decoder classificationInput :=
  object (build Build_classificationInput <.> fld "timestamp" d_int64 <.> fld "namespace" d_string <.> fld "pod" d_string
          <.> fld "node" d_string <.> fld "metrics" d_metrics).

(** ** rest/runtime_config_hdl.go *)

Definition d_runtime_config : decoder RuntimeSchedulerConfig :=
  object (build mkRuntimeConfig <.> fld "configVersion" d_string <.> fld "mode" d_string <.> fld "schedulerName" d_string
          <.> fld "sliceNsDefault" d_uint64 <.> fld "sliceNsMin" d_uint64 <.> fld "kernelMode" d_bool <.> fld "maxTimeWatchdog" d_bool
          <.> fld "earlyProcessing" d_bool <.> fld "builtinIdle" d_bool <.> fld "schedulerEnabled" d_bool <.> fld "monitoringEnabled" d_bool).

Record ApplyRuntimeConfigRequest := mkApplyRequest { ar_NodeIDs : list string; ar_Config : RuntimeSchedulerConfig }.
Definition d_apply_runtime : decoder ApplyRuntimeConfigRequest :=
  object (build mkApplyRequest <.> fld "nodeIds" (d_slice d_string) <.> fld "config" d_runtime_config).

(** ** What is accepted *)

(** Remark (error): a body is accepted only if it is one JSON value with nothing after it, and when
    that is an object each of its keys is, up to case, the name of a field of the request. *)
Theorem bind_known {A} (s : struct A) (b : body) a :
  JSONBind (object s) b = (a, true) ->
  b_eof b = true /\ exists v, b_first b = Some v /\ a = (decode_as (object s) v).1 /\
    (v = JNull \/ exists m, v = JObj m /\ forall k w, (k, w) ∈ m -> exists n, n ∈ st_names s /\ foldName k = foldName n).
Proof.
  unfold JSONBind. destruct (b_first b) as [v|]; [|done]. destruct (decode_as (object s) v) as [a' ok] eqn:E.
  intros [= <- [-> Heof]%andb_prop]. split; [done|]. exists v. split_and!; [done|by rewrite E|].
  destruct v as [| | | | | |m]; cbn in E; try (by injection E); [by left|]. right. exists m. split; [done|].
  destruct (st_read s m) as [a1 ok1]. injection E as _ [_ Hk]%andb_prop. unfold known in Hk. rewrite forallb_forall in Hk.
  intros k w Hin%list_elem_of_In. apply Hk, existsb_exists in Hin as (n & Hn%list_elem_of_In & He).
  exists n. split; [done|]. by apply String.eqb_eq.
Qed.

(** What a client sends for a strategy. *)
Definition selector_json (l : LabelSelector) : jval := JObj [("key", JStr (ls_Key l)); ("value", JStr (ls_Value l))].
Definition strategy_json (r : CreateScheduleStrategyRequest) : fields :=
  [("strategyNamespace", JStr (cs_StrategyNamespace r)); ("labelSelectors", JArr (selector_json <$> cs_LabelSelectors r));
   ("k8sNamespace", JArr (JStr <$> cs_K8sNamespace r)); ("commandRegex", JStr (cs_CommandRegex r));
   ("priority", JInt (cs_Priority r)); ("executionTime", JInt (cs_ExecutionTime r))].

Lemma slice_of {A} (d : decoder A) (enc : A -> jval) l :
  (forall a, decode_as d (enc a) = (a, true)) -> decode_as (d_slice d) (JArr (enc <$> l)) = (l, true).
Proof.
  intros H. cbn [decode_as d_slice]. f_equal.
  - rewrite <- list_fmap_compose. rewrite <- (list_fmap_id l) at 2. apply list_fmap_ext. intros i a _. cbn. by rewrite H.
  - apply forallb_forall. intros v Hv%list_elem_of_In. apply list_elem_of_fmap in Hv as (a & -> & _). by rewrite H.
Qed.

Lemma int_of lo hi z : (lo <= z <= hi)%Z -> decode_as (d_int lo hi) (JInt z) = (z, true).
Proof. intros H. cbn. by rewrite decide_True. Qed.

Lemma read_with {A B} (f : struct (A -> B)) (x : struct A) m g a :
  st_read f m = (g, true) -> st_read x m = (a, true) -> st_read (f <.> x) m = (g a, true).
Proof. intros Hf Hx. cbn. by rewrite Hf, Hx. Qed.

Lemma strategy_fields_read r :
  (- 2 ^ 63 <= cs_Priority r <= 2 ^ 63 - 1)%Z -> (- 2 ^ 63 <= cs_ExecutionTime r <= 2 ^ 63 - 1)%Z ->
  st_read (strategy_fields (build mkCreateStrategy)) (strategy_json r) = (r, true).
Proof.
  intros Hp He. unfold strategy_fields.
  replace r with (mkCreateStrategy (cs_StrategyNamespace r) (cs_LabelSelectors r) (cs_K8sNamespace r) (cs_CommandRegex r)
    (cs_Priority r) (cs_ExecutionTime r)) at 2 by by destruct r.
  repeat apply read_with; try reflexivity.
  - transitivity (decode_as (d_slice d_selector) (JArr (selector_json <$> cs_LabelSelectors r))); [reflexivity|].
    apply slice_of. by intros [k v].
  - transitivity (decode_as (d_slice d_string) (JArr (JStr <$> cs_K8sNamespace r))); [reflexivity|]. by apply slice_of.
  - transitivity (decode_as d_int64 (JInt (cs_Priority r))); [reflexivity|]. by apply int_of.
  - transitivity (decode_as d_int64 (JInt (cs_ExecutionTime r))); [reflexivity|]. by apply int_of.
Qed.

(** Remark (roundtrip): the request for a strategy, encoded as a JSON object, is accepted and
    decoded to itself, for a priority and an execution time that fit their types. *)
Theorem strategy_request_round_trip r :
  (- 2 ^ 63 <= cs_Priority r <= 2 ^ 63 - 1)%Z -> (- 2 ^ 63 <= cs_ExecutionTime r <= 2 ^ 63 - 1)%Z ->
  JSONBind d_create_strategy (mkBody (Some (JObj (strategy_json r))) true) = (r, true).
Proof.
  intros Hp He. unfold JSONBind, d_create_strategy, object. cbn [b_first b_eof decode_as].
  rewrite (strategy_fields_read r Hp He). reflexivity.
Qed.

Lemma strategy_request_round_trip_witness :
  let r := mkCreateStrategy "default" [mkLabelSelector "app" "web"] ["prod"] "nginx" 7 20000000 in
  JSONBind d_create_strategy (mkBody (Some (JObj (strategy_json r))) true) = (r, true).
Proof. cbn zeta. apply strategy_request_round_trip; cbn; lia. Defined.

Lemma bind_known_witness :
  exists a, JSONBind d_login (mkBody (Some (JObj [("UserName", JStr "ann"); ("password", JStr "p")])) true) = (a, true) /\
    exists n, n ∈ ["username"; "password"] /\ foldName "UserName" = foldName n.
Proof.
  exists (mkLogin "ann" "p"). split; [reflexivity|].
  destruct (bind_known (build mkLogin <.> fld "username" d_string <.> fld "password" d_string)
    (mkBody (Some (JObj [("UserName", JStr "ann"); ("password", JStr "p")])) true) (mkLogin "ann" "p") eq_refl)
    as (_ & v & [= <-] & _ & [H|(m & [= <-] & H)]); [discriminate|].
  exact (H "UserName" (JStr "ann") ltac:(left)).
Defined.

(** An unknown field is an error, a status of the wrong type too; the rest has been decoded. *)
Example refused_body_is_decoded :
  JSONBind d_user_permissions (mkBody (Some (JObj [("userID", JStr "u1"); ("status", JInt 2); ("reason", JStr "left")])) true)
    = (mkUserPermissions "u1" None (Some 2%Z), false) /\
  JSONBind d_user_permissions (mkBody (Some (JObj [("userID", JStr "u1"); ("status", JStr "inactive")])) true)
    = (mkUserPermissions "u1" None (Some 0%Z), false).
Proof. split; reflexivity. Qed.
