(* ===== verification/ManagerRest.v ===== *)
(** * The manager's API

    The handlers of api/manager/rest with their routes, their middleware and the services
    they call, on the state of the whole manager: accounts (AuthSvc), strategies, node
    policies and metric resources in the cluster (StrategySvc, NodePolicySvc, PSM), the
    configurations of the nodes (RuntimeSvc) and the classifier (Classifier).

    A handler reads a request (RestBind), and ends with the responses it wrote, the first of
    which the client sees.  What the cluster, the decision makers and the collection of
    permissions answer during a request is given with it ([env]); the messages of errors
    are left out.

    The theorems: without a token that grants the permission of a route nothing changes and
    the client is refused ([no_grant_no_effect]); a body that is refused changes nothing
    ([refused_body_no_effect]), except for the permissions of a user, where the handler goes
    on ([refused_permissions_applied]); a policy for oneself confines the reset of passwords
    ([self_policy_confines]); a GET leaves every account and resource as it was
    ([get_changes_nothing]); a strategy that was created is in the next list of its creator,
    with the fields of the request ([created_strategy_listed]). *)

From stdpp Require Import base gmap strings list sorting.
From Stdlib Require Import ZArith Lia Ascii.
From S2P Require Import Prelude GoStrings GoSort Intents ProcScan DecisionMaker DMRuntime ManagerDomain KubeStore CRRepo CRNodeRepo Manager StrategySvc.
From S2P Require Import NodePolicySvc Argon2 RBACRepo AuthSvc RuntimeSvc Clustering Classifier Monitor PSM RestBind ReconcileAll.
#[local] Open Scope go_scope.

(** ** Responses *)

(** rest/auth_hdl.go *)
Record LoginResponse := mkLoginResponse { lo_Token : string; lo_AccessToken : string; lo_RefreshToken : string }.
Record UserItem := mkUserItem { ui_ID : string; ui_UserName : string; ui_Roles : list string; ui_Status : Z }.
(** rest/role_hdl.go *)
Record RoleItem := mkRoleItem { ri_ID : string; ri_Name : string; ri_Description : string; ri_RolePolicy : list RolePolicy }.
(** rest/strategy_hdl.go *)
Record StrategyItem := mkStrategyItem {
  si_ID : ObjectID; si_StrategyNamespace : string; si_LabelSelectors : list LabelSelector; si_K8sNamespace : list string;
  si_CommandRegex : string; si_Priority : Z; si_ExecutionTime : Z }.
Record IntentItem := mkIntentItem {
  ii_ID : ObjectID; ii_StrategyID : ObjectID; ii_PodID : string; ii_NodeID : string; ii_K8sNamespace : string;
  ii_CommandRegex : string; ii_Priority : Z; ii_ExecutionTime : Z; ii_PodLabels : gmap string string; ii_State : Z }.
(** rest/node_policy_hdl.go *)
Record PolicyItem := mkPolicyItem {
  pi_ID : ObjectID; pi_NodeSelectors : list LabelSelector; pi_NodeNames : list string; pi_DRASelectors : list DRASelector;
  pi_CommandRegex : string; pi_Priority : Z; pi_ExecutionTime : Z }.
Record NodeIntentItem := mkNodeIntentItem {
  nn_ID : ObjectID; nn_PolicyID : ObjectID; nn_NodeID : string; nn_CommandRegex : string; nn_Priority : Z;
  nn_ExecutionTime : Z; nn_State : Z }.
(** rest/psm_hdl.go *)
Record PSMResponseItem := mkPSMItem {
  pq_ID : string; pq_LabelSelectors : list LabelSelector; pq_K8sNamespaces : list string; pq_CommandRegex : string;
  pq_CollectionIntervalSeconds : Z; pq_Enabled : bool; pq_Metrics : option PSMMetrics; pq_Scaling : option PSMScaling;
  pq_CreatedTime : Z; pq_UpdatedTime : Z }.

Inductive payload :=
| PHealth
| PVersion
| PNil
| PEmpty
| PLogin (r : LoginResponse)
| PValid (uid : string) (needChangePassword : bool)
| PUsers (l : list UserItem)
| PSelf (u : UserItem)
| PRoles (l : list RoleItem)
| PPermissions (l : list (string * string))
| PStrategies (l : list StrategyItem)
| PIntents (l : list IntentItem)
| PPolicies (l : list PolicyItem)
| PNodeIntents (l : list NodeIntentItem)
| PNodes (l : list (string * string))
| PMapping (m : PodPIDMapping)
| PPSMs (l : list PSMResponseItem)
| PValues (l : list PodSchedulingMetricValue) (warnings : list metric_warning)
| PClassification (i : classifyResponseItem)
| PClassifications (l : list classifyResponseItem)
| PResults (l : list RuntimeConfigApplyResult).

(** [JSONResponse] and [ErrorResponse] *)
Inductive response := Success (p : payload) | Failure (status : Z).
Definition status (r : response) : Z := match r with Success _ => 200%Z | Failure s => s end.

(** The header of a response is written once. *)
Definition seen_status (l : list response) : option Z := status <$> head l.

(** ** Requests *)

Record request := mkRequest {
  rq_authorization : string;
  rq_body : body;
  rq_param : string -> string;
  rq_query : string -> string;
}.

(** What is found outside of the manager during a request. *)
Record env := mkEnv {
  e_now : Z;
  e_clock : Z;
  e_k8s : K8SAdapter;
  e_nodes : option (list Node);
  e_mapping : DecisionMakerPod -> option PodPIDMapping;
  e_values : DecisionMakerPod -> option (list (option PodSchedulingMetricValue));
  e_permissions : option (list (string * string));
}.

(** The claims and the policy that the middleware puts into the context. *)
Notation context := (option (Claims * RolePolicy)).

(** ** The state of the manager *)

Record server (U R K F D : Type) := mkServer {
  sv_rbac : rbac U R; sv_world : Manager.world K; sv_runtime : rt_world F D; sv_classifier : AdaptiveClassifier }.
Arguments mkServer {U R K F D}.
Arguments sv_rbac {U R K F D}.
Arguments sv_world {U R K F D}.
Arguments sv_runtime {U R K F D}.
Arguments sv_classifier {U R K F D}.

(** [HandleError]: the status an error of a service carries, and 500 for another. *)
Definition auth_status (e : auth_error) : Z := match e with AStatus c => c | _ => 500 end.
Definition mgr_status (e : mgr_error) : Z := match e with MStatus c => c | _ => 500 end.
Definition rt_status (e : rt_error) : Z := match e with RtStatus c => c | _ => 500 end.

Definition no_base : BaseEntity := mkBase NilObjectID 0 0 0 NilObjectID NilObjectID.

(** ** Conversions *)

Definition login_response (t : TokenPair) : LoginResponse := mkLoginResponse (AccessToken t) (AccessToken t) (RefreshTokenString t).
Definition user_item (u : User) : UserItem := mkUserItem (u_ID u) (u_UserName u) (u_Roles u) (u_Status u).
Definition role_item (r : Role) : RoleItem := mkRoleItem (role_ID r) (role_Name r) (role_Description r) (role_Policies r).

Definition strategy_of (ns : string) (sel : list LabelSelector) (k8s : list string) (re : string) (prio exec : Z) : ScheduleStrategy :=
  mkStrategy no_base ns sel k8s re prio exec.
Definition convertDomainStrategyToResponseStrategy (s : ScheduleStrategy) : StrategyItem :=
  mkStrategyItem (ss_ID s) (ss_StrategyNamespace s) (ss_LabelSelectors s) (ss_K8sNamespace s) (ss_CommandRegex s) (ss_Priority s) (ss_ExecutionTime s).
Definition convertDomainIntentToResponseIntent (i : ScheduleIntent) : IntentItem :=
  mkIntentItem (sc_ID i) (sc_StrategyID i) (sc_PodID i) (sc_NodeID i) (sc_K8sNamespace i) (sc_CommandRegex i) (sc_Priority i)
    (sc_ExecutionTime i) (sc_PodLabels i) (sc_State i).

Definition policy_of (sel : list LabelSelector) (names : list string) (dra : list DRASelector) (re : string) (prio exec : Z) : NodeSchedulingPolicy :=
  mkNodeSchedulingPolicy no_base sel names dra re prio exec.
Definition convertDomainNodePolicyToResponse (p : NodeSchedulingPolicy) : PolicyItem :=
  mkPolicyItem (nsp_ID p) (nsp_NodeSelectors p) (nsp_NodeNames p) (nsp_DRASelectors p) (nsp_CommandRegex p) (nsp_Priority p) (nsp_ExecutionTime p).
Definition node_intent_item (i : NodeSchedulingIntent) : NodeIntentItem :=
  mkNodeIntentItem (ni_ID i) (ni_PolicyID i) (ni_NodeID i) (ni_CommandRegex i) (ni_Priority i) (ni_ExecutionTime i) (ni_State i).

Definition psmRequestToDomain (r : CreatePSMRequest) : PodSchedulingMetrics :=
  mkPSMetrics no_base (cq_LabelSelectors r) (cq_K8sNamespaces r) (cq_CommandRegex r) (cq_CollectionIntervalSeconds r)
    (default true (cq_Enabled r)) (cq_Metrics r) (cq_Scaling r).
Definition updatePSMRequestToDomain (r : UpdatePSMRequest) : PodSchedulingMetrics := psmRequestToDomain (uq_Fields r).
Definition domainPSMToResponse (p : PodSchedulingMetrics) : PSMResponseItem :=
  mkPSMItem (pm_ID p) (pm_LabelSelectors p) (pm_K8sNamespaces p) (pm_CommandRegex p) (pm_CollectionIntervalSeconds p) (pm_Enabled p)
    (pm_Metrics p) (pm_Scaling p) (be_CreatedTime (pm_Base p)) (be_UpdatedTime (pm_Base p)).

(** rest/runtime_config_hdl.go: the list of nodes of a query. *)
Definition node_ids (param : string) : list string :=
  let param := TrimSpace param in
  if decide (param = "") then [] else filter (fun n => n <> "") (TrimSpace <$> Split param ",").

(** service/strategy_svc.go: [GetPodPIDMapping] *)
Definition GetPodPIDMapping (e : env) (nodeID : string) : option PodPIDMapping :=
  match QueryDecisionMakerPods (e_k8s e) [nodeID] with
  | Some (dm :: _) =>
      if decide (dm_State dm <> NodeStateOnline) then None else
      (fun m => if decide (pm_NodeID m = "") then mkMapping (pm_Pods m) (pm_Timestamp m) (pm_NodeName m) nodeID else m) <$> e_mapping e dm
  | _ => None
  end.

Module Handler.
Section handlers.
  Context {U R K F D : Type} `{Collection U User} `{Collection R Role} `{KubeAPI K} `{RuntimeDM F} `{ConfigCollection D}
    {A : Argon2Lib} {J : JWTLib}.
  Variable ObjectIDFromHex : string -> option ObjectID.
  Variable NewObjectID : nat -> ObjectID.
  Variable crNamespace : string.
  Variable random_salt : nat -> option (list Z).
  Variable xid : nat -> string.
  (** Go's orders of iteration. *)
  Variable range : list string -> list string.
  Variable range_pods : gmap string podState -> list (string * podState).
  Variable range_values : gmap string PodSchedulingMetricValue -> list (string * PodSchedulingMetricValue).

Notation server := (server U R K F D).
(** A handler up to its early returns: an error is the status to answer with. *)
Notation Web := (SE server Z).

(** *** Calls of the services *)

Definition on_auth {B} (m : SE (rbac U R) auth_error B) : Web B :=
  fun s => let '(r, res) := m (sv_rbac s) in
           (mkServer r (sv_world s) (sv_runtime s) (sv_classifier s), match res with Ok b => Ok b | Err e => Err (auth_status e) end).
Definition on_world {B} (m : SE (Manager.world K) mgr_error B) : Web B :=
  fun s => let '(w, res) := m (sv_world s) in
           (mkServer (sv_rbac s) w (sv_runtime s) (sv_classifier s), match res with Ok b => Ok b | Err e => Err (mgr_status e) end).
Definition on_runtime {B} (m : SE (rt_world F D) rt_error B) : Web B :=
  fun s => let '(w, res) := m (sv_runtime s) in
           (mkServer (sv_rbac s) (sv_world s) w (sv_classifier s), match res with Ok b => Ok b | Err e => Err (rt_status e) end).
Definition on_classifier {B} (m : AdaptiveClassifier -> AdaptiveClassifier * B) : Web B :=
  fun s => let '(c, b) := m (sv_classifier s) in (mkServer (sv_rbac s) (sv_world s) (sv_runtime s) c, Ok b).
(** An answer that may be missing. *)
Definition given {B} (o : option B) : Web B := match o with Some b => sret b | None => sfail 500%Z end.

(** *** hander.go *)

Definition bind {B} (d : decoder B) (rq : request) : Web B :=
  let '(b, ok) := JSONBind d (rq_body rq) in if ok then sret b else sfail 400%Z.
Definition require (b : bool) (code : Z) : Web unit := if b then sret tt else sfail code.
Definition GetClaimsFromContext (ctx : context) : Web Claims := match ctx with Some (c, _) => sret c | None => sfail 401%Z end.

Definition VerifyResourcePolicy (ctx : context) (resourceOwnerID : string) : Web unit :=
  match ctx with
  | None => sfail 401%Z
  | Some (claims, policy) =>
      if rp_Self policy && bool_decide (cl_UID claims <> resourceOwnerID) then sfail 403%Z else sret tt
  end.

(** [GetBsonObjectUID] with the status of the caller. *)
Definition uid_of (code : Z) (c : Claims) : Web ObjectID :=
  match ObjectIDFromHex (cl_UID c) with Some id => sret id | None => sfail code end.

(** The end of a handler. *)
Definition respond (m : Web payload) : server -> server * list response :=
  fun s => match m s with (s, Ok p) => (s, [Success p]) | (s, Err code) => (s, [Failure code]) end.

Notation handler := (env -> context -> request -> Web payload).

(** *** auth_hdl.go *)

Definition CreateUser : handler := fun e ctx rq =>
  let! req := bind d_create_user rq in
  let! claims := GetClaimsFromContext ctx in
  let! _ := on_auth (CreateNewUser ObjectIDFromHex NewObjectID random_salt (e_now e) claims (cu_UserName req) (cu_Password req)) in
  sret PNil.

Definition Login : handler := fun e ctx rq =>
  let! req := bind d_login rq in
  let! _ := require (bool_decide (lr_UserName req <> "" /\ lr_Password req <> "")) 422%Z in
  let! tokens := on_auth (AuthSvc.Login random_salt xid (e_now e) (lr_UserName req) (lr_Password req)) in
  sret (PLogin (login_response tokens)).

Definition RefreshToken : handler := fun e ctx rq =>
  let! req := bind d_refresh rq in
  let! _ := require (bool_decide (rt_RefreshToken req <> "")) 400%Z in
  let! tokens := on_auth (AuthSvc.RefreshToken ObjectIDFromHex random_salt xid (e_now e) (rt_RefreshToken req)) in
  sret (PLogin (login_response tokens)).

Definition Logout : handler := fun e ctx rq =>
  let! req := bind d_refresh rq in
  let! _ := require (bool_decide (rt_RefreshToken req <> "")) 400%Z in
  let! _ := on_auth (AuthSvc.Logout ObjectIDFromHex random_salt (e_now e) (rt_RefreshToken req)) in
  sret PNil.

Definition LogoutAll : handler := fun e ctx rq =>
  let! claims := GetClaimsFromContext ctx in
  let! _ := on_auth (AuthSvc.LogoutAll ObjectIDFromHex random_salt (e_now e) claims) in
  sret PNil.

Definition ValidateToken : handler := fun e ctx rq =>
  let! claims := GetClaimsFromContext ctx in
  sret (PValid (cl_UID claims) (cl_NeedChangePassword claims)).

Definition ChangePassword : handler := fun e ctx rq =>
  let! req := bind d_change_password rq in
  let! claims := GetClaimsFromContext ctx in
  let! _ := require (bool_decide (cl_UID claims <> "")) 401%Z in
  let! _ := on_auth (AuthSvc.ChangePassword ObjectIDFromHex random_salt (e_now e) claims (cp_OldPassword req) (cp_NewPassword req)) in
  sret PNil.

Definition ResetPassword : handler := fun e ctx rq =>
  let! req := bind d_reset_password rq in
  let! claims := GetClaimsFromContext ctx in
  let! _ := VerifyResourcePolicy ctx (rp_UserID req) in
  let! _ := on_auth (AuthSvc.ResetPassword ObjectIDFromHex random_salt (e_now e) claims (rp_UserID req) (rp_NewPassword req)) in
  sret PNil.

(** What follows the decoding of the request. *)
Definition update_user_permissions (e : env) (ctx : context) (req : UpdateUserPermissionsRequest) : Web payload :=
  let! claims := GetClaimsFromContext ctx in
  let! _ := VerifyResourcePolicy ctx (pr_UserID req) in
  let! _ := on_auth (AuthSvc.UpdateUserPermissions ObjectIDFromHex random_salt (e_now e) claims (pr_UserID req)
                       (mkUpdatePermissions (pr_Roles req) (pr_Status req))) in
  sret PNil.

(** There is no [return] after the response to a body that cannot be decoded. *)
Definition UpdateUserPermissions (e : env) (ctx : context) (rq : request) (s : server) : server * list response :=
  let '(req, ok) := JSONBind d_user_permissions (rq_body rq) in
  let '(s, l) := respond (update_user_permissions e ctx req) s in
  (s, (if ok then [] else [Failure 400]) ++ l).

Definition ListUsers : handler := fun e ctx rq =>
  let! users := on_auth (QueryUsers (Some (mkQueryUsers [] []))) in
  sret (PUsers (user_item <$> users)).

Definition GetSelfUser : handler := fun e ctx rq =>
  let! claims := GetClaimsFromContext ctx in
  let! uid := uid_of 401 claims in
  let! users := on_auth (QueryUsers (Some (mkQueryUsers [uid] []))) in
  match users with
  | [] => sfail 401%Z
  | user :: _ => sret (PSelf (user_item user))
  end.

(** *** role_hdl.go *)

Definition CreateRole : handler := fun e ctx rq =>
  let! req := bind d_create_role rq in
  let! claims := GetClaimsFromContext ctx in
  let! _ := on_auth (AuthSvc.CreateRole ObjectIDFromHex NewObjectID (e_now e) claims
                       (mkRole no_base (rr_Name req) (rr_Description req) (rr_RolePolicies req))) in
  sret PNil.

Definition UpdateRole : handler := fun e ctx rq =>
  let! req := bind d_update_role rq in
  let! claims := GetClaimsFromContext ctx in
  let! _ := on_auth (AuthSvc.UpdateRole ObjectIDFromHex (e_now e) claims (uq_ID req)
                       (mkUpdateRole (uq_Name req) (uq_Description req) (uq_RolePolicy req))) in
  sret PNil.

Definition DeleteRole : handler := fun e ctx rq =>
  let! req := bind d_delete_role rq in
  let! claims := GetClaimsFromContext ctx in
  let! _ := on_auth (AuthSvc.DeleteRole claims (dr_ID req)) in
  sret PNil.

Definition ListRoles : handler := fun e ctx rq =>
  let! roles := on_auth (QueryRoles (Some (mkQueryRoles [] []))) in
  sret (PRoles (role_item <$> roles)).

Definition ListPermissions : handler := fun e ctx rq =>
  let! permissions := given (e_permissions e) in
  sret (PPermissions permissions).

(** *** strategy_hdl.go *)

Definition CreateScheduleStrategy : handler := fun e ctx rq =>
  let! req := bind d_create_strategy rq in
  let strategy := strategy_of (cs_StrategyNamespace req) (cs_LabelSelectors req) (cs_K8sNamespace req) (cs_CommandRegex req)
                    (cs_Priority req) (cs_ExecutionTime req) in
  let! claims := GetClaimsFromContext ctx in
  let! _ := on_world (StrategySvc.CreateScheduleStrategy ObjectIDFromHex crNamespace NewObjectID (e_k8s e) range (e_now e) claims strategy) in
  sret PNil.

Definition UpdateScheduleStrategy : handler := fun e ctx rq =>
  let! req := bind d_update_strategy rq in
  let! _ := require (bool_decide (us_StrategyID req <> "")) 400%Z in
  let strategy := strategy_of (us_StrategyNamespace req) (us_LabelSelectors req) (us_K8sNamespace req) (us_CommandRegex req)
                    (us_Priority req) (us_ExecutionTime req) in
  let! claims := GetClaimsFromContext ctx in
  let! _ := on_world (StrategySvc.UpdateScheduleStrategy ObjectIDFromHex crNamespace NewObjectID (e_k8s e) range (e_now e) claims
                        (us_StrategyID req) strategy) in
  sret PNil.

Definition ListSelfScheduleStrategies : handler := fun e ctx rq =>
  let! claims := GetClaimsFromContext ctx in
  let! uid := uid_of 400 claims in
  let! l := on_world (ListScheduleStrategies ObjectIDFromHex (Some (mkQueryStrategy [] [] [uid]))) in
  sret (PStrategies (convertDomainStrategyToResponseStrategy <$> l)).

Definition ListSelfScheduleIntents : handler := fun e ctx rq =>
  let! claims := GetClaimsFromContext ctx in
  let! uid := uid_of 400 claims in
  let! l := on_world (ListScheduleIntents ObjectIDFromHex (Some (mkQueryIntent [] [] [] [] [] [uid]))) in
  sret (PIntents (convertDomainIntentToResponseIntent <$> l)).

Definition DeleteScheduleStrategy : handler := fun e ctx rq =>
  let! req := bind d_delete_strategy rq in
  let! _ := require (bool_decide (ds_StrategyID req <> "")) 400%Z in
  let! claims := GetClaimsFromContext ctx in
  let! _ := on_world (StrategySvc.DeleteScheduleStrategy ObjectIDFromHex (e_k8s e) range claims (ds_StrategyID req)) in
  sret PEmpty.

Definition DeleteScheduleIntents : handler := fun e ctx rq =>
  let! req := bind d_delete_intents rq in
  let! _ := require (negb (is_nil (di_IntentIDs req))) 400%Z in
  let! claims := GetClaimsFromContext ctx in
  let! _ := on_world (StrategySvc.DeleteScheduleIntents ObjectIDFromHex (e_k8s e) range claims (di_IntentIDs req)) in
  sret PEmpty.

Definition GetNodePodPIDMapping : handler := fun e ctx rq =>
  let nodeID := rq_param rq "nodeID" in
  let! _ := require (bool_decide (nodeID <> "")) 400%Z in
  let! m := given (GetPodPIDMapping e nodeID) in
  sret (PMapping m).

Definition ListNodes : handler := fun e ctx rq =>
  let! nodes := given (e_nodes e) in
  sret (PNodes ((fun n => (node_Name n, node_Status n)) <$> nodes)).

(** *** node_policy_hdl.go *)

Definition CreateNodeSchedulingPolicy : handler := fun e ctx rq =>
  let! req := bind d_create_policy rq in
  let policy := policy_of (np_NodeSelectors req) (np_NodeNames req) (np_DRASelectors req) (np_CommandRegex req) (np_Priority req)
                  (np_ExecutionTime req) in
  let! claims := GetClaimsFromContext ctx in
  let! _ := on_world (NodePolicySvc.CreateNodeSchedulingPolicy ObjectIDFromHex crNamespace NewObjectID (e_k8s e) range (e_now e) claims policy) in
  sret PNil.

Definition UpdateNodeSchedulingPolicy : handler := fun e ctx rq =>
  let! req := bind d_update_policy rq in
  let! _ := require (bool_decide (up_PolicyID req <> "")) 400%Z in
  let policy := policy_of (up_NodeSelectors req) (up_NodeNames req) (up_DRASelectors req) (up_CommandRegex req) (up_Priority req)
                  (up_ExecutionTime req) in
  let! claims := GetClaimsFromContext ctx in
  let! _ := on_world (NodePolicySvc.UpdateNodeSchedulingPolicy ObjectIDFromHex crNamespace NewObjectID (e_k8s e) range (e_now e) claims
                        (up_PolicyID req) policy) in
  sret PNil.

Definition ListSelfNodeSchedulingPolicies : handler := fun e ctx rq =>
  let! claims := GetClaimsFromContext ctx in
  let! uid := uid_of 400 claims in
  let! l := on_world (ListNodeSchedulingPolicies ObjectIDFromHex (Some (mkQueryNodePolicy [] [uid]))) in
  sret (PPolicies (convertDomainNodePolicyToResponse <$> l)).

Definition ListSelfNodeSchedulingIntents : handler := fun e ctx rq =>
  let! claims := GetClaimsFromContext ctx in
  let! uid := uid_of 400 claims in
  let! l := on_world (ListNodeSchedulingIntents ObjectIDFromHex (Some (mkQueryNodeIntent [] [] [] [] [uid]))) in
  sret (PNodeIntents (node_intent_item <$> l)).

Definition DeleteNodeSchedulingPolicy : handler := fun e ctx rq =>
  let! req := bind d_delete_policy rq in
  let! _ := require (bool_decide (dp_PolicyID req <> "")) 400%Z in
  let! claims := GetClaimsFromContext ctx in
  let! _ := on_world (NodePolicySvc.DeleteNodeSchedulingPolicy ObjectIDFromHex (e_k8s e) range claims (dp_PolicyID req)) in
  sret PEmpty.

Definition DeleteNodeSchedulingIntents : handler := fun e ctx rq =>
  let! req := bind d_delete_node_intents rq in
  let! _ := require (negb (is_nil (dn_IntentIDs req))) 400%Z in
  let! claims := GetClaimsFromContext ctx in
  let! _ := on_world (NodePolicySvc.DeleteNodeSchedulingIntents ObjectIDFromHex (e_k8s e) range claims (dn_IntentIDs req)) in
  sret PEmpty.

(** *** psm_hdl.go *)

Definition CreatePodSchedulingMetrics : handler := fun e ctx rq =>
  let! req := bind d_create_psm rq in
  let! _ := require (negb (is_nil (cq_LabelSelectors req))) 400%Z in
  let! claims := GetClaimsFromContext ctx in
  let! _ := on_world (PSM.CreatePodSchedulingMetrics ObjectIDFromHex crNamespace NewObjectID (e_now e) claims (psmRequestToDomain req)) in
  sret PNil.

Definition ListPodSchedulingMetrics : handler := fun e ctx rq =>
  let! l := on_world (PSM.ListPodSchedulingMetrics ObjectIDFromHex []) in
  sret (PPSMs (domainPSMToResponse <$> l)).

Definition UpdatePodSchedulingMetrics : handler := fun e ctx rq =>
  let! req := bind d_update_psm rq in
  let! _ := require (bool_decide (uq_PSMID req <> "")) 400%Z in
  let! claims := GetClaimsFromContext ctx in
  let! _ := on_world (PSM.UpdatePodSchedulingMetrics ObjectIDFromHex crNamespace claims (uq_PSMID req) (updatePSMRequestToDomain req)) in
  sret PEmpty.

Definition DeletePodSchedulingMetrics : handler := fun e ctx rq =>
  let! req := bind d_delete_psm rq in
  let! _ := require (bool_decide (dq_ID req <> "")) 400%Z in
  let! claims := GetClaimsFromContext ctx in
  let! _ := on_world (PSM.DeletePodSchedulingMetrics ObjectIDFromHex claims (dq_ID req)) in
  sret PEmpty.

(** *** psm_runtime_hdl.go *)

Definition ListPodSchedulingMetricValues : handler := fun e ctx rq =>
  let! r := given (PSM.ListPodSchedulingMetricValues range_values (e_k8s e) (e_values e)) in
  sret (PValues r.1 r.2).

(** *** classify_hdl.go *)

Definition IngestPodMetrics : handler := fun e ctx rq =>
  let! req := bind d_ingest rq in
  let ns := TrimSpace (inNamespace req) in
  let pod := TrimSpace (inPod req) in
  let! _ := require (bool_decide (ns <> "" /\ pod <> "")) 400%Z in
  let! item := on_classifier (fun c =>
    Ingest range_pods c {| inTimestamp := inTimestamp req; inNamespace := ns; inPod := pod; inNode := TrimSpace (inNode req);
                           inMetrics := inMetrics req |} (e_clock e) (e_clock e)) in
  sret (PClassification item).

Definition GetPodClassification : handler := fun e ctx rq =>
  let ns := TrimSpace (rq_param rq "namespace") in
  let pod := TrimSpace (rq_param rq "pod") in
  let! _ := require (bool_decide (ns <> "" /\ pod <> "")) 400%Z in
  let! found := on_classifier (fun c => (c, Get c ns pod)) in
  match found with
  | None => sfail 404%Z
  | Some item => sret (PClassification item)
  end.

Definition ListPodClassifications : handler := fun e ctx rq =>
  let! items := on_classifier (fun c => (c, List range_pods c (TrimSpace (rq_query rq "namespace")) (TrimSpace (rq_query rq "phase"))
                                               (TrimSpace (rq_query rq "type")))) in
  sret (PClassifications items).

(** *** runtime_config_hdl.go: the service has the two operations. *)

Definition ApplyRuntimeConfig : handler := fun e ctx rq =>
  let! req := bind d_apply_runtime rq in
  let! claims := GetClaimsFromContext ctx in
  let! results := on_runtime (RuntimeSvc.ApplyRuntimeConfig (e_k8s e) (e_now e) (Some claims)
                                (Some (mkApplyOptions (ar_NodeIDs req) (ar_Config req)))) in
  sret (PResults results).

Definition GetRuntimeConfigStatus : handler := fun e ctx rq =>
  let! results := on_runtime (RuntimeSvc.GetRuntimeConfigStatus (e_k8s e) range (node_ids (rq_query rq "nodeIds"))) in
  sret (PResults results).

(** *** middleware.go *)

Definition bearer_token (header : string) : option string :=
  if decide (header = "") then None else
  if (String.length header <=? 7)%nat || negb (String.prefix "Bearer " header) then None else
  Some (String.substring 7 (String.length header - 7) header).

Definition GetAuthMiddleware (permissionKey : string) (e : env) (rq : request) (next : context -> server -> server * list response)
    (s : server) : server * list response :=
  match bearer_token (rq_authorization rq) with
  | None => (s, [Failure 401])
  | Some token =>
      match on_auth (VerifyJWTToken ObjectIDFromHex (e_now e) token permissionKey) s with
      | (s, Err code) => (s, [Failure code])
      | (s, Ok (claims, rolePolicy)) => next (Some (claims, rolePolicy)) s
      end
  end.

End handlers.
End Handler.

(** ** routes.go *)

Inductive route :=
| RHealth | RVersion
| RLogin | RRefresh | RLogout | RLogoutAll | RValidate
| RCreateUser | RResetPassword | RUserPermissions | RListUsers | RChangePassword | RSelf
| RCreateRole | RUpdateRole | RDeleteRole | RListRoles | RPermissions
| RCreateStrategy | RUpdateStrategy | RSelfStrategies | RDeleteStrategy | RSelfIntents | RDeleteIntents
| RCreatePolicy | RUpdatePolicy | RSelfPolicies | RDeletePolicy | RSelfNodeIntents | RDeleteNodeIntents
| RNodes | RMapping
| RIngest | RCreatePSM | RListPSM | RValues | RClassifications | RClassification | RUpdatePSM | RDeletePSM
| RApplyRuntime | RRuntimeStatus.

#[global] Instance route_eq_dec : EqDecision route.
Proof. solve_decision. Defined.

(** Method, path, and the permission of the middleware if there is one; the empty
    permission asks for a valid token only. *)
Definition endpoint (r : route) : string * string * option string :=
  match r with
  | RHealth => ("GET", "/health", None)
  | RVersion => ("GET", "/version", None)
  | RLogin => ("POST", "/api/v1/auth/login", None)
  | RRefresh => ("POST", "/api/v1/auth/refresh", None)
  | RLogout => ("POST", "/api/v1/auth/logout", None)
  | RLogoutAll => ("POST", "/api/v1/auth/logout-all", Some "")
  | RValidate => ("GET", "/api/v1/auth/validate", Some "")
  | RCreateUser => ("POST", "/api/v1/users", Some "user.create")
  | RResetPassword => ("PUT", "/api/v1/users/password", Some "user.password.reset")
  | RUserPermissions => ("PUT", "/api/v1/users/permissions", Some "user.permission.update")
  | RListUsers => ("GET", "/api/v1/users", Some "user.read")
  | RChangePassword => ("PUT", "/api/v1/users/self/password", Some "user.password.change")
  | RSelf => ("GET", "/api/v1/users/self", Some "")
  | RCreateRole => ("POST", "/api/v1/roles", Some "role.create")
  | RUpdateRole => ("PUT", "/api/v1/roles", Some "role.update")
  | RDeleteRole => ("DELETE", "/api/v1/roles", Some "role.delete")
  | RListRoles => ("GET", "/api/v1/roles", Some "role.read")
  | RPermissions => ("GET", "/api/v1/permissions", Some "permission.read")
  | RCreateStrategy => ("POST", "/api/v1/strategies", Some "schedule_strategy.create")
  | RUpdateStrategy => ("PUT", "/api/v1/strategies", Some "schedule_strategy.update")
  | RSelfStrategies => ("GET", "/api/v1/strategies/self", Some "schedule_strategy.read")
  | RDeleteStrategy => ("DELETE", "/api/v1/strategies", Some "schedule_strategy.delete")
  | RSelfIntents => ("GET", "/api/v1/intents/self", Some "schedule_intent.read")
  | RDeleteIntents => ("DELETE", "/api/v1/intents", Some "schedule_intent.delete")
  | RCreatePolicy => ("POST", "/api/v1/node-scheduling-policies", Some "node_scheduling_policy.create")
  | RUpdatePolicy => ("PUT", "/api/v1/node-scheduling-policies", Some "node_scheduling_policy.update")
  | RSelfPolicies => ("GET", "/api/v1/node-scheduling-policies/self", Some "node_scheduling_policy.read")
  | RDeletePolicy => ("DELETE", "/api/v1/node-scheduling-policies", Some "node_scheduling_policy.delete")
  | RSelfNodeIntents => ("GET", "/api/v1/node-scheduling-intents/self", Some "node_scheduling_intent.read")
  | RDeleteNodeIntents => ("DELETE", "/api/v1/node-scheduling-intents", Some "node_scheduling_intent.delete")
  | RNodes => ("GET", "/api/v1/nodes", Some "pod_pid_mapping.read")
  | RMapping => ("GET", "/api/v1/nodes/:nodeID/pods/pids", Some "pod_pid_mapping.read")
  | RIngest => ("POST", "/api/v1/metrics", Some "pod_scheduling_metrics.create")
  | RCreatePSM => ("POST", "/api/v1/pod-scheduling-metrics", Some "pod_scheduling_metrics.create")
  | RListPSM => ("GET", "/api/v1/pod-scheduling-metrics", Some "pod_scheduling_metrics.read")
  | RValues => ("GET", "/api/v1/pod-scheduling-metrics/runtime", Some "pod_scheduling_metrics.read")
  | RClassifications => ("GET", "/api/v1/classify", Some "pod_scheduling_metrics.read")
  | RClassification => ("GET", "/api/v1/classify/:namespace/:pod", Some "pod_scheduling_metrics.read")
  | RUpdatePSM => ("PUT", "/api/v1/pod-scheduling-metrics", Some "pod_scheduling_metrics.update")
  | RDeletePSM => ("DELETE", "/api/v1/pod-scheduling-metrics", Some "pod_scheduling_metrics.delete")
  | RApplyRuntime => ("POST", "/api/v1/scheduler/runtime-config/apply", Some "scheduler_config.update")
  | RRuntimeStatus => ("GET", "/api/v1/scheduler/runtime-config/status", Some "scheduler_config.read")
  end.
Definition permission (r : route) : option string := (endpoint r).2.
Definition method (r : route) : string := (endpoint r).1.1.

Section routes.
  Context {U R K F D : Type} `{Collection U User} `{Collection R Role} `{KubeAPI K} `{RuntimeDM F} `{ConfigCollection D}
    {A : Argon2Lib} {J : JWTLib}.
  Variable ObjectIDFromHex : string -> option ObjectID.
  Variable NewObjectID : nat -> ObjectID.
  Variable crNamespace : string.
  Variable random_salt : nat -> option (list Z).
  Variable xid : nat -> string.
  Variable range : list string -> list string.
  Variable range_pods : gmap string podState -> list (string * podState).
  Variable range_values : gmap string PodSchedulingMetricValue -> list (string * PodSchedulingMetricValue).
  Notation server := (server U R K F D).

(** The handler of a route, but for the permissions of a user, whose handler may write
    two responses. *)
Definition handler_of (r : route) (e : env) (ctx : context) (rq : request) : SE server Z payload :=
  match r with
  | RHealth => sret PHealth
  | RVersion => sret PVersion
  | RLogin => Handler.Login random_salt xid e ctx rq
  | RRefresh => Handler.RefreshToken ObjectIDFromHex random_salt xid e ctx rq
  | RLogout => Handler.Logout ObjectIDFromHex random_salt e ctx rq
  | RLogoutAll => Handler.LogoutAll ObjectIDFromHex random_salt e ctx rq
  | RValidate => Handler.ValidateToken e ctx rq
  | RCreateUser => Handler.CreateUser ObjectIDFromHex NewObjectID random_salt e ctx rq
  | RResetPassword => Handler.ResetPassword ObjectIDFromHex random_salt e ctx rq
  | RUserPermissions => Handler.update_user_permissions ObjectIDFromHex random_salt e ctx (JSONBind d_user_permissions (rq_body rq)).1
  | RListUsers => Handler.ListUsers e ctx rq
  | RChangePassword => Handler.ChangePassword ObjectIDFromHex random_salt e ctx rq
  | RSelf => Handler.GetSelfUser ObjectIDFromHex e ctx rq
  | RCreateRole => Handler.CreateRole ObjectIDFromHex NewObjectID e ctx rq
  | RUpdateRole => Handler.UpdateRole ObjectIDFromHex e ctx rq
  | RDeleteRole => Handler.DeleteRole e ctx rq
  | RListRoles => Handler.ListRoles e ctx rq
  | RPermissions => Handler.ListPermissions e ctx rq
  | RCreateStrategy => Handler.CreateScheduleStrategy ObjectIDFromHex NewObjectID crNamespace range e ctx rq
  | RUpdateStrategy => Handler.UpdateScheduleStrategy ObjectIDFromHex NewObjectID crNamespace range e ctx rq
  | RSelfStrategies => Handler.ListSelfScheduleStrategies ObjectIDFromHex e ctx rq
  | RDeleteStrategy => Handler.DeleteScheduleStrategy ObjectIDFromHex range e ctx rq
  | RSelfIntents => Handler.ListSelfScheduleIntents ObjectIDFromHex e ctx rq
  | RDeleteIntents => Handler.DeleteScheduleIntents ObjectIDFromHex range e ctx rq
  | RCreatePolicy => Handler.CreateNodeSchedulingPolicy ObjectIDFromHex NewObjectID crNamespace range e ctx rq
  | RUpdatePolicy => Handler.UpdateNodeSchedulingPolicy ObjectIDFromHex NewObjectID crNamespace range e ctx rq
  | RSelfPolicies => Handler.ListSelfNodeSchedulingPolicies ObjectIDFromHex e ctx rq
  | RDeletePolicy => Handler.DeleteNodeSchedulingPolicy ObjectIDFromHex range e ctx rq
  | RSelfNodeIntents => Handler.ListSelfNodeSchedulingIntents ObjectIDFromHex e ctx rq
  | RDeleteNodeIntents => Handler.DeleteNodeSchedulingIntents ObjectIDFromHex range e ctx rq
  | RNodes => Handler.ListNodes e ctx rq
  | RMapping => Handler.GetNodePodPIDMapping e ctx rq
  | RIngest => Handler.IngestPodMetrics range_pods e ctx rq
  | RCreatePSM => Handler.CreatePodSchedulingMetrics ObjectIDFromHex NewObjectID crNamespace e ctx rq
  | RListPSM => Handler.ListPodSchedulingMetrics ObjectIDFromHex e ctx rq
  | RValues => Handler.ListPodSchedulingMetricValues range_values e ctx rq
  | RClassifications => Handler.ListPodClassifications range_pods e ctx rq
  | RClassification => Handler.GetPodClassification e ctx rq
  | RUpdatePSM => Handler.UpdatePodSchedulingMetrics ObjectIDFromHex crNamespace e ctx rq
  | RDeletePSM => Handler.DeletePodSchedulingMetrics ObjectIDFromHex e ctx rq
  | RApplyRuntime => Handler.ApplyRuntimeConfig e ctx rq
  | RRuntimeStatus => Handler.GetRuntimeConfigStatus range e ctx rq
  end.

Definition run_handler (r : route) (e : env) (rq : request) (ctx : context) (s : server) : server * list response :=
  match r with
  | RUserPermissions => Handler.UpdateUserPermissions ObjectIDFromHex random_salt e ctx rq s
  | _ => Handler.respond (handler_of r e ctx rq) s
  end.

(** A request to a route. *)
Definition serve (r : route) (e : env) (rq : request) (s : server) : server * list response :=
  match permission r with
  | None => run_handler r e rq None s
  | Some key => Handler.GetAuthMiddleware ObjectIDFromHex key e rq (run_handler r e rq) s
  end.
End routes.

(** ** What a request may change *)

Section facts.
  Context {U R K F D : Type} `{CollectionLaws U User} `{CollectionLaws R Role} `{KubeAPI K} `{RuntimeDM F} `{ConfigCollection D}
    {A : Argon2Lib} {J : JWTLib}.
  Variable ObjectIDFromHex : string -> option ObjectID.
  Variable NewObjectID : nat -> ObjectID.
  Variable crNamespace : string.
  Variable random_salt : nat -> option (list Z).
  Variable xid : nat -> string.
  Variable range : list string -> list string.
  Variable range_pods : gmap string podState -> list (string * podState).
  Variable range_values : gmap string PodSchedulingMetricValue -> list (string * PodSchedulingMetricValue).

Notation server := (server U R K F D).
Notation run := (run_handler ObjectIDFromHex NewObjectID crNamespace random_salt xid range range_pods range_values).
Notation serves := (serve ObjectIDFromHex NewObjectID crNamespace random_salt xid range range_pods range_values).
Notation middleware := (Handler.GetAuthMiddleware ObjectIDFromHex).

(** The data are the same: accounts, resources, configurations and the classifier. *)
Definition same_server (s s' : server) : Prop :=
  same_data (sv_rbac s) (sv_rbac s') /\ sv_world s' = sv_world s /\ sv_runtime s' = sv_runtime s /\ sv_classifier s' = sv_classifier s.

Definition refusal (codes : list Z) (l : list response) : Prop := exists code, l = [Failure code] /\ code ∈ codes.

Lemma verify_run now token key (s : server) :
  keyed_users (sv_rbac s) ->
  let '(s', res) := Handler.on_auth (VerifyJWTToken ObjectIDFromHex now token key) s in
  same_server s s' /\
  match res with
  | Ok (c, p) => granted ObjectIDFromHex now token key (sv_rbac s) c p
  | Err code => code ∈ [401; 403; 500]%Z
  end.
Proof.
  intros Hk. unfold Handler.on_auth. pose proof (verify_token_granted ObjectIDFromHex now token key (sv_rbac s) Hk) as V.
  destruct (VerifyJWTToken _ _ _ _ _) as [r' [[c p]|err]]; destruct V as [Hs V]; (split; [done|]); [done|].
  destruct V as [Ht|[[-> | ->] _]]; [|left|right; left]. destruct err; cbn [auth_status]; try (right; right; left). by destruct (Ht code).
Qed.

(** The middleware refuses, or the handler runs on the same data with what was granted. *)
Lemma middleware_spec key e rq next (s : server) :
  keyed_users (sv_rbac s) ->
  same_server s (middleware key e rq next s).1 /\ refusal [401; 403; 500]%Z (middleware key e rq next s).2 \/
  exists token c p s0, Handler.bearer_token (rq_authorization rq) = Some token /\
    granted ObjectIDFromHex (e_now e) token key (sv_rbac s) c p /\ same_server s s0 /\ middleware key e rq next s = next (Some (c, p)) s0.
Proof.
  intros Hk. unfold Handler.GetAuthMiddleware. destruct (Handler.bearer_token _) as [token|].
  2: { left. split; [done|]. exists 401%Z. split; [done|]. left. }
  pose proof (verify_run (e_now e) token key s Hk) as V.
  destruct (Handler.on_auth _ s) as [s1 [[c p]|code]]; destruct V as [Hs V].
  - right. by exists token, c, p, s1.
  - left. split; [done|]. by exists code.
Qed.

(** Whether a body is accepted, for the routes that read one. *)
Definition body_ok (r : route) (rq : request) : bool :=
  let ok {B} (d : decoder B) := (JSONBind d (rq_body rq)).2 in
  match r with
  | RLogin => ok d_login
  | RRefresh | RLogout => ok d_refresh
  | RCreateUser => ok d_create_user
  | RResetPassword => ok d_reset_password
  | RUserPermissions => ok d_user_permissions
  | RChangePassword => ok d_change_password
  | RCreateRole => ok d_create_role
  | RUpdateRole => ok d_update_role
  | RDeleteRole => ok d_delete_role
  | RCreateStrategy => ok d_create_strategy
  | RUpdateStrategy => ok d_update_strategy
  | RDeleteStrategy => ok d_delete_strategy
  | RDeleteIntents => ok d_delete_intents
  | RCreatePolicy => ok d_create_policy
  | RUpdatePolicy => ok d_update_policy
  | RDeletePolicy => ok d_delete_policy
  | RDeleteNodeIntents => ok d_delete_node_intents
  | RIngest => ok d_ingest
  | RCreatePSM => ok d_create_psm
  | RUpdatePSM => ok d_update_psm
  | RDeletePSM => ok d_delete_psm
  | RApplyRuntime => ok d_apply_runtime
  | _ => true
  end.

Lemma bind_refused {B C} (d : decoder B) rq (k : B -> SE server Z C) s :
  (JSONBind d (rq_body rq)).2 = false -> sbind (Handler.bind d rq) k s = (s, Err 400%Z).
Proof. unfold sbind, Handler.bind. destruct (JSONBind d (rq_body rq)) as [b ok]. cbn. by intros ->. Qed.

Lemma run_other r e rq ctx (s : server) : r <> RUserPermissions ->
  run r e rq ctx s = Handler.respond (handler_of ObjectIDFromHex NewObjectID crNamespace random_salt xid range range_pods range_values r e ctx rq) s.
Proof. intros Hne. destruct r; reflexivity || done. Qed.

Lemma refused_body_run r e rq ctx (s : server) :
  r <> RUserPermissions -> body_ok r rq = false -> run r e rq ctx s = (s, [Failure 400%Z]).
Proof.
  intros Hne Hb. rewrite run_other by done. unfold Handler.respond.
  assert (handler_of ObjectIDFromHex NewObjectID crNamespace random_salt xid range range_pods range_values r e ctx rq s = (s, Err 400%Z)) as ->; [|done].
  destruct r; try discriminate Hb; try done; exact (bind_refused _ rq _ s Hb).
Qed.

(** *** Frames *)

Section frame.
  Context (Ra : rbac U R -> rbac U R -> Prop) (Rw : Manager.world K -> Manager.world K -> Prop)
    (Rt : rt_world F D -> rt_world F D -> Prop) (Rc : AdaptiveClassifier -> AdaptiveClassifier -> Prop)
    `{!PreOrder Ra} `{!PreOrder Rw} `{!PreOrder Rt} `{!PreOrder Rc}.

(** A relation for each part of the state. *)
Definition framed (s s' : server) : Prop :=
  Ra (sv_rbac s) (sv_rbac s') /\ Rw (sv_world s) (sv_world s') /\ Rt (sv_runtime s) (sv_runtime s') /\ Rc (sv_classifier s) (sv_classifier s').

#[global] Instance framed_preorder : PreOrder framed.
Proof.
  split; [intros s; split_and!; reflexivity|]. intros s1 s2 s3 (? & ? & ? & ?) (? & ? & ? & ?). split_and!; by etransitivity.
Qed.

Lemma keeps_on_auth {B} (m : SE (rbac U R) auth_error B) : keeps Ra m -> keeps framed (Handler.on_auth m).
Proof. intros Hm s. specialize (Hm (sv_rbac s)). unfold Handler.on_auth. destruct (m (sv_rbac s)) as [r []]; split_and!; cbn; done || reflexivity. Qed.
Lemma keeps_on_world {B} (m : SE (Manager.world K) mgr_error B) : keeps Rw m -> keeps framed (Handler.on_world m).
Proof. intros Hm s. specialize (Hm (sv_world s)). unfold Handler.on_world. destruct (m (sv_world s)) as [r []]; split_and!; cbn; done || reflexivity. Qed.
Lemma keeps_on_runtime {B} (m : SE (rt_world F D) rt_error B) : keeps Rt m -> keeps framed (Handler.on_runtime m).
Proof. intros Hm s. specialize (Hm (sv_runtime s)). unfold Handler.on_runtime. destruct (m (sv_runtime s)) as [r []]; split_and!; cbn; done || reflexivity. Qed.
Lemma keeps_on_classifier {B} (m : AdaptiveClassifier -> AdaptiveClassifier * B) :
  (forall c, Rc c (m c).1) -> keeps framed (Handler.on_classifier m).
Proof. intros Hm s. specialize (Hm (sv_classifier s)). unfold Handler.on_classifier. destruct (m (sv_classifier s)) as [c b]; split_and!; cbn; done || reflexivity. Qed.
Lemma keeps_given {B} (o : option B) : keeps framed (Handler.given o).
Proof. unfold Handler.given. keep. Qed.
Lemma keeps_body {B} (d : decoder B) rq : keeps framed (Handler.bind d rq).
Proof. unfold Handler.bind. keep. Qed.
Lemma keeps_require b code : keeps framed (Handler.require b code).
Proof. unfold Handler.require. keep. Qed.
Lemma keeps_claims ctx : keeps framed (Handler.GetClaimsFromContext ctx).
Proof. unfold Handler.GetClaimsFromContext. keep. Qed.
Lemma keeps_policy ctx id : keeps framed (Handler.VerifyResourcePolicy ctx id).
Proof. unfold Handler.VerifyResourcePolicy. keep. Qed.
Lemma keeps_uid code c : keeps framed (Handler.uid_of ObjectIDFromHex code c).
Proof. unfold Handler.uid_of. keep. Qed.
End frame.
End facts.

#[export] Hint Resolve keeps_on_auth keeps_on_world keeps_on_runtime keeps_on_classifier keeps_given keeps_body keeps_require keeps_claims
  keeps_policy keeps_uid : keeps.

(** Nothing but the accounts. *)
Definition accounts_only {U R K F D} : server U R K F D -> server U R K F D -> Prop := framed (fun _ _ => True) eq eq eq.
#[global] Instance true_preorder {S : Type} : PreOrder (fun _ _ : S => True).
Proof. done. Qed.

Section requests.
  Context {U R K F D : Type} `{CollectionLaws U User} `{CollectionLaws R Role} `{KubeLaws K} `{RuntimeDMLaws F} `{ConfigLaws D}
    {A : Argon2Lib} {J : JWTLib}.
  Variable ObjectIDFromHex : string -> option ObjectID.
  Variable NewObjectID : nat -> ObjectID.
  Variable crNamespace : string.
  Variable random_salt : nat -> option (list Z).
  Variable xid : nat -> string.
  Variable range : list string -> list string.
  Variable range_pods : gmap string podState -> list (string * podState).
  Variable range_values : gmap string PodSchedulingMetricValue -> list (string * PodSchedulingMetricValue).

Notation server := (server U R K F D).
Notation run := (run_handler ObjectIDFromHex NewObjectID crNamespace random_salt xid range range_pods range_values).
Notation serves := (serve ObjectIDFromHex NewObjectID crNamespace random_salt xid range range_pods range_values).
Notation handles := (handler_of ObjectIDFromHex NewObjectID crNamespace random_salt xid range range_pods range_values).

Lemma respond_keeps (Rel : server -> server -> Prop) m (s : server) : keeps Rel m -> Rel s (Handler.respond m s).1.
Proof. intros Hm. specialize (Hm s). unfold Handler.respond. by destruct (m s) as [s' []]. Qed.

Lemma keeps_any {B} (m : SE (rbac U R) auth_error B) : keeps (fun _ _ => True) m.
Proof. done. Qed.
#[local] Hint Resolve keeps_any : keeps.

Lemma open_routes r e rq ctx (s : server) : permission r = None -> accounts_only s (run r e rq ctx s).1.
Proof.
  intros Hp. assert (r ∈ [RHealth; RVersion; RLogin; RRefresh; RLogout]) as Hr.
  { destruct r; try discriminate Hp; by apply (bool_decide_unpack _). }
  rewrite run_other by (by intros ->). apply respond_keeps. unfold accounts_only.
  rewrite !elem_of_cons in Hr. destruct Hr as [->|[->|[->|[->|[->|?%not_elem_of_nil]]]]]; [..|done].
  - apply keeps_ret, _.
  - apply keeps_ret, _.
  - unfold handler_of, Handler.Login. keep.
  - unfold handler_of, Handler.RefreshToken. keep.
  - unfold handler_of, Handler.Logout. keep.
Qed.

(** C12 (safety): a request changes nothing at all, and is answered with one refusal, unless
    it carries a token to which the permission of its route is granted now; the routes without
    a permission, for logging in and out, change nothing but accounts. *)
Theorem no_grant_no_effect r e rq (s : server) :
  keyed_users (sv_rbac s) ->
  (forall key token c p, permission r = Some key -> Handler.bearer_token (rq_authorization rq) = Some token ->
     ~ granted ObjectIDFromHex (e_now e) token key (sv_rbac s) c p) ->
  let '(s', l) := serves r e rq s in
  match permission r with
  | Some _ => same_server s s' /\ refusal [401; 403; 500]%Z l
  | None => accounts_only s s'
  end.
Proof.
  intros Hk Hno. unfold serve. destruct (permission r) as [key|] eqn:Hp.
  - destruct (middleware_spec ObjectIDFromHex key e rq (run r e rq) s Hk) as [[Hs Hl]|(token & c & p & s0 & Ht & Hg & _)].
    + by destruct (Handler.GetAuthMiddleware _ _ _ _ _ s).
    + by destruct (Hno key token c p).
  - pose proof (open_routes r e rq None s Hp). by destruct (run r e rq None s).
Qed.

(** C35 (error): a body that cannot be decoded changes nothing, whoever sends it and on
    every route but that for the permissions of a user, and the one response says so. *)
Theorem refused_body_no_effect r e rq (s : server) :
  keyed_users (sv_rbac s) -> r <> RUserPermissions -> body_ok r rq = false ->
  let '(s', l) := serves r e rq s in same_server s s' /\ refusal [400; 401; 403; 500]%Z l.
Proof.
  intros Hk Hr Hb. unfold serve. destruct (permission r) as [key|].
  - destruct (middleware_spec ObjectIDFromHex key e rq (run r e rq) s Hk) as [[Hs Hl]|(token & c & p & s0 & Ht & Hg & Hs & ->)].
    + destruct (Handler.GetAuthMiddleware _ _ _ _ _ s). cbn [fst snd] in *. split; [done|]. destruct Hl as (code & -> & Hc). exists code. split; [done|]. by right.
    + rewrite refused_body_run by done. split; [done|]. exists 400%Z. split; [done|]. left.
  - rewrite refused_body_run by done. split; [by split_and!|]. exists 400%Z. split; [done|]. left.
Qed.

(** Remark (error): the permissions of a user are changed by a body that is refused: when two
    requests are decoded to the same request, one accepted and one refused, they do the same
    to the manager, and only the first response tells them apart. *)
Theorem refused_permissions_applied e rq rq' (s : server) :
  keyed_users (sv_rbac s) -> rq_authorization rq' = rq_authorization rq ->
  (JSONBind d_user_permissions (rq_body rq)).1 = (JSONBind d_user_permissions (rq_body rq')).1 ->
  body_ok RUserPermissions rq = false -> body_ok RUserPermissions rq' = true ->
  let '(s', l') := serves RUserPermissions e rq' s in
  serves RUserPermissions e rq s = (s', l') /\ refusal [401; 403; 500]%Z l' \/
  serves RUserPermissions e rq s = (s', Failure 400%Z :: l').
Proof.
  intros Hk Ha Hd Hb Hb'. unfold body_ok in Hb, Hb'.
  assert (forall ctx s0, let '(s', l') := run RUserPermissions e rq' ctx s0 in run RUserPermissions e rq ctx s0 = (s', Failure 400%Z :: l')) as Hrun.
  { intros ctx s0. unfold run_handler, Handler.UpdateUserPermissions.
    destruct (JSONBind d_user_permissions (rq_body rq)) as [req ok], (JSONBind d_user_permissions (rq_body rq')) as [req' ok']. cbn in *. subst.
    by destruct (Handler.respond _ s0). }
  unfold serve. change (permission RUserPermissions) with (Some "user.permission.update").
  unfold Handler.GetAuthMiddleware. rewrite Ha. destruct (Handler.bearer_token _) as [token|].
  2: { left. split; [done|]. exists 401%Z. split; [done|]. left. }
  pose proof (verify_run ObjectIDFromHex (e_now e) token "user.permission.update" s Hk) as V.
  destruct (Handler.on_auth _ s) as [s1 [[c p]|code]]; destruct V as [_ V].
  - specialize (Hrun (Some (c, p)) s1). destruct (run RUserPermissions e rq' (Some (c, p)) s1). by right.
  - left. split; [done|]. by exists code.
Qed.

(** The user a request is about, for the two routes that ask for the owner. *)
Definition target (r : route) (rq : request) : option string :=
  match r with
  | RResetPassword => Some (rp_UserID (JSONBind d_reset_password (rq_body rq)).1)
  | RUserPermissions => Some (pr_UserID (JSONBind d_user_permissions (rq_body rq)).1)
  | _ => None
  end.

Lemma policy_refuses ctx c p id (s : server) :
  ctx = Some (c, p) -> rp_Self p = true -> cl_UID c <> id -> Handler.VerifyResourcePolicy ctx id s = (s, Err 403%Z).
Proof. intros -> Hp Hc. unfold Handler.VerifyResourcePolicy. rewrite Hp. by rewrite bool_decide_true. Qed.

Ltac failures := split; [done|]; repeat (apply Forall_cons_2; [done|]); apply Forall_nil_2.

(** C33 (safety): where every policy that grants a user the reset of passwords or the
    change of permissions is restricted to the user's own account, a request about another
    account changes nothing and every response is a failure. *)
Theorem self_policy_confines r e rq id (s : server) :
  keyed_users (sv_rbac s) -> target r rq = Some id ->
  (forall key token c p, permission r = Some key -> Handler.bearer_token (rq_authorization rq) = Some token ->
     granted ObjectIDFromHex (e_now e) token key (sv_rbac s) c p -> rp_Self p = true /\ cl_UID c <> id) ->
  let '(s', l) := serves r e rq s in same_server s s' /\ Forall (fun resp => status resp <> 200%Z) l.
Proof.
  intros Hk Ht Hself. unfold serve.
  assert (exists key, permission r = Some key) as [key Hp] by (destruct r; try discriminate Ht; by eexists). rewrite Hp.
  destruct (middleware_spec ObjectIDFromHex key e rq (run r e rq) s Hk) as [[Hs Hl]|(token & c & p & s0 & Hb & Hg & Hs & ->)].
  - destruct (Handler.GetAuthMiddleware _ _ _ _ _ s). cbn [fst snd] in *. split; [done|]. destruct Hl as (code & -> & Hc).
    constructor; [|done]. cbn. intros ->. revert Hc. by apply (bool_decide_unpack _).
  - destruct (Hself key token c p Hp Hb Hg) as [Hps Hc]. destruct r; try discriminate Ht; injection Ht as <-; cbn [target] in *.
    + rewrite run_other by done. unfold Handler.respond. cbn [handler_of]. unfold Handler.ResetPassword, Handler.bind, sbind at 1.
      destruct (JSONBind d_reset_password (rq_body rq)) as [req []]; [|by failures].
      unfold sbind, Handler.GetClaimsFromContext, sret. cbv beta iota. cbn [fst] in *. rewrite (policy_refuses _ c p) by done. by failures.
    + unfold run_handler, Handler.UpdateUserPermissions. destruct (JSONBind d_user_permissions (rq_body rq)) as [req ok]. cbn [fst] in *.
      unfold Handler.respond, Handler.update_user_permissions, sbind, Handler.GetClaimsFromContext, sret. cbv beta iota.
      rewrite (policy_refuses _ c p) by done. destruct ok; by failures.
Qed.

(** *** Reading *)

Definition same_kube (r r' : repo K) : Prop := unchanged (r_kube r) (r_kube r').
Definition same_runtime (w w' : rt_world F D) : Prop :=
  applied (rt_fleet w') = applied (rt_fleet w) /\ configs (rt_db w') = configs (rt_db w).

#[local] Instance same_kube_preorder : PreOrder same_kube.
Proof. split; [by intros r g|]. intros r1 r2 r3. apply unchanged_trans. Qed.
#[local] Instance same_runtime_preorder : PreOrder same_runtime.
Proof. split; [done|]. intros w1 w2 w3 [? ?] [? ?]. split; congruence. Qed.
#[local] Instance same_data_preorder : PreOrder (same_data (U := U) (R := R)).
Proof. split; [intros w; apply same_data_refl|]. intros w1 w2 w3. apply same_data_trans. Qed.

(** Everything is as it was, up to the inner state of the databases. *)
Definition reads_only : server -> server -> Prop := framed same_data (both eq same_kube) same_runtime eq.

Lemma reads_get g n : keeps same_kube (kube (kube_Get g n)).
Proof. intros [k nx]. unfold kube. pose proof (get_law g n k) as L. cbn. destruct (kube_Get g n k). by destruct L. Qed.
Lemma reads_list g reqs : keeps same_kube (kube (kube_List g reqs)).
Proof. intros [k nx]. unfold kube. pose proof (list_law g reqs k) as L. cbn. destruct (kube_List g reqs k). by destruct L. Qed.
Lemma reads_lift {B} (m : result repo_error B) : keeps same_kube (lift m).
Proof. intros r g. done. Qed.
#[local] Hint Resolve reads_get reads_list reads_lift : keeps.

Lemma reads_query {B} g from (keep_ : B -> bool) ids sel : keeps same_kube (query_objects g from keep_ ids sel).
Proof. unfold query_objects, fetch, convert. keep. Qed.

Lemma reads_users opt : keeps same_data (QueryUsers opt : SE (rbac U R) auth_error _).
Proof.
  intros w. unfold QueryUsers. destruct opt as [opt|]; [|reflexivity]. match goal with |- context [on_users (Find ?f) w] => pose proof (find_users_spec f w) as L; destruct (on_users (Find f) w) end.
  by destruct L.
Qed.
Lemma reads_roles opt : keeps same_data (QueryRoles opt : SE (rbac U R) auth_error _).
Proof.
  intros w. unfold QueryRoles. destruct opt as [opt|]; [|reflexivity]. match goal with |- context [on_roles (Find ?f) w] => pose proof (find_roles_spec f w) as L; destruct (on_roles (Find f) w) end.
  by destruct L.
Qed.

Lemma reads_status k8s nodes : keeps same_runtime (RuntimeSvc.GetRuntimeConfigStatus k8s range nodes).
Proof.
  assert (forall dm, keeps same_runtime (RuntimeSvc.on_dm (dm_GetRuntimeConfigStatus dm))) as Hdm.
  { intros dm w. unfold RuntimeSvc.on_dm. pose proof (dm_status_law dm (rt_fleet w)) as [L _]. destruct (dm_GetRuntimeConfigStatus dm (rt_fleet w)). by split. }
  assert (forall q, keeps same_runtime (RuntimeSvc.on_db (QueryNodeRuntimeConfigs q) : SE (rt_world F D) rt_error _)) as Hdb.
  { intros q w. unfold RuntimeSvc.on_db, QueryNodeRuntimeConfigs. destruct q as [q|]; [|done].
    match goal with |- context [config_Find ?f (rt_db w)] => pose proof (config_find_law f (rt_db w)) as [L _]; destruct (config_Find f (rt_db w)) end. by split. }
  unfold RuntimeSvc.GetRuntimeConfigStatus, singly, status_one. keep.
Qed.
#[local] Hint Resolve reads_query reads_users reads_roles reads_status : keeps.

(** C34 (safety): a GET request changes nothing, whoever sends it: not the accounts, not the
    resources in the cluster or the decision makers, not the configurations of the nodes and
    not the classifier. *)
Theorem get_changes_nothing r e rq (s : server) :
  keyed_users (sv_rbac s) -> method r = "GET" -> reads_only s (serves r e rq s).1.
Proof.
  intros Hk Hm. assert (forall ctx, keeps reads_only (handles r e ctx rq)) as Hr.
  { intros ctx. unfold reads_only. destruct r; try discriminate Hm; unfold handler_of;
      unfold Handler.ValidateToken, Handler.ListUsers, Handler.GetSelfUser, Handler.ListRoles, Handler.ListPermissions,
        Handler.ListSelfScheduleStrategies, Handler.ListSelfScheduleIntents, Handler.ListSelfNodeSchedulingPolicies,
        Handler.ListSelfNodeSchedulingIntents, Handler.ListNodes, Handler.GetNodePodPIDMapping, Handler.ListPodSchedulingMetrics,
        Handler.ListPodSchedulingMetricValues, Handler.ListPodClassifications, Handler.GetPodClassification, Handler.GetRuntimeConfigStatus,
        ListScheduleStrategies, ListScheduleIntents, ListNodeSchedulingPolicies, ListNodeSchedulingIntents,
        PSM.ListPodSchedulingMetrics, QueryPSMs, QueryStrategies, QueryIntents, QueryNodePolicies, QueryNodeIntents; keep. }
  assert (forall ctx s0, reads_only s0 (run r e rq ctx s0).1) as Hrun.
  { intros ctx s0. rewrite run_other by (by intros ->). by apply respond_keeps. }
  assert (forall s0, same_server s s0 -> reads_only s s0) as Hsame.
  { intros s0 (? & Hw & Ht & Hc). unfold reads_only, framed. rewrite Hw, Ht, Hc. split_and!; done || reflexivity. }
  unfold serve. destruct (permission r) as [key|]; [|apply Hrun].
  destruct (middleware_spec ObjectIDFromHex key e rq (run r e rq) s Hk) as [[Hs _]|(token & c & p & s0 & _ & _ & Hs & ->)]; [by apply Hsame|].
  unfold reads_only in *. etransitivity; [by apply Hsame|apply Hrun].
Qed.
End requests.

(** ** What one creates, one sees *)

Section created.
  Context {U R K F D : Type} `{CollectionLaws U User} `{CollectionLaws R Role} `{KubeLaws K} `{RuntimeDMLaws F} `{ConfigLaws D}
    {A : Argon2Lib} {J : JWTLib}.
  Variable ObjectIDFromHex : string -> option ObjectID.
  Variable NewObjectID : nat -> ObjectID.
  Variable crNamespace : string.

Notation strategies k := (kube_objects k strategyGVR).
Notation held w s := (holds_strategy ObjectIDFromHex crNamespace (r_kube (w_repo w)) s).
Notation all_strategies w := (all_held (RA := strategy_resource ObjectIDFromHex crNamespace) (r_kube (w_repo w))).

Definition strategies_kept (r r' : repo K) : Prop := strategies (r_kube r') = strategies (r_kube r).
#[local] Instance strategies_kept_preorder : PreOrder strategies_kept.
Proof. split; [done|]. intros r1 r2 r3 H12 H23. unfold strategies_kept in *. congruence. Qed.

Lemma mark_keeps_strategies now st id : keeps strategies_kept (update_object_state intentGVR now st id).
Proof.
  assert (forall g n, keeps strategies_kept (kube (kube_Get g n))) as Hget.
  { intros g n [k nx]. unfold kube. pose proof (get_law g n k) as L. cbn. destruct (kube_Get g n k). destruct L as [Hu _]. apply Hu. }
  assert (forall o, keeps strategies_kept (kube (kube_Update intentGVR o))) as Hup.
  { intros o [k nx]. unfold kube. pose proof (update_law intentGVR o k) as L. cbn. destruct (kube_Update intentGVR o k) as [k' []].
    - destruct L as [_ [_ Ho]]. by apply Ho.
    - destruct L as [Hu|[_ [_ Ho]]]; [apply Hu|by apply Ho]. }
  unfold update_object_state. keep.
Qed.

Lemma send_keeps_strategies k8s range now nodes intents :
  keeps (both any_fleet strategies_kept) (send_intents (K := K) k8s range now nodes intents).
Proof.
  assert (forall ids, keeps strategies_kept (BatchUpdateIntentsState (K := K) now ids IntentStateSent)) as Hb.
  { intros ids. unfold BatchUpdateIntentsState. apply keeps_sfor; [apply _|]. intros id. apply mark_keeps_strategies. }
  assert (forall dm l, keeps any_fleet (SendSchedulingIntent dm l)) as Hs by done.
  unfold send_intents, push_to_dms, push_host. keep.
Qed.

(** The strategy a creation stores. *)
Definition created_strategy (now : Z) (id oid : ObjectID) (st : ScheduleStrategy) : ScheduleStrategy :=
  stamp_strategy now id (set_strategy_base (NewBaseEntity now oid oid) st).

Lemma create_strategy_stores k8s range now op st (w w' : Manager.world K) :
  (forall n, valid_id ObjectIDFromHex (NewObjectID n)) -> (forall x y, ObjectIDFromHex x = Some y -> valid_id ObjectIDFromHex y) ->
  all_strategies w ->
  StrategySvc.CreateScheduleStrategy ObjectIDFromHex crNamespace NewObjectID k8s range now op st w = (w', Ok tt) ->
  exists id oid, ObjectIDFromHex (cl_UID op) = Some oid /\ held w' (created_strategy now id oid st) /\ all_strategies w'.
Proof.
  intros Hnew Hparse Hall. unfold StrategySvc.CreateScheduleStrategy, GetBsonObjectUID, sbind. rewrite parse_id_run.
  destruct (ObjectIDFromHex (cl_UID op)) as [oid|] eqn:Eo; [|done]. unfold on_k8s. destruct (QueryPods _ _ _) as [[|p0 pods]|]; [done| |done].
  rewrite on_repo_run. set (st0 := set_strategy_base _ st). set (l := _ <$> _).
  pose proof (insert_strategy_spec ObjectIDFromHex crNamespace NewObjectID now st0 l (w_repo w) Hnew (or_introl eq_refl)) as I.
  destruct (InsertStrategyAndIntents _ _ _ _ _ _ _) as [r1 [[s l']|e]]; [|done]. destruct I as ((id & Hid & ->) & _ & Hat & _ & Hother).
  intros Hsend. exists id, oid. split; [done|]. set (s := stamp_strategy now id st0) in *.
  pose proof (send_keeps_strategies k8s range now (distinct (pod_NodeID <$> p0 :: pods)) l' (mkWorld (w_fleet w) r1)) as [_ Hk].
  rewrite Hsend in Hk. unfold strategies_kept in Hk. cbn [fst w_repo] in Hk.
  assert (strategies (r_kube (w_repo w')) = <[ss_ID s := content_of (domainStrategyToUnstructured crNamespace s)]> (strategies (r_kube (w_repo w)))) as Hst.
  { rewrite Hk. apply map_eq. intros m. destruct (decide (m = ss_ID s)) as [->|Hne]; [by rewrite lookup_insert_eq|].
    rewrite lookup_insert_ne by done. apply Hother; [congruence|by left]. }
  assert (valid_strategy ObjectIDFromHex s) as Hv. { split_and!; [exact Hid|done|by apply (Hparse (cl_UID op))..]. }
  split.
  - split; [exact Hv|]. cbn [res_gvr res_name res_enc strategy_resource]. rewrite Hst. apply lookup_insert_eq.
  - by apply (all_held_insert (RA := strategy_resource ObjectIDFromHex crNamespace) (r_kube (w_repo w)) _ s).
Qed.

(** The list for oneself holds exactly one's own strategies. *)
Lemma list_own_strategies uid (w : Manager.world K) :
  all_strategies w ->
  let '(w', res) := ListScheduleStrategies ObjectIDFromHex (Some (mkQueryStrategy [] [] [uid])) w in
  match res with Ok l => forall st, st ∈ l <-> held w st /\ ss_CreatorID st = uid | Err _ => True end.
Proof.
  intros Hall. unfold ListScheduleStrategies. rewrite on_repo_run. unfold QueryStrategies.
  pose proof (query_spec (RA := strategy_resource ObjectIDFromHex crNamespace) (fun s => matchesStrategyFilter s (mkQueryStrategy [] [] [uid])) [] _ (w_repo w) Hall
    (fun s => strategy_selector_complete crNamespace s (mkQueryStrategy [] [] [uid]))) as Q.
  cbn [res_gvr res_dec strategy_resource qs_IDs qs_CreatorIDs] in *.
  destruct (query_objects _ _ _ _ _ (w_repo w)) as [r' [l|e]]; [|done]. destruct Q as [_ Q]. intros st. rewrite Q.
  assert (matchesStrategyFilter st (mkQueryStrategy [] [] [uid]) = true <-> ss_CreatorID st = uid) as ->.
  { unfold matchesStrategyFilter. cbn. rewrite !andb_true_r, orb_false_r. apply String.eqb_eq. }
  unfold named. naive_solver.
Qed.

Section through_the_api.
  Variable random_salt : nat -> option (list Z).
  Variable xid : nat -> string.
  Variable range : list string -> list string.
  Variable range_pods : gmap string podState -> list (string * podState).
  Variable range_values : gmap string PodSchedulingMetricValue -> list (string * PodSchedulingMetricValue).

Notation server := (server U R K F D).
Notation serves := (serve ObjectIDFromHex NewObjectID crNamespace random_salt xid range range_pods range_values).
Notation handles := (handler_of ObjectIDFromHex NewObjectID crNamespace random_salt xid range range_pods range_values).

(** A success was granted, and is the handler's. *)
Lemma serve_success r key e rq (s s' : server) p :
  keyed_users (sv_rbac s) -> permission r = Some key -> r <> RUserPermissions -> serves r e rq s = (s', [Success p]) ->
  exists token c pol s0, Handler.bearer_token (rq_authorization rq) = Some token /\
    granted ObjectIDFromHex (e_now e) token key (sv_rbac s) c pol /\ same_server s s0 /\ handles r e (Some (c, pol)) rq s0 = (s', Ok p).
Proof.
  intros Hk Hp Hr Hs. unfold serve in Hs. rewrite Hp in Hs.
  destruct (middleware_spec ObjectIDFromHex key e rq (run_handler ObjectIDFromHex NewObjectID crNamespace random_salt xid range range_pods range_values r e rq) s Hk)
    as [[_ Hl]|(token & c & pol & s0 & Ht & Hg & Hsame & Heq)].
  - rewrite Hs in Hl. by destruct Hl as (code & Hl & _).
  - exists token, c, pol, s0. split_and!; [done..|]. rewrite Heq, run_other in Hs by done. unfold Handler.respond in Hs.
    destruct (handles r e (Some (c, pol)) rq s0) as [s1 [p1|code]]; [|done]. by injection Hs as -> ->.
Qed.

Definition item_of_request (req : CreateScheduleStrategyRequest) (item : StrategyItem) : Prop :=
  si_StrategyNamespace item = cs_StrategyNamespace req /\ si_LabelSelectors item = cs_LabelSelectors req /\
  si_K8sNamespace item = cs_K8sNamespace req /\ si_CommandRegex item = cs_CommandRegex req /\
  si_Priority item = cs_Priority req /\ si_ExecutionTime item = cs_ExecutionTime req.

Lemma create_then_list `{!JWTLaws J} e e' rq rq' req (s s1 s2 : server) p l :
  (forall n, valid_id ObjectIDFromHex (NewObjectID n)) -> (forall x y, ObjectIDFromHex x = Some y -> valid_id ObjectIDFromHex y) ->
  keyed_users (sv_rbac s) -> all_strategies (sv_world s) ->
  rq_authorization rq' = rq_authorization rq -> JSONBind d_create_strategy (rq_body rq) = (req, true) ->
  serves RCreateStrategy e rq s = (s1, [Success p]) -> serves RSelfStrategies e' rq' s1 = (s2, [Success (PStrategies l)]) ->
  (exists item, item ∈ l /\ item_of_request req item) /\
  exists uid, forall item, item ∈ l -> exists st, held (sv_world s1) st /\ ss_CreatorID st = uid /\ item = convertDomainStrategyToResponseStrategy st.
Proof.
  intros Hnew Hparse Hk Hall Hauth Hb Hc1 Hc2.
  destruct (serve_success RCreateStrategy _ e rq s s1 _ Hk eq_refl ltac:(done) Hc1) as (token & c & pol & s0 & Ht & Hg & Hsame & Hh).
  change (handles RCreateStrategy e (Some (c, pol)) rq s0) with
    (Handler.CreateScheduleStrategy (U := U) (R := R) (F := F) (D := D) ObjectIDFromHex NewObjectID crNamespace range e (Some (c, pol)) rq s0) in Hh.
  unfold Handler.CreateScheduleStrategy, Handler.bind, Handler.GetClaimsFromContext, Handler.on_world, sbind, sret in Hh. rewrite Hb in Hh.
  cbv beta iota in Hh. destruct Hsame as (Hsd & Hw & _). rewrite Hw in Hh.
  set (st := strategy_of _ _ _ _ _ _) in Hh.
  destruct (StrategySvc.CreateScheduleStrategy ObjectIDFromHex crNamespace NewObjectID (e_k8s e) range (e_now e) c st (sv_world s)) as [w1 [[]|err]] eqn:Ec;
    [|done]. injection Hh as <- _.
  destruct (create_strategy_stores _ _ _ _ _ _ _ Hnew Hparse Hall Ec) as (id & oid & Hoid & Hheld & Hall1).
  set (s1 := mkServer _ _ _ _) in *.
  assert (keyed_users (sv_rbac s1)) as Hk1. { intros i u. cbn. destruct Hsd as (Hst & _). rewrite Hst. apply Hk. }
  destruct (serve_success RSelfStrategies _ e' rq' s1 s2 _ Hk1 eq_refl ltac:(done) Hc2) as (token' & c' & pol' & s0' & Ht' & Hg' & Hsame' & Hh').
  assert (c' = c) as ->. { rewrite Hauth in Ht'. simplify_eq. destruct Hg as [Hc _], Hg' as [Hc' _]. by eapply parse_stable. }
  change (handles RSelfStrategies e' (Some (c, pol')) rq' s0') with
    (Handler.ListSelfScheduleStrategies (U := U) (R := R) (F := F) (D := D) ObjectIDFromHex e' (Some (c, pol')) rq' s0') in Hh'.
  unfold Handler.ListSelfScheduleStrategies, Handler.uid_of, Handler.GetClaimsFromContext, Handler.on_world, sbind, sret in Hh'. rewrite Hoid in Hh'.
  cbv beta iota in Hh'. destruct Hsame' as (_ & Hw' & _). rewrite Hw' in Hh'.
  pose proof (list_own_strategies oid (sv_world s1) Hall1) as L.
  destruct (ListScheduleStrategies _ _ (sv_world s1)) as [w2 [found|err]]; [|done]. injection Hh' as _ <-.
  split.
  - exists (convertDomainStrategyToResponseStrategy (created_strategy (e_now e) id oid st)). split; [|done].
    apply list_elem_of_fmap_2. apply L. by split.
  - exists oid. intros item (st' & -> & Hin)%list_elem_of_fmap. apply L in Hin as [? ?]. by exists st'.
Qed.

End through_the_api.
End created.

(** ** Witnesses *)

#[local] Existing Instance front_key.

Definition rest_role : Role :=
  mkRole (mkBase (toy_id 1) 1 1 0 (toy_id 0) (toy_id 0)) "reader" ""
    [mkRolePolicy "schedule_strategy.create" false "" ""; mkRolePolicy "schedule_strategy.read" true "" "";
     mkRolePolicy "user.password.reset" true "" ""; mkRolePolicy "user.permission.update" false "" ""].

Notation rest_server_type := (server (gmap ObjectID User) (gmap ObjectID Role) map_kube (gmap string RuntimeSchedulerConfig) (gmap string NodeRuntimeConfig)).

Definition rest_server : rest_server_type :=
  mkServer (mkRBAC {[toy_id 0 := toy_user UserStatusActive]} {[toy_id 1 := rest_role]} 0)
    (mkWorld (sample_fleet {[dm_addr (sample_dm "n1" "10.0.0.1") := DecisionMaker.NewService]}) (mkRepo (mkMapKube (fun _ => ∅) []) 0)) empty_rt (NewAdaptiveClassifier 5).

Definition rest_claims : Claims := token_claims 5000 60000 "access" "" (toy_user UserStatusActive).
Definition rest_header : string := "Bearer " +:+ default "" (SignedString rest_claims).
Definition rest_env (now : Z) : env := mkEnv now (now / 1000) sample_k8s (Some []) (fun _ => None) (fun _ => None) (Some []).
Definition rest_request (v : option jval) : request := mkRequest rest_header (mkBody v true) (fun _ => "") (fun _ => "").

Notation rest_serve := (serve toy_hex sample_new_id "gthulhu" toy_salt toy_xid id map_to_list map_to_list).

Lemma toy_new_id_valid n : valid_id toy_hex (sample_new_id n).
Proof.
  destruct (sample_new_id_valid n) as [Hne Hp]. split; [done|]. unfold toy_hex. rewrite decide_True; [done|].
  revert Hp. unfold sample_parse. destruct (String.length (sample_new_id n) =? 24)%nat eqn:El; [|done]. intros _. by apply Nat.eqb_eq.
Qed.

Lemma toy_hex_valid x y : toy_hex x = Some y -> valid_id toy_hex y.
Proof. unfold toy_hex. case_decide as Hl; [|done]. intros [= <-]. split; [by intros ->|]. by rewrite decide_True. Qed.

Lemma rest_all_held : all_held (RA := strategy_resource toy_hex "gthulhu") (r_kube (w_repo (sv_world rest_server))).
Proof. intros n c Hn. cbn in Hn. by rewrite fmap_empty, lookup_empty in Hn. Qed.

Lemma rest_keyed : keyed_users (sv_rbac rest_server).
Proof. intros i u. cbn. by intros [<- <-]%lookup_singleton_Some. Qed.

Lemma no_grant_no_effect_witness :
  let '(s', l) := rest_serve RCreateStrategy (rest_env 6000) (mkRequest "" no_body (fun _ => "") (fun _ => "")) rest_server in
  same_server rest_server s' /\ refusal [401; 403; 500]%Z l.
Proof.
  refine (no_grant_no_effect toy_hex sample_new_id "gthulhu" toy_salt toy_xid id map_to_list map_to_list RCreateStrategy (rest_env 6000)
    (mkRequest "" no_body (fun _ => "") (fun _ => "")) rest_server rest_keyed _). intros key token c p _ Ht. discriminate Ht.
Defined.

Lemma refused_body_no_effect_witness :
  let '(s', l) := rest_serve RCreateStrategy (rest_env 6000) (rest_request (Some (JObj [("prio", JInt 3)]))) rest_server in
  same_server rest_server s' /\ refusal [400; 401; 403; 500]%Z l.
Proof.
  exact (refused_body_no_effect toy_hex sample_new_id "gthulhu" toy_salt toy_xid id map_to_list map_to_list RCreateStrategy (rest_env 6000)
    (rest_request (Some (JObj [("prio", JInt 3)]))) rest_server rest_keyed ltac:(discriminate) eq_refl).
Defined.

(** The status is changed although the client reads that the request was invalid. *)
Lemma refused_permissions_applied_witness :
  let accepted := rest_request (Some (JObj [("userID", JStr (toy_id 0)); ("status", JInt 2)])) in
  let refused := rest_request (Some (JObj [("userID", JStr (toy_id 0)); ("status", JInt 2); ("reason", JStr "left")])) in
  let '(s', l) := rest_serve RUserPermissions (rest_env 6000) refused rest_server in
  seen_status l = Some 400%Z /\ u_Status <$> docs (rb_users (sv_rbac s')) !! toy_id 0 = Some UserStatusInactive.
Proof.
  intros accepted refused.
  assert (JSONBind d_user_permissions (rq_body accepted) = (mkUserPermissions (toy_id 0) None (Some 2%Z), true)) as Ha by reflexivity.
  assert (JSONBind d_user_permissions (rq_body refused) = (mkUserPermissions (toy_id 0) None (Some 2%Z), false)) as Hr by reflexivity.
  assert (body_ok RUserPermissions accepted = true) as Hoa by (unfold body_ok; by rewrite Ha).
  assert (body_ok RUserPermissions refused = false) as Hor by (unfold body_ok; by rewrite Hr).
  assert ((JSONBind d_user_permissions (rq_body refused)).1 = (JSONBind d_user_permissions (rq_body accepted)).1) as Hsame by (by rewrite Ha, Hr).
  pose proof (refused_permissions_applied toy_hex sample_new_id "gthulhu" toy_salt toy_xid id map_to_list map_to_list (rest_env 6000) refused accepted
    rest_server rest_keyed) as P. specialize (P eq_refl Hsame Hor Hoa).
  destruct (rest_serve RUserPermissions (rest_env 6000) accepted rest_server) as [s' l'] eqn:E.
  assert (l' = [Success PNil]) as -> by (change l' with (s', l').2; rewrite <- E; vm_compute; reflexivity).
  destruct P as [[_ (code & Hc & _)]| ->]; [discriminate Hc|]. split; [reflexivity|].
  change s' with (s', [Success PNil]).1. rewrite <- E. vm_compute. reflexivity.
Defined.

Lemma self_policy_confines_witness :
  let '(s', l) := rest_serve RResetPassword (rest_env 6000)
    (rest_request (Some (JObj [("userID", JStr (toy_id 7)); ("newPassword", JStr "x")]))) rest_server in
  same_server rest_server s' /\ Forall (fun resp => status resp <> 200%Z) l.
Proof.
  set (rq := rest_request _). assert (target RResetPassword rq = Some (toy_id 7)) as Htarget by reflexivity.
  apply (self_policy_confines toy_hex sample_new_id "gthulhu" toy_salt toy_xid id map_to_list map_to_list RResetPassword (rest_env 6000)
    rq (toy_id 7) rest_server rest_keyed Htarget). clear Htarget.
  intros key token c p [= <-] Ht (Hc & _ & _ & uid & u & _ & _ & _ & i & role & Hrole & _ & Hp & Hpk).
  change (({[toy_id 1 := rest_role]} : gmap ObjectID Role) !! i = Some role) in Hrole. apply lookup_singleton_Some in Hrole as [_ <-].
  assert (token = default "" (SignedString rest_claims)) as ->.
  { vm_compute in Ht. injection Ht as <-. vm_compute. reflexivity. }
  assert (c = rest_claims) as ->.
  { assert (ParseWithClaims 6000 (default "" (SignedString rest_claims)) = Some rest_claims) as E by (apply parse_signed; [done|vm_compute; done]).
    cbn [e_now rest_env] in Hc. rewrite E in Hc. by injection Hc. }
  split; [|vm_compute; discriminate]. cbn in Hp. rewrite !elem_of_cons in Hp.
  destruct Hp as [->|[->|[->|[->|Hp%not_elem_of_nil]]]]; done.
Defined.

Lemma get_changes_nothing_witness :
  reads_only rest_server (rest_serve RListUsers (rest_env 6000) (rest_request None) rest_server).1.
Proof.
  exact (get_changes_nothing toy_hex sample_new_id "gthulhu" toy_salt toy_xid id map_to_list map_to_list RListUsers (rest_env 6000)
    (rest_request None) rest_server rest_keyed eq_refl).
Defined.

