(* ===== verification/CLI.v ===== *)
(** * The command line client: src/cli

    client/token_storage.go keeps a token in a file of /tmp that belongs to the user;
    client/client.go sends requests with it to the manager; the commands of cmd/ build the
    requests from flags.  The manager is that of ManagerRest.v ([serve]).  The JSON of the
    file is a parameter with its round trip ([TokenJSON]); times are in milliseconds.

    The theorems: a save survives a crash at any point, and what it saved is loaded again
    ([save_token_crash_safe]); only a private regular file is read
    ([load_private_only]); a strategy made of flags arrives at the manager and is listed
    ([cli_strategy_listed]); a token is used for a day although the manager accepts it for
    a minute ([cli_session_ends_early]). *)

From stdpp Require Import base gmap strings list.
From Stdlib Require Import ZArith Lia Ascii.
From S2P Require Import Prelude GoStrings Intents ManagerDomain KubeStore DaemonConfig CRRepo Manager StrategySvc.
From S2P Require Import Argon2 RBACRepo AuthSvc RuntimeSvc Clustering Classifier PSM RestBind ManagerRest.
#[local] Open Scope go_scope.
#[local] Open Scope Z_scope.

(** ** client/token_storage.go *)

Record TokenStorage := mkTokenStorage { ts_Token : string; ts_ExpiresAt : Z }.

Class TokenJSON := {
  marshal_token : TokenStorage -> string;
  unmarshal_token : string -> option TokenStorage
}.
Class TokenJSONLaws (T : TokenJSON) : Prop := { unmarshal_marshal : forall t, unmarshal_token (marshal_token t) = Some t }.

Inductive file_kind := KRegular | KSymlink | KOther.

#[global] Instance file_kind_eq_dec : EqDecision file_kind.
Proof. solve_decision. Defined.

Record file := mkFile { f_kind : file_kind; f_perm : Z; f_data : string }.
Notation disk := (gmap string file).

Definition getTokenFilePath (uid : Z) : string := "/tmp/gthulhu-token-" +:+ Itoa uid +:+ ".json".

Inductive storage_error := SNotExist | SSymlink | SNotRegular | SPermissive | SRead | SUnmarshal.

(** The mode 0o077 is 63, and 0o600 is 384. *)
Definition ensurePrivateRegularFile (d : disk) (path : string) : option storage_error :=
  match d !! path with
  | None => Some SNotExist
  | Some f =>
      if decide (f_kind f = KSymlink) then Some SSymlink else
      if decide (f_kind f <> KRegular) then Some SNotRegular else
      if decide (Z.land (f_perm f) 63 <> 0) then Some SPermissive else None
  end.

Section storage.
  Context {T : TokenJSON}.

(** [LoadToken]: no token when there is no file or the token has expired; [readable] says
    whether the file can be read. *)
Definition LoadToken (d : disk) (readable : bool) (now : Z) (tokenFile : string) : result storage_error (option TokenStorage) :=
  match ensurePrivateRegularFile d tokenFile with
  | Some SNotExist => Ok None
  | Some e => Err e
  | None =>
      match d !! tokenFile with
      | None => Ok None
      | Some f =>
          if negb readable then Err SRead else
          match unmarshal_token (f_data f) with
          | None => Err SUnmarshal
          | Some storage => if decide (ts_ExpiresAt storage < now) then Ok None else Ok (Some storage)
          end
      end
  end.

(** [atomicWritePrivateFile]: the disks after each system call, the last one being the disk
    on return, and whether the error is nil. *)
Definition atomicWritePrivateFile (mkdir : bool) (o : write_outcomes) (tmp path data : string) (d : disk) : list disk * bool :=
  if negb (mkdir && wo_create o) then ([d], false) else
  let private text := mkFile KRegular 384 text in
  let d1 := <[tmp := private ""]> d in
  let fail x := ([d1; x; if wo_remove o then delete tmp x else x], false) in
  if negb (wo_chmod o) then fail d1 else
  match wo_write o with
  | Err partial => fail (<[tmp := private partial]> d1)
  | Ok _ =>
      let d2 := <[tmp := private data]> d1 in
      if negb (wo_sync o && wo_close o) then fail d2
      else if negb (wo_rename o) then fail d2
      else ([d1; d2; <[path := private data]> (delete tmp d2)], true)
  end.

Definition SaveToken (mkdir : bool) (o : write_outcomes) (tmp tokenFile : string) (t : TokenStorage) (d : disk) : list disk * bool :=
  atomicWritePrivateFile mkdir o tmp tokenFile (marshal_token t) d.

(** [ClearToken]; a file that is not there is no error. *)
Definition ClearToken (removable : bool) (tokenFile : string) (d : disk) : disk * bool :=
  match d !! tokenFile with
  | None => (d, true)
  | Some _ => if removable then (delete tokenFile d, true) else (d, false)
  end.

Definition loaded (t : TokenStorage) (now : Z) : result storage_error (option TokenStorage) :=
  if decide (ts_ExpiresAt t < now) then Ok None else Ok (Some t).

Lemma load_private `{!TokenJSONLaws T} d path t now : d !! path = Some (mkFile KRegular 384 (marshal_token t)) -> LoadToken d true now path = loaded t now.
Proof.
  intros Hd. unfold LoadToken, ensurePrivateRegularFile. rewrite Hd. cbn [f_kind f_perm f_data]. rewrite !decide_False by done.
  change (Z.land 384 63) with 0. rewrite decide_False by tauto. cbn. by rewrite unmarshal_marshal.
Qed.

Lemma load_same d d' readable now path : d' !! path = d !! path -> LoadToken d' readable now path = LoadToken d readable now path.
Proof. intros Hd. unfold LoadToken, ensurePrivateRegularFile. by rewrite Hd. Qed.

Lemma write_points mkdir o tmp path data d :
  tmp <> path ->
  let '(trace, ok) := atomicWritePrivateFile mkdir o tmp path data d in
  (forall x, x ∈ trace -> x !! path = d !! path \/ ok = true /\ x !! path = Some (mkFile KRegular 384 data)) /\
  (if ok then default d (last trace) !! path = Some (mkFile KRegular 384 data) else default d (last trace) !! path = d !! path).
Proof.
  intros Hne. unfold atomicWritePrivateFile. destruct (mkdir && wo_create o); cbn [negb].
  2: { split; [|done]. intros x ->%list_elem_of_singleton. by left. }
  destruct (wo_chmod o), (wo_write o), (wo_sync o && wo_close o), (wo_rename o), (wo_remove o); cbn [negb];
    (split; [intros x Hx; rewrite !elem_of_cons in Hx; destruct Hx as [-> |[-> |[-> |Hx%not_elem_of_nil]]]; try done|]);
    cbn [last default]; simplify_map_eq; auto.
Qed.

End storage.

(** Remark (a save survives a crash): at every point of a save, and when it returns, loading
    gives what it gave before or, when it succeeds, the token saved, and after a save that
    succeeds the token saved. *)
Theorem save_token_crash_safe {T : TokenJSON} `{!TokenJSONLaws T} mkdir o tmp path t d now :
  tmp <> path ->
  let '(trace, ok) := SaveToken mkdir o tmp path t d in
  (forall x, x ∈ trace -> LoadToken x true now path = LoadToken d true now path \/ ok = true /\ LoadToken x true now path = loaded t now) /\
  (ok = true -> LoadToken (default d (last trace)) true now path = loaded t now).
Proof.
  intros Hne. unfold SaveToken. pose proof (write_points mkdir o tmp path (marshal_token t) d Hne) as Hw.
  destruct (atomicWritePrivateFile _ _ _ _ _ _) as [trace ok]. destruct Hw as [Hpts Hfin]. split.
  - intros x Hx. destruct (Hpts x Hx) as [Hs|[-> Hs]]; [left; by apply load_same|right; split; [done|by apply load_private]].
  - intros ->. by apply load_private.
Qed.

(** Remark (only a private file is read): a token that is loaded comes from a regular file,
    not a link, that nobody but its owner can access, and has not expired. *)
Theorem load_private_only {T : TokenJSON} d readable now path t :
  LoadToken d readable now path = Ok (Some t) ->
  exists f, d !! path = Some f /\ f_kind f = KRegular /\ Z.land (f_perm f) 63 = 0 /\ unmarshal_token (f_data f) = Some t /\ now <= ts_ExpiresAt t.
Proof.
  unfold LoadToken, ensurePrivateRegularFile. destruct (d !! path) as [f|]; [|done].
  case_decide; [done|]. case_decide as Hk; [done|]. case_decide as Hp; [done|]. destruct readable; [|done]. cbn [negb].
  destruct (unmarshal_token _) as [st|] eqn:Eu; [|done]. case_decide; [done|]. intros [= <-]. exists f. split_and!; try done. lia.
Qed.

(** ** client/client.go *)

Definition day : Z := 24 * 3600 * 1000.

Record Client := mkClient { c_token : string; c_tokenExpiresAt : Z; c_authEnabled : bool }.

Inductive cli_error :=
| EAuthRequired
| EHTTP (code : Z)
| ELogin
| EUnmarshal
| ERequired (flag : string)
| EBadLabel (label : string).

Definition NewClient {T : TokenJSON} (d : disk) (readable : bool) (now : Z) (tokenFile : string) (authEnabled : bool) : Client :=
  if authEnabled then
    match LoadToken d readable now tokenFile with
    | Ok (Some t) => if decide (ts_Token t <> "") then mkClient (ts_Token t) (ts_ExpiresAt t) true else mkClient "" 0 true
    | _ => mkClient "" 0 true
    end
  else mkClient "" 0 false.

Definition ensureValidToken (now : Z) (c : Client) : option cli_error :=
  if decide (c_token c = "" \/ c_tokenExpiresAt c < now) then Some EAuthRequired else None.

(** A list that is nil is sent as null. *)
Definition nil_or (l : list jval) : jval := match l with [] => JNull | _ => JArr l end.

Definition create_json (r : CreateScheduleStrategyRequest) : jval :=
  JObj [("priority", JInt (cs_Priority r)); ("executionTime", JInt (cs_ExecutionTime r)); ("commandRegex", JStr (cs_CommandRegex r));
        ("k8sNamespace", nil_or (JStr <$> cs_K8sNamespace r)); ("labelSelectors", nil_or (selector_json <$> cs_LabelSelectors r));
        ("strategyNamespace", JStr (cs_StrategyNamespace r))].

Section client.
  Context {U R K F D : Type} `{Collection U User} `{Collection R Role} `{KubeAPI K} `{RuntimeDM F} `{ConfigCollection D}
    {A : Argon2Lib} {J : JWTLib} {T : TokenJSON}.
  Variable ObjectIDFromHex : string -> option ObjectID.
  Variable NewObjectID : nat -> ObjectID.
  Variable crNamespace : string.
  Variable random_salt : nat -> option (list Z).
  Variable xid : nat -> string.
  Variable range : list string -> list string.
  Variable range_pods : gmap string podState -> list (string * podState).
  Variable range_values : gmap string PodSchedulingMetricValue -> list (string * PodSchedulingMetricValue).
  Notation server := (server U R K F D).
  Notation serves := (serve ObjectIDFromHex NewObjectID crNamespace random_salt xid range range_pods range_values).

(** The response the client sees: the data of a success, or the status. *)
Definition seen (l : list response) : result cli_error payload :=
  match head l with
  | Some (Success p) => Ok p
  | Some (Failure code) => Err (EHTTP code)
  | None => Err EUnmarshal
  end.

Definition send (e : env) (r : route) (authorization : string) (v : option jval) (param : string -> string) : SE server cli_error payload :=
  fun s => let '(s', l) := serves r e (mkRequest authorization (mkBody v true) param (fun _ => "")) s in (s', seen l).

(** The time of the client is that of the request. *)
Definition doRequest (c : Client) (e : env) (r : route) (v : option jval) (param : string -> string) : SE server cli_error payload :=
  if c_authEnabled c then
    match ensureValidToken (e_now e) c with
    | Some err => sfail err
    | None => send e r ("Bearer " +:+ c_token c) v param
    end
  else send e r "" v param.

Definition GetStrategies (c : Client) (e : env) : SE server cli_error (list StrategyItem) :=
  let! p := doRequest c e RSelfStrategies None (fun _ => "") in
  match p with PStrategies l => sret l | _ => sfail EUnmarshal end.

Definition CreateStrategy (c : Client) (e : env) (req : CreateScheduleStrategyRequest) : SE server cli_error unit :=
  let! _ := doRequest c e RCreateStrategy (Some (create_json req)) (fun _ => "") in sret tt.

Definition DeleteStrategy (c : Client) (e : env) (strategyID : string) : SE server cli_error unit :=
  let! _ := doRequest c e RDeleteStrategy (Some (JObj [("strategyId", JStr strategyID)])) (fun _ => "") in sret tt.

Definition ListNodes (c : Client) (e : env) : SE server cli_error (list (string * string)) :=
  let! p := doRequest c e RNodes None (fun _ => "") in
  match p with PNodes l => sret l | _ => sfail EUnmarshal end.

Definition GetNodePodPIDMapping (c : Client) (e : env) (nodeID : string) : SE server cli_error PodPIDMapping :=
  let! p := doRequest c e RMapping None (fun name => if decide (name = "nodeID") then nodeID else "") in
  match p with PMapping m => sret m | _ => sfail EUnmarshal end.

(** [Login]: the client with the token, which is taken to last for a day. *)
Definition Login (c : Client) (e : env) (username password : string) : SE server cli_error Client :=
  let! p := send e RLogin "" (Some (JObj [("username", JStr username); ("password", JStr password)])) (fun _ => "") in
  match p with
  | PLogin r => if decide (lo_Token r = "") then sfail ELogin else sret (mkClient (lo_Token r) (e_now e + day) (c_authEnabled c))
  | _ => sfail EUnmarshal
  end.

(** ** cmd/ *)

(** What a command works on. *)
Record shell := mkShell { sh_disk : disk; sh_server : server }.

Definition on_server {X} (m : SE server cli_error X) : SE shell cli_error X :=
  fun w => let '(s, r) := m (sh_server w) in (mkShell (sh_disk w) s, r).

(** cmd/auth.go: a token that cannot be saved is a warning. *)
Definition authLogin (mkdir readable : bool) (o : write_outcomes) (tmp tokenFile : string) (noAuth : bool) (e : env) (username password : string) :
    SE shell cli_error unit := fun w =>
  if decide (username = "") then (w, Err (ERequired "username")) else
  if decide (password = "") then (w, Err (ERequired "password")) else
  let c := NewClient (sh_disk w) readable (e_now e) tokenFile (negb noAuth) in
  match Login c e username password (sh_server w) with
  | (s, Err err) => (mkShell (sh_disk w) s, Err err)
  | (s, Ok c) =>
      let '(trace, _) := SaveToken mkdir o tmp tokenFile (mkTokenStorage (c_token c) (c_tokenExpiresAt c)) (sh_disk w) in
      (mkShell (default (sh_disk w) (last trace)) s, Ok tt)
  end.

(** cmd/strategies.go: the flags of the command *)
Record create_flags := mkCreateFlags {
  cf_namespace : string; cf_priority : Z; cf_execTime : Z; cf_command : string; cf_k8sNS : list string; cf_labels : list string }.

Fixpoint parse_labels (labels : list string) : result cli_error (list LabelSelector) :=
  match labels with
  | [] => Ok []
  | label :: rest =>
      match SplitN2 label "="%char with
      | (_, None) => Err (EBadLabel label)
      | (k, Some v) => let* l := parse_labels rest in Ok (mkLabelSelector k v :: l)
      end
  end.

Definition flags_request (f : create_flags) : result cli_error CreateScheduleStrategyRequest :=
  if decide (cf_namespace f = "") then Err (ERequired "namespace") else
  let* selectors := parse_labels (cf_labels f) in
  Ok (mkCreateStrategy (cf_namespace f) selectors (cf_k8sNS f) (cf_command f) (cf_priority f) (cf_execTime f)).

Definition strategiesCreate (c : Client) (e : env) (f : create_flags) : SE server cli_error unit :=
  match flags_request f with Err err => sfail err | Ok req => CreateStrategy c e req end.

Definition strategiesDelete (c : Client) (e : env) (strategyID : string) : SE server cli_error unit :=
  if decide (strategyID = "") then sfail (ERequired "id") else DeleteStrategy c e strategyID.

(** cmd/nodes.go *)
Definition nodesPids (c : Client) (e : env) (nodeID : string) : SE server cli_error PodPIDMapping :=
  if decide (nodeID = "") then sfail (ERequired "node-id") else GetNodePodPIDMapping c e nodeID.

End client.

(** ** A strategy from flags to the list *)

Lemma nil_or_slice {X} (d : decoder X) (enc : X -> jval) l :
  (forall a, decode_as d (enc a) = (a, true)) -> decode_as (d_slice d) (nil_or (enc <$> l)) = (l, true).
Proof. intros Hd. destruct l as [|x l]; [done|]. by apply (slice_of d enc (x :: l)). Qed.

(** What the client sends for a strategy is what the manager decodes. *)
Lemma create_json_binds r :
  is_i64 (cs_Priority r) -> is_i64 (cs_ExecutionTime r) -> JSONBind d_create_strategy (mkBody (Some (create_json r)) true) = (r, true).
Proof.
  intros Hp He. unfold is_i64 in *. unfold JSONBind, d_create_strategy, object. cbn [b_first b_eof decode_as create_json]. set (m := [_; _; _; _; _; _]).
  assert (st_read (strategy_fields (build mkCreateStrategy)) m = (r, true)) as ->; [|reflexivity].
  unfold strategy_fields. replace r with (mkCreateStrategy (cs_StrategyNamespace r) (cs_LabelSelectors r) (cs_K8sNamespace r) (cs_CommandRegex r)
    (cs_Priority r) (cs_ExecutionTime r)) at 1 by by destruct r.
  repeat apply read_with; try reflexivity.
  - transitivity (decode_as (d_slice d_selector) (nil_or (selector_json <$> cs_LabelSelectors r))); [reflexivity|].
    apply nil_or_slice. by intros [k v].
  - transitivity (decode_as (d_slice d_string) (nil_or (JStr <$> cs_K8sNamespace r))); [reflexivity|]. by apply nil_or_slice.
  - transitivity (decode_as d_int64 (JInt (cs_Priority r))); [reflexivity|]. apply int_of. lia.
  - transitivity (decode_as d_int64 (JInt (cs_ExecutionTime r))); [reflexivity|]. apply int_of. lia.
Qed.

Lemma parse_labels_spec labels l :
  parse_labels labels = Ok l -> labels = (fun s => ls_Key s +:+ "=" +:+ ls_Value s) <$> l.
Proof.
  revert l. induction labels as [|label rest IH]; intros l; cbn; [by intros [= <-]|].
  destruct (SplitN2 label "="%char) as [k [v|]] eqn:E; [|done]. destruct (parse_labels rest) as [l'|]; [|done]. cbn. intros [= <-]. cbn.
  f_equal; [|by apply IH]. clear -E. revert k E. induction label as [|a s IHs]; intros k; cbn; [done|].
  destruct (Ascii.eqb_spec a "="%char) as [->|Hne]; [by intros [= <- <-]|]. destruct (SplitN2 s "="%char) as [p r] eqn:Es. intros [= <- ->].
  cbn. by rewrite (IHs p eq_refl).
Qed.

Section facts.
  Context {U R K F D : Type} `{CollectionLaws U User} `{CollectionLaws R Role} `{KubeLaws K} `{RuntimeDMLaws F} `{ConfigLaws D}
    {A : Argon2Lib} {J : JWTLib} `{!JWTLaws J}.
  Variable ObjectIDFromHex : string -> option ObjectID.
  Variable NewObjectID : nat -> ObjectID.
  Variable crNamespace : string.
  Variable random_salt : nat -> option (list Z).
  Variable xid : nat -> string.
  Variable range : list string -> list string.
  Variable range_pods : gmap string podState -> list (string * podState).
  Variable range_values : gmap string PodSchedulingMetricValue -> list (string * PodSchedulingMetricValue).
  Notation server := (server U R K F D).
  Notation serves := (serve ObjectIDFromHex NewObjectID crNamespace random_salt xid range range_pods range_values).
  Notation sends := (send ObjectIDFromHex NewObjectID crNamespace random_salt xid range range_pods range_values).
  Notation requests := (doRequest ObjectIDFromHex NewObjectID crNamespace random_salt xid range range_pods range_values).

Lemma respond_one (m : SE server Z payload) s : exists x, (Handler.respond m s).2 = [x].
Proof. unfold Handler.respond. destruct (m s) as [s' []]; by eexists. Qed.

(** Every route but one gets one response. *)
Lemma one_response r e rq (s : server) : r <> RUserPermissions -> exists x, (serves r e rq s).2 = [x].
Proof.
  intros Hr. assert (forall ctx s0, exists x, (run_handler ObjectIDFromHex NewObjectID crNamespace random_salt xid range range_pods range_values r e rq ctx s0).2 = [x]) as Hrun.
  { intros ctx s0. unfold run_handler. destruct r; try done; apply respond_one. }
  unfold serve. destruct (permission r) as [key|]; [|apply Hrun]. unfold Handler.GetAuthMiddleware.
  destruct (Handler.bearer_token _); [|by eexists]. destruct (Handler.on_auth _ s) as [s1 [[c p]|code]]; [apply Hrun|by eexists].
Qed.

(** A request that succeeds has a header, and one response. *)
Lemma request_ok c e r v param (s s' : server) p :
  r <> RUserPermissions -> c_authEnabled c = true -> requests c e r v param s = (s', Ok p) ->
  serves r e (mkRequest ("Bearer " +:+ c_token c) (mkBody v true) param (fun _ => "")) s = (s', [Success p]).
Proof.
  intros Hr Ha. unfold doRequest. rewrite Ha. destruct (ensureValidToken _ c); [done|]. unfold send.
  set (rq := mkRequest _ _ _ _). destruct (one_response r e rq s Hr) as [x Hx]. destruct (serves r e rq s) as [s1 l]. cbn in Hx. subst l.
  unfold seen. cbn. destruct x; [|done]. by intros [= -> ->].
Qed.

(** The token of a login is one of a minute. *)
Lemma login_token now username password (w w' : rbac U R) pair :
  AuthSvc.Login random_salt xid now username password w = (w', Ok pair) ->
  exists user, SignedString (token_claims now (60 * 1000) "access" "" user) = Some (AccessToken pair).
Proof.
  unfold AuthSvc.Login, sbind. destruct (getUserByUserName _ w) as [w1 [user|e]]; [|done]. case_decide; [done|].
  destruct (Cmp _ _) as [[]|]; [|done|done]. unfold issueTokenPair, genAccessToken, sbind. destruct (SignedString (token_claims now (60 * 1000) "access" "" user)) as [t|] eqn:Es; [|done].
  cbn [sret]. match goal with |- context [genRefreshToken ?a ?b ?c ?d] => destruct (genRefreshToken a b c d) as [w2 [[rt claims]|e]]; [|done] end.
  match goal with |- context [UpdateUser ?a ?b ?c ?d] => destruct (UpdateUser a b c d) as [w3 [[]|e]]; [|done] end.
  intros [= _ <-]. by exists user.
Qed.

Lemma token_dead now now' user token :
  0 <= now -> SignedString (token_claims now (60 * 1000) "access" "" user) = Some token -> now + 60 * 1000 <= now' -> ParseWithClaims now' token = None.
Proof.
  intros Hnow Hs Hn. destruct (ParseWithClaims now' token) as [c|] eqn:Ep; [exfalso|done].
  assert (ParseWithClaims now token = Some (token_claims now (60 * 1000) "access" "" user)) as Ev.
  { apply parse_signed; [done|]. cbn. pose proof (Z.div_mod now 1000). pose proof (Z.mod_pos_bound now 1000).
    pose proof (Z.div_mod (now + 60 * 1000) 1000). pose proof (Z.mod_pos_bound (now + 60 * 1000) 1000). lia. }
  pose proof (parse_stable _ _ _ _ _ Ep Ev) as ->. apply parse_expired in Ep; cbn in *;
    pose proof (Z.div_mod (now + 60 * 1000) 1000); pose proof (Z.mod_pos_bound (now + 60 * 1000) 1000); lia.
Qed.

Lemma bearer_of token : token <> "" -> Handler.bearer_token ("Bearer " +:+ token) = Some token.
Proof.
  intros Ht. unfold Handler.bearer_token. rewrite decide_False by done. destruct token as [|a t]; [done|].
  change ("Bearer " +:+ String a t) with (String "B" (String "e" (String "a" (String "r" (String "e" (String "r" (String " " (String a t)))))))).
  cbn. f_equal. f_equal. clear. induction t as [|b t IH]; [done|]. cbn. by f_equal.
Qed.

(** A token the manager no longer reads is refused. *)
Lemma dead_token_refused c e r key v param (s : server) :
  permission r = Some key -> c_token c <> "" -> ParseWithClaims (e_now e) (c_token c) = None ->
  sends e r ("Bearer " +:+ c_token c) v param s = (s, Err (EHTTP 401)).
Proof.
  intros Hr Ht Hp. unfold send, serve. rewrite Hr. unfold Handler.GetAuthMiddleware. cbn [rq_authorization]. rewrite bearer_of by done.
  unfold Handler.on_auth, VerifyJWTToken, parseAndValidateToken, sbind. rewrite Hp. by destruct s.
Qed.

Notation logs_in := (Login ObjectIDFromHex NewObjectID crNamespace random_salt xid range range_pods range_values).

Lemma login_ok c0 e username password (s s1 : server) c :
  logs_in c0 e username password s = (s1, Ok c) ->
  c_token c <> "" /\ c_tokenExpiresAt c = e_now e + day /\ c_authEnabled c = c_authEnabled c0 /\
  exists user, SignedString (token_claims (e_now e) (60 * 1000) "access" "" user) = Some (c_token c).
Proof.
  unfold Login, sbind. set (v := Some _). unfold send. set (rq := mkRequest _ _ _ _).
  change (serves RLogin e rq s) with (Handler.respond (Handler.Login (K := K) (F := F) (D := D) random_salt xid e None rq) s).
  unfold Handler.respond, Handler.Login, Handler.bind, sbind, sret.
  destruct (JSONBind d_login (rq_body rq)) as [req []]; [|done]. unfold Handler.require. destruct (bool_decide _); [|done].
  unfold sret, Handler.on_auth. cbv beta iota.
  destruct (AuthSvc.Login _ _ _ _ _ _) as [w' [pair|err]] eqn:El; [|done]. cbn. case_decide as Ht; [done|]. intros [= _ <-]. cbn.
  split_and!; [done|done|done|]. by eapply login_token.
Qed.

(** Remark (a session of a minute): the client takes the token of a login to be good for a
    day, while the manager accepts it for a minute.  From then on every command of that
    day passes the check of the client and is refused by the manager with status 401; the
    refresh token of the response is not kept. *)
Theorem cli_session_ends_early c0 e e' username password r key v param (s s1 s2 : server) c :
  0 <= e_now e -> c_authEnabled c0 = true -> logs_in c0 e username password s = (s1, Ok c) ->
  permission r = Some key -> e_now e + 60 * 1000 <= e_now e' <= e_now e + day ->
  ensureValidToken (e_now e') c = None /\ requests c e' r v param s2 = (s2, Err (EHTTP 401)).
Proof.
  intros Hnow Ha Hl Hr Ht. destruct (login_ok _ _ _ _ _ _ _ Hl) as (Htok & Hexp & Hauth & user & Hs).
  assert (ensureValidToken (e_now e') c = None) as He. { unfold ensureValidToken. rewrite decide_False; [done|]. intros [?|?]; [done|lia]. }
  split; [done|]. unfold doRequest. rewrite Hauth, Ha, He. eapply dead_token_refused; [done|done|]. eapply token_dead; [exact Hnow|exact Hs|lia].
Qed.

Notation creates := (strategiesCreate ObjectIDFromHex NewObjectID crNamespace random_salt xid range range_pods range_values).
Notation lists := (GetStrategies ObjectIDFromHex NewObjectID crNamespace random_salt xid range range_pods range_values).

(** Remark (from flags to the list): a strategy that was created with flags is in the list
    its creator gets afterwards, with the flags as its fields and the labels as its
    selectors. *)
Theorem cli_strategy_listed c e e' f (s s1 s2 : server) l :
  (forall n, valid_id ObjectIDFromHex (NewObjectID n)) -> (forall x y, ObjectIDFromHex x = Some y -> valid_id ObjectIDFromHex y) ->
  keyed_users (sv_rbac s) -> all_held (RA := strategy_resource ObjectIDFromHex crNamespace) (r_kube (w_repo (sv_world s))) ->
  c_authEnabled c = true -> is_i64 (cf_priority f) -> is_i64 (cf_execTime f) ->
  creates c e f s = (s1, Ok tt) -> lists c e' s1 = (s2, Ok l) ->
  exists item, item ∈ l /\ si_StrategyNamespace item = cf_namespace f /\ si_K8sNamespace item = cf_k8sNS f /\
    si_CommandRegex item = cf_command f /\ si_Priority item = cf_priority f /\ si_ExecutionTime item = cf_execTime f /\
    cf_labels f = (fun x => ls_Key x +:+ "=" +:+ ls_Value x) <$> si_LabelSelectors item.
Proof.
  intros Hnew Hparse Hk Hall Ha Hp He. unfold strategiesCreate, flags_request. case_decide; [done|].
  destruct (parse_labels (cf_labels f)) as [sel|err] eqn:El; [|done]. cbn [rbind]. unfold CreateStrategy, GetStrategies, sbind.
  set (req := mkCreateStrategy _ _ _ _ _ _). destruct (requests c e RCreateStrategy _ _ s) as [s1' [p|err]] eqn:E1; [|done]. intros [= ->].
  destruct (requests c e' RSelfStrategies _ _ s1) as [s2' [p2|err]] eqn:E2; [|done]. destruct p2; try done. intros [= -> ->].
  apply request_ok in E1; [|done|done]. apply request_ok in E2; [|done|done].
  destruct (create_then_list ObjectIDFromHex NewObjectID crNamespace random_salt xid range range_pods range_values e e'
    (mkRequest ("Bearer " +:+ c_token c) (mkBody (Some (create_json req)) true) (fun _ => "") (fun _ => ""))
    (mkRequest ("Bearer " +:+ c_token c) (mkBody None true) (fun _ => "") (fun _ => "")) req s s1 s2 p l
    Hnew Hparse Hk Hall eq_refl (create_json_binds req Hp He) E1 E2) as [(item & Hin & H1' & H2' & H3' & H4' & H5' & H6') _].
  exists item. split_and!; try done. rewrite H2'. by apply parse_labels_spec.
Qed.

End facts.

(** ** Examples *)

#[local] Existing Instance front_key.

Definition storage_pair (t : TokenStorage) : string * Z := (ts_Token t, ts_ExpiresAt t).

#[local] Instance bits_token : TokenJSON := {
  marshal_token t := bits (encode (storage_pair t));
  unmarshal_token s := (fun x => mkTokenStorage x.1 x.2) <$> decode (of_bits s)
}.
#[local] Instance bits_token_laws : TokenJSONLaws bits_token.
Proof. constructor. intros [t e]. cbn. by rewrite of_bits_bits, decode_encode. Qed.

Definition all_succeed : write_outcomes := mkOutcomes true true (Ok tt) true true true true.

(** A link at the place of the token is replaced, not followed. *)
Lemma save_token_crash_safe_witness :
  let path := getTokenFilePath 1000 in
  let planted := {[path := mkFile KSymlink 511 ""]} : disk in
  LoadToken planted true 7 path = Err SSymlink /\
  LoadToken (default planted (last (SaveToken true all_succeed (path +:+ ".tmp-1") path (mkTokenStorage "t" 9) planted).1)) true 7 path =
    Ok (Some (mkTokenStorage "t" 9)).
Proof.
  cbn zeta. split; [by vm_compute|].
  pose proof (save_token_crash_safe true all_succeed (getTokenFilePath 1000 +:+ ".tmp-1") (getTokenFilePath 1000) (mkTokenStorage "t" 9)
    {[getTokenFilePath 1000 := mkFile KSymlink 511 ""]} 7 ltac:(by vm_compute)) as Hs.
  destruct (SaveToken _ _ _ _ _ _) as [trace ok] eqn:E. destruct Hs as [_ Hs].
  assert (ok = true) as Hok by (change ok with (trace, ok).2; rewrite <- E; by vm_compute). exact (Hs Hok).
Defined.

Lemma load_private_only_witness :
  exists f, ({["p" := mkFile KRegular 384 (marshal_token (mkTokenStorage "t" 9))]} : disk) !! "p" = Some f /\ f_kind f = KRegular.
Proof.
  destruct (load_private_only {["p" := mkFile KRegular 384 (marshal_token (mkTokenStorage "t" 9))]} true 7 "p" (mkTokenStorage "t" 9))
    as (f & Hf & Hk & _); [by vm_compute|]. by exists f.
Defined.

(** A login at second 5, and a listing two minutes later. *)
Lemma cli_session_ends_early_witness :
  let login := Login toy_hex sample_new_id "gthulhu" toy_salt toy_xid id map_to_list map_to_list (mkClient "" 0 true) (rest_env 5000) "ann" "secret" rest_server in
  exists c, login.2 = Ok c /\ c_token c <> "" /\
  doRequest toy_hex sample_new_id "gthulhu" toy_salt toy_xid id map_to_list map_to_list c (rest_env 125000) RSelfStrategies None (fun _ => "") login.1 =
    (login.1, Err (EHTTP 401)).
Proof.
  cbv zeta. destruct (Login _ _ _ _ _ _ _ _ (mkClient "" 0 true) (rest_env 5000) "ann" "secret" rest_server) as [s1 r] eqn:E.
  assert (match r with Ok c => c_token c <> "" | Err _ => False end) as Hr.
  { change r with (s1, r).2. rewrite <- E. vm_compute. discriminate. }
  destruct r as [c|]; [|destruct Hr]. exists c. cbn [fst snd]. split; [reflexivity|]. split; [exact Hr|].
  apply (cli_session_ends_early toy_hex sample_new_id "gthulhu" toy_salt toy_xid id map_to_list map_to_list (mkClient "" 0 true) (rest_env 5000) (rest_env 125000)
    "ann" "secret" RSelfStrategies "schedule_strategy.read" None (fun _ => "") rest_server s1 s1 c); [cbn; lia|done|exact E|done|cbn; unfold day; lia].
Defined.

Lemma cli_strategy_listed_witness :
  let c := mkClient (default "" (SignedString rest_claims)) 90000 true in
  let f := mkCreateFlags "team" 7 20000 "nginx" [] ["app=web"] in
  exists s1 s2 l, strategiesCreate toy_hex sample_new_id "gthulhu" toy_salt toy_xid id map_to_list map_to_list c (rest_env 6000) f rest_server = (s1, Ok tt) /\
    GetStrategies toy_hex sample_new_id "gthulhu" toy_salt toy_xid id map_to_list map_to_list c (rest_env 7000) s1 = (s2, Ok l) /\
    exists item, item ∈ l /\ si_StrategyNamespace item = "team".
Proof.
  intros c f. destruct (strategiesCreate _ _ _ _ _ _ _ _ c (rest_env 6000) f rest_server) as [s1 r1] eqn:E1.
  assert (r1 = Ok tt) as -> by (change r1 with (s1, r1).2; rewrite <- E1; vm_compute; reflexivity).
  destruct (GetStrategies toy_hex sample_new_id "gthulhu" toy_salt toy_xid id map_to_list map_to_list c (rest_env 7000) s1) as [s2 r2] eqn:E2.
  assert (exists l, r2 = Ok l) as [l ->].
  { change r2 with (s2, r2).2. rewrite <- E2. change s1 with (s1, Ok (E := cli_error) tt).1. rewrite <- E1. vm_compute. by eexists. }
  exists s1, s2, l. split; [reflexivity|]. split; [exact E2|].
  assert (c_authEnabled c = true) as Ha by reflexivity.
  assert (is_i64 (cf_priority f)) as Hp by (unfold is_i64; cbn; lia). assert (is_i64 (cf_execTime f)) as He by (unfold is_i64; cbn; lia).
  assert (cf_namespace f = "team") as Hn by reflexivity. clearbody c f.
  pose proof (cli_strategy_listed toy_hex sample_new_id "gthulhu" toy_salt toy_xid id map_to_list map_to_list c (rest_env 6000) (rest_env 7000) f rest_server s1 s2 l
    toy_new_id_valid toy_hex_valid rest_keyed rest_all_held Ha Hp He E1 E2) as (item & Hin & Hns & _).
  exists item. split; [exact Hin|]. rewrite Hns. exact Hn.
Defined.
