(* ===== verification/PriorityMap.v ===== *)
(** * Dumps of the priority maps: src/cli/cmd/priority_map.go

    The command reads tables of the kernel with bpftool, on this machine or through kubectl
    in the pods of the scheduler.  What a command prints and whether it succeeds is a
    parameter ([execCommand]); the result of the model is what is printed, with the tables
    as they were dumped.

    The theorems: the tables dumped are exactly those asked for, once each, in the pods on
    the node asked for that have bpftool ([k8s_dumps_spec]); a container is chosen that has
    bpftool, the preferred one first ([resolve_container_spec]); names are read without
    repetition ([map_names_spec]). *)

From stdpp Require Import base gmap strings list.
From Stdlib Require Import ZArith Lia Ascii.
From S2P Require Import Prelude GoStrings GoPath.
#[local] Open Scope go_scope.

(** The flags of the command. *)
Record map_flags := mkMapFlags {
  pm_Node : string; pm_Label : string; pm_Container : string; pm_Names : list string; pm_Local : bool;
  pm_kubeconfig : string; pm_namespace : string }.

(** What the command prints. *)
Inductive printed :=
| Header (node pod : string)
| MapTitle (name : string)
| Dump (text : string)
| Warning (pod : string).

Inductive map_error := EBpftool (name : string) | EList | ENoPods.

(** The kernel cuts the name of the second table off. *)
Definition map_name (name : string) : string := if decide (name = "priority_tasks_prio") then "priority_tasks_" else name.

Fixpoint normalize_go (seen : list string) (mapNames : list string) : list string :=
  match mapNames with
  | [] => []
  | name :: rest =>
      let mapped := map_name name in
      if decide (mapped ∈ seen) then normalize_go seen rest else mapped :: normalize_go (mapped :: seen) rest
  end.

Definition normalizeMapNames (mapNames : list string) : list string := normalize_go [] mapNames.

Definition kubectlConfigArgs (f : map_flags) : list string :=
  (if decide (pm_kubeconfig f <> "") then ["--kubeconfig"; pm_kubeconfig f] else []) ++
  (if decide (pm_namespace f <> "") then ["-n"; pm_namespace f] else []).

Definition dump_args (name : string) : list string := ["bpftool"; "map"; "dump"; "name"; name].

Section commands.
  (** The output of a command, and its error. *)
  Context (execCommand : list string -> result string string).

Fixpoint local_dumps (names : list string) : list printed * option map_error :=
  match names with
  | [] => ([], None)
  | name :: rest =>
      match execCommand (dump_args name) with
      | Err _ => ([MapTitle name], Some (EBpftool name))
      | Ok out => let '(l, e) := local_dumps rest in (MapTitle name :: Dump out :: l, e)
      end
  end.

(** [resolveBpftoolContainer]: the containers to try, and the first that has bpftool. *)
Definition tryContainers (preferred : string) (containers : list string) : list string :=
  (if decide (preferred <> "") then [preferred] else []) ++ filter (fun c => c <> preferred) containers.

Definition has_bpftool (kubecfgArgs : list string) (podName container : string) : bool :=
  is_ok (execCommand ("kubectl" :: kubecfgArgs ++ ["exec"; podName; "-c"; container; "--"; "sh"; "-c"; "command -v bpftool"])).

Definition pod_containers (kubecfgArgs : list string) (podName : string) : list string :=
  match execCommand ("kubectl" :: kubecfgArgs ++ ["get"; "pod"; podName; "-o"; "jsonpath={.spec.containers[*].name}"]) with
  | Err _ => []
  | Ok out => Fields (TrimSpace out)
  end.

(** No containers, an error of kubectl, and no bpftool in any are errors. *)
Definition resolveBpftoolContainer (preferred podName : string) (kubecfgArgs : list string) : option string :=
  match pod_containers kubecfgArgs podName with
  | [] => None
  | containers => head (filter (fun c => has_bpftool kubecfgArgs podName c = true) (tryContainers preferred containers))
  end.

(** A table of a container; one that cannot be dumped is a warning. *)
Definition dump_map (kubecfgArgs : list string) (podName containerName name : string) : list printed :=
  match execCommand ("kubectl" :: kubecfgArgs ++ ["exec"; podName; "-c"; containerName; "--"] ++ dump_args name) with
  | Err _ => [Warning podName]
  | Ok out => [MapTitle name; Dump out]
  end.

(** A line of the list of pods: name and node. *)
Definition dump_pod (f : map_flags) (names : list string) (line : string) : list printed :=
  match Fields line with
  | podName :: nodeName :: _ =>
      if decide (pm_Node f <> "" /\ nodeName <> pm_Node f) then [] else
      Header nodeName podName ::
      match resolveBpftoolContainer (pm_Container f) podName (kubectlConfigArgs f) with
      | None => [Warning podName]
      | Some containerName => names ≫= dump_map (kubectlConfigArgs f) podName containerName
      end
  | _ => []
  end.

Definition list_args (f : map_flags) : list string :=
  kubectlConfigArgs f ++ ["get"; "pods"; "-l"; pm_Label f; "-o"; "jsonpath={range .items[*]}{.metadata.name} {.spec.nodeName}{'\n'}{end}"].

Definition k8s_dumps (f : map_flags) (names : list string) : list printed * option map_error :=
  match execCommand ("kubectl" :: list_args f) with
  | Err _ => ([], Some EList)
  | Ok out =>
      let lines := Split (TrimSpace out) "010"%char in
      if decide (lines = [] \/ lines = [""]) then ([], Some ENoPods) else (lines ≫= dump_pod f names, None)
  end.

Definition runPriorityMap (f : map_flags) : list printed * option map_error :=
  let names := normalizeMapNames (pm_Names f) in
  if pm_Local f then local_dumps names else k8s_dumps f names.

End commands.

(** ** Lemmas *)

Lemma normalize_go_spec seen l :
  NoDup (normalize_go seen l) /\ forall x, x ∈ normalize_go seen l <-> x ∈ map_name <$> l /\ x ∉ seen.
Proof.
  revert seen. induction l as [|n l IH]; intros seen; cbn; [split; [constructor|set_solver]|]. case_decide as Hs.
  - destruct (IH seen) as [Hd He]. split; [done|]. intros x. rewrite He, elem_of_cons. naive_solver.
  - destruct (IH (map_name n :: seen)) as [Hd He]. split.
    + constructor; [|done]. rewrite He. intros [_ Hn]. apply Hn. left.
    + intros x. rewrite !elem_of_cons, He, elem_of_cons. split; [naive_solver|]. intros [[->|Hx] Hn]; [by left|].
      destruct (decide (x = map_name n)) as [->|Hne]; [by left|]. right. naive_solver.
Qed.

Lemma head_filter_Some {X} (P : X -> Prop) `{!forall x, Decision (P x)} l x :
  head (filter P l) = Some x <-> exists l1 l2, l = l1 ++ x :: l2 /\ P x /\ Forall (fun y => ~ P y) l1.
Proof.
  induction l as [|y l IH].
  - split; [done|]. intros ([|? ?] & ? & ? & _); done.
  - rewrite filter_cons. case_decide as Hy; cbn.
    + split; [intros [= ->]; exists [], l; done|]. intros ([|z l1] & l2 & [= <- E] & Hx & Hf); [done|]. by apply Forall_cons in Hf as [? _].
    + rewrite IH. split.
      * intros (l1 & l2 & -> & Hx & Hf). exists (y :: l1), l2. split; [done|]. split; [done|by constructor].
      * intros ([|z l1] & l2 & [= <- E] & Hx & Hf); [done|]. apply Forall_cons in Hf as [_ Hf]. by exists l1, l2.
Qed.

Lemma Split_blank s c : Split s c = [""] -> s = "".
Proof.
  destruct s as [|a s]; [done|]. cbn. destruct (Ascii.eqb a c); [intros [= Hs]; by apply Split_nonempty in Hs|]. by destruct (Split s c).
Qed.

Lemma dump_map_text execCommand args pod c name text :
  Dump text ∈ dump_map execCommand args pod c name <->
  execCommand ("kubectl" :: args ++ ["exec"; pod; "-c"; c; "--"] ++ dump_args name) = Ok text.
Proof.
  unfold dump_map. destruct (execCommand _) as [out|out].
  - rewrite !elem_of_cons. split; [intros [?|[[= ->]|?%not_elem_of_nil]]; done|]. intros [= ->]. auto.
  - rewrite list_elem_of_singleton. done.
Qed.

(** Remark (names): the tables read are those named, with the name of the second as the
    kernel has it, none twice. *)
Theorem map_names_spec l : NoDup (normalizeMapNames l) /\ forall x, x ∈ normalizeMapNames l <-> exists n, n ∈ l /\ x = map_name n.
Proof.
  destruct (normalize_go_spec [] l) as [Hd He]. split; [done|]. intros x. unfold normalizeMapNames. rewrite He, list_elem_of_fmap.
  split; [intros [(n & -> & Hn) _]; by exists n|]. intros (n & Hn & ->). split; [by exists n|]. apply not_elem_of_nil.
Qed.

(** Remark (containers): the container chosen has bpftool, and every container that comes
    before it, the preferred one first, has not. *)
Theorem resolve_container_spec execCommand preferred podName args c :
  resolveBpftoolContainer execCommand preferred podName args = Some c ->
  has_bpftool execCommand args podName c = true /\ (c = preferred \/ c ∈ pod_containers execCommand args podName) /\
  (preferred <> "" -> c <> preferred -> has_bpftool execCommand args podName preferred = false).
Proof.
  unfold resolveBpftoolContainer. destruct (pod_containers execCommand args podName) as [|c0 cs] eqn:Ec; [done|].
  rewrite head_filter_Some. intros (l1 & l2 & Hl & Hb & Hf). split; [done|].
  assert (c ∈ tryContainers preferred (c0 :: cs)) as Hin by (rewrite Hl; apply elem_of_app; right; left). unfold tryContainers in *. split.
  - apply elem_of_app in Hin as [Hin|Hin]; [|right; by apply list_elem_of_filter in Hin as [_ ?]]. case_decide; [|by apply not_elem_of_nil in Hin].
    left. by apply list_elem_of_singleton in Hin.
  - intros Hp Hc. rewrite decide_True in Hl by done. destruct l1 as [|y l1]; [by injection Hl as -> _|].
    injection Hl as <- _. apply Forall_cons in Hf as [Hf _]. by apply not_true_is_false.
Qed.

(** Remark (dumps): the command prints a table exactly when the line of its pod is in the
    list, the pod is on the node asked for (if one is), a container with bpftool was found,
    and the dump succeeds. *)
Theorem k8s_dumps_spec execCommand f names out text :
  execCommand ("kubectl" :: list_args f) = Ok out -> TrimSpace out <> "" ->
  let '(l, e) := k8s_dumps execCommand f names in
  e = None /\
  (Dump text ∈ l <->
   exists line pod node rest c name, line ∈ Split (TrimSpace out) "010"%char /\ Fields line = pod :: node :: rest /\
     (pm_Node f = "" \/ node = pm_Node f) /\ resolveBpftoolContainer execCommand (pm_Container f) pod (kubectlConfigArgs f) = Some c /\ name ∈ names /\
     execCommand ("kubectl" :: kubectlConfigArgs f ++ ["exec"; pod; "-c"; c; "--"] ++ dump_args name) = Ok text).
Proof.
  intros Ho Hne. unfold k8s_dumps. rewrite Ho, decide_False.
  2: { intros [He|He]; [by apply (Split_nonempty (TrimSpace out) "010"%char)|by apply Hne, (Split_blank _ "010"%char)]. }
  split; [done|]. rewrite list_elem_of_bind. split.
  - intros (line & Hd & Hline). unfold dump_pod in Hd. destruct (Fields line) as [|pod [|node rest]] eqn:Ef; try by apply not_elem_of_nil in Hd.
    case_decide as Hn; [by apply not_elem_of_nil in Hd|]. apply elem_of_cons in Hd as [?|Hd]; [done|].
    destruct (resolveBpftoolContainer _ _ _ _) as [c|] eqn:Er; [|by apply list_elem_of_singleton in Hd].
    apply list_elem_of_bind in Hd as (name & Hd & Hname). apply dump_map_text in Hd.
    exists line, pod, node, rest, c, name. split_and!; try done. destruct (decide (pm_Node f = "")); [by left|]. right. apply dec_stable. tauto.
  - intros (line & pod & node & rest & c & name & Hline & Ef & Hn & Er & Hname & Hx). exists line. split; [|done].
    unfold dump_pod. rewrite Ef, decide_False by naive_solver. rewrite Er. right. apply list_elem_of_bind. exists name.
    split; [by apply dump_map_text|done].
Qed.

(** ** Examples *)

(** One pod on node n1 with bpftool in its second container. *)
Definition sample_exec (args : list string) : result string string :=
  if decide ("pods" ∈ args) then Ok ("sched-1 n1" +:+ String "010" "sched-2 n2")
  else if decide ("jsonpath={.spec.containers[*].name}" ∈ args) then Ok "app tools"
  else if decide ("command -v bpftool" ∈ args) then (if decide ("tools" ∈ args) then Ok "/bin/bpftool" else Err "")
  else Ok "{}".

Definition sample_flags : map_flags := mkMapFlags "n1" "app=gthulhu" "scheduler-sidecar" ["priority_tasks"; "priority_tasks_prio"; "priority_tasks"] false "" "default".

Example sample_dumps :
  runPriorityMap sample_exec sample_flags =
  ([Header "n1" "sched-1"; MapTitle "priority_tasks"; Dump "{}"; MapTitle "priority_tasks_"; Dump "{}"], None).
Proof. by vm_compute. Qed.

Lemma resolve_container_spec_witness : has_bpftool sample_exec ["-n"; "default"] "sched-1" "scheduler-sidecar" = false.
Proof. apply (resolve_container_spec sample_exec "scheduler-sidecar" "sched-1" ["-n"; "default"] "tools"); [by vm_compute|done|done]. Defined.

Lemma k8s_dumps_spec_witness : Dump "{}" ∈ (k8s_dumps sample_exec sample_flags ["priority_tasks"]).1.
Proof.
  pose proof (k8s_dumps_spec sample_exec sample_flags ["priority_tasks"] ("sched-1 n1" +:+ String "010" "sched-2 n2") "{}" eq_refl ltac:(by vm_compute)) as Hs.
  destruct (k8s_dumps _ _ _) as [l e]. destruct Hs as [_ Hs]. apply Hs.
  exists "sched-1 n1", "sched-1", "n1", [], "tools", "priority_tasks". split_and!; try (by vm_compute); [left|by right|left].
Defined.
