(* ===== verification/MetricsFlow.v ===== *)
(** * The values of pods on their way from a decision maker to the manager

    A decision maker measures the pods of its intents (PodMetrics) and serves the numbers
    at /metrics, in the text format of Prometheus; the manager reads that page
    (client/deicison_maker_metrics.go) and makes values of it (PSM).  This file puts the
    two together.  The registry, the text format and its parser are a library: the class
    [PromLib], whose laws are what its documentation promises.  The registry also serves
    series of its own, about the process; they are a parameter.

    The theorems: when no two targets report under the same key, the manager gets exactly one
    value per target, the sums over its processes ([metrics_reach_manager]); and when a pod has
    two intents, which is what two strategies that select it give it, the registry
    refuses the whole page and the manager gets nothing from the node
    ([duplicate_pod_breaks_metrics]). *)

From stdpp Require Import base gmap strings list sorting.
From Stdlib Require Import ZArith Lia Ascii SpecFloat.
From S2P Require Import Prelude GoStrings GoSort GoFloat Intents ProcScan PodMetrics DecisionMaker ManagerDomain Manager PSM DMAuth.
#[local] Open Scope go_scope.
#[local] Open Scope Z_scope.

(** ** Series *)

(** What [MustNewConstMetric] makes: the name of the family, whether it is a counter or a
    gauge, the labels, the value. *)
Record series := mkSeries { se_name : string; se_counter : bool; se_labels : list (string * string); se_value : float64 }.

(** [podSchedMetricLabels] *)
Definition podSchedMetricLabels : list string := ["pod_name"; "pod_uid"; "namespace"; "node_name"].

(** The value types in [PodSchedMetricCollector.Collect]: the number of processes is a gauge. *)
Definition pod_series (m : metric) : series :=
  mkSeries (m_name m) (bool_decide (m_name m <> "gthulhu_pod_process_count"))
    (zip podSchedMetricLabels (PodMetrics.m_labels m)) (f64_of_Z (PodMetrics.m_value m)).

(** [MetricCollector]: gauges with the label of the machine. *)
Definition gauge_series (machineID : string) (g : string * float64) : series :=
  mkSeries g.1 false [("machine_id", machineID)] g.2.

(** A series of the page as the parser returns it. *)
Inductive dto_value := DtoCounter (x : float64) | DtoGauge (x : float64) | DtoUntyped (x : float64) | DtoOther.
Record dto_metric := mkDto { dto_Label : list (string * string); dto_Value : dto_value }.

(** ** The library *)

(** What tells series apart: the name and the labels. *)
Definition se_id (s : series) : string * gmap string string := (se_name s, list_to_map (se_labels s)).

(** No two series are the same, and a name has one type and one set of labels. *)
Definition consistent (l : list series) : Prop :=
  NoDup (se_id <$> l) /\
  forall a b, a ∈ l -> b ∈ l -> se_name a = se_name b -> se_counter a = se_counter b /\ (se_labels a).*1 = (se_labels b).*1.

(** Labels the library takes as they are; it asks for UTF-8, of which ASCII is a part. *)
Definition is_ascii (s : string) : Prop := Forall (fun c => nat_of_ascii c < 128)%nat (String.list_ascii_of_string s).
Definition plain_labels (s : series) : Prop := NoDup (se_labels s).*1 /\ Forall (fun kv => is_ascii kv.2) (se_labels s).

(** [prometheusLabels] *)
Definition prometheusLabels (m : dto_metric) : gmap string string := foldl (fun acc kv => <[kv.1 := kv.2]> acc) ∅ (dto_Label m).
Definition label (ls : gmap string string) (k : string) : string := default "" (ls !! k).

(** A series was read as it was written: a label that is empty may be left out. *)
Definition reads (s : series) (m : dto_metric) : Prop :=
  (forall k, label (prometheusLabels m) k = label (prometheusLabels (mkDto (se_labels s) DtoOther)) k) /\
  dto_Value m = if se_counter s then DtoCounter (se_value s) else DtoGauge (se_value s).

Class PromLib := {
  page : Type;
  (** the values of labels [NewConstMetric] accepts *)
  valid_label : string -> bool;
  (** [promhttp.Handler]: the page of all series, or the status 500 *)
  Gather : list series -> option page;
  (** the families, in the order in which Go ranges over their map *)
  TextToMetricFamilies : page -> option (list (string * list dto_metric))
}.

Class PromLaws (P : PromLib) : Prop := {
  ascii_valid : forall v, is_ascii v -> valid_label v = true;
  gather_refuses : forall l, ~ NoDup (se_id <$> l) -> Gather l = None;
  gather_serves : forall l, consistent l -> Forall plain_labels l ->
    exists p fams, Gather l = Some p /\ TextToMetricFamilies p = Some fams /\
      (forall f ms m, (f, ms) ∈ fams -> m ∈ ms -> exists s, s ∈ l /\ se_name s = f /\ reads s m) /\
      (forall s, s ∈ l -> exists ms m, (se_name s, ms) ∈ fams /\ m ∈ ms /\ reads s m)
}.

Section flow.
  Context {P : PromLib} {R : RSALib}.
  (** What a conversion to uint64 gives for a value that does not fit, and Go's order of
      iteration over a map. *)
  Context (out_of_range : float64 -> Z).
  Context (range : gmap string PodSchedulingMetricValue -> list (string * PodSchedulingMetricValue)).

(** [uint64(x)] *)
Definition u64_of_f64 (x : float64) : Z :=
  match f64_trunc x with
  | Some z => if decide (0 <= z < 2 ^ 64) then z else out_of_range x
  | None => out_of_range x
  end.

(** [prometheusMetricValue] *)
Definition prometheusMetricValue (m : dto_metric) : Z :=
  match dto_Value m with
  | DtoCounter x | DtoGauge x | DtoUntyped x => u64_of_f64 x
  | DtoOther => 0
  end.

Definition read_metric (m : dto_metric) : prom_metric := PSM.mkMetric (prometheusLabels m) (prometheusMetricValue m).

Definition read_family (f : string * list dto_metric) : string * list prom_metric := (f.1, read_metric <$> f.2).

(** Everything the two collectors of a decision maker send. *)
Definition emitted (env : dm_env) (s : DMServer) : list series :=
  (gauge_series (env_nodeName env) <$> collect_gauges (sv_metrics s)) ++
  (pod_series <$> Collect (env_fs env) (intentPods (sv_service s))).

(** GET /metrics, with the registry's own series. *)
Definition metrics_endpoint (env : dm_env) (own : list series) (s : DMServer) : option page := Gather (own ++ emitted env s).

(** [DecisionMakerClient.GetPodSchedulingMetricValues] from the answer it got, [None] for
    a status other than 200. *)
Definition fetch_values (dm : DecisionMakerPod) (answer : option page) : option (list PodSchedulingMetricValue) :=
  match answer with
  | None => None
  | Some p =>
      match TextToMetricFamilies p with
      | None => None
      | Some fams => Some (GetPodSchedulingMetricValues range (dm_NodeID dm) (read_family <$> fams))
      end
  end.

(** ** What the manager should get *)

Definition families : list (string * (PodSchedulingMetricValue -> Z)) :=
  [("gthulhu_pod_voluntary_ctx_switches_total", v_VoluntaryCtxSwitches);
   ("gthulhu_pod_involuntary_ctx_switches_total", v_InvoluntaryCtxSwitches);
   ("gthulhu_pod_cpu_time_nanoseconds_total", v_CPUTimeNs);
   ("gthulhu_pod_wait_time_nanoseconds_total", v_WaitTimeNs);
   ("gthulhu_pod_run_count_total", v_RunCount);
   ("gthulhu_pod_cpu_migrations_total", v_CPUMigrations);
   ("gthulhu_pod_smt_migrations_total", v_SMTMigrations);
   ("gthulhu_pod_l3_migrations_total", v_L3Migrations);
   ("gthulhu_pod_numa_migrations_total", v_NUMAMigrations)].

(** The node a target reports under: the manager's name for the node when it has none. *)
Definition target_node (dm : DecisionMakerPod) (t : podTarget) : string := firstNonEmpty [pt_NodeName t; dm_NodeID dm].
Definition target_key (dm : DecisionMakerPod) (t : podTarget) : string :=
  value_key (pt_Namespace t) (pt_PodName t) (target_node dm t).

Definition totals_of (fs : procfs) (t : podTarget) : list Z :=
  (fun f => u64 (sum_of fs f (pt_PIDs t))) <$>
  [VoluntaryCtxSwitches; InvoluntaryCtxSwitches; CPUTimeNs; WaitTimeNs; PodMetrics.RunCount; CPUMigrations].

(** The sums over the processes; the decision maker does not measure the last three. *)
Definition target_value (fs : procfs) (dm : DecisionMakerPod) (t : podTarget) : PodSchedulingMetricValue :=
  let total f := u64 (sum_of fs f (pt_PIDs t)) in
  mkValue (pt_Namespace t) (pt_PodName t) (target_node dm t)
    (total VoluntaryCtxSwitches) (total InvoluntaryCtxSwitches) (total CPUTimeNs) (total WaitTimeNs)
    (total PodMetrics.RunCount) (total CPUMigrations) 0 0 0.


(** ** The items of the manager *)

(** A value of which only some families have been read. *)
Definition filled (F : string -> bool) (w : PodSchedulingMetricValue) : PodSchedulingMetricValue :=
  let at_ f g := if F f then g w else 0 in
  mkValue (v_Namespace w) (v_PodName w) (v_NodeID w)
    (at_ "gthulhu_pod_voluntary_ctx_switches_total" v_VoluntaryCtxSwitches)
    (at_ "gthulhu_pod_involuntary_ctx_switches_total" v_InvoluntaryCtxSwitches)
    (at_ "gthulhu_pod_cpu_time_nanoseconds_total" v_CPUTimeNs)
    (at_ "gthulhu_pod_wait_time_nanoseconds_total" v_WaitTimeNs)
    (at_ "gthulhu_pod_run_count_total" v_RunCount)
    (at_ "gthulhu_pod_cpu_migrations_total" v_CPUMigrations)
    (at_ "gthulhu_pod_smt_migrations_total" v_SMTMigrations)
    (at_ "gthulhu_pod_l3_migrations_total" v_L3Migrations)
    (at_ "gthulhu_pod_numa_migrations_total" v_NUMAMigrations).

Lemma filled_ext F G w : (forall f, f ∈ families.*1 -> F f = G f) -> filled F w = filled G w.
Proof. intros E. unfold filled. by rewrite !E by (apply (bool_decide_unpack _); reflexivity). Qed.

Lemma filled_none w : filled (fun _ => false) w = no_values (v_Namespace w) (v_PodName w) (v_NodeID w).
Proof. done. Qed.

Lemma set_filled f g F w : (f, g) ∈ families ->
  set_value f (g w) (filled F w) = Some (filled (fun h => bool_decide (h = f) || F h) w).
Proof. unfold families. rewrite !elem_of_cons. intros Hin. repeat (destruct Hin as [[= -> ->]|Hin]; [reflexivity|]). by apply not_elem_of_nil in Hin. Qed.

Lemma set_unknown f v i : f ∉ families.*1 -> set_value f v i = None.
Proof.
  intros Hf. destruct i. unfold set_value.
  repeat (case_decide; [subst f; exfalso; apply Hf; apply (bool_decide_unpack _); reflexivity|]). done.
Qed.

Lemma family_known f : f ∈ families.*1 -> exists g, (f, g) ∈ families.
Proof. intros ([f' g] & -> & Hin)%list_elem_of_fmap. eauto. Qed.

Lemma set_known f v i : f ∈ families.*1 -> is_Some (set_value f v i).
Proof.
  intros (g & Hin)%family_known. destruct i. revert Hin. unfold families. rewrite !elem_of_cons. intros Hin.
  repeat (destruct Hin as [[= -> ->]|Hin]; [eexists; reflexivity|]). by apply not_elem_of_nil in Hin.
Qed.

(** The pod a series is about. *)
Definition series_pod (nodeID : string) (m : prom_metric) : option (string * string * string) :=
  let label k := default "" (PSM.m_labels m !! k) in
  let podName := firstNonEmpty [label "pod_name"; label "pod"] in
  let ns := firstNonEmpty [label "namespace"; label "kubernetes_namespace"] in
  if decide (podName = "" \/ ns = "") then None
  else Some (ns, podName, firstNonEmpty [label "node_name"; label "node"; nodeID]).
Definition series_key (nodeID : string) (m : prom_metric) : option string :=
  (fun '(ns, p, n) => value_key ns p n) <$> series_pod nodeID m.

Lemma add_metric_eq nodeID f items m : add_metric nodeID f items m =
  match series_pod nodeID m with
  | None => items
  | Some (ns, p, n) =>
      match set_value f (PSM.m_value m) (default (no_values ns p n) (items !! value_key ns p n)) with
      | Some item => <[value_key ns p n := item]> items
      | None => items
      end
  end.
Proof. unfold add_metric, series_pod. cbv zeta. by case_decide. Qed.

Lemma add_unknown nodeID f items m : f ∉ families.*1 -> add_metric nodeID f items m = items.
Proof. intros Hf. rewrite add_metric_eq. destruct (series_pod nodeID m) as [[[ns p] n]|]; [|done]. by rewrite set_unknown. Qed.

(** The series one by one. *)
Definition flat (fams : list (string * list prom_metric)) : list (string * prom_metric) := fams ≫= (fun fm => pair fm.1 <$> fm.2).
Definition step (nodeID : string) (items : gmap string PodSchedulingMetricValue) (op : string * prom_metric) :=
  add_metric nodeID op.1 items op.2.

Lemma items_flat nodeID fams items :
  foldl (fun items '(family, metrics) =>
    if decide (is_Some (set_value family 0 (no_values "" "" ""))) then foldl (add_metric nodeID family) items metrics else items)
    items fams = foldl (step nodeID) items (flat fams).
Proof.
  revert items. induction fams as [|[f ms] fams IH]; intros items; [done|]. cbn [foldl]. rewrite IH. unfold flat. cbn [mbind list_bind fst snd].
  rewrite foldl_app. f_equal.
  assert (forall i, foldl (step nodeID) i (pair f <$> ms) = foldl (add_metric nodeID f) i ms) as ->.
  { intros i. revert i. induction ms as [|m ms IHm]; intros i; [done|]. cbn [foldl fmap list_fmap]. apply IHm. }
  case_decide as Hk; [done|]. assert (f ∉ families.*1) as Hf by (intros Hf; by apply Hk, set_known).
  clear Hk. revert items. induction ms as [|m ms IHm]; intros items; [done|]. cbn [foldl]. by rewrite add_unknown.
Qed.

(** Whether a family of a key is among the series. *)
Definition seen (nodeID : string) (ops : list (string * prom_metric)) (k f : string) : bool :=
  existsb (fun op => bool_decide (f = op.1) && bool_decide (series_key nodeID op.2 = Some k)) ops.

Lemma seen_snoc nodeID ops op k f :
  seen nodeID (ops ++ [op]) k f = (bool_decide (f = op.1) && bool_decide (series_key nodeID op.2 = Some k)) || seen nodeID ops k f.
Proof. unfold seen. rewrite existsb_app. cbn [existsb]. by rewrite orb_false_r, orb_comm. Qed.

Lemma seen_elem nodeID ops f m k : (f, m) ∈ ops -> series_key nodeID m = Some k -> seen nodeID ops k f = true.
Proof.
  intros Hin Hk. unfold seen. apply existsb_exists. exists (f, m). split; [by apply list_elem_of_In|]. cbn. by rewrite !bool_decide_true.
Qed.

(** Series that report the values [W], each under a key of its own. *)
Definition reports (nodeID : string) (W : list PodSchedulingMetricValue) (op : string * prom_metric) : Prop :=
  forall g, (op.1, g) ∈ families ->
  exists w, w ∈ W /\ series_pod nodeID op.2 = Some (v_Namespace w, v_PodName w, v_NodeID w) /\ PSM.m_value op.2 = g w.

Lemma reported_unique W (w1 w2 : PodSchedulingMetricValue) :
  NoDup (item_key3 <$> W) -> w1 ∈ W -> w2 ∈ W -> item_key3 w1 = item_key3 w2 -> w1 = w2.
Proof.
  intros Hnd [i1 H1]%list_elem_of_lookup [i2 H2]%list_elem_of_lookup E.
  assert (i1 = i2) as ->; [|congruence]. eapply NoDup_lookup; [done|by rewrite list_lookup_fmap, H1|by rewrite list_lookup_fmap, H2, E].
Qed.

(** What the items are after some of the series. *)
Definition items_are (nodeID : string) (W : list PodSchedulingMetricValue) (ops : list (string * prom_metric))
    (items : gmap string PodSchedulingMetricValue) : Prop := forall k it,
  items !! k = Some it <->
  exists w, w ∈ W /\ item_key3 w = k /\ (exists f, f ∈ families.*1 /\ seen nodeID ops k f = true) /\ it = filled (seen nodeID ops k) w.

Lemma items_at nodeID W ops items w : NoDup (item_key3 <$> W) -> items_are nodeID W ops items -> w ∈ W ->
  default (no_values (v_Namespace w) (v_PodName w) (v_NodeID w)) (items !! item_key3 w) = filled (seen nodeID ops (item_key3 w)) w.
Proof.
  intros Hnd Hi Hw. destruct (items !! item_key3 w) as [it|] eqn:E; cbn [default from_option id].
  - apply Hi in E as (w' & Hw' & Hk & _ & ->). by rewrite (reported_unique W w' w).
  - rewrite <- filled_none. apply filled_ext. intros f Hf. destruct (seen nodeID ops (item_key3 w) f) eqn:Es; [|done].
    exfalso. assert (items !! item_key3 w = Some (filled (seen nodeID ops (item_key3 w)) w)) as E'; [|by rewrite E in E']. apply Hi. eauto 8.
Qed.

Lemma items_step nodeID W ops items op :
  NoDup (item_key3 <$> W) -> reports nodeID W op -> items_are nodeID W ops items -> items_are nodeID W (ops ++ [op]) (step nodeID items op).
Proof.
  intros Hnd Hop Hi k it. destruct op as [f m]. unfold step. cbn [fst snd].
  assert (forall k', (f ∈ families.*1 -> series_key nodeID m <> Some k') -> forall h, h ∈ families.*1 ->
    seen nodeID (ops ++ [(f, m)]) k' h = seen nodeID ops k' h) as Hother.
  { intros k' Hne h Hh. rewrite seen_snoc. cbn [fst snd]. case_bool_decide as Hhf; [|done]. subst h. by rewrite (bool_decide_false _ (Hne Hh)). }
  assert (forall k', (f ∈ families.*1 -> series_key nodeID m <> Some k') -> (items !! k' = Some it <->
    exists w, w ∈ W /\ item_key3 w = k' /\ (exists h, h ∈ families.*1 /\ seen nodeID (ops ++ [(f, m)]) k' h = true) /\
              it = filled (seen nodeID (ops ++ [(f, m)]) k') w)) as Hsame.
  { intros k' Hne. rewrite (Hi k' it). f_equiv. intros w. rewrite (filled_ext _ _ w (Hother k' Hne)). f_equiv. f_equiv. f_equiv. f_equiv.
    intros h. split; intros [H1 H2]; (split; [done|]); [by rewrite Hother|by rewrite <- (Hother k' Hne)]. }
  destruct (decide (f ∈ families.*1)) as [Hf|Hf]; [|rewrite add_unknown by done; by apply Hsame].
  destruct (family_known _ Hf) as [g Hg]. destruct (Hop g Hg) as (w0 & Hw0 & Hpod & Hval). cbn [fst snd] in *.
  rewrite add_metric_eq, Hpod, Hval. change (value_key _ _ _) with (item_key3 w0). rewrite (items_at nodeID W ops) by done. rewrite set_filled by done.
  assert (series_key nodeID m = Some (item_key3 w0)) as Hkey by (unfold series_key; by rewrite Hpod).
  destruct (decide (k = item_key3 w0)) as [->|Hk].
  - rewrite lookup_insert_eq.
    assert (filled (fun h => bool_decide (h = f) || seen nodeID ops (item_key3 w0) h) w0 = filled (seen nodeID (ops ++ [(f, m)]) (item_key3 w0)) w0) as ->.
    { apply filled_ext. intros h _. rewrite seen_snoc. cbn [fst snd]. by rewrite (bool_decide_true _ Hkey), andb_true_r. }
    split; [intros [= <-]|intros (w & Hw & Hkw & _ & ->); by rewrite (reported_unique W w w0)].
    exists w0. split_and!; [done..| |done]. exists f. split; [done|]. eapply seen_elem; [|done]. apply elem_of_app. right. left.
  - rewrite lookup_insert_ne by done. apply Hsame. intros _. rewrite Hkey. congruence.
Qed.

Lemma items_spec nodeID W ops :
  NoDup (item_key3 <$> W) -> Forall (reports nodeID W) ops -> items_are nodeID W ops (foldl (step nodeID) ∅ ops).
Proof.
  intros Hnd. induction ops as [|op ops IH] using rev_ind; intros Hops.
  - intros k it. cbn [foldl]. rewrite lookup_empty. split; [done|]. by intros (w & _ & _ & (f & _ & Hs) & _).
  - apply Forall_app in Hops as [Hops [Hop _]%Forall_cons]. rewrite foldl_snoc. by apply items_step; [..|apply IH].
Qed.

(** ** The page of a decision maker *)

Definition gauge_names : list string :=
  ["user_sched_last_run_at"; "nr_queued"; "nr_scheduled"; "nr_running"; "nr_online_cpus"; "nr_user_dispatches";
   "nr_kernel_dispatches"; "nr_cancel_dispatches"; "nr_bounce_dispatches"; "nr_failed_dispatches"; "nr_sched_congested"].
Definition pod_names : list string := take 6 families.*1 ++ ["gthulhu_pod_process_count"].
Definition dm_names : list string := gauge_names ++ families.*1 ++ ["gthulhu_pod_process_count"].

(** The registry's own series, which are in order and have names of their own. *)
Definition own_ok (own : list series) : Prop :=
  consistent own /\ Forall plain_labels own /\ Forall (fun s => se_name s ∉ dm_names) own.

Definition target_labels (t : podTarget) : list string := [pt_PodName t; pt_PodUID t; pt_Namespace t; pt_NodeName t].

(** A target as Kubernetes names pods, with totals that a float64 holds exactly. *)
Definition target_ok (fs : procfs) (t : podTarget) : Prop :=
  pt_PodName t <> "" /\ pt_Namespace t <> "" /\ Forall is_ascii (target_labels t) /\ Forall (fun z => z < 2 ^ 53) (totals_of fs t).

Lemma gauge_name (ms : option MetricSet) g : g ∈ collect_gauges ms -> g.1 ∈ gauge_names.
Proof.
  intros Hg. destruct ms as [ms|]; [|by apply not_elem_of_nil in Hg].
  change gauge_names with (collect_gauges (Some ms)).*1. by apply list_elem_of_fmap_2.
Qed.

Lemma pod_series_elem fs ts s : s ∈ pod_series <$> Collect fs ts <->
  exists t, t ∈ ts /\ pt_PIDs t <> [] /\ s ∈ pod_series <$> pod_metrics fs (target_labels t) (pt_PIDs t).
Proof.
  unfold Collect. rewrite list_elem_of_fmap. setoid_rewrite list_elem_of_bind. setoid_rewrite list_elem_of_fmap. split.
  - intros (m & -> & t & Hm & Ht). rewrite collect_pod_spec in Hm. exists t. case_decide; [by apply not_elem_of_nil in Hm|eauto].
  - intros (t & Ht & Hp & m & -> & Hm). exists m. split; [done|]. exists t. split; [|done]. rewrite collect_pod_spec. by rewrite decide_False.
Qed.

(** The family of a series of a pod, its labels and its value. *)
Lemma pod_series_in fs t s : s ∈ pod_series <$> pod_metrics fs (target_labels t) (pt_PIDs t) ->
  se_name s ∈ pod_names /\ se_counter s = bool_decide (se_name s <> "gthulhu_pod_process_count") /\
  se_labels s = zip podSchedMetricLabels (target_labels t) /\
  forall dm g, (se_name s, g) ∈ families -> se_counter s = true /\ se_value s = f64_of_Z (g (target_value fs dm t)) /\ g (target_value fs dm t) ∈ totals_of fs t.
Proof.
  unfold pod_metrics. rewrite !fmap_cons, fmap_nil, !elem_of_cons. intros Hs.
  repeat (destruct Hs as [->|Hs]); [..|by apply not_elem_of_nil in Hs].
  all: split_and!; [apply (bool_decide_unpack _); reflexivity|reflexivity|reflexivity|].
  all: intros dm g; unfold families; rewrite !elem_of_cons; intros Hg.
  all: repeat (destruct Hg as [Hg|Hg]; [first [discriminate Hg|injection Hg as ->]|]); [..|by apply not_elem_of_nil in Hg].
  all: split_and!; [reflexivity|reflexivity|]; cbn; rewrite !elem_of_cons; tauto.
Qed.

(** Type and labels of a series follow from its name. *)
Definition shape (n : string) : bool * list string :=
  if decide (n ∈ gauge_names) then (false, ["machine_id"])
  else (bool_decide (n <> "gthulhu_pod_process_count"), podSchedMetricLabels).

Lemma emitted_shape env sv s : s ∈ emitted env sv -> se_name s ∈ dm_names /\ (se_counter s, (se_labels s).*1) = shape (se_name s).
Proof.
  unfold emitted. rewrite elem_of_app. intros [(g & -> & Hg%gauge_name)%list_elem_of_fmap|(t & _ & _ & Hs)%pod_series_elem].
  - unfold shape. cbn [se_name gauge_series]. rewrite decide_True by done. split; [|done]. unfold dm_names. apply elem_of_app. by left.
  - destruct (pod_series_in _ _ _ Hs) as (Hn & Hc & Hl & _). rewrite Hc, Hl. unfold shape.
    assert (Forall (fun n => n ∈ dm_names /\ n ∉ gauge_names) pod_names) as HF by (apply (bool_decide_unpack _); vm_compute; exact I).
    rewrite Forall_forall in HF. destruct (HF _ Hn). by rewrite decide_False.
Qed.

Lemma label_map_key dm t1 t2 :
  list_to_map (zip podSchedMetricLabels (target_labels t1)) =@{gmap string string} list_to_map (zip podSchedMetricLabels (target_labels t2)) ->
  target_key dm t1 = target_key dm t2.
Proof.
  intros E. unfold target_key, target_node.
  assert (Some (pt_PodName t1) = Some (pt_PodName t2)) as [= ->] by exact (f_equal (fun m : gmap string string => m !! "pod_name") E).
  assert (Some (pt_Namespace t1) = Some (pt_Namespace t2)) as [= ->] by exact (f_equal (fun m : gmap string string => m !! "namespace") E).
  assert (Some (pt_NodeName t1) = Some (pt_NodeName t2)) as [= ->] by exact (f_equal (fun m : gmap string string => m !! "node_name") E).
  done.
Qed.

Lemma pod_ids_nodup fs dm ts : NoDup (target_key dm <$> ts) -> NoDup (se_id <$> (pod_series <$> Collect fs ts)).
Proof.
  induction ts as [|t ts IH]; [intros _; apply NoDup_nil_2|]. intros [Ht Hts]%NoDup_cons.
  unfold Collect. rewrite bind_cons, !fmap_app. apply NoDup_app. split_and!; [| |by apply IH].
  - rewrite collect_pod_spec. case_decide; [apply NoDup_nil_2|]. apply (NoDup_fmap_1 fst). apply (bool_decide_unpack _). vm_compute. exact I.
  - intros x Hx (s2 & -> & (t2 & Ht2 & _ & Hs2)%pod_series_elem)%list_elem_of_fmap. apply list_elem_of_fmap in Hx as (s1 & Hid & Hs1).
    rewrite collect_pod_spec in Hs1. case_decide; [by apply not_elem_of_nil in Hs1|].
    destruct (pod_series_in _ _ _ Hs1) as (_ & _ & Hl1 & _), (pod_series_in _ _ _ Hs2) as (_ & _ & Hl2 & _).
    apply (f_equal snd) in Hid. cbn [se_id snd] in Hid. rewrite Hl1, Hl2 in Hid. apply Ht. rewrite <- (label_map_key dm _ _ Hid).
    by apply list_elem_of_fmap_2.
Qed.

Lemma emitted_nodup env dm sv : NoDup (target_key dm <$> intentPods (sv_service sv)) -> NoDup (se_id <$> emitted env sv).
Proof.
  intros Hk. unfold emitted. rewrite fmap_app. apply NoDup_app. split_and!; [| |by apply (pod_ids_nodup _ dm)].
  - apply (NoDup_fmap_1 fst). rewrite <- !list_fmap_compose. destruct (sv_metrics sv) as [ms|]; [|apply NoDup_nil_2].
    apply (bool_decide_unpack _). vm_compute. exact I.
  - intros x (s1 & -> & (g & -> & Hg%gauge_name)%list_elem_of_fmap)%list_elem_of_fmap (s2 & Hid & (t & _ & _ & Hs)%pod_series_elem)%list_elem_of_fmap.
    destruct (pod_series_in _ _ _ Hs) as (Hn & _). apply (f_equal fst) in Hid. cbn in Hid. rewrite <- Hid in Hn.
    assert (Forall (fun n => n ∉ gauge_names) pod_names) as HF by (apply (bool_decide_unpack _); vm_compute; exact I).
    rewrite Forall_forall in HF. by apply (HF g.1).
Qed.

(** A page without two series of one identity, whoever they are from. *)
Lemma page_consistent env dm own sv :
  own_ok own -> NoDup (target_key dm <$> intentPods (sv_service sv)) -> consistent (own ++ emitted env sv).
Proof.
  intros ([Hnd Hty] & _ & Hn) Hk. rewrite Forall_forall in Hn. split.
  - rewrite fmap_app. apply NoDup_app. split_and!; [done| |by eapply emitted_nodup].
    intros x (s1 & -> & H1)%list_elem_of_fmap (s2 & Hid & H2)%list_elem_of_fmap. apply (f_equal fst) in Hid. cbn in Hid.
    apply (Hn s1 H1). rewrite Hid. by eapply emitted_shape.
  - intros a b [Ha|Ha]%elem_of_app [Hb|Hb]%elem_of_app Hab; [by apply Hty| | |].
    + exfalso. apply (Hn a Ha). rewrite Hab. by eapply emitted_shape.
    + exfalso. apply (Hn b Hb). rewrite <- Hab. by eapply emitted_shape.
    + apply emitted_shape in Ha as [_ Ha], Hb as [_ Hb]. rewrite Hab, <- Hb in Ha. by injection Ha as -> ->.
Qed.

Lemma page_plain env own sv :
  own_ok own -> is_ascii (env_nodeName env) -> Forall (target_ok (env_fs env)) (intentPods (sv_service sv)) ->
  Forall plain_labels (own ++ emitted env sv).
Proof.
  intros (_ & Hown & _) Hm Hts. rewrite Forall_forall in Hts. apply Forall_app. split; [done|]. apply Forall_forall.
  unfold emitted. intros s [(g & -> & _)%list_elem_of_fmap|(t & Ht & _ & Hs)%pod_series_elem]%elem_of_app.
  - split; [apply NoDup_singleton|]. by apply Forall_singleton.
  - destruct (pod_series_in _ _ _ Hs) as (_ & _ & Hl & _). unfold plain_labels. rewrite Hl.
    destruct (Hts t Ht) as (_ & _ & Ha & _). split; [apply (bool_decide_unpack _); vm_compute; exact I|].
    unfold target_labels in *. rewrite !Forall_cons in Ha. cbn [zip zip_with podSchedMetricLabels]. rewrite !Forall_cons. cbn [snd]. naive_solver.
Qed.

(** What the manager makes of a series of a pod. *)
Lemma read_pod dm t s m :
  se_labels s = zip podSchedMetricLabels (target_labels t) -> reads s m -> pt_PodName t <> "" -> pt_Namespace t <> "" ->
  series_pod (dm_NodeID dm) (read_metric m) = Some (pt_Namespace t, pt_PodName t, target_node dm t).
Proof.
  intros Hl [Hr _] Hp Hn. unfold series_pod. cbn [PSM.m_labels read_metric]. unfold label in Hr. rewrite !Hr, Hl. clear Hr.
  set (m0 := prometheusLabels _).
  assert (default "" (m0 !! "pod_name") = pt_PodName t) as -> by reflexivity.
  assert (default "" (m0 !! "namespace") = pt_Namespace t) as -> by reflexivity.
  assert (default "" (m0 !! "node_name") = pt_NodeName t) as -> by reflexivity.
  assert (default "" (m0 !! "node") = "") as -> by reflexivity.
  cbn [firstNonEmpty]. rewrite !(decide_False (P := pt_PodName t = "")), !(decide_False (P := pt_Namespace t = "")) by done.
  rewrite decide_False by naive_solver. unfold target_node. cbn [firstNonEmpty]. done.
Qed.

Lemma value_exact z : 0 <= z < 2 ^ 53 -> u64_of_f64 (f64_of_Z z) = z.
Proof. intros Hz. unfold u64_of_f64. rewrite f64_exact by done. rewrite decide_True by lia. done. Qed.

(** ** From the page to the values *)

Section page.
  Context (fs : procfs) (dm : DecisionMakerPod) (ts : list podTarget).
  Hypothesis Hkeys : NoDup (target_key dm <$> ts).
  Hypothesis Hok : Forall (target_ok fs) ts.

Definition live_values : list PodSchedulingMetricValue := target_value fs dm <$> filter (fun t => pt_PIDs t <> []) ts.

Lemma live_value_elem w : w ∈ live_values <-> exists t, t ∈ ts /\ pt_PIDs t <> [] /\ w = target_value fs dm t.
Proof. unfold live_values. rewrite list_elem_of_fmap. setoid_rewrite list_elem_of_filter. naive_solver. Qed.

Lemma live_keys : NoDup (item_key3 <$> live_values).
Proof.
  unfold live_values. rewrite <- list_fmap_compose. change (item_key3 ∘ target_value fs dm) with (target_key dm).
  eapply sublist_NoDup; [exact Hkeys|]. apply fmap_sublist, sublist_filter.
Qed.

(** A series that was read reports the value of a target. *)
Lemma read_reports s m : s ∈ pod_series <$> Collect fs ts -> reads s m -> reports (dm_NodeID dm) live_values (se_name s, read_metric m).
Proof.
  intros (t & Ht & Hp & Hs)%pod_series_elem Hr g Hg. cbn [fst snd] in *. destruct (pod_series_in _ _ _ Hs) as (_ & _ & Hl & Hv).
  destruct (Hv dm g Hg) as (Hc & Hx & Hin). rewrite Forall_forall in Hok. destruct (Hok t Ht) as (Hpn & Hns & _ & Hsmall).
  exists (target_value fs dm t). split_and!; [apply live_value_elem; eauto|by apply (read_pod dm t s m)|].
  cbn [PSM.m_value read_metric]. unfold prometheusMetricValue. destruct Hr as [_ ->]. rewrite Hc, Hx. apply value_exact.
  rewrite Forall_forall in Hsmall. split; [|by apply Hsmall]. apply list_elem_of_fmap in Hin as (f & -> & _). unfold u64. apply Z.mod_pos_bound. lia.
Qed.

(** A page that has been read in full gives every value in full. *)
Lemma filled_target t F : Forall (fun f => F f = true) (take 6 families.*1) -> filled F (target_value fs dm t) = target_value fs dm t.
Proof.
  cbn [families fmap list_fmap take fst]. rewrite !Forall_cons. intros (E1 & E2 & E3 & E4 & E5 & E6 & _).
  unfold filled. rewrite E1, E2, E3, E4, E5, E6. unfold target_value. cbn. by repeat case_match.
Qed.

Lemma items_of_page ops :
  Forall (reports (dm_NodeID dm) live_values) ops ->
  (forall t, t ∈ ts -> pt_PIDs t <> [] -> Forall (fun f => seen (dm_NodeID dm) ops (target_key dm t) f = true) (take 6 families.*1)) ->
  forall k it, foldl (step (dm_NodeID dm)) ∅ ops !! k = Some it <-> it ∈ live_values /\ item_key3 it = k.
Proof.
  intros Hr Hseen k it. rewrite (items_spec _ _ _ live_keys Hr k it). split.
  - intros (w & Hw & Hk & _ & ->). pose proof Hw as (t & Ht & Hp & ->)%live_value_elem. subst k.
    change (item_key3 (target_value fs dm t)) with (target_key dm t). by rewrite (filled_target _ _ (Hseen t Ht Hp)).
  - intros [Hw Hk]. exists it. pose proof Hw as (t & Ht & Hp & ->)%live_value_elem. subst k.
    change (item_key3 (target_value fs dm t)) with (target_key dm t). pose proof (Hseen t Ht Hp) as Hs.
    split_and!; [done..| |by rewrite filled_target].
    exists "gthulhu_pod_run_count_total". split; [apply (bool_decide_unpack _); vm_compute; exact I|].
    rewrite Forall_forall in Hs. apply Hs. apply (bool_decide_unpack _). vm_compute. exact I.
Qed.
End page.

Context {PL : PromLaws P}.

(** The page of a decision maker, read by the manager. *)
Lemma page_read env own dm sv : let ts := intentPods (sv_service sv) in
  own_ok own -> is_ascii (env_nodeName env) -> NoDup (target_key dm <$> ts) -> Forall (target_ok (env_fs env)) ts ->
  exists p fams, metrics_endpoint env own sv = Some p /\ TextToMetricFamilies p = Some fams /\
    forall k it, foldl (step (dm_NodeID dm)) ∅ (flat (read_family <$> fams)) !! k = Some it <->
                 it ∈ live_values (env_fs env) dm ts /\ item_key3 it = k.
Proof.
  intros ts Hown Hm Hk Hts.
  destruct (gather_serves _ (page_consistent env dm own sv Hown Hk) (page_plain env own sv Hown Hm Hts)) as (p & fams & Hg & Ht & Hback & Hforth).
  exists p, fams. split_and!; [exact Hg|done|]. apply items_of_page; [done..| |].
  - apply Forall_forall. intros [f pm] ([f' ms'] & Hpm & Hin)%list_elem_of_bind. cbn [fst snd] in Hpm.
    apply list_elem_of_fmap in Hin as ([f0 ms] & [= -> ->] & Hin). apply list_elem_of_fmap in Hpm as (? & [= -> ->] & (m & -> & Hms)%list_elem_of_fmap).
    cbn [fst snd] in *. destruct (Hback _ _ _ Hin Hms) as (s & Hs & <- & Hrd). apply elem_of_app in Hs as [Hs|Hs].
    + destruct Hown as (_ & _ & Hn). rewrite Forall_forall in Hn. intros g Hg'. exfalso. apply (Hn s Hs). cbn [fst] in Hg'.
      apply elem_of_app. right. apply elem_of_app. left. by apply (list_elem_of_fmap_2 fst) in Hg'.
    + unfold emitted in Hs. apply elem_of_app in Hs as [(g0 & -> & Hg0%gauge_name)%list_elem_of_fmap|Hs]; [|by eapply read_reports].
      intros g Hg'. exfalso. apply (list_elem_of_fmap_2 fst) in Hg'. cbn [fst gauge_series se_name] in Hg'.
      assert (Forall (fun n => n ∉ families.*1) gauge_names) as HF by (apply (bool_decide_unpack _); vm_compute; exact I).
      rewrite Forall_forall in HF. by apply (HF _ Hg0).
  - intros t Hin Hp. apply Forall_forall. intros f Hf.
    assert (exists s, s ∈ pod_series <$> pod_metrics (env_fs env) (target_labels t) (pt_PIDs t) /\ se_name s = f) as (s & Hs & <-).
    { assert (f ∈ se_name <$> (pod_series <$> pod_metrics (env_fs env) (target_labels t) (pt_PIDs t))) as (s & -> & Hs)%list_elem_of_fmap by
        (change (se_name <$> _) with pod_names; apply elem_of_app; by left). eauto. }
    destruct (Hforth s) as (ms & m & Hfm & Hms & Hrd).
    { apply elem_of_app. right. apply elem_of_app. right. apply pod_series_elem. eauto. }
    apply (seen_elem _ _ _ (read_metric m)).
    + apply list_elem_of_bind. exists (se_name s, read_metric <$> ms). split; [|by apply (list_elem_of_fmap_2 read_family) in Hfm].
      cbn [fst snd]. by apply list_elem_of_fmap_2, list_elem_of_fmap_2.
    + destruct (pod_series_in _ _ _ Hs) as (_ & _ & Hl & _). rewrite Forall_forall in Hts. destruct (Hts t Hin) as (H1 & H2 & _).
      unfold series_key. rewrite (read_pod dm t s m) by done. done.
Qed.

(** C30 (functional): the manager gets from a decision maker exactly one value for each target
    with processes, and nothing else: the sums over the processes of the pod, under its
    namespace, name and node, sorted; the migrations between threads of a core, caches
    and NUMA nodes are always 0.  This needs targets that differ in namespace, name or
    node, names as Kubernetes gives them and totals below 2^53, and holds whatever the
    registry serves beside, in whatever order the library lists families and series. *)
Theorem metrics_reach_manager env own dm sv : let ts := intentPods (sv_service sv) in
  (forall m, range m ≡ₚ map_to_list m) ->
  own_ok own -> is_ascii (env_nodeName env) -> NoDup (target_key dm <$> ts) -> Forall (target_ok (env_fs env)) ts ->
  exists items, fetch_values dm (metrics_endpoint env own sv) = Some items /\
    StronglySorted (key_le v_key key3_le) items /\
    items ≡ₚ target_value (env_fs env) dm <$> filter (fun t => pt_PIDs t <> []) ts.
Proof.
  intros ts Hr Hown Hm Hk Hts. destruct (page_read env own dm sv Hown Hm Hk Hts) as (p & fams & Hp & Hf & Hitems).
  unfold fetch_values. rewrite Hp, Hf. eexists. split; [done|]. unfold GetPodSchedulingMetricValues. rewrite items_flat.
  set (items := foldl _ ∅ _) in *. destruct (sort_by_spec v_key key3_le (snd <$> range items)) as [Hperm Hs]. split; [done|].
  rewrite Hperm, Hr. apply NoDup_Permutation.
  - apply (NoDup_fmap_1 item_key3). rewrite <- list_fmap_compose. rewrite (list_fmap_ext _ fst); [apply NoDup_fst_map_to_list|].
    intros i [k v] Hi%list_elem_of_lookup_2%elem_of_map_to_list%Hitems. by destruct Hi.
  - apply (NoDup_fmap_1 item_key3), (live_keys _ _ _ Hk).
  - intros w. rewrite list_elem_of_fmap. fold ts in Hitems. split.
    + intros ([k v] & -> & Hv%elem_of_map_to_list%Hitems). by destruct Hv.
    + intros Hw. exists (item_key3 w, w). split; [done|]. by apply elem_of_map_to_list, Hitems.
Qed.

(** ** Two intents for one pod *)

Lemma UpdatePodTargets_app nodeName l1 l2 infos :
  UpdatePodTargets nodeName (l1 ++ l2) infos = UpdatePodTargets nodeName l1 infos ++ UpdatePodTargets nodeName l2 infos.
Proof. apply omap_app. Qed.

(** Two targets with the same labels are sent under the same identity. *)
Lemma same_labels_clash fs ts1 t ts2 t' ts3 l :
  target_labels t = target_labels t' -> pt_PIDs t <> [] -> pt_PIDs t' <> [] ->
  ~ NoDup (se_id <$> l ++ (pod_series <$> Collect fs (ts1 ++ t :: ts2 ++ t' :: ts3))).
Proof.
  intros Hl Hp Hp' Hnd. rewrite fmap_app in Hnd. apply NoDup_app in Hnd as (_ & _ & Hnd). revert Hnd. unfold Collect.
  rewrite bind_app, fmap_app, fmap_app. intros (_ & _ & Hnd)%NoDup_app. revert Hnd.
  rewrite bind_cons, !fmap_app. intros (_ & Hdis & _)%NoDup_app.
  set (m u := PodMetrics.mkMetric "gthulhu_pod_process_count" (target_labels u) (Z.of_nat (length (pt_PIDs u)))).
  assert (forall u, pt_PIDs u <> [] -> m u ∈ collect_pod fs u) as Hin.
  { intros u Hu. rewrite collect_pod_spec, decide_False by done. unfold pod_metrics. rewrite !elem_of_cons. right. right. right. right. right. right. by left. }
  apply (Hdis (se_id (pod_series (m t)))).
  - apply list_elem_of_fmap_2, list_elem_of_fmap_2, Hin, Hp.
  - replace (se_id (pod_series (m t))) with (se_id (pod_series (m t'))) by (unfold m, se_id, pod_series; cbn [se_name se_labels m_name PodMetrics.m_labels]; by rewrite Hl).
    apply list_elem_of_fmap_2, list_elem_of_fmap_2. rewrite bind_app, bind_cons, !elem_of_app. right. left. by apply Hin.
Qed.

(** The targets after a request with intents. *)
Lemma intents_targets henv l podInfos sv : GetAllPodInfos (env_fs (he_dm henv)) = Ok podInfos ->
  exists sv', handle henv (RtApi (RqIntents (Some l))) sv = (sv', AnApi RespEmpty) /\
    intentPods (sv_service sv') = UpdatePodTargets (env_nodeName (he_dm henv)) (Some <$> l) podInfos.
Proof.
  intros Hinfos. unfold handle, serve, HandleIntents, ProcessIntents. rewrite Hinfos. unfold resolveSchedulingIntents.
  destruct (foldl _ _ _) as [im all]. eexists. split; [reflexivity|]. cbn [sv_service set_service intentPods set_pods].
  unfold normalizeIntentInputs. by rewrite non_nil_fmap_Some.
Qed.

(** C31 (error): when a decision maker is sent two intents for the same pod, as it is when two
    strategies select the pod, and the pod runs a process there, then until the next
    change of the intents every request for its metrics is refused, for all pods
    and for everything else the registry serves, and the manager gets no value from the
    node.  The authors can hardly want that. *)
Theorem duplicate_pod_breaks_metrics henv l1 a l2 b l3 podInfos info sv :
  PodID a = PodID b -> PodName a = PodName b -> K8sNamespace a = K8sNamespace b -> NodeID a = NodeID b ->
  GetAllPodInfos (env_fs (he_dm henv)) = Ok podInfos -> podInfos !! PodID a = Some info -> target_pids info <> [] ->
  let '(sv', answer) := handle henv (RtApi (RqIntents (Some (l1 ++ a :: l2 ++ b :: l3)))) sv in
  answer = AnApi RespEmpty /\
  forall env' own dm, metrics_endpoint env' own sv' = None /\ fetch_values dm (metrics_endpoint env' own sv') = None.
Proof.
  intros Hid Hname Hns Hnode Hinfos Hinfo Hpids. destruct (intents_targets henv (l1 ++ a :: l2 ++ b :: l3) podInfos sv Hinfos) as (sv' & -> & Hts).
  split; [done|]. intros env' own dm. assert (metrics_endpoint env' own sv' = None) as E; [|by rewrite E].
  apply gather_refuses. unfold emitted. rewrite app_assoc, Hts.
  replace (Some <$> l1 ++ a :: l2 ++ b :: l3) with ((Some <$> l1) ++ Some a :: (Some <$> l2) ++ Some b :: (Some <$> l3)) by by rewrite fmap_app, fmap_cons, fmap_app.
  assert (exists t t', intent_target (env_nodeName (he_dm henv)) podInfos a = Some t /\ intent_target (env_nodeName (he_dm henv)) podInfos b = Some t' /\
    target_labels t = target_labels t' /\ pt_PIDs t <> [] /\ pt_PIDs t' <> []) as (t & t' & Ea & Eb & Hl & Hp & Hp').
  { unfold intent_target. rewrite <- Hid, Hinfo. destruct (target_pids info) as [|x pids]; [done|]. eexists _, _. split_and!; [done..| |done|done].
    unfold target_labels. cbn. by rewrite Hname, Hns, Hnode. }
  rewrite UpdatePodTargets_app. unfold UpdatePodTargets at 2. cbn [omap list_omap mbind option_bind]. rewrite Ea.
  change (omap _ ?l) with (UpdatePodTargets (env_nodeName (he_dm henv)) l podInfos). rewrite UpdatePodTargets_app.
  unfold UpdatePodTargets at 3. cbn [omap list_omap mbind option_bind]. rewrite Eb. by apply same_labels_clash.
Qed.

End flow.

(** ** A concrete library *)

Definition dto_of (s : series) : dto_metric := mkDto (se_labels s) (if se_counter s then DtoCounter (se_value s) else DtoGauge (se_value s)).

(** A page is the list of its series. *)
#[global] Instance list_prom : PromLib := {
  page := list series;
  valid_label _ := true;
  Gather l := if decide (NoDup (se_id <$> l)) then Some l else None;
  TextToMetricFamilies p := Some ((fun n => (n, dto_of <$> filter (fun s => se_name s = n) p)) <$> remove_dups (se_name <$> p))
}.

Lemma reads_dto s : reads s (dto_of s).
Proof. done. Qed.

#[global] Instance list_prom_laws : PromLaws list_prom.
Proof.
  split.
  - done.
  - intros l Hl. unfold Gather, list_prom. by rewrite decide_False.
  - intros l [Hnd _] _. exists l. eexists. split_and!; [unfold Gather, list_prom; by rewrite decide_True|reflexivity| |].
    + intros f ms m (n & [= -> ->] & _)%list_elem_of_fmap (s & -> & [Hn Hs]%list_elem_of_filter)%list_elem_of_fmap. by exists s.
    + intros s Hs. exists (dto_of <$> filter (fun s' => se_name s' = se_name s) l), (dto_of s).
      split_and!; [|by apply list_elem_of_fmap_2, list_elem_of_filter|apply reads_dto].
      apply list_elem_of_fmap. exists (se_name s). split; [done|]. by apply elem_of_remove_dups, list_elem_of_fmap_2.
Qed.

(** ** Witnesses *)

Definition demo_uid : string := "11111111-2222-3333-4444-555555555555".

(** A node with one process in a pod. *)
Definition demo_procfs : procfs := mkProcfs
  (fun d => if decide (d = "/proc") then Ok [mkDirent "21" true] else Err ENOENT)
  (fun f => if decide (f = "/proc/21/cgroup") then Ok ("0::/kubepods/burstable/pod" +:+ demo_uid +:+ "/c1")
            else if decide (f = "//proc/21/comm") then Ok "nginx"
            else if decide (f = "/proc/21/schedstat") then Ok "4000000 900 12"
            else if decide (f = "/proc/21/sched") then Ok "nr_voluntary_switches : 5" else Err ENOENT).

Definition demo_env : http_env := mkHttpEnv 0 (substring_env demo_procfs) (fun _ => None) None "host-1" "" map_to_list.
Definition demo_intent (regex : string) (priority : Z) : Intent := mkIntent "" "web-0" demo_uid "n1" "shop" regex priority 20000 ∅.
Definition demo_server : DMServer (R := named_keys) := mkDMServer sample_config ("dm-key" : PrivateKey) NewService None (Some (mkMetricSet 1 2 3 4 5 6 7 8 9 10 11)).
Definition demo_own : list series := [mkSeries "go_goroutines" false [] (f64_of_Z 12); mkSeries "process_cpu_seconds_total" true [] (f64_lit 1 10)].
Definition demo_pod : DecisionMakerPod := mkDMPod "n1" 8080 "10.0.0.1" NodeStateOnline.
Definition with_intents (l : list Intent) : DMServer := (handle demo_env (RtApi (RqIntents (Some l))) demo_server).1.

Lemma demo_own_ok : own_ok demo_own.
Proof.
  split; [split|split]; [by apply (bool_decide_unpack _)| |repeat constructor; by apply NoDup_nil_2|by apply (bool_decide_unpack _)].
  intros a b. unfold demo_own. rewrite !elem_of_cons, !elem_of_nil. intros [->|[->|[]]] [->|[->|[]]]; done.
Qed.

Lemma metrics_reach_manager_witness :
  fetch_values (fun _ => 0) map_to_list demo_pod (metrics_endpoint (he_dm demo_env) demo_own (with_intents [demo_intent "nginx" 1]))
  = Some [mkValue "shop" "web-0" "n1" 5 0 4000000 900 12 0 0 0 0].
Proof.
  destruct (metrics_reach_manager (fun _ => 0) map_to_list (he_dm demo_env) demo_own demo_pod (with_intents [demo_intent "nginx" 1]))
    as (items & Hi & _ & Hp).
  - done.
  - exact demo_own_ok.
  - by apply (bool_decide_unpack _).
  - apply (bool_decide_unpack _). vm_compute. exact I.
  - apply (bool_decide_unpack _). vm_compute. exact I.
  - rewrite Hi. f_equal. apply Permutation_singleton_r. rewrite Hp. by vm_compute.
Defined.

(** Two strategies with different priorities for the same pod. *)
Lemma duplicate_pod_breaks_metrics_witness :
  fetch_values (fun _ => 0) map_to_list demo_pod
    (metrics_endpoint (he_dm demo_env) demo_own (with_intents [demo_intent "nginx" 1; demo_intent "" 2])) = None.
Proof.
  assert (GetAllPodInfos demo_procfs = Ok {[demo_uid := mkPodInfo demo_uid "" [mkPodProcess 21 "nginx" 0 ""]]}) as Hinfos by (vm_compute; reflexivity).
  pose proof (duplicate_pod_breaks_metrics (fun _ => 0) map_to_list demo_env [] (demo_intent "nginx" 1) [] (demo_intent "" 2) []
    _ (mkPodInfo demo_uid "" [mkPodProcess 21 "nginx" 0 ""]) demo_server eq_refl eq_refl eq_refl eq_refl Hinfos eq_refl ltac:(done)) as Hd.
  unfold with_intents. change ([] ++ ?l) with l in Hd. destruct (handle _ _ _) as [sv' ans]. apply Hd.
Defined.
