(* ===== verification/MonitorPage.v ===== *)
(** * The metrics endpoint of the monitor: monitor/collector/prometheus.go

    What the monitor of a node publishes about its pods (Monitor), as the series its own
    registry serves.  The library is that of MetricsFlow.

    The theorem: the pods are published under their identifiers, which are among the labels, so
    that the page is always served, with the ten values of every pod
    ([monitor_page_served]). *)

From stdpp Require Import base gmap strings list.
From Stdlib Require Import ZArith Lia.
From S2P Require Import Prelude GoStrings GoFloat ProcScan Monitor PSM MetricsFlow.
#[local] Open Scope go_scope.
#[local] Open Scope Z_scope.

Definition metricsNamespace : string := "gthulhu".
Definition metricsSubsystem : string := "pod".

(** [prometheus.BuildFQName] for parts that are not empty *)
Definition BuildFQName (namespace subsystem name : string) : string := namespace +:+ "_" +:+ subsystem +:+ "_" +:+ name.

(** The descriptors of [NewPodSchedMetricsCollector], in the order of [Collect], with the counter
    each is for. *)
Definition monitor_counters : list (string * (PodSchedMetrics -> Z)) :=
  [("voluntary_ctx_switches_total", a_VoluntaryCtxSwitches); ("involuntary_ctx_switches_total", a_InvoluntaryCtxSwitches);
   ("cpu_time_nanoseconds_total", a_CpuTimeNs); ("wait_time_nanoseconds_total", a_WaitTimeNs); ("run_count_total", a_RunCount);
   ("cpu_migrations_total", a_CpuMigrations); ("smt_migrations_total", a_SMTMigrations); ("l3_migrations_total", a_L3Migrations);
   ("numa_migrations_total", a_NUMAMigrations)].

Definition fq (name : string) : string := BuildFQName metricsNamespace metricsSubsystem name.

Definition MetricNames : list string := (fq <$> monitor_counters.*1) ++ [fq "process_count"].

Definition monitor_labels (pm : PodSchedMetrics) : list string := [a_PodName pm; a_PodUID pm; a_Namespace pm; a_NodeName pm].

Section page.
  Context {P : PromLib}.

(** [emitCounter] and [emitGauge]: a series whose labels are refused is left out. *)
Definition emit (counter : bool) (name : string) (val : Z) (labels : list string) : list series :=
  if forallb valid_label labels
  then [mkSeries name counter (zip podSchedMetricLabels labels) (f64_of_Z val)]
  else [].

Definition collect_published (pm : PodSchedMetrics) : list series :=
  let labels := monitor_labels pm in
  (monitor_counters ≫= fun c => emit true (fq c.1) (c.2 pm) labels) ++
  emit false (fq "process_count") (u64 (a_ProcessCount pm)) labels.

(** [PodSchedMetricsCollector.Collect], in Go's order of iteration over the map *)
Definition monitor_collect (range : gmap string PodSchedMetrics -> list (string * PodSchedMetrics))
    (podMetrics : gmap string PodSchedMetrics) : list series :=
  range podMetrics ≫= fun kv => collect_published kv.2.

Context {PL : PromLaws P}.

Definition ascii_pod (pm : PodSchedMetrics) : Prop := Forall is_ascii (monitor_labels pm).

Lemma emit_ascii counter name val labels : Forall is_ascii labels ->
  emit counter name val labels = [mkSeries name counter (zip podSchedMetricLabels labels) (f64_of_Z val)].
Proof.
  intros Ha. unfold emit. replace (forallb valid_label labels) with true; [done|]. symmetry. apply forallb_forall. intros x Hx%list_elem_of_In.
  rewrite Forall_forall in Ha. by apply ascii_valid, Ha.
Qed.

(** The series of a pod. *)
Definition pod_page (pm : PodSchedMetrics) : list series :=
  let labels := zip podSchedMetricLabels (monitor_labels pm) in
  ((fun c => mkSeries (fq c.1) true labels (f64_of_Z (c.2 pm))) <$> monitor_counters) ++
  [mkSeries (fq "process_count") false labels (f64_of_Z (u64 (a_ProcessCount pm)))].

Lemma collect_published_ascii pm : ascii_pod pm -> collect_published pm = pod_page pm.
Proof.
  intros Ha. unfold collect_published, pod_page. rewrite emit_ascii by done. f_equal.
  induction monitor_counters as [|c l IH]; [done|]. cbn [mbind list_bind fmap list_fmap]. rewrite emit_ascii by done. cbn [app]. by f_equal.
Qed.

Lemma pod_page_elem pm s : s ∈ pod_page pm ->
  se_name s ∈ MetricNames /\ se_labels s = zip podSchedMetricLabels (monitor_labels pm) /\
  se_counter s = bool_decide (se_name s <> fq "process_count").
Proof.
  assert (Forall (fun n => n <> fq "process_count") (fq <$> monitor_counters.*1)) as HF by (apply (bool_decide_unpack _); vm_compute; exact I).
  unfold pod_page. rewrite elem_of_app, list_elem_of_fmap, list_elem_of_singleton. intros [(c & -> & Hc) | ->]; cbn [se_name se_labels se_counter].
  - assert (fq c.1 ∈ fq <$> monitor_counters.*1) as Hin by by apply list_elem_of_fmap_2, list_elem_of_fmap_2.
    split_and!; [apply elem_of_app; by left|done|]. rewrite Forall_forall in HF. symmetry. apply bool_decide_true. by apply HF.
  - split_and!; [apply elem_of_app; right; by apply list_elem_of_singleton|done|]. symmetry. apply bool_decide_false. by intros [].
Qed.

(** Every pod is published under its own identifier. *)
Definition published_ok (published : gmap string PodSchedMetrics) : Prop :=
  forall uid pm, published !! uid = Some pm -> a_PodUID pm = uid /\ ascii_pod pm.

Lemma page_ids_nodup (l : list (string * PodSchedMetrics)) :
  NoDup l.*1 -> Forall (fun kv => a_PodUID kv.2 = kv.1) l -> NoDup (se_id <$> (l ≫= fun kv => pod_page kv.2)).
Proof.
  induction l as [|[uid pm] l IH]; [intros _ _; apply NoDup_nil_2|]. cbn [fmap list_fmap fst]. intros [Hu Hl]%NoDup_cons [Hk Hf]%Forall_cons.
  rewrite bind_cons, fmap_app. apply NoDup_app. split_and!; [| |by apply IH].
  - apply (NoDup_fmap_1 fst). apply (bool_decide_unpack _). vm_compute. exact I.
  - intros x (s1 & -> & H1)%list_elem_of_fmap (s2 & Hid & ([uid2 pm2] & H2 & Hin)%list_elem_of_bind)%list_elem_of_fmap. cbn [snd] in *.
    destruct (pod_page_elem _ _ H1) as (_ & L1 & _), (pod_page_elem _ _ H2) as (_ & L2 & _).
    apply (f_equal snd) in Hid. cbn [se_id snd] in Hid. rewrite L1, L2 in Hid.
    assert (Some (a_PodUID pm) = Some (a_PodUID pm2)) as [= E] by exact (f_equal (fun m : gmap string string => m !! "pod_uid") Hid).
    rewrite Forall_forall in Hf. apply Hu. pose proof (Hf _ Hin) as Hk2. cbn [fst snd] in *. rewrite <- Hk, E, Hk2.
    by apply (list_elem_of_fmap_2 fst) in Hin.
Qed.

Section served.
  Context (range : gmap string PodSchedMetrics -> list (string * PodSchedMetrics)).
  Hypothesis range_perm : forall m, range m ≡ₚ map_to_list m.
  Context (own : list series) (Hown : own_ok own).

Lemma monitor_collect_pages published : published_ok published ->
  monitor_collect range published = range published ≫= fun kv => pod_page kv.2.
Proof.
  intros Hp. unfold monitor_collect.
  assert (forall kv, kv ∈ range published -> ascii_pod kv.2) as Ha.
  { intros [uid pm] Hin. rewrite range_perm in Hin. apply elem_of_map_to_list in Hin. by destruct (Hp _ _ Hin). }
  induction (range published) as [|kv l IH]; [done|]. rewrite !bind_cons, IH by (intros; apply Ha; by right).
  by rewrite collect_published_ascii by (apply Ha; by left).
Qed.

Lemma monitor_elem published s : published_ok published -> s ∈ monitor_collect range published <-> exists uid pm, published !! uid = Some pm /\ s ∈ pod_page pm.
Proof.
  intros Hp. rewrite monitor_collect_pages, list_elem_of_bind by done. split.
  - intros ([uid pm] & Hs & Hin). rewrite range_perm in Hin. apply elem_of_map_to_list in Hin. eauto.
  - intros (uid & pm & Hpm & Hs). exists (uid, pm). split; [done|]. rewrite range_perm. by apply elem_of_map_to_list.
Qed.

Lemma monitor_consistent published : published_ok published -> consistent (own ++ monitor_collect range published).
Proof.
  intros Hp. destruct Hown as ([Hnd Hty] & _ & Hn). rewrite Forall_forall in Hn.
  assert (Forall (fun n => n ∈ dm_names) MetricNames) as HF by (apply (bool_decide_unpack _); vm_compute; exact I). rewrite Forall_forall in HF.
  assert (forall s, s ∈ monitor_collect range published -> se_name s ∈ dm_names /\ se_counter s = bool_decide (se_name s <> fq "process_count") /\
    (se_labels s).*1 = podSchedMetricLabels) as Hshape.
  { intros s (uid & pm & _ & Hs)%monitor_elem; [|done]. destruct (pod_page_elem _ _ Hs) as (Hin & Hl & Hc). split_and!; [by apply HF|done|by rewrite Hl]. }
  split.
  - rewrite fmap_app. apply NoDup_app. split_and!; [done| |].
    + intros x (s1 & -> & H1)%list_elem_of_fmap (s2 & Hid & H2)%list_elem_of_fmap. apply (f_equal fst) in Hid. cbn in Hid.
      apply (Hn s1 H1). rewrite Hid. by apply Hshape.
    + rewrite monitor_collect_pages by done. apply page_ids_nodup; [rewrite range_perm; apply NoDup_fst_map_to_list|].
      apply Forall_forall. intros [uid pm] Hin. rewrite range_perm in Hin. apply elem_of_map_to_list in Hin. by destruct (Hp _ _ Hin).
  - intros a b [Ha|Ha]%elem_of_app [Hb|Hb]%elem_of_app Hab; [by apply Hty| | |].
    + exfalso. apply (Hn a Ha). rewrite Hab. by apply Hshape.
    + exfalso. apply (Hn b Hb). rewrite <- Hab. by apply Hshape.
    + destruct (Hshape a Ha) as (_ & Ca & La), (Hshape b Hb) as (_ & Cb & Lb). rewrite Ca, Cb, La, Lb, Hab. done.
Qed.

Lemma monitor_plain published : published_ok published -> Forall plain_labels (own ++ monitor_collect range published).
Proof.
  intros Hp. apply Forall_app. split; [apply Hown|]. apply Forall_forall. intros s (uid & pm & Hpm & Hs)%monitor_elem; [|done].
  destruct (pod_page_elem _ _ Hs) as (_ & Hl & _), (Hp _ _ Hpm) as [_ Ha]. unfold plain_labels, ascii_pod, monitor_labels in *. rewrite Hl.
  rewrite !Forall_cons in Ha. split; [apply (bool_decide_unpack _); vm_compute; exact I|].
  cbn [zip zip_with podSchedMetricLabels]. rewrite !Forall_cons. cbn [snd]. naive_solver.
Qed.

(** What a poll publishes. *)
Lemma poll_published fs trange keys m published :
  mapper_ok m -> (forall uid ref, podIndex m !! uid = Some ref -> ascii_pod (new_agg ref)) ->
  published_ok (poll fs trange (Some keys) m published).2.
Proof.
  intros Hm Ha uid pm. unfold poll. destruct (add_pid_fold fs m (trange (read_tasks keys)) Hm) as (_ & _ & _ & ->).
  destruct (filter _ _) as [|e l] eqn:Ef; [done|]. intros (ref & Href & ->)%fmap_Some. destruct (agg_names ref (e :: l)) as (H1 & H2 & H3 & H4).
  assert (in_pod fs m uid e) as (r & Hr & Hu).
  { assert (e ∈ filter (in_pod fs m uid) (trange (read_tasks keys))) as [He _]%list_elem_of_filter by (rewrite Ef; left). done. }
  pose proof (pod_of_index fs m e.1 r Hm Hr) as Hi. rewrite Hu, Href in Hi. injection Hi as <-. split; [by rewrite H2|].
  unfold ascii_pod, monitor_labels. rewrite H1, H2, H3, H4. exact (Ha _ _ Href).
Qed.

(** Remark (functional): after a poll of a node whose pods have names as Kubernetes gives them, the
    page of the monitor is served, and lists for every pod that is published each of its
    counters and the number of its processes under the labels of the pod. *)
Theorem monitor_page_served fs trange keys m published :
  mapper_ok m -> (forall uid ref, podIndex m !! uid = Some ref -> ascii_pod (new_agg ref)) ->
  let podMetrics := (poll fs trange (Some keys) m published).2 in
  exists p fams, Gather (own ++ monitor_collect range podMetrics) = Some p /\ TextToMetricFamilies p = Some fams /\
    forall uid pm, podMetrics !! uid = Some pm -> a_PodUID pm = uid /\
      forall s, s ∈ pod_page pm -> exists ms d, (se_name s, ms) ∈ fams /\ d ∈ ms /\
        dto_Value d = (if se_counter s then DtoCounter (se_value s) else DtoGauge (se_value s)) /\
        (label (prometheusLabels d) <$> podSchedMetricLabels) = monitor_labels pm.
Proof.
  intros Hm Ha podMetrics. pose proof (poll_published fs trange keys m published Hm Ha) as Hp. fold podMetrics in Hp.
  destruct (gather_serves _ (monitor_consistent _ Hp) (monitor_plain _ Hp)) as (p & fams & Hg & Ht & _ & Hforth).
  exists p, fams. split_and!; [done|done|]. intros uid pm Hpm. split; [by destruct (Hp _ _ Hpm)|]. intros s Hs.
  destruct (Hforth s) as (ms & d & H1 & H2 & Hl & Hv). { apply elem_of_app. right. apply monitor_elem; [done|]. eauto. }
  exists ms, d. split_and!; [done|done|done|]. destruct (pod_page_elem _ _ Hs) as (_ & El & _). unfold podSchedMetricLabels. cbn [fmap list_fmap]. rewrite !Hl, El. reflexivity.
Qed.
End served.
End page.

(** ** Witness *)

Definition sample_keys : list (Z * option TaskSchedMetrics) := [(7, Some (mkTask 7 7 1 2 100 0 5 0 3 0 0 0)); (8, None)].
Definition sample_metrics : gmap string PodSchedMetrics := (poll sample_fs map_to_list (Some sample_keys) sample_mapper ∅).2.

Definition web_metrics : PodSchedMetrics := mkPodMetrics "web" "a1" "shop" "n1" 1 2 100 0 5 0 3 0 0 1.
Lemma web_published : sample_metrics !! "a1" = Some web_metrics.
Proof. vm_compute. reflexivity. Qed.

(** The pod [web] has made three migrations between the threads of a core. *)
Lemma monitor_page_served_witness : exists p fams ms d,
  Gather (demo_own ++ monitor_collect map_to_list sample_metrics) = Some p /\ TextToMetricFamilies p = Some fams /\
  ("gthulhu_pod_smt_migrations_total", ms) ∈ fams /\ d ∈ ms /\ dto_Value d = DtoCounter (f64_of_Z 3) /\
  label (prometheusLabels d) "pod_name" = "web".
Proof.
  destruct (monitor_page_served map_to_list (fun m => reflexivity _) demo_own demo_own_ok sample_fs map_to_list sample_keys sample_mapper ∅ sample_mapper_ok)
    as (p & fams & Hg & Ht & Hall).
  { intros uid ref Hu. assert (map_Forall (fun _ r => ascii_pod (new_agg r)) (podIndex sample_mapper)) as HF by (apply (bool_decide_unpack _); vm_compute; exact I).
    exact (HF uid ref Hu). }
  destruct (Hall "a1" web_metrics web_published) as [_ Hs].
  destruct (Hs (mkSeries "gthulhu_pod_smt_migrations_total" true (zip podSchedMetricLabels (monitor_labels web_metrics)) (f64_of_Z (a_SMTMigrations web_metrics))))
    as (ms & d & H1 & H2 & H3 & H4).
  { apply elem_of_app. left. apply list_elem_of_fmap. exists ("smt_migrations_total", a_SMTMigrations). split; [done|].
    unfold monitor_counters. rewrite !elem_of_cons. do 6 right. by left. }
  exists p, fams, ms, d. split_and!; [exact Hg|exact Ht|exact H1|exact H2|exact H3|]. injection H4 as H4 _ _ _. exact H4.
Defined.
