(* ===== verification/UserSvc.v ===== *)
(** * Users, permissions and the audit log: user_svc.go and svc.go of api/manager/service, repo_rbac.go

    The operations on users that the API does not offer, the start of the service, and the
    repository of permissions and of the audit log.

    The theorems: deleting a user replaces the record by an empty one, after which neither
    the name nor a refresh token nor a permission is left, while an access token of
    version 0 still passes where no permission is asked for ([deleted_user_locked_out]); a
    user that was created has to change the password ([created_user_stored]); queries of
    the audit log are exact, and what is logged is found at its time
    ([audit_logged_is_found]); starting the service twice makes one administrator
    ([start_is_idempotent]). *)

From stdpp Require Import base gmap strings list.
From Stdlib Require Import ZArith Lia.
From S2P Require Import Prelude GoStrings Sha256 Argon2 ManagerDomain RBACRepo AuthSvc DMAuth.
#[local] Open Scope go_scope.
#[local] Open Scope Z_scope.

(** ** service/user_svc.go *)

Section users.
  Context {U R : Type} `{Collection U User} `{Collection R Role} {A : Argon2Lib}.
  Variable ObjectIDFromHex : string -> option ObjectID.
  Variable NewObjectID : nat -> ObjectID.
  Variable random_salt : nat -> option (list Z).

Notation M := (SE (rbac U R) auth_error).

Definition CreateUser (now : Z) (operator : Claims) (user : User) : M User :=
  let! operatorID := object_id ObjectIDFromHex AInvalidID (cl_UID operator) in
  let user := set_user_status UserStatusWaitChangePassword (set_user_base (NewBaseEntity now operatorID operatorID) user) in
  RBACRepo.CreateUser NewObjectID random_salt now (Some user).

(** The user that is written has no more than an identifier, its times and the updater. *)
Definition deleted_user (now : Z) (userID operatorID : ObjectID) : User :=
  mkUser (mkBase userID now now now NilObjectID operatorID) "" "" 0 [] [] 0 [].

Definition DeleteUser (now : Z) (operator : Claims) (userID : ObjectID) : M unit :=
  let! operatorID := object_id ObjectIDFromHex AInvalidID (cl_UID operator) in
  RBACRepo.UpdateUser random_salt now (Some (deleted_user now userID operatorID)).

Definition UpdateUser (now : Z) (operator : Claims) (user : User) : M unit :=
  let! operatorID := object_id ObjectIDFromHex AInvalidID (cl_UID operator) in
  let user := set_user_base (set_updated now (set_updater operatorID (u_Base user))) user in
  RBACRepo.UpdateUser random_salt now (Some user).
End users.

(** ** repository/repo_rbac.go: permissions and audit log *)

Record Permission := mkPermission {
  p_ID : ObjectID; p_Key : string; p_Description : string; p_Resource : string; p_Action : string
}.

Record AuditLog := mkAuditLog {
  al_ID : ObjectID; al_UserID : ObjectID; al_Action : string; al_RequestID : string; al_Timestamp : Z; al_IP : string
}.

Record QueryPermissionOptions := mkQueryPermissions { qpm_IDs : list ObjectID; qpm_Keys : list string; qpm_Resources : list string }.
Record QueryAuditLogOptions := mkQueryAuditLogs { qa_TimestampGTE : Z; qa_TimestampLTE : Z; qa_UserIDs : list ObjectID }.

(** The two collections, and how many identifiers were drawn. *)
Record admin_db (PC LC : Type) := mkAdmin { ad_permissions : PC; ad_logs : LC; ad_draws : nat }.
Arguments mkAdmin {PC LC}.
Arguments ad_permissions {PC LC}.
Arguments ad_logs {PC LC}.
Arguments ad_draws {PC LC}.

Section admin.
  Context {PC LC : Type} `{Collection PC Permission} `{Collection LC AuditLog}.
  Variable NewObjectID : nat -> ObjectID.

Notation M := (SE (admin_db PC LC) auth_error).

Definition on_permissions {B} (m : SE PC db_error B) : M B :=
  fun w => match m (ad_permissions w) with
           | (p, Ok b) => (mkAdmin p (ad_logs w) (ad_draws w), Ok b)
           | (p, Err e) => (mkAdmin p (ad_logs w) (ad_draws w), Err (ADB e))
           end.

Definition on_logs {B} (m : SE LC db_error B) : M B :=
  fun w => match m (ad_logs w) with
           | (l, Ok b) => (mkAdmin (ad_permissions w) l (ad_draws w), Ok b)
           | (l, Err e) => (mkAdmin (ad_permissions w) l (ad_draws w), Err (ADB e))
           end.

Definition new_id (id : ObjectID) : M ObjectID :=
  if decide (id = NilObjectID)
  then (fun w => (mkAdmin (ad_permissions w) (ad_logs w) (S (ad_draws w)), Ok (NewObjectID (ad_draws w))))
  else sret id.

Definition CreatePermission (permission : option Permission) : M Permission :=
  match permission with
  | None => sfail ANil
  | Some p =>
      let! id := new_id (p_ID p) in
      let p := mkPermission id (p_Key p) (p_Description p) (p_Resource p) (p_Action p) in
      let! _ := on_permissions (InsertOne id p) in
      sret p
  end.

Definition UpdatePermission (permission : option Permission) : M unit :=
  match permission with
  | None => sfail ANil
  | Some p =>
      if decide (p_ID p = NilObjectID) then sfail ANoID else
      let! matched := on_permissions (ReplaceOne (p_ID p) p) in
      if matched then sret tt else sfail ANotFound
  end.

Definition QueryPermissions (opt : option QueryPermissionOptions) : M (list Permission) :=
  match opt with
  | None => sfail ANil
  | Some opt => on_permissions (Find (fun p => one_of (qpm_IDs opt) (p_ID p) && field_one_of (qpm_Keys opt) (p_Key p) &&
                                               field_one_of (qpm_Resources opt) (p_Resource p)))
  end.

Definition CreateAuditLog (now : Z) (log : option AuditLog) : M AuditLog :=
  match log with
  | None => sfail ANil
  | Some l =>
      let! id := new_id (al_ID l) in
      let timestamp := if decide (al_Timestamp l = 0) then now else al_Timestamp l in
      let l := mkAuditLog id (al_UserID l) (al_Action l) (al_RequestID l) timestamp (al_IP l) in
      let! _ := on_logs (InsertOne id l) in
      sret l
  end.

(** A user identifier that is zero is left out of the document. *)
Definition log_user_in (ids : list ObjectID) (id : ObjectID) : bool := bool_decide (ids = [] \/ (id <> NilObjectID /\ id ∈ ids)).

(** The filter on the time; a bound that is not positive asks nothing, and a log without a
    time is not found by a bound. *)
Definition in_window (opt : QueryAuditLogOptions) (timestamp : Z) : bool :=
  if (0 <? qa_TimestampGTE opt) || (0 <? qa_TimestampLTE opt) then
    bool_decide (timestamp <> 0) && (negb (0 <? qa_TimestampGTE opt) || (qa_TimestampGTE opt <=? timestamp)) &&
    (negb (0 <? qa_TimestampLTE opt) || (timestamp <=? qa_TimestampLTE opt))
  else true.

Definition QueryAuditLogs (opt : option QueryAuditLogOptions) : M (list AuditLog) :=
  match opt with
  | None => sfail ANil
  | Some opt => on_logs (Find (fun l => log_user_in (qa_UserIDs opt) (al_UserID l) && in_window opt (al_Timestamp l)))
  end.

(** [Service.ListAuditLogs] *)
Definition ListAuditLogs (opt : QueryAuditLogOptions) : M (list AuditLog) := sfail ANotImplemented.
End admin.

(** ** service/svc.go *)

Inductive key_error := KNoPEM | KParse | KNotRSA.

Section start.
  Context {U R : Type} `{Collection U User} `{Collection R Role} {A : Argon2Lib} {K : RSALib}.
  Variable NewObjectID : nat -> ObjectID.
  Variable random_salt : nat -> option (list Z).

Definition initRSAPrivateKey (pemStr : string) : result key_error PrivateKey :=
  match pem_Decode pemStr with
  | None => Err KNoPEM
  | Some block =>
      match ParsePKCS1PrivateKey block with
      | Some key => Ok key
      | None =>
          match ParsePKCS8PrivateKey block with
          | None => Err KParse
          | Some None => Err KNotRSA
          | Some (Some key) => Ok key
          end
      end
  end.

Inductive start_error := SKey (e : key_error) | SAdmin (e : auth_error).

(** [NewService]: the key, and the administrator of the configuration. *)
Definition NewService (now : Z) (RsaPrivateKeyPem AdminEmail AdminPassword : string) : SE (rbac U R) start_error PrivateKey :=
  match initRSAPrivateKey RsaPrivateKeyPem with
  | Err e => sfail (SKey e)
  | Ok key =>
      let! _ := swrap SAdmin (CreateAdminUserIfNotExists NewObjectID random_salt now AdminEmail AdminPassword) in
      sret key
  end.
End start.

(** ** Users *)

(** How a password is kept: not at all when it is empty, else as it is encoded. *)
Definition kept_as {A : Argon2Lib} (password stored : string) : Prop :=
  if decide (password = "") then stored = "" else exists salt, MarshalBSONValue defaultArgon2idParams salt password = Ok stored.

Section user_proofs.
  Context {U R : Type} `{CollectionLaws U User} `{CollectionLaws R Role} {A : Argon2Lib} {J : JWTLib}.
  Variable ObjectIDFromHex : string -> option ObjectID.
  Variable NewObjectID : nat -> ObjectID.
  Variable random_salt : nat -> option (list Z).
  Variable xid : nat -> string.

Notation world := (rbac U R).
Notation stored w := (docs (rb_users w)).

Lemma encode_exact u (w w1 : world) doc : encode_user random_salt u w = (w1, Ok doc) ->
  stored w1 = stored w /\ docs (rb_roles w1) = docs (rb_roles w) /\
  exists p, kept_as (u_Password u) p /\ doc = set_user_password p u.
Proof.
  unfold encode_user, kept_as. case_decide as Hp.
  - intros [= <- <-]. split_and!; [done..|]. exists "". split; [done|]. destruct u. cbn in *. by subst.
  - unfold sbind, draw. destruct (MarshalBSONValue _ _ _) as [p|e] eqn:E; [|done]. intros [= <- <-]. split_and!; [done..|]. eauto.
Qed.

(** A creation that succeeded. *)
Lemma repo_create_user now user (w w' : world) u :
  RBACRepo.CreateUser NewObjectID random_salt now (Some user) w = (w', Ok u) ->
  exists p, kept_as (u_Password user) p /\
    u = set_user_base (stamp_new now (u_ID u) (u_Base user)) user /\ stored w !! u_ID u = None /\
    stored w' = <[u_ID u := set_user_password p u]> (stored w) /\ docs (rb_roles w') = docs (rb_roles w).
Proof.
  unfold RBACRepo.CreateUser, sbind. pose proof (fresh_id_spec NewObjectID (u_ID user) w) as Hf.
  destruct (fresh_id NewObjectID (u_ID user) w) as [w1 [id|e]]; destruct Hf as (Hst & Hro & _); [|done].
  set (user' := set_user_base (stamp_new now id (u_Base user)) user).
  destruct (encode_user random_salt user' w1) as [w2 [doc|e]] eqn:Ee; [|done].
  apply encode_exact in Ee as (Hst2 & Hro2 & p & Hp & ->). unfold on_users.
  pose proof (insert_law id (set_user_password p user') (rb_users w2)) as Hi. rewrite Hst2, Hst in Hi.
  destruct (InsertOne id _ (rb_users w2)) as [k [[]|e]]; [|done]. intros [= <- <-]. cbn [rb_users rb_roles].
  exists p. destruct Hi as [Hi1 Hi2]. split_and!; [done|done|done|done|]. by rewrite Hro2.
Qed.

(** Remark (functional): a user that was created is a new record, owned by the operator, with
    the name asked for, the password encoded, and the duty to change it. *)
Theorem created_user_stored now op user (w w' : world) u :
  CreateUser ObjectIDFromHex NewObjectID random_salt now op user w = (w', Ok u) ->
  exists operatorID p, ObjectIDFromHex (cl_UID op) = Some operatorID /\ kept_as (u_Password user) p /\
    let doc := set_user_password p u in
    stored w !! u_ID u = None /\ stored w' = <[u_ID u := doc]> (stored w) /\
    u_UserName doc = u_UserName user /\ u_Roles doc = u_Roles user /\ be_CreatorID (u_Base doc) = operatorID /\ need_change doc = true.
Proof.
  unfold CreateUser, object_id, sbind at 1. destruct (ObjectIDFromHex (cl_UID op)) as [oid|]; [|done]. unfold sret at 1.
  intros (p & Hp & Hu & Hn & Hst & _)%repo_create_user. exists oid, p. cbn zeta. split_and!; [done..|by rewrite Hu|by rewrite Hu|by rewrite Hu|by rewrite Hu].
Qed.

(** A deletion that succeeded. *)
Lemma delete_run now op userID (w w' : world) :
  DeleteUser ObjectIDFromHex random_salt now op userID w = (w', Ok tt) ->
  exists operatorID, ObjectIDFromHex (cl_UID op) = Some operatorID /\ is_Some (stored w !! userID) /\
    stored w' = <[userID := deleted_user now userID operatorID]> (stored w) /\ docs (rb_roles w') = docs (rb_roles w).
Proof.
  unfold DeleteUser, object_id, sbind at 1. destruct (ObjectIDFromHex (cl_UID op)) as [oid|]; [|done]. unfold sret at 1.
  unfold RBACRepo.UpdateUser. case_decide; [done|]. unfold encode_user. rewrite decide_True by done. unfold sbind, sret at 1, on_users.
  set (d := set_user_base _ _). change d with (deleted_user now userID oid). change (u_ID (deleted_user now userID oid)) with userID.
  pose proof (replace_law userID (deleted_user now userID oid) (rb_users w)) as Hr.
  destruct (ReplaceOne userID _ (rb_users w)) as [k [[|]|e]]; [|done|done]. intros [= <-]. destruct Hr. by exists oid.
Qed.

Lemma deleted_keyed now userID oid (w w' : world) :
  keyed_users w -> stored w' = <[userID := deleted_user now userID oid]> (stored w) -> keyed_users w'.
Proof. intros Hk E id u. rewrite E, lookup_insert_Some. intros [[<- <-]|[_ ?]]; [done|by apply Hk]. Qed.

(** Remark (safety): deleting a user that exists empties the record and touches no other.  From
    then on no token of the user grants a permission and none is refreshed, whatever its
    claims; only where no permission is asked for, and for the change of the own
    password, an access token is let through as before if the user had never logged out
    everywhere, for the version in the emptied record is 0. *)
Theorem deleted_user_locked_out now op userID (w w' : world) :
  keyed_users w -> DeleteUser ObjectIDFromHex random_salt now op userID w = (w', Ok tt) ->
  (exists doc, stored w' = <[userID := doc]> (stored w) /\ u_UserName doc = "" /\ u_Password doc = "" /\ u_Roles doc = []) /\
  forall now' token c, ParseWithClaims now' token = Some c -> ObjectIDFromHex (cl_UID c) = Some userID ->
    (forall key, key <> "" -> key <> ChangeOwnPassword -> is_ok (VerifyJWTToken ObjectIDFromHex now' token key w').2 = false) /\
    is_ok (RefreshToken ObjectIDFromHex random_salt xid now' token w').2 = false /\
    (granted ObjectIDFromHex now' token ChangeOwnPassword w' c no_policy <-> cl_TokenType c = "access" /\ cl_TokenVersion c = 0).
Proof.
  intros Hk (oid & _ & _ & Hst & _)%delete_run. split; [by eexists|]. intros now' token c Hc Hid.
  pose proof (deleted_keyed _ _ _ _ _ Hk Hst) as Hk'.
  assert (stored w' !! userID = Some (deleted_user now userID oid)) as Hdoc by (rewrite Hst; apply lookup_insert_eq). split_and!.
  - intros key Hne Hne2. pose proof (verify_token_granted ObjectIDFromHex now' token key w' Hk') as Hv.
    destruct (VerifyJWTToken _ _ _ _ _) as [w2 [[c' p]|e]]; [|done]. exfalso.
    destruct Hv as (_ & Hc' & _ & _ & uid & u & Hi & Hu & _ & Hg). rewrite decide_False in Hg by naive_solver.
    assert (c' = c) as -> by congruence. assert (uid = userID) as -> by congruence. rewrite Hdoc in Hu. injection Hu as <-.
    destruct Hg as (rid & role & _ & [_ Hrole] & _). by apply not_elem_of_nil in Hrole.
  - assert (is_ok (refresh_check ObjectIDFromHex now' token w').2 = false) as Hr.
    { unfold refresh_check, parseAndValidateToken, object_id, sbind, sret. rewrite Hc. cbv beta iota. case_decide; [done|]. case_decide; [done|].
      rewrite Hid. cbv beta iota. pose proof (getUserByID_spec userID w' Hk') as Hg. destruct (getUserByID userID w') as [w1 [u|e]]; [|done].
      destruct Hg as [_ Hu]. rewrite Hdoc in Hu. injection Hu as <-. by case_decide. }
    unfold RefreshToken, sbind. by destruct (refresh_check _ _ _ _) as [w1 [u|e]].
  - unfold granted. split.
    + intros (_ & Ht & _ & uid & u & Hi & Hu & Hv & _). assert (uid = userID) as -> by congruence. rewrite Hdoc in Hu. injection Hu as <-. done.
    + intros [Ht Hv]. split_and!; [done|done|by left|]. exists userID, (deleted_user now userID oid). split_and!; [done|done|done|].
      by rewrite decide_True by by right.
Qed.
End user_proofs.

(** ** The audit log *)

(** What a query asks for. *)
Definition asked (opt : QueryAuditLogOptions) (l : AuditLog) : Prop :=
  (qa_UserIDs opt = [] \/ (al_UserID l <> NilObjectID /\ al_UserID l ∈ qa_UserIDs opt)) /\
  (0 < qa_TimestampGTE opt -> al_Timestamp l <> 0 /\ qa_TimestampGTE opt <= al_Timestamp l) /\
  (0 < qa_TimestampLTE opt -> al_Timestamp l <> 0 /\ al_Timestamp l <= qa_TimestampLTE opt).

Lemma asked_filter opt l : log_user_in (qa_UserIDs opt) (al_UserID l) && in_window opt (al_Timestamp l) = true <-> asked opt l.
Proof.
  unfold log_user_in, in_window, asked. rewrite andb_true_iff, bool_decide_eq_true. apply Morphisms_Prop.and_iff_morphism; [done|].
  destruct (Z.ltb_spec 0 (qa_TimestampGTE opt)), (Z.ltb_spec 0 (qa_TimestampLTE opt)); cbn [orb negb];
    rewrite ?andb_true_iff, ?bool_decide_eq_true, ?Z.leb_le; [naive_solver lia..|]. split; [lia|done].
Qed.

Section audit_proofs.
  Context {PC LC : Type} `{Collection PC Permission} `{CollectionLaws LC AuditLog}.
  Variable NewObjectID : nat -> ObjectID.

Notation logs w := (docs (ad_logs w)).

Lemma new_id_spec id0 (w : admin_db PC LC) :
  exists id d, new_id NewObjectID id0 w = (mkAdmin (ad_permissions w) (ad_logs w) d, Ok id).
Proof. unfold new_id. case_decide; [eauto|]. exists id0, (ad_draws w). by destruct w. Qed.

(** Remark (functional): what was logged is kept under a new identifier, with the time of the
    call if it came without one, beside everything logged before; and a query returns
    exactly the entries of the users and the time it asks for. *)
Theorem audit_logged_is_found now log (w w1 : admin_db PC LC) l :
  CreateAuditLog NewObjectID now (Some log) w = (w1, Ok l) ->
  al_Timestamp l = (if decide (al_Timestamp log = 0) then now else al_Timestamp log) /\
  logs w !! al_ID l = None /\ logs w1 = <[al_ID l := l]> (logs w) /\
  forall opt w2 found, QueryAuditLogs (Some opt) w1 = (w2, Ok found) ->
    logs w2 = logs w1 /\ (forall x, x ∈ found <-> (exists id, logs w1 !! id = Some x) /\ asked opt x) /\ (l ∈ found <-> asked opt l).
Proof.
  unfold CreateAuditLog, sbind. destruct (new_id_spec (al_ID log) w) as (id & d & ->). set (e := mkAuditLog id _ _ _ _ _). unfold on_logs, sret. cbn [ad_logs]. intros Hins.
  pose proof (insert_law id e (ad_logs w)) as Hi. destruct (InsertOne id e (ad_logs w)) as [k [[]|x]]; [|done]. injection Hins as <- <-.
  destruct Hi as [Hn Hk]. cbn [ad_logs al_ID]. split_and!; [done..|]. intros opt w2 found Hq.
  unfold QueryAuditLogs, on_logs in Hq. cbn [ad_logs] in Hq. match type of Hq with context [Find ?f] => destruct (find_law f k) as [Hd Hl]; destruct (Find f k) as [k2 [res|x]] end; [|done].
  injection Hq as <- <-. cbn [ad_logs fst snd] in *. specialize (Hl _ eq_refl). setoid_rewrite asked_filter in Hl.
  split_and!; [done|exact Hl|]. rewrite Hl. split; [by intros [_ ?]|]. intros Ha. split; [|done]. exists id. rewrite Hk. apply lookup_insert_eq.
Qed.
End audit_proofs.

(** ** The start of the service *)

Section start_proofs.
  Context {U R : Type} `{CollectionLaws U User} `{CollectionLaws R Role} {A : Argon2Lib} {K : RSALib}.
  Variable NewObjectID : nat -> ObjectID.
  Variable random_salt : nat -> option (list Z).

Notation world := (rbac U R).
Notation stored w := (docs (rb_users w)).

Lemma query_name name (w : world) : let '(w', r) := QueryUsers (Some (mkQueryUsers [] [name])) w in
  same_data w w' /\
  match r with
  | Ok l => forall u, u ∈ l <-> (exists id, stored w !! id = Some u) /\ name <> "" /\ u_UserName u = name
  | Err _ => True
  end.
Proof.
  unfold QueryUsers. cbn [qu_IDs qu_UserNames].
  match goal with |- context [on_users (Find ?f) w] => pose proof (find_users_spec f w) as Hf; destruct (on_users (Find f) w) as [w' [l|e]] end;
    destruct Hf as [Hs Hl]; (split; [done|]); [|done].
  intros u. rewrite Hl. unfold one_of, field_one_of. rewrite andb_true_iff, !bool_decide_eq_true, list_elem_of_singleton. naive_solver.
Qed.

(** After the administrator was looked for or made, there is a user of that name. *)
Lemma admin_exists now name password (w w' : world) :
  name <> "" -> CreateAdminUserIfNotExists NewObjectID random_salt now name password w = (w', Ok tt) ->
  exists id u, stored w' !! id = Some u /\ u_UserName u = name.
Proof.
  intros Hname. unfold CreateAdminUserIfNotExists, sbind at 1. pose proof (query_name name w) as Hq.
  destruct (QueryUsers _ w) as [w1 [l|e]]; [|done]. destruct Hq as [(Hst & _) Hl]. destruct l as [|u l].
  - unfold sbind at 1. destruct (QueryRoles _ w1) as [w2 [roles|e]]; [|done]. destruct roles as [|r rs]; [done|]. unfold sbind.
    destruct (RBACRepo.CreateUser _ _ _ _ w2) as [w3 [u|e]] eqn:Ec; [|done]. intros [= <-].
    apply repo_create_user in Ec as (p & _ & Hu & _ & Hs & _). exists (u_ID u), (set_user_password p u). rewrite Hs.
    split; [apply lookup_insert_eq|]. by rewrite Hu.
  - intros [= <-]. destruct (proj1 (Hl u) ltac:(by left)) as [[id Hid] [_ Hn]]. exists id, u. by rewrite Hst.
Qed.

(** Remark (functional): a service that is started again finds its administrator and changes no
    account, whatever password the configuration then has; the first key decides.  An
    administrator without a name is not found again. *)
Theorem start_is_idempotent now now' pem name password password' key (w w1 : world) :
  name <> "" -> NewService NewObjectID random_salt now pem name password w = (w1, Ok key) ->
  let '(w2, r) := NewService NewObjectID random_salt now' pem name password' w1 in
  same_data w1 w2 /\ match r with Ok key' => key' = key | Err e => exists x, e = SAdmin (ADB x) end.
Proof.
  intros Hname. unfold NewService. destruct (initRSAPrivateKey pem) as [k|e]; [|done]. unfold sbind at 1, swrap at 1.
  destruct (CreateAdminUserIfNotExists _ _ now name password w) as [w1' [[]|e]] eqn:E1; [|done]. intros [= <- <-].
  destruct (admin_exists _ _ _ _ _ Hname E1) as (id & u & Hu & Hn).
  unfold sbind, swrap, CreateAdminUserIfNotExists, sbind. pose proof (query_name name w1') as Hq.
  destruct (QueryUsers (Some (mkQueryUsers [] [name])) w1') as [w2 [l|e]] eqn:Eq; destruct Hq as [Hs Hl].
  - destruct l as [|x l]; [|done]. exfalso. apply (not_elem_of_nil u). apply Hl. eauto.
  - split; [done|]. unfold QueryUsers, on_users in Eq. destruct (Find _ _) as [k2 [?|x]]; [done|]. injection Eq as _ <-. eauto.
Qed.
End start_proofs.

(** ** Witnesses *)

#[local] Existing Instance front_key.

Definition bob : User := mkUser (mkBase NilObjectID 0 0 0 NilObjectID NilObjectID) "bob" "" 1 ["reader"] [] 0 [].
Definition bob_created : toy_db * result auth_error User := CreateUser toy_hex toy_id toy_salt 5000 ann bob (mkRBAC (rb_users toy_world) (rb_roles toy_world) 7).

Lemma created_user_stored_witness : exists u, bob_created.2 = Ok u /\ docs (rb_users bob_created.1) !! u_ID u = Some u /\ need_change u = true.
Proof.
  destruct (ok_outcome bob_created) as [u Hu]; [vm_compute; reflexivity|]. exists u. split; [by rewrite Hu|].
  destruct (created_user_stored _ _ _ _ _ _ _ _ _ Hu) as (oid & p & _ & Hp & _ & Hst & _ & _ & _ & Hn).
  split; [|exact Hn]. rewrite Hst, lookup_insert_eq. f_equal. unfold kept_as in Hp. rewrite decide_True in Hp by done. subst p.
  clear Hst Hn. vm_compute in Hu. injection Hu as <-. reflexivity.
Defined.

Definition ann_deleted : toy_db * result auth_error unit := DeleteUser toy_hex toy_salt 6000 ann (toy_id 0) logged_in.

(** The user has just logged in: the refresh token is refused, and so is the access token for
    what needs a permission, but not for the change of the password. *)
Lemma deleted_user_locked_out_witness :
  is_ok (RefreshToken toy_hex toy_salt toy_xid 7000 toy_token ann_deleted.1).2 = false /\
  is_ok (VerifyJWTToken toy_hex 7000 toy_access "schedule_strategy.read" ann_deleted.1).2 = false /\
  is_ok (VerifyJWTToken toy_hex 7000 toy_access ChangeOwnPassword ann_deleted.1).2 = true.
Proof.
  destruct (ok_outcome ann_deleted ltac:(vm_compute; reflexivity)) as [[] Hd].
  destruct (deleted_user_locked_out toy_hex toy_salt toy_xid 6000 ann (toy_id 0) logged_in ann_deleted.1 (proj1 logged_in_ok) Hd) as [_ Hall].
  split_and!; [| |vm_compute; reflexivity].
  - destruct (Hall 7000 toy_token (token_claims_of toy_token)) as (_ & Hr & _); [vm_compute; reflexivity..|exact Hr].
  - destruct (Hall 7000 toy_access (token_claims_of toy_access)) as (Hv & _); [vm_compute; reflexivity..|by apply Hv].
Defined.

Definition empty_log : admin_db (gmap ObjectID Permission) (gmap ObjectID AuditLog) := mkAdmin ∅ ∅ 0.
Definition first_log : AuditLog := mkAuditLog NilObjectID (toy_id 0) "login" "r1" 0 "10.0.0.9".

Definition first_logged : admin_db (gmap ObjectID Permission) (gmap ObjectID AuditLog) * result auth_error AuditLog :=
  CreateAuditLog toy_id 4000 (Some first_log) empty_log.

Lemma audit_logged_is_found_witness :
  exists l, first_logged.2 = Ok l /\ al_Timestamp l = 4000 /\
    (QueryAuditLogs (Some (mkQueryAuditLogs 3000 0 [toy_id 0])) first_logged.1).2 = Ok [l].
Proof.
  destruct (ok_outcome first_logged) as [l Hl]; [vm_compute; reflexivity|].
  destruct (audit_logged_is_found toy_id 4000 first_log empty_log _ l Hl) as (Ht & _). exists l.
  split; [by rewrite Hl|]. split; [exact Ht|]. vm_compute in Hl. injection Hl as <-. vm_compute. reflexivity.
Defined.

Definition no_users : toy_db := mkRBAC ∅ {[toy_id 1 := mkRole (mkBase (toy_id 1) 1 1 0 (toy_id 0) (toy_id 0)) "admin" "" []]} 5.
Definition started : toy_db * result start_error (PrivateKey (RSALib := named_keys)) := NewService toy_id toy_salt 1000 "pem" "root" "" no_users.

Lemma start_is_idempotent_witness :
  docs (rb_users (NewService (K := named_keys) toy_id toy_salt 2000 "pem" "root" "" started.1).1) = docs (rb_users started.1) /\
  size (docs (rb_users started.1)) = 1%nat.
Proof.
  split; [|vm_compute; reflexivity]. destruct (ok_outcome started) as [key Hk]; [vm_compute; reflexivity|].
  pose proof (start_is_idempotent (K := named_keys) toy_id toy_salt 1000 2000 "pem" "root" "" "" key no_users _ ltac:(done) Hk) as Hi.
  destruct (NewService _ _ 2000 _ _ _ _) as [w2 r]. apply Hi.
Defined.
