(* ===== verification/ManagerApp.v ===== *)
(** * The background loops of the manager: api/manager/app/rest_app.go

    Two goroutines are started with the application: one reconciles the intents every thirty
    seconds, the other feeds the values of the pods to the classifier every ten.  Both wait
    once, act, and then act at the ticks of a ticker until the application is stopped.  A
    ticker keeps at most one tick for a receiver that is late.  The loop is a step relation
    over time, the closing of its channel and the changes other goroutines make to the
    state in between; of two cases of a [select] that are ready, either may be taken.

    The theorems: a loop acts at most once per interval and never before its first wait
    ([loop_rate_bounded]); once it has left it does nothing more ([loop_stopped_for_good]), and
    until then it acts as soon as it is due ([loop_acts_when_due]); and every round of the
    reconciler that finds the store and the decision makers working brings them in step
    ([reconciler_rounds]). *)

From stdpp Require Import base gmap strings list relations.
From Stdlib Require Import ZArith Lia.
From S2P Require Import Prelude GoStrings Intents ManagerDomain KubeStore CRRepo CRNodeRepo DecisionMaker Manager Reconcile RuntimeSvc ReconcileAll PSM Clustering Classifier.
#[local] Open Scope Z_scope.

(** ** Times, in milliseconds *)

Definition reconcileInterval : Z := 30 * 1000.
Definition reconcileInitialWait : Z := 5 * 1000.
Definition classifierFeedInterval : Z := 10 * 1000.
Definition classifierFeedInitialWait : Z := 10 * 1000.

(** ** A loop *)

(** Where the goroutine is: not started, waiting for the first time, at the [select] with the
    time of the next tick, gone. *)
Inductive place := NotStarted | Waiting (due : Z) | Ticking (next : Z) | Gone.

(** What one pass did: when, and the state before and after. *)
Record pass (W : Type) := mkPass { ps_time : Z; ps_before : W; ps_after : W }.
Arguments mkPass {W}.
Arguments ps_time {W}.
Arguments ps_before {W}.
Arguments ps_after {W}.

Record loop (W : Type) := mkLoop { lp_now : Z; lp_closed : bool; lp_place : place; lp_state : W; lp_passes : list (pass W) }.
Arguments mkLoop {W}.
Arguments lp_now {W}.
Arguments lp_closed {W}.
Arguments lp_place {W}.
Arguments lp_state {W}.
Arguments lp_passes {W}.

Section loop.
  Context {W : Type}.
  Variables (initialWait interval : Z) (action : Z -> W -> W).

(** The tick after the one that is taken: those that found the channel full are lost. *)
Definition next_tick (next now : Z) : Z := next + interval * (1 + (now - next) / interval).

Definition act (where_next : place) (l : loop W) : loop W :=
  let after := action (lp_now l) (lp_state l) in
  mkLoop (lp_now l) (lp_closed l) where_next after (lp_passes l ++ [mkPass (lp_now l) (lp_state l) after]).

Definition goto (p : place) (l : loop W) : loop W := mkLoop (lp_now l) (lp_closed l) p (lp_state l) (lp_passes l).

Inductive loop_step : loop W -> loop W -> Prop :=
| LTime l d : 0 < d -> loop_step l (mkLoop (lp_now l + d) (lp_closed l) (lp_place l) (lp_state l) (lp_passes l))
| LOther l w : loop_step l (mkLoop (lp_now l) (lp_closed l) (lp_place l) w (lp_passes l))
| LOnStart l : lp_place l = NotStarted -> loop_step l (goto (Waiting (lp_now l + initialWait)) l)
| LFirst l due : lp_place l = Waiting due -> due <= lp_now l -> loop_step l (act (Ticking (lp_now l + interval)) l)
| LTick l next : lp_place l = Ticking next -> next <= lp_now l -> loop_step l (act (Ticking (next_tick next (lp_now l))) l)
| LOnStop l : loop_step l (mkLoop (lp_now l) true (lp_place l) (lp_state l) (lp_passes l))
| LReturn l p : lp_closed l = true -> lp_place l = p -> p <> NotStarted -> p <> Gone -> loop_step l (goto Gone l).

Definition loop_init (t : Z) (w : W) : loop W := mkLoop t false NotStarted w [].

(** ** Invariants *)

Hypothesis interval_pos : 0 < interval.

Lemma next_tick_spec next now : next <= now -> now < next_tick next now <= now + interval /\ exists k, 1 <= k /\ next_tick next now = next + interval * k.
Proof.
  intros Hn. unfold next_tick. pose proof (Z.div_mod (now - next) interval ltac:(lia)) as Hd.
  pose proof (Z.mod_pos_bound (now - next) interval interval_pos) as Hm. pose proof (Z.div_pos (now - next) interval ltac:(lia) interval_pos) as Hp.
  split; [nia|]. exists (1 + (now - next) / interval). lia.
Qed.

(** Where the next pass can be, after some passes of a loop that began at [t0]. *)
Definition loop_inv (t0 : Z) (l : loop W) : Prop :=
  t0 <= lp_now l /\
  Forall (fun p => ps_after p = action (ps_time p) (ps_before p) /\ t0 + initialWait <= ps_time p <= lp_now l) (lp_passes l) /\
  let n := Z.of_nat (length (lp_passes l)) in
  match lp_place l with
  | NotStarted => n = 0
  | Waiting due => n = 0 /\ t0 + initialWait <= due
  | Ticking next => 1 <= n /\ t0 + initialWait + interval * n <= next <= lp_now l + interval
  | Gone => n = 0 \/ t0 + initialWait + interval * (n - 1) <= lp_now l
  end.

Lemma loop_inv_step t0 l l' : loop_inv t0 l -> loop_step l l' -> loop_inv t0 l'.
Proof.
  intros (Ht & Hf & Hp) Hs. unfold loop_inv.
  assert (forall d, 0 <= d -> Forall (fun p => ps_after p = action (ps_time p) (ps_before p) /\ t0 + initialWait <= ps_time p <= lp_now l + d) (lp_passes l)) as Hlater.
  { intros d Hd. eapply Forall_impl; [exact Hf|]. intros p [? ?]. split; [done|lia]. }
  assert (forall p, t0 + initialWait <= lp_now l -> Forall (fun p => ps_after p = action (ps_time p) (ps_before p) /\ t0 + initialWait <= ps_time p <= lp_now l)
    (lp_passes (act p l))) as Hact.
  { intros p Hle. apply Forall_app. split; [done|]. apply Forall_singleton. cbn. split; [done|lia]. }
  destruct Hs as [l d Hd|l w|l Hpl|l due Hpl Hdue|l next Hpl Hnext|l|l p Hc Hpl Hn1 Hn2]; cbn [lp_now lp_passes lp_place goto act] in *.
  - split; [lia|]. split; [apply Hlater; lia|]. destruct (lp_place l); cbn zeta in *; lia.
  - done.
  - rewrite Hpl in Hp. cbn zeta in *. split_and!; [done..|lia].
  - rewrite Hpl in Hp. destruct Hp as [Hn Hd]. split; [done|]. split; [apply Hact with (p := Gone); lia|].
    cbn zeta. rewrite length_app. cbn [length]. lia.
  - rewrite Hpl in Hp. destruct Hp as (Hn & Hlo & Hhi). pose proof (next_tick_spec next (lp_now l) Hnext) as [Hb (k & Hk & Ek)].
    split; [done|]. split; [apply Hact with (p := Gone); nia|]. cbn zeta. rewrite length_app. cbn [length]. rewrite Nat2Z.inj_add. nia.
  - done.
  - split_and!; [done..|]. destruct (lp_place l); cbn zeta in *; [done|lia| |by subst]. right. lia.
Qed.

Lemma loop_inv_reached t0 w l : rtc loop_step (loop_init t0 w) l -> loop_inv t0 l.
Proof.
  intros Hr. remember (loop_init t0 w) as l0 eqn:E. assert (loop_inv t0 l0) as Hi.
  { subst l0. unfold loop_inv. cbn. split_and!; [lia|apply Forall_nil_2|done]. }
  clear E. induction Hr as [|a b c Hab _ IH]; [done|]. eapply IH, loop_inv_step; eassumption.
Qed.

(** Remark (bounds): whatever else happens, a loop that is started after [t0] has at a time
    [t] made at most one pass plus one for every interval since the end of its first wait,
    none of them before that; and every pass was the action on the state it found. *)
Theorem loop_rate_bounded t0 w l : rtc loop_step (loop_init t0 w) l ->
  Forall (fun p => ps_after p = action (ps_time p) (ps_before p) /\ t0 + initialWait <= ps_time p <= lp_now l) (lp_passes l) /\
  (lp_passes l = [] \/ Z.of_nat (length (lp_passes l)) <= 1 + (lp_now l - t0 - initialWait) / interval).
Proof.
  intros Hr. destruct (loop_inv_reached _ _ _ Hr) as (_ & Hf & Hp). split; [exact Hf|].
  destruct (lp_passes l) as [|p ps]; [by left|]. right. cbn zeta in Hp. set (n := Z.of_nat (length (p :: ps))) in *.
  assert (0 < n) by (subst n; cbn [length]; lia).
  assert (interval * (n - 1) <= lp_now l - t0 - initialWait) as Hle by (destruct (lp_place l); lia).
  assert (n - 1 <= (lp_now l - t0 - initialWait) / interval); [|lia]. apply Z.div_le_lower_bound; lia.
Qed.

(** Remark (safety): a loop that has left does not come back. *)
Theorem loop_stopped_for_good l l' : lp_place l = Gone -> rtc loop_step l l' -> lp_place l' = Gone /\ lp_passes l' = lp_passes l.
Proof.
  intros Hg Hr. revert Hg. induction Hr as [l|a b c Hab _ IH]; intros Hg; [done|].
  assert (lp_place b = Gone /\ lp_passes b = lp_passes a) as [Hb Hp].
  { inversion Hab; subst; cbn [lp_place lp_passes goto act] in *; split; congruence. }
  rewrite <- Hp. by apply IH.
Qed.

(** Remark (liveness): a loop that waits or ticks can at any time go on to its next pass, at the
    time it is due or at once if that has passed, on the state as it is; and once its
    channel is closed it can leave instead. *)
Theorem loop_acts_when_due l due : lp_place l = Waiting due \/ lp_place l = Ticking due ->
  (exists l', rtc loop_step l l' /\ lp_now l' = Z.max (lp_now l) due /\
     lp_passes l' = lp_passes l ++ [mkPass (lp_now l') (lp_state l) (action (lp_now l') (lp_state l))]) /\
  (lp_closed l = true -> exists l', loop_step l l' /\ lp_place l' = Gone).
Proof.
  intros Hpl. split.
  - set (t := Z.max (lp_now l) due). set (l1 := mkLoop t (lp_closed l) (lp_place l) (lp_state l) (lp_passes l)).
    assert (rtc loop_step l l1) as H1.
    { destruct (decide (lp_now l < due)) as [Hlt|Hge].
      - apply rtc_once. subst l1 t. replace (Z.max (lp_now l) due) with (lp_now l + (due - lp_now l)) by lia. apply LTime. lia.
      - subst l1 t. replace (Z.max (lp_now l) due) with (lp_now l) by lia. by destruct l. }
    destruct Hpl as [Hpl|Hpl].
    + exists (act (Ticking (t + interval)) l1). split; [|done]. eapply rtc_r; [exact H1|]. apply (LFirst l1 due); [done|]. cbn. lia.
    + exists (act (Ticking (next_tick due t)) l1). split; [|done]. eapply rtc_r; [exact H1|]. apply (LTick l1 due); [done|]. cbn. lia.
  - intros Hc. exists (goto Gone l). split; [|done]. eapply LReturn; [done|reflexivity|..]; destruct Hpl as [-> | ->]; done.
Qed.
End loop.

(** ** The two loops *)

Section reconciler.
  Context {K F D : Type} {KA : KubeAPI K} {KL : KubeLaws K} {KU : KubeUp K} {FD : RuntimeDM F} {CD : ConfigCollection D}.
  Variable ObjectIDFromHex : string -> option ObjectID.
  Variable crNamespace : string.
  Variable NewObjectID : nat -> ObjectID.
  Variable range : list string -> list string.
  (** What the cluster answers in the pass at a time. *)
  Variable k8s : Z -> option K8SAdapter.

(** [svc.ReconcileIntents]; an error is logged. *)
Definition reconcile_pass (now : Z) (st : mgr_state K F D) : mgr_state K F D :=
  (ReconcileIntents ObjectIDFromHex crNamespace NewObjectID range now (k8s now) st).1.

(** [StartIntentReconciler] *)
Definition reconciler_step : relation (loop (mgr_state K F D)) := loop_step reconcileInitialWait reconcileInterval reconcile_pass.

(** Remark (liveness): every pass of the reconciler that finds the store, the cluster and the
    decision makers working leaves every strategy with intents for exactly its pods and
    every decision maker that is online with the intents stored for its node; so does, within
    five seconds of the start of the manager, the first. *)
Theorem reconciler_rounds t0 st0 l :
  rtc reconciler_step (loop_init t0 st0) l -> forall p, p ∈ lp_passes l -> t0 + reconcileInitialWait <= ps_time p /\
  forall adapter supply most pods_of dms, k8s (ps_time p) = Some adapter ->
  round_ready ObjectIDFromHex crNamespace NewObjectID adapter (ps_time p) supply most pods_of dms (ms_world (ps_before p)) ->
  round_done ObjectIDFromHex crNamespace pods_of dms (ms_world (ps_before p)) (ms_world (ps_after p)).
Proof.
  intros Hr p Hp. assert (loop_inv reconcileInitialWait reconcileInterval reconcile_pass t0 l) as (_ & Hf & _) by (by eapply loop_inv_reached).
  rewrite Forall_forall in Hf. destruct (Hf p Hp) as [Ha Ht]. split; [lia|]. intros adapter supply most pods_of dms Hk Hready.
  rewrite Ha. unfold reconcile_pass. rewrite Hk.
  destruct (reconcile_run ObjectIDFromHex crNamespace NewObjectID range adapter (ps_time p) supply most pods_of dms (ps_before p) Hready) as (st' & -> & Hd).
  exact Hd.
Qed.
End reconciler.

Section feeder.
  Variable range : gmap string PodSchedulingMetricValue -> list (string * PodSchedulingMetricValue).
  Variable podRange : gmap string podState -> list (string * podState).
  (** What the cluster and the decision makers answer in the pass at a time. *)
  Variable k8s : Z -> K8SAdapter.
  Variable answer : Z -> DecisionMakerPod -> option (list (option PodSchedulingMetricValue)).

(** [feed]; the classifier takes times in seconds. *)
Definition feed (now : Z) (c : AdaptiveClassifier) : AdaptiveClassifier :=
  match ListPodSchedulingMetricValues range (k8s now) (answer now) with
  | None => c
  | Some (items, _) => IngestMetricsIntoClassifier podRange (now / 1000) (now / 1000) (Some <$> items) c
  end.

(** [StartClassifierFeeder] *)
Definition feeder_step : relation (loop AdaptiveClassifier) := loop_step classifierFeedInitialWait classifierFeedInterval feed.
End feeder.

(** ** Witnesses *)

Section runs.
  Context {W : Type} (initialWait interval : Z) (action : Z -> W -> W).

(** The first pass, as soon as it is due. *)
Lemma first_pass t0 w : 0 < initialWait ->
  rtc (loop_step initialWait interval action) (loop_init t0 w)
    (act action (Ticking (t0 + initialWait + interval)) (mkLoop (t0 + initialWait) false (Waiting (t0 + initialWait)) w [])).
Proof.
  intros Hw. eapply rtc_l; [by apply LOnStart|]. eapply rtc_l; [by apply (LTime _ _ _ _ initialWait)|].
  eapply rtc_l; [|apply rtc_refl]. apply (LFirst _ _ _ (mkLoop (t0 + initialWait) false (Waiting (t0 + initialWait)) w []) (t0 + initialWait)); [done|]. cbn. lia.
Qed.
End runs.

Definition count (t : Z) (n : nat) : nat := S n.
Definition once : loop nat := act count (Ticking 35000) (mkLoop 5000 false (Waiting 5000) 0%nat []).

(** The second pass is late by a whole interval; one tick is lost. *)
Definition twice : loop nat := act count (Ticking 95000) (mkLoop 66000 false (Ticking 35000) 1%nat (lp_passes once)).

Lemma twice_reached : rtc (loop_step 5000 30000 count) (loop_init 0 0%nat) twice.
Proof.
  set (late := mkLoop 66000 false (Ticking 35000) 1%nat (lp_passes once)).
  assert (rtc (loop_step 5000 30000 count) (loop_init 0 0%nat) once) as H1 by by apply (first_pass 5000 30000 count 0 0%nat).
  assert (loop_step 5000 30000 count once late) as H2 by by apply (LTime 5000 30000 count once 61000).
  assert (loop_step 5000 30000 count late twice) as H3 by by apply (LTick 5000 30000 count late 35000).
  eapply rtc_r; [|exact H3]. by eapply rtc_r.
Qed.

Lemma loop_rate_bounded_witness : length (lp_passes twice) = 2%nat /\ 2 <= 1 + (66000 - 0 - 5000) / 30000.
Proof.
  split; [done|]. destruct (loop_rate_bounded 5000 30000 count ltac:(done) 0 0%nat twice twice_reached) as [_ [?|Hb]]; [done|exact Hb].
Defined.

Lemma loop_stopped_for_good_witness :
  let gone := mkLoop 70000 true Gone 2%nat (lp_passes twice) in
  lp_passes (mkLoop 90000 true Gone 2%nat (lp_passes twice)) = lp_passes gone.
Proof.
  cbn zeta. apply (loop_stopped_for_good 5000 30000 count (mkLoop 70000 true Gone 2%nat (lp_passes twice))); [done|].
  apply rtc_once. by apply (LTime _ _ _ (mkLoop 70000 true Gone 2%nat (lp_passes twice)) 20000).
Defined.

Lemma loop_acts_when_due_witness : exists l', rtc (loop_step 5000 30000 count) once l' /\ lp_now l' = 35000 /\ length (lp_passes l') = 2%nat.
Proof.
  destruct (loop_acts_when_due 5000 30000 count once 35000 ltac:(by right)) as [(l' & Hr & Ht & Hp) _].
  exists l'. split; [exact Hr|]. split; [exact Ht|]. by rewrite Hp.
Defined.

(** A manager that has been restarted, with the intents of a pod that is gone in the store. *)
Lemma reconciler_rounds_witness :
  let step := reconciler_step sample_parse "gthulhu" sample_new_id id (fun _ => Some replaced_k8s) in
  exists l p, rtc step (loop_init 0 restarted) l /\ lp_passes l = [p] /\ ps_time p = 5000 /\
    round_done sample_parse "gthulhu" replaced_pods [sample_dm "n1" "10.0.0.1"] (ms_world restarted) (ms_world (ps_after p)).
Proof.
  cbn zeta. set (action := reconcile_pass sample_parse "gthulhu" sample_new_id id (fun _ => Some replaced_k8s)).
  pose proof (first_pass reconcileInitialWait reconcileInterval action 0 restarted ltac:(done)) as Hrun.
  eexists _, (mkPass 5000 restarted (action 5000 restarted)). split; [exact Hrun|]. split; [done|]. split; [done|].
  destruct (reconciler_rounds sample_parse "gthulhu" sample_new_id id (fun _ => Some replaced_k8s) 0 restarted _ Hrun
    (mkPass 5000 restarted (action 5000 restarted))) as [_ Hd]; [by left|].
  exact (Hd replaced_k8s 5%nat 2%nat replaced_pods [sample_dm "n1" "10.0.0.1"] eq_refl (sample_ready 5000)).
Defined.
